(* ===== verification/_CoqProject ===== *)
-Q . S2P
Prelude.v
JsString.v
JsNumber.v
Segmenter.v
SegmenterSpec.v
JsSort.v
Session.v
Json.v
Store.v
StoreInv.v
StoreSpec.v
Persist.v
Config.v
View.v
App.v
Page.v
Http.v
Old.v
Display.v
