(* ===== verification/Prelude.v ===== *)
(** * A verification development for LMStudio_WebClirent

    The repository is a browser chat client for a local LM Studio server.
    Its logic lives in three TypeScript files:

    - [src/unnamed/part_000] ([markdownTableRenderer.ts]): the function
      [renderMessageContentWithTables], a line-oriented scanner that cuts an
      assistant reply into paragraphs and pipe tables, with the helpers
      [stripInlineMarkdown], [splitMarkdownRow] and [isTableSeparatorLine];
    - [src/src/main.ts]: the application: the session store (module-level
      [sessions], [currentSessionId], [isSending], [settings]), its
      operations ([loadSessions], [saveSessions], [createNewSession],
      [deleteSession], [searchChat], [selectSession], [handleSend]), the
      settings ([loadSettings], [saveSettings], the settings panel), the
      request to the server ([buildApiUrl], [sendToLmStudio]), the views
      ([renderSidebar], [renderHeader], [renderMessages]) and the event
      wiring ([setupEvents], [DOMContentLoaded]);
    - [src/src_old/main.ts]: an earlier copy of [main.ts] without deletion,
      search and tables; the functions it shares with [main.ts] are the
      same text and are modelled once.

    [handleSend] appends to the session object it captured before awaiting
    the server, the views read the store, [renderMessages] passes every
    message to the table renderer, and all state goes through
    [localStorage] under two keys.

    ** Files, in dependency order

    - [Prelude] (this file): the notation scope [jsstr_scope] ([js "..."]
      for ASCII literals, [s ||| d] for JavaScript's [s || d] on strings),
      the result type [result] of fallible handlers, the hint database
      [lmchat], the tactics and the generic lemmas on lists, options and
      decisions that the other files share.
    - [JsString], [JsNumber], [JsSort]: the ECMAScript built-ins the code
      calls, written from the ECMAScript specification on UTF-16 code units
      ([list N]): [trim], [split], [join], [includes], [slice], the global
      [replace] of a regular expression (a [Fixpoint] on fuel, with the
      lemma that the fuel [length s] never runs out), [parseInt],
      [parseFloat] and [Math.min/max], and [Array.prototype.sort] with a
      numeric comparator as a stable insertion sort with the abstract
      specification of a stable sort and the proof that only one list
      meets it.  They are library code, not code of the repository, and
      are not in the map.
    - [Segmenter]: [markdownTableRenderer.ts] line by line.  The DOM
      fragment is the list of its children, [Prose] for a [<p>] and [Table]
      for a table wrapper.  The outer [while] loop is [render_loop] on fuel;
      [render_loop_total] shows that any fuel above the number of lines is
      enough and gives the same result.
    - [SegmenterSpec]: the two-state machine of the specification as a
      relation [blocks] between lines and blocks, the refinement theorem
      [render_refines], and its consequences: a table is rendered exactly
      when a line starts one, and every table comes from the text.
    - [Session]: the interfaces [Message], [ChatSession], [Settings] as
      records, the constants, session ids, and the title rule of
      [handleSend].
    - [Json]: the built-ins [JSON.parse] (a recursive-descent parser on
      fuel, [parse_value]) and [JSON.stringify] ([json_text]), library
      code written from ECMAScript and ECMA-404, with the proofs that the
      fuel [2 * length s + 1] of [json_parse] never runs out
      ([parse_value_fuel]) and that [JSON.parse] reads back what
      [JSON.stringify] writes when its numbers are integers below [10^21]
      ([json_parse_text]).
    - [Store]: the session store.  The array holds locations of an explicit
      heap of session objects, so the session [handleSend] keeps across its
      [await] is shared with the array as in the code, and survives its
      deletion.  [localStorage] is the interface [Storage] (a class with
      [getItem]/[setItem]) with its laws [StorageLaws], implemented by a
      [gmap]; the theorems are proved against the interface.  One
      definition per handler with the guards and early returns of the code;
      [handleSend] is cut at its [await] into [handleSend_start] and
      [handleSend_finish].  Inputs from outside ([Date.now()],
      [Math.random()], the text typed, the number typed at a prompt, the
      server's answer) are arguments.
    - [StoreInv]: the invariant [store_inv] (well-formed heap, non-empty
      array, a current id that names a session of the array, storage equal
      to the array up to order), decidable, established by [loadSessions]
      and kept by every handler.
    - [StoreSpec]: the SessionStore of [spec.md] (§3, §4.1) as an abstract
      state [SpecStore] (a collection up to order and a [currentId]) with
      a step relation [spec_step] ([create], selection, [delete] with its
      three cases, [appendMessage]), [spec_load], the states
      [spec_reachable] from a loaded collection, and the specification's
      own invariant.  The abstraction function [abstract] maps a concrete
      store to the session objects its array refers to and its current id;
      each handler of [Store] is shown to be zero, one or two steps of
      [spec_step] under [abstract] ([deleteSession_refines],
      [handleSend_start_refines], ...).
    - [Persist]: the text under [SESSIONS_KEY]: [sessions_text] is
      [JSON.stringify(sessions)] of [saveSessions] with the keys of each
      object in the order of the literal that creates it, [read_sessions]
      the [try] block of [loadSessions] ([if (raw)], [JSON.parse(raw) as
      ChatSession[]], [catch]).  [saveSessions_text_exact] shows that the
      [Blob] of [Store] is exactly what [JSON.parse] makes of that text;
      [load_branch] follows the code after the [try] on the parsed
      value and shows where it throws.
    - [Config]: settings, the settings panel (with [parseInt]/[parseFloat]
      of [JsNumber]), [buildApiUrl], the model name of the header, and the
      request body of [sendToLmStudio].
    - [View]: what [renderSidebar], [renderHeader] and [renderMessages]
      show.
    - [App]: the page.  An [AppState] is the store, the session a pending
      request answers, the settings and the last time read; [app_step] is
      one event of [setupEvents] (new chat, delete, click, search, send,
      the server's answer, saving settings, picking a model); [reachable]
      is the set of states after a [loadSessions] that did not throw.  The
      send is two events, so every other event can come between a request
      and its answer: this is all the interleaving the single-threaded page
      has.  Its last section lifts the handler refinements of
      [StoreSpec] to whole runs ([run_refines_spec]).
    - [Page]: the page around the store: the menu nodes attached to the
      document (a store by identity, so that [modelDropdownEl] points to
      one of them), [availableModelIds], the settings panel and the status
      texts; [closeModelDropdown], [toggleModelDropdown],
      [closeHeaderMenu], [toggleHeaderMenu], [ensureModelList],
      [testConnection] and the document's listeners.  Each call of
      [ensureModelList] with an empty list is a pending request to
      [/models]; its answer is an event that may come after any other.
      [page_step] runs an event of [App] or a listener of the menus;
      [page_reachable] starts from [DOMContentLoaded].
    - [Http]: the outcome of [sendToLmStudio] ([ServerAnswer]) and of
      the [fetch] of [ensureModelList] ([ModelsResponse]) computed from
      the status and the body text of the response: [res.json()] is
      [json_parse], then the optional chains of the code with their
      defaults and the [TypeError]s they throw.
    - [Old]: the old variant: its own [loadSettings], plain-text
      [renderMessages], [testConnection], [setupEvents] with the status
      texts and [DOMContentLoaded]; its store events run the handlers of [App] because the
      functions they call are the same text.
    - [Display]: what the chat list, the chat title, the model label and
      the messages panel show ([Shown]), and which render function each
      listener calls on each of its branches ([page_renders]);
      [display_step] is a listener of [Page] followed by its render
      calls, over the state it leaves.

    ** What is proved

    - The renderer terminates, refines the specification's state machine
      (whose cut of the lines is unique, so the output is determined by
      it), detects tables exactly as specified, splits rows without loss,
      and behaves as the specification's examples say, with divergences
      (an empty reply gives one empty paragraph; a leading blank line is
      kept; rendering the rendered text again is not idempotent).
    - Every reachable state of the page satisfies the store invariant; at
      most one request is in flight; the session a request answers is not
      touched by any other event and is still allocated when the answer
      comes, even if it was deleted; along any run with a clock that does
      not go back, every session keeps its id and creation time, its
      messages are only appended to and its [updatedAt] never decreases.
    - The chat list is the stable sort by recency; deletion, loading,
      sending and searching behave as the specification says, with the
      divergences recorded as findings: a stored text that parses to
      anything but an array makes [loadSessions] throw, derived from the
      code after its [try] ([loadSessions_throws_iff_foreign]); search
      lists matches in array order; a blank text is not sent, so the
      placeholder title never applies ([handleSend_title_no_fallback]); a
      title is cut after 30 UTF-16 code units; a reply to a deleted
      session is lost; a reload forgets the temperature and the token
      limit.
    - The settings panel stores a temperature in [0, 2] and a positive
      token limit.  Written back into its field with [Number::toString]
      and saved again, a limit below [10^21] is kept
      ([max_tokens_roundtrip]) and one from [10^21] on becomes a single
      digit ([max_tokens_large_collapses], a finding).  The request
      carries the system prompt, the history and the new message.
    - The page implements the SessionStore of the specification: every
      state reached from a [loadSessions] of a storage whose saved list
      has unique ids, by events whose new ids are fresh (the one
      assumption the specification puts on the id generator), is, through
      [abstract], a state the specification reaches from [load] of the
      collection that storage holds ([run_refines_spec]), and so is
      every state of the whole page with its menus ([page_refines_spec],
      composing [page_refines_app]'s simulation); so the sessions
      stay unique by id ([run_ids_unique]).  [loadSessions] itself does
      not check the ids of a saved list (a finding).  The proof carries a simulation invariant: the
      session a pending request answers already has the user's message,
      so the reply, which derives no title, is the specification's
      [appendMessage]; a reply to a deleted session is no step at all.
    - A pending request never blocks the page: its answer, whatever it
      is, clears [isSending] ([sending_ends]).
    - Nothing is lost by a reload: in every reachable state, a new
      [loadSessions] on the storage as it is gives back the sessions of
      the array up to order ([reload_restores_sessions]); and the
      abstraction of the stored text as a [Blob] is exact: the text
      [saveSessions] writes parses back to the same list, strings with
      any UTF-16 code units (lone surrogates, quotes, control characters)
      and timestamps below [10^21] included ([saveSessions_text_exact]).
    - The answers of the server are read as the code means: the reply
      in the JSON text of a chat completion comes back as written
      ([chat_answer_text]), and a model list gives exactly its ids
      ([models_answer_text]); a reply whose content is not a string is
      passed on unchecked (a finding).
    - The page with its menus refines [App]: every listener is an [App]
      event or leaves the store, the pending request, the clock and the
      settings alone ([page_refines_app]), so every theorem of [App] holds
      of the page.  The menus keep their invariant (at most one header
      menu, [modelDropdownEl] never dangles), a running connection test
      always ends when its answer arrives, and the model list holds
      exactly the string ids of the answer.  Two faults are shown: two
      clicks on the model label while the list loads leave an orphan menu,
      and once a list is cached the test button reports success without
      contacting the URL just saved.
    - The page always shows the messages and the title of the current
      chat, and in the chat list every session once with the current one
      marked ([display_shown_ok]); but the list is not re-sorted when an
      answer arrives, and the test-connection button leaves the old model
      name in the header (two findings).
    - The old variant keeps the same invariant, contacts the server at
      every test, whose answer always ends a running test
      ([old_connection_test_settles]), and, unlike the current one,
      restores saved settings in full (stated on the [Blob] abstraction
      of the settings text); on plain text the table renderer shows
      exactly what the old plain-text view shows.

    ** Fuel

    [render_loop] gets [1 + #lines] fuel: each round consumes at least one
    line ([render_loop_total]).  [replace_all] gets [length s]: each match
    consumes at least one code unit ([replace_all_unfold]).  [json_parse]
    gives [parse_value] [2 * length s + 1]: a value consumes at least one
    code unit and each nesting level one bracket, which costs two units of
    fuel (one for the value, one for its elements), so any fuel above
    [2 * length s] gives the same result ([parse_fuel]).

    ** Not modelled

    DOM construction, CSS classes, icons, scrolling and the label of the
    send button; the per-item menu of the chat list, a local variable of
    each item that every [renderSidebar] drops (its delete button is
    [DeleteItem]); the export buttons, which only alert; [fetch] itself
    (the status and body of each response are inputs, read by [Http]
    into the [ServerAnswer] of [SendFinish] and the [ModelsResponse] of
    [ModelsArrive]); where on the page a click lands
    (the [Target] of a click is an input);
    the rounding of [parseFloat] and of [parseInt] (above [2^53]) to binary64 and [Number.prototype.toString]
    of the temperature; the Unicode case mapping of [toLowerCase] beyond
    ASCII (a class [JsLowerCase]; the theorems hold for any instance);
    JSON values under the settings key that are objects with only some
    settings fields, and the text of the settings (its temperature is a
    binary64 number; [Config] keeps the [Blob] abstraction for it); a
    stored JSON array whose elements are no sessions, which the cast [as
    ChatSession[]] lets through ([read_sessions] gives [None]: a finding).
    Of [src/src_old/main.ts], the functions that are the same text as in
    [main.ts] ([saveSettings], [loadSessions], [saveSessions],
    [createNewSession], [getCurrentSession], [getModelDisplayName],
    [renderHeader], [applySettingsToInputs], [updateSettingsFromInputs],
    [selectSession], [buildApiUrl], [sendToLmStudio], [handleSend], and
    [renderSidebar] but for the per-item menu) are modelled once and mapped to
    [main.ts]; the rest of that file is DOM lookups and styling. *)

From stdpp Require Export base list options sets.
From Stdlib Require Export NArith ZArith.
From Stdlib Require Ascii String.
Export (notations) String.

(** ** Notation scope *)

Declare Scope jsstr_scope.
Delimit Scope jsstr_scope with jsstr.

(** JavaScript strings are sequences of UTF-16 code units. *)
Abbreviation jstring := (list N).

(** The JavaScript [a || b] on strings: the empty string is falsy. *)
Definition js_or (s d : jstring) : jstring :=
  match s with
  | [] => d
  | _ => s
  end.

Notation "s ||| d" := (js_or s d) (at level 50, left associativity) : jsstr_scope.

(** String literals of the source, written with Rocq's ASCII strings.  Only
    used to state concrete inputs. *)
Fixpoint js (s : String.string) : jstring :=
  match s with
  | String.EmptyString => []
  | String.String a s' => Ascii.N_of_ascii a :: js s'
  end.
Arguments js s%_string.

Open Scope jsstr_scope.

(** Results of code that can throw: [Ok] the value, [Err] the exception. *)
Inductive result (A E : Type) :=
| Ok (a : A)
| Err (e : E).
Arguments Ok {A E} a.
Arguments Err {A E} e.

(** ** Automation *)

Create HintDb lmchat.
Create Rewrite HintDb lmchat.

Ltac inv_clear H := inversion H; subst; clear H.

(** Close a decidable proposition on closed data by evaluation. *)
Ltac decide_by_eval := apply (bool_decide_unpack _); vm_compute; exact I.

(** Split every [let '(a, b) := e in _] and [match e with Some _ => ...]
    whose scrutinee is a function call, remembering the equation. *)
Ltac destruct_pairs :=
  repeat match goal with
  | |- context [let '(_, _) := ?e in _] =>
      let a := fresh "a" in let b := fresh "b" in
      let E := fresh "E" in destruct e as [a b] eqn:E
  end.

(** ** Generic lemmas *)

Lemma js_or_nonempty (s d : jstring) : s <> [] -> js_or s d = s.
Proof. destruct s; naive_solver. Qed.

Lemma js_or_empty (d : jstring) : js_or [] d = d.
Proof. reflexivity. Qed.

Lemma js_or_not_nil (s d : jstring) : d <> [] -> js_or s d <> [].
Proof. destruct s; simpl; congruence. Qed.

#[export] Hint Resolve js_or_not_nil : lmchat.
#[export] Hint Rewrite js_or_empty : lmchat.

Lemma length_drop_lt {A} (n : nat) (l : list A) :
  0 < n -> l <> [] -> length (drop n l) < length l.
Proof. intros Hn Hl. rewrite length_drop. destruct l; simpl; [done | lia]. Qed.

Lemma fmap_cons_Some {A} (x : A) (o : option (list A)) (r : list A) :
  (cons x <$> o) = Some r -> exists r', o = Some r' /\ r = x :: r'.
Proof. destruct o; simpl; naive_solver. Qed.

Lemma forallb_app_true {A} (f : A -> bool) (l1 l2 : list A) :
  forallb f (l1 ++ l2) = true <-> forallb f l1 = true /\ forallb f l2 = true.
Proof. rewrite forallb_app. apply andb_true_iff. Qed.

Lemma map_id_Forall {A} (f : A -> A) (l : list A) :
  Forall (fun x => f x = x) l -> map f l = l.
Proof. induction 1; simpl; congruence. Qed.

Lemma Permutation_ne_nil {A} (l k : list A) : l ≡ₚ k -> k <> [] -> l <> [].
Proof. intros Hp Hk ->. apply Hk. symmetry in Hp. by apply Permutation_nil. Qed.

(** A decision procedure for [P] decides any [Q] equivalent to it. *)
Definition decide_by_iff {P Q : Prop} (H : P <-> Q) (d : Decision P) : Decision Q :=
  match d with
  | left p => left (proj1 H p)
  | right np => right (fun q => np (proj2 H q))
  end.
