(* ===== verification/JsString.v ===== *)
(** * ECMAScript string built-ins on UTF-16 code units

    The TypeScript sources call a handful of [String.prototype] methods and
    two global regular-expression replacements.  This file writes them out on
    [jstring] (a list of UTF-16 code units) after the ECMAScript
    specification: the white-space set of [trim] and of [\s], the
    line terminators that [.] refuses, [split] on a one-unit separator,
    [slice], [includes], and [replace] with a global regular expression,
    which scans left to right and restarts after each match.  The global
    replace recurses on the suffix left by a match, so it is a [Fixpoint] on
    fuel; [replace_all_unfold] shows that the fuel [length s] is never the
    reason it stops. *)

From S2P Require Import Prelude.

Open Scope N_scope.

(** ** Character classes *)

(** LineTerminator: LF, CR, LS, PS. *)
Definition is_line_terminator (c : N) : bool :=
  (c =? 10) || (c =? 13) || (c =? 8232) || (c =? 8233).

(** WhiteSpace (TAB, VT, FF, SP, NBSP, ZWNBSP and the Zs category) and
    LineTerminator: what [trim] removes and what [\s] matches. *)
Definition is_space (c : N) : bool :=
  (c =? 9) || (c =? 11) || (c =? 12) || (c =? 32) || (c =? 160)
  || (c =? 5760) || ((8192 <=? c) && (c <=? 8202)) || (c =? 8239)
  || (c =? 8287) || (c =? 12288) || (c =? 65279)
  || is_line_terminator c.

Definition unit_pipe : N := 124.
Definition unit_star : N := 42.
Definition unit_backtick : N := 96.
Definition unit_lf : N := 10.
Definition unit_cr : N := 13.
Definition unit_space : N := 32.

(** ** [trim], [startsWith], [endsWith], [slice] *)

Fixpoint trim_start (s : jstring) : jstring :=
  match s with
  | [] => []
  | c :: s' => if is_space c then trim_start s' else s
  end.

Definition trim_end (s : jstring) : jstring := rev (trim_start (rev s)).

(** [s.trim()] *)
Definition trim (s : jstring) : jstring := trim_end (trim_start s).

(** [s.startsWith(u)] for a one-unit string [u]. *)
Definition starts_with_unit (u : N) (s : jstring) : bool :=
  match s with
  | c :: _ => c =? u
  | [] => false
  end.

(** [s.endsWith(u)] for a one-unit string [u]. *)
Definition ends_with_unit (u : N) (s : jstring) : bool :=
  starts_with_unit u (rev s).

(** [s.slice(0, -1)]: all but the last code unit. *)
Definition slice_drop_last (s : jstring) : jstring :=
  take (length s - 1)%nat s.

(** ** [includes], [split], [join] *)

Fixpoint is_prefix (p s : jstring) : bool :=
  match p, s with
  | [], _ => true
  | a :: p', b :: s' => (a =? b) && is_prefix p' s'
  | _ :: _, [] => false
  end.

(** [s.includes(q)] *)
Fixpoint includes (s q : jstring) : bool :=
  is_prefix q s ||
  match s with
  | [] => false
  | _ :: s' => includes s' q
  end.

(** [s.split(u)] for a one-unit separator [u]: never the empty list. *)
Fixpoint split_on (u : N) (s : jstring) : list jstring :=
  match s with
  | [] => [[]]
  | c :: s' =>
      let r := split_on u s' in
      if c =? u then [] :: r
      else match r with
           | x :: r' => (c :: x) :: r'
           | [] => [[c]]
           end
  end.

(** [l.join(sep)] *)
Fixpoint join (sep : jstring) (l : list jstring) : jstring :=
  match l with
  | [] => []
  | [x] => x
  | x :: l' => x ++ sep ++ join sep l'
  end.

(** ** Replacements by fixed regular expressions *)

(** [s.replace(/\r\n/g, "\n")] *)
Fixpoint replace_crlf (s : jstring) : jstring :=
  match s with
  | [] => []
  | c :: s' =>
      if c =? unit_cr then
        match s' with
        | d :: r => if d =? unit_lf then unit_lf :: replace_crlf r
                    else c :: replace_crlf s'
        | [] => [c]
        end
      else c :: replace_crlf s'
  end.

(** [s.replace(/\s+/g, " ")]: each maximal run of white space becomes one
    space; [in_run] records that the previous unit was white space. *)
Fixpoint collapse_spaces_from (in_run : bool) (s : jstring) : jstring :=
  match s with
  | [] => []
  | c :: s' =>
      if is_space c then
        if in_run then collapse_spaces_from true s'
        else unit_space :: collapse_spaces_from true s'
      else c :: collapse_spaces_from false s'
  end.

Definition collapse_spaces (s : jstring) : jstring := collapse_spaces_from false s.

(** ** Global replacement with a regular expression *)

(** A matcher tries the regular expression at the head of the string and
    returns the replacement text and the rest after the match. *)
Definition matcher := jstring -> option (jstring * jstring).

Definition matcher_progress (m : matcher) : Prop :=
  forall s r rest, m s = Some (r, rest) -> (length rest < length s)%nat.

(** [s.replace(re, "$1")] with [re] global: try at each position, left to
    right; after a match continue at its end. *)
Fixpoint replace_all_fuel (m : matcher) (fuel : nat) (s : jstring) : jstring :=
  match fuel with
  | O => s
  | S f =>
      match s with
      | [] => []
      | c :: s' =>
          match m s with
          | Some (r, rest) => r ++ replace_all_fuel m f rest
          | None => c :: replace_all_fuel m f s'
          end
      end
  end.

Definition replace_all (m : matcher) (s : jstring) : jstring :=
  replace_all_fuel m (length s) s.

(** [\*\*(.+?)\*\*] after the opening [**]: the lazy group grows one unit
    at a time (never a line terminator) until [**] follows.  [acc] is the
    group so far, reversed and never empty. *)
Fixpoint bold_close (acc : jstring) (s : jstring) : option (jstring * jstring) :=
  match s with
  | [] => None
  | c :: s' =>
      if (c =? unit_star) && starts_with_unit unit_star s' then Some (rev acc, drop 1 s')
      else if is_line_terminator c then None
      else bold_close (c :: acc) s'
  end.

(** The regular expression [/\*\*(.+?)\*\*/] at the head of [s]. *)
Definition bold_match (s : jstring) : option (jstring * jstring) :=
  match s with
  | a :: b :: c :: r =>
      if (a =? unit_star) && (b =? unit_star) && negb (is_line_terminator c)
      then bold_close [c] r else None
  | _ => None
  end.

(** [([^`]+)`] after the opening backtick: the greedy group takes every
    unit up to the next backtick; the match fails when none follows or the
    group is empty. *)
Fixpoint code_close (acc : jstring) (s : jstring) : option (jstring * jstring) :=
  match s with
  | [] => None
  | c :: s' =>
      if c =? unit_backtick then
        match acc with
        | [] => None
        | _ => Some (rev acc, s')
        end
      else code_close (c :: acc) s'
  end.

(** The regular expression [/`([^`]+)`/] at the head of [s]. *)
Definition code_match (s : jstring) : option (jstring * jstring) :=
  match s with
  | a :: r => if a =? unit_backtick then code_close [] r else None
  | [] => None
  end.

(** ** Lemmas *)

(** A matcher that never lengthens: the replacement is at most as long as
    the text it replaces. *)
Definition matcher_shrinks (m : matcher) : Prop :=
  forall s r rest, m s = Some (r, rest) -> (length r + length rest <= length s)%nat.

Section ReplaceAll.
Variable m : matcher.
Hypothesis Hprog : matcher_progress m.

Lemma replace_all_fuel_stable (n1 n2 : nat) (s : jstring) :
  (length s <= n1)%nat -> (length s <= n2)%nat ->
  replace_all_fuel m n1 s = replace_all_fuel m n2 s.
Proof using Hprog.
  revert n2 s. induction n1 as [|n1 IH]; intros n2 s H1 H2.
  - destruct s; simpl in *; [destruct n2; done | lia].
  - destruct n2 as [|n2]; [destruct s; simpl in *; [done | lia] |].
    destruct s as [|c s']; [done |]. simpl in *.
    destruct (m (c :: s')) as [[r rest]|] eqn:Hm.
    + apply Hprog in Hm. simpl in Hm. f_equal. apply IH; lia.
    + f_equal. apply IH; lia.
Qed.

Lemma replace_all_fuel_enough (n : nat) (s : jstring) :
  (length s <= n)%nat -> replace_all_fuel m n s = replace_all m s.
Proof using Hprog. intros H. apply replace_all_fuel_stable; lia. Qed.

(** The equation of the global replacement: the fuel never decides. *)
Lemma replace_all_unfold (s : jstring) :
  replace_all m s =
    match s with
    | [] => []
    | c :: s' =>
        match m s with
        | Some (r, rest) => r ++ replace_all m rest
        | None => c :: replace_all m s'
        end
    end.
Proof using Hprog.
  unfold replace_all at 1. destruct s as [|c s']; [done |]. simpl.
  destruct (m (c :: s')) as [[r rest]|] eqn:Hm.
  - apply Hprog in Hm. simpl in Hm. f_equal. apply replace_all_fuel_enough. lia.
  - reflexivity.
Qed.

Lemma replace_all_length_le (s : jstring) :
  matcher_shrinks m -> (length (replace_all m s) <= length s)%nat.
Proof using Hprog.
  intros Hsh. remember (length s) as n eqn:Hn. revert s Hn.
  induction n as [n IH] using lt_wf_ind. intros s ->.
  rewrite replace_all_unfold. destruct s as [|c s']; [simpl; lia |].
  destruct (m (c :: s')) as [[r rest]|] eqn:Hm.
  - pose proof (Hsh _ _ _ Hm). pose proof (Hprog _ _ _ Hm). rewrite length_app.
    pose proof (IH (length rest) ltac:(lia) rest eq_refl). lia.
  - simpl. pose proof (IH (length s') ltac:(simpl; lia) s' eq_refl). lia.
Qed.

(** Where the matcher never fires, the replacement is the identity. *)
Lemma replace_all_no_match (s : jstring) :
  (forall k, m (drop k s) = None) -> replace_all m s = s.
Proof using Hprog.
  induction s as [|c s' IH]; intros Hno; [done |].
  rewrite replace_all_unfold. pose proof (Hno 0%nat) as H0. simpl in H0. rewrite H0. f_equal.
  apply IH. intros k. apply (Hno (S k)).
Qed.
End ReplaceAll.

Lemma bold_close_shrinks (acc s r rest : jstring) :
  bold_close acc s = Some (r, rest) ->
  (length r + length rest + 2 <= length acc + length s)%nat.
Proof.
  revert acc. induction s as [|c s' IH]; intros acc H; simpl in H; [done |].
  destruct (_ && _) eqn:Hc.
  - inv_clear H. apply andb_true_iff in Hc as [_ Hs].
    destruct s'; [done |]. rewrite length_rev. simpl. rewrite ?length_drop. lia.
  - destruct (is_line_terminator c); [done |].
    apply IH in H. simpl in *. lia.
Qed.

Lemma code_close_shrinks (acc s r rest : jstring) :
  code_close acc s = Some (r, rest) ->
  (length r + length rest + 1 <= length acc + length s)%nat.
Proof.
  revert acc. induction s as [|c s' IH]; intros acc H; simpl in H; [done |].
  destruct (c =? unit_backtick).
  - destruct acc; inv_clear H. simpl. rewrite ?length_app, ?length_rev. simpl. lia.
  - apply IH in H. simpl in *. lia.
Qed.

Lemma bold_match_shrinks : matcher_shrinks bold_match.
Proof.
  intros s r rest H. destruct s as [|a [|b [|c t]]]; try done. simpl in H.
  destruct (_ && _ && _); [| done]. apply bold_close_shrinks in H. simpl in *. lia.
Qed.

Lemma code_match_shrinks : matcher_shrinks code_match.
Proof.
  intros s r rest H. destruct s as [|a t]; [done |]. simpl in H.
  destruct (a =? unit_backtick); [| done]. apply code_close_shrinks in H. simpl in *. lia.
Qed.

Lemma bold_match_progress : matcher_progress bold_match.
Proof.
  intros s r rest H. destruct s as [|a [|b [|c t]]]; try done. simpl in H.
  destruct (_ && _ && _); [| done]. apply bold_close_shrinks in H. simpl in *. lia.
Qed.

Lemma code_match_progress : matcher_progress code_match.
Proof.
  intros s r rest H. destruct s as [|a t]; [done |]. simpl in H.
  destruct (a =? unit_backtick); [| done]. apply code_close_shrinks in H. simpl in *. lia.
Qed.

#[export] Hint Resolve bold_match_progress code_match_progress
  bold_match_shrinks code_match_shrinks : lmchat.

(** ** [trim], [split] and [join] *)

Lemma trim_start_nonspace (c : N) (s : jstring) :
  is_space c = false -> trim_start (c :: s) = c :: s.
Proof. intros H. simpl. by rewrite H. Qed.

(** A string that starts and ends with a non-space unit is its own trim. *)
Lemma trim_bracketed (a b : N) (x : jstring) :
  is_space a = false -> is_space b = false -> trim (a :: x ++ [b]) = a :: x ++ [b].
Proof.
  intros Ha Hb. unfold trim, trim_end. rewrite trim_start_nonspace by done.
  rewrite app_comm_cons, rev_unit, trim_start_nonspace by done.
  change (rev (b :: rev (a :: x))) with (rev (rev (a :: x)) ++ [b]).
  by rewrite rev_involutive.
Qed.

Lemma ends_with_unit_snoc (u : N) (x : jstring) : ends_with_unit u (x ++ [u]) = true.
Proof. unfold ends_with_unit. rewrite rev_app_distr. simpl. apply N.eqb_refl. Qed.

Lemma slice_drop_last_snoc (u : N) (x : jstring) : slice_drop_last (x ++ [u]) = x.
Proof.
  unfold slice_drop_last. rewrite length_app. simpl.
  replace (length x + 1 - 1)%nat with (length x) by lia.
  by rewrite take_app_length.
Qed.

Lemma split_on_no_sep (u : N) (x : jstring) : u ∉ x -> split_on u x = [x].
Proof.
  induction x as [|c x IH]; intros Hx; [done |]. simpl.
  rewrite IH by set_solver. destruct (N.eqb_spec c u); [set_solver | done].
Qed.

Lemma split_on_app_sep (u : N) (x rest : jstring) :
  u ∉ x -> split_on u (x ++ u :: rest) = x :: split_on u rest.
Proof.
  induction x as [|c x IH]; intros Hx; simpl.
  - by rewrite N.eqb_refl.
  - rewrite IH by set_solver. destruct (N.eqb_spec c u); [set_solver | done].
Qed.

(** [l.join(u).split(u)] gives [l] back when no piece holds [u]. *)
Lemma split_on_join (u : N) (l : list jstring) :
  l <> [] -> Forall (fun x => u ∉ x) l -> split_on u (join [u] l) = l.
Proof.
  induction l as [|x [|y l'] IH]; intros Hne Hall; [done | |].
  - inv_clear Hall. simpl. by apply split_on_no_sep.
  - inv_clear Hall. change (join [u] (x :: y :: l')) with (x ++ u :: join [u] (y :: l')).
    rewrite split_on_app_sep by done. f_equal. by apply IH.
Qed.

Lemma split_on_nonempty (u : N) (s : jstring) : split_on u s <> [].
Proof. induction s as [|c s IH]; simpl; [done |]. destruct (c =? u); [done |]. by destruct (split_on u s). Qed.

(** [s.split(u).join(u)] is [s]. *)
Lemma join_split_on (u : N) (s : jstring) : join [u] (split_on u s) = s.
Proof.
  induction s as [|c s IH]; [done |]. simpl.
  pose proof (split_on_nonempty u s) as Hne.
  destruct (N.eqb_spec c u) as [-> | Hc].
  - destruct (split_on u s) as [| x r]; [done |]. rewrite <- IH. by destruct r.
  - destruct (split_on u s) as [| x [| y r]]; [done | by rewrite <- IH | by rewrite <- IH].
Qed.

(** Without a carriage return, [replace(/\r\n/g, "\n")] changes nothing. *)
Lemma replace_crlf_no_cr (s : jstring) : unit_cr ∉ s -> replace_crlf s = s.
Proof.
  induction s as [|c s IH]; intros Hs; [done |]. simpl.
  rewrite not_elem_of_cons in Hs. destruct Hs as [Hc Hs].
  rewrite (proj2 (N.eqb_neq c unit_cr)) by congruence. by rewrite IH.
Qed.

(** A string with neither a star nor a backtick holds no bold or code
    span. *)
Lemma bold_match_no_star (s : jstring) : unit_star ∉ s -> bold_match s = None.
Proof.
  intros H. destruct s as [|a [|b [|c t]]]; try done. simpl.
  destruct (N.eqb_spec a unit_star); [set_solver | done].
Qed.

Lemma code_match_no_backtick (s : jstring) : unit_backtick ∉ s -> code_match s = None.
Proof.
  intros H. destruct s as [|a t]; [done |]. simpl.
  destruct (N.eqb_spec a unit_backtick); [set_solver | done].
Qed.

Lemma not_elem_of_drop (u : N) (s : jstring) (k : nat) : u ∉ s -> u ∉ drop k s.
Proof. intros H Hin. apply H. by apply (subseteq_drop k s). Qed.

Lemma collapse_spaces_nonempty (s : jstring) : s <> [] -> collapse_spaces s <> [].
Proof.
  destruct s as [|c s']; [done |]. intros _. unfold collapse_spaces. simpl.
  by destruct (is_space c).
Qed.

(** A string with no white space is its own trim. *)
Lemma trim_start_Forall (s : jstring) :
  Forall (fun c => is_space c = false) s -> trim_start s = s.
Proof. intros [|c s' Hc _]; [done |]. by apply trim_start_nonspace. Qed.

Lemma trim_no_space (s : jstring) :
  Forall (fun c => is_space c = false) s -> trim s = s.
Proof.
  intros H. unfold trim, trim_end. rewrite (trim_start_Forall s H).
  rewrite trim_start_Forall by (by apply Forall_rev). apply rev_involutive.
Qed.
