(* ===== verification/JsNumber.v ===== *)
(** * ECMAScript number built-ins: [parseInt], [parseFloat], [Math.min/max]

    The settings panel reads two numbers from text fields
    ([updateSettingsFromInputs], [src/src/main.ts] lines 496-506) with the
    global functions [parseFloat] and [parseInt(_, 10)], then clamps the
    temperature with [Math.max(0, Math.min(2, temp))].  This file writes
    them out after the ECMAScript specification (§19.2.4 and §19.2.5): the
    leading white space skipped is the [trim] set of [JsString]; the number
    read is the longest prefix that is a decimal literal.  A [number] is
    [JsNum]: [NaN], the two infinities, or a finite value, kept as the
    exact rational the decimal literal denotes (the rounding to binary64
    is not modelled, nor [-0], which [Math.max(0, _)] turns into [+0]
    anyway).  [parseInt] returns an integer, [None] standing for [NaN]. *)

From S2P Require Import Prelude JsString.
From Stdlib Require Import QArith Qminmax.

Open Scope N_scope.

Inductive JsNum := NaN | PosInf | NegInf | Finite (q : Q).

(** ** Decimal digits *)

Definition is_digit (c : N) : bool := (48 <=? c) && (c <=? 57).

(** The longest prefix of decimal digits, and the rest. *)
Fixpoint span_digits (s : jstring) : jstring * jstring :=
  match s with
  | c :: s' => if is_digit c then let '(d, r) := span_digits s' in (c :: d, r) else ([], s)
  | [] => ([], [])
  end.

(** The mathematical value of a string of decimal digits. *)
Definition digits_value (d : jstring) : Z :=
  fold_left (fun acc c => (acc * 10 + Z.of_N (c - 48))%Z) d 0%Z.

Definition unit_plus : N := 43.
Definition unit_minus : N := 45.
Definition unit_dot : N := 46.

(** A leading [+] or [-]: the sign, and the rest. *)
Definition read_sign (s : jstring) : Z * jstring :=
  match s with
  | c :: s' => if c =? unit_minus then (-1, s')%Z else if c =? unit_plus then (1%Z, s') else (1%Z, s)
  | [] => (1%Z, s)
  end.

(** ** [parseInt(s, 10)] *)

(** §19.2.5: trim the start, read a sign, then the longest prefix of
    decimal digits; [NaN] when there is none. *)
Definition parseInt10 (s : jstring) : option Z :=
  let '(sign, r) := read_sign (trim_start s) in
  match span_digits r with
  | ([], _) => None
  | (d, _) => Some (sign * digits_value d)%Z
  end.

(** ** [parseFloat(s)] *)

(** An ExponentPart ([e] or [E], a sign, digits) at the start of [s]:
    its value, or 0 when [s] does not start with one. *)
Definition read_exponent (s : jstring) : Z :=
  match s with
  | e :: r =>
      if (e =? 101) || (e =? 69) then
        let '(sign, r') := read_sign r in
        match span_digits r' with
        | ([], _) => 0%Z
        | (d, _) => (sign * digits_value d)%Z
        end
      else 0%Z
  | [] => 0%Z
  end.

(** [m * 10^k] as a rational. *)
Definition scale10 (m : Z) (k : Z) : Q :=
  if (0 <=? k)%Z then inject_Z (m * 10 ^ k) else Qmake m (Z.to_pos (10 ^ (- k))).

(** StrUnsignedDecimalLiteral: [Infinity], or digits with an optional
    fraction and exponent, at least one digit before the exponent. *)
Definition read_unsigned_decimal (s : jstring) : JsNum :=
  if is_prefix (js "Infinity") s then PosInf
  else
    let '(ip, r) := span_digits s in
    let '(fp, r2) := match r with
                     | c :: r' => if c =? unit_dot then span_digits r' else ([], r)
                     | [] => ([], r)
                     end in
    match ip, fp with
    | [], [] => NaN
    | _, _ => Finite (scale10 (digits_value (ip ++ fp)) (read_exponent r2 - Z.of_nat (length fp)))
    end.

Definition negate (n : JsNum) : JsNum :=
  match n with
  | PosInf => NegInf
  | NegInf => PosInf
  | Finite q => Finite (- q)
  | NaN => NaN
  end.

(** §19.2.4: trim the start, then the longest prefix that is a
    StrDecimalLiteral. *)
Definition parseFloat (s : jstring) : JsNum :=
  let '(sign, r) := read_sign (trim_start s) in
  let n := read_unsigned_decimal r in
  if (sign <? 0)%Z then negate n else n.

(** ** [Math.max(lo, Math.min(hi, x))] for a [number] that is not [NaN] *)

Definition clamp (lo hi : Q) (n : JsNum) : Q :=
  match n with
  | Finite q => Qmax lo (Qmin hi q)
  | PosInf => Qmax lo hi
  | NegInf | NaN => lo
  end.

(** ** Lemmas *)

Lemma span_digits_app (d r : jstring) :
  forallb is_digit d = true -> match r with c :: _ => is_digit c = false | [] => True end ->
  span_digits (d ++ r) = (d, r).
Proof.
  intros Hd Hr. induction d as [|c d IH]; simpl in *.
  - destruct r as [|c r]; [done |]. simpl. by rewrite Hr.
  - apply andb_prop in Hd as [Hc Hd]. rewrite Hc, IH by done. done.
Qed.

Lemma clamp_bounds (lo hi : Q) (n : JsNum) :
  (lo <= hi)%Q -> (lo <= clamp lo hi n <= hi)%Q.
Proof.
  intros Hle. destruct n as [| | | q]; simpl.
  - split; [apply Qle_refl | done].
  - split; [apply Q.le_max_l | apply Q.max_lub; [done | apply Qle_refl]].
  - split; [apply Qle_refl | done].
  - split; [apply Q.le_max_l | apply Q.max_lub; [done | apply Q.le_min_l]].
Qed.
