(* ===== verification/Segmenter.v ===== *)
(** * The table renderer: [src/unnamed/part_000]

    [renderMessageContentWithTables container raw] empties [container] and
    appends a fragment whose children are, in order, a [<p>] per paragraph
    and a [<div class="markdown-table-wrapper">] per pipe table.  The model
    returns that list of children as a list of [Segment]s; text is set with
    [textContent], so a segment holds plain text.  The index [i] of the
    source walks an array of lines; the model walks the suffix
    [lines[i..]], so [i += 2] is [drop 1] after the head and [i++] is a
    tail.  The outer [while] loop runs on fuel; [render_lines_unfold]
    gives the equation of the loop with the fuel gone. *)

From S2P Require Import Prelude JsString.

Open Scope N_scope.

(** ** The output *)

(** A child of the fragment: a paragraph with its [textContent], or a
    table with its header cells and body rows. *)
Inductive Segment :=
| Prose (text : jstring)
| Table (header : list jstring) (rows : list (list jstring)).

(** ** Helpers of the renderer *)

(** [stripInlineMarkdown]: first [/\*\*(.+?)\*\*/g], then [/`([^`]+)`/g],
    each replaced by its group. *)
Definition stripInlineMarkdown (s : jstring) : jstring :=
  replace_all code_match (replace_all bold_match s).

(** [splitMarkdownRow] *)
Definition splitMarkdownRow (line : jstring) : list jstring :=
  let work := trim line in
  let work := if starts_with_unit unit_pipe work then drop 1 work else work in
  let work := if ends_with_unit unit_pipe work then slice_drop_last work else work in
  map (fun cell => stripInlineMarkdown (trim cell)) (split_on unit_pipe work).

(** The character class [[|\s:\-]]. *)
Definition is_separator_unit (c : N) : bool :=
  (c =? unit_pipe) || is_space c || (c =? 58) || (c =? 45).

(** The regular expression [/[|\s:\-]/] at the head of a string, replaced
    by the empty string. *)
Definition separator_unit_match (s : jstring) : option (jstring * jstring) :=
  match s with
  | c :: r => if is_separator_unit c then Some ([], r) else None
  | [] => None
  end.

(** [isTableSeparatorLine] *)
Definition isTableSeparatorLine (line : jstring) : bool :=
  let t := trim line in
  if negb (starts_with_unit unit_pipe t) then false
  else
    let stripped := replace_all separator_unit_match t in
    bool_decide (length stripped = 0%nat) && includes t [45].

(** The condition that opens a table at line [i]: the trimmed line starts
    with a pipe and line [i + 1] exists and is a separator line. *)
Definition is_table_start (line : jstring) (next : list jstring) : bool :=
  starts_with_unit unit_pipe (trim line) &&
  match next with
  | l2 :: _ => isTableSeparatorLine l2
  | [] => false
  end.

Definition is_blank (line : jstring) : bool := bool_decide (trim line = []).

(** ** The three inner loops *)

(** The test that ends a table body: the trimmed line does not start
    with a pipe, or is a separator line, or is blank. *)
Definition ends_table (rowLine : jstring) : bool :=
  let trimmed := trim rowLine in
  negb (starts_with_unit unit_pipe trimmed) || isTableSeparatorLine rowLine
  || bool_decide (trimmed = []).

(** The body rows of a table, taken until [ends_table]. *)
Fixpoint table_body (ls : list jstring) : list (list jstring) * list jstring :=
  match ls with
  | [] => ([], [])
  | l :: ls' =>
      if ends_table l then ([], ls)
      else let '(rows, rest) := table_body ls' in (splitMarkdownRow l :: rows, rest)
  end.

(** The lines of a paragraph ([normalLines]): taken until a table start,
    or a blank line once [started] (some line was taken). *)
Fixpoint prose_lines (started : bool) (ls : list jstring) : list jstring * list jstring :=
  match ls with
  | [] => ([], [])
  | l :: ls' =>
      if is_table_start l ls' then ([], ls)
      else if is_blank l && started then ([], ls)
      else let '(acc, rest) := prose_lines true ls' in (l :: acc, rest)
  end.

(** The loop that skips blank lines after a paragraph. *)
Fixpoint skip_blank_lines (ls : list jstring) : list jstring :=
  match ls with
  | [] => []
  | l :: ls' => if is_blank l then skip_blank_lines ls' else ls
  end.

(** ** The outer loop *)

Definition prose_segment (normalLines : list jstring) : list Segment :=
  match normalLines with
  | [] => []
  | _ => [Prose (stripInlineMarkdown (join [unit_lf] normalLines))]
  end.

Fixpoint render_loop (fuel : nat) (ls : list jstring) : option (list Segment) :=
  match fuel with
  | O => None
  | S f =>
      match ls with
      | [] => Some []
      | line :: ls' =>
          if is_table_start line ls' then
            let '(rows, rest) := table_body (drop 1 ls') in
            cons (Table (splitMarkdownRow line) rows) <$> render_loop f rest
          else
            let '(normalLines, rest) := prose_lines false ls in
            app (prose_segment normalLines) <$> render_loop f (skip_blank_lines rest)
      end
  end.

Definition render_lines (ls : list jstring) : list Segment :=
  match render_loop (S (length ls)) ls with
  | Some b => b
  | None => []
  end.

(** [raw.replace(/\r\n/g, "\n").split("\n")] *)
Definition split_lines (raw : jstring) : list jstring :=
  split_on unit_lf (replace_crlf raw).

(** [renderMessageContentWithTables container raw]: the children appended
    to [container]. *)
Definition renderMessageContentWithTables (raw : jstring) : list Segment :=
  render_lines (split_lines raw).

(** ** The inner loops consume a prefix *)

Lemma table_body_spec (ls : list jstring) :
  exists pre, ls = pre ++ (table_body ls).2 /\
    (table_body ls).1 = map splitMarkdownRow pre /\
    forallb (fun l => negb (ends_table l)) pre = true /\
    match (table_body ls).2 with
    | [] => True
    | l :: _ => ends_table l = true
    end.
Proof.
  induction ls as [|l ls' IH]; [exists []; done |]. simpl.
  destruct (ends_table l) eqn:Hrow.
  - exists []. simpl. rewrite Hrow. done.
  - destruct IH as (pre & Heq & Hrows & Hall & Hend).
    destruct (table_body ls') as [rows rest]. simpl in *.
    exists (l :: pre). simpl. rewrite Hrow. subst. done.
Qed.

Lemma prose_lines_app (started : bool) (ls : list jstring) :
  ls = (prose_lines started ls).1 ++ (prose_lines started ls).2.
Proof.
  revert started. induction ls as [|l ls' IH]; intros started; [done |]. simpl.
  destruct (is_table_start l ls'); [done |].
  destruct (is_blank l && started); [done |].
  specialize (IH true). destruct (prose_lines true ls') as [acc rest]. simpl in *.
  by rewrite <- IH.
Qed.

(** Outside a table start, the paragraph takes at least the first line. *)
Lemma prose_lines_first (l : jstring) (ls' : list jstring) :
  is_table_start l ls' = false ->
  prose_lines false (l :: ls') = (l :: (prose_lines true ls').1, (prose_lines true ls').2).
Proof.
  intros H. simpl. rewrite H. rewrite andb_false_r.
  by destruct (prose_lines true ls').
Qed.

Lemma skip_blank_lines_suffix (ls : list jstring) :
  exists pre, ls = pre ++ skip_blank_lines ls /\ forallb is_blank pre = true.
Proof.
  induction ls as [|l ls' IH]; [exists []; done |]. simpl.
  destruct (is_blank l) eqn:Hb.
  - destruct IH as (pre & Heq & Hall). exists (l :: pre). simpl. rewrite Hb. by rewrite <- Heq.
  - exists []. done.
Qed.

Lemma length_suffix {A} (pre rest : list A) :
  (length rest <= length (pre ++ rest))%nat.
Proof. rewrite length_app. lia. Qed.

(** One round of the outer loop consumes at least one line. *)
Lemma render_step_table (line : jstring) (ls' : list jstring) :
  (length (table_body (drop 1 ls')).2 < length (line :: ls'))%nat.
Proof.
  destruct (table_body_spec (drop 1 ls')) as (pre & Heq & _).
  pose proof (length_suffix pre (table_body (drop 1 ls')).2) as H.
  rewrite <- Heq, length_drop in H. simpl. lia.
Qed.

Lemma render_step_prose (line : jstring) (ls' : list jstring) :
  is_table_start line ls' = false ->
  (length (skip_blank_lines (prose_lines false (line :: ls')).2) < length (line :: ls'))%nat.
Proof.
  intros Ht. rewrite (prose_lines_first line ls' Ht). simpl.
  destruct (skip_blank_lines_suffix (prose_lines true ls').2) as (pre & Heq & _).
  pose proof (length_suffix pre (skip_blank_lines (prose_lines true ls').2)) as H1.
  rewrite <- Heq in H1.
  pose proof (prose_lines_app true ls') as H2.
  pose proof (length_suffix (prose_lines true ls').1 (prose_lines true ls').2) as H3.
  rewrite <- H2 in H3. lia.
Qed.

(** ** Termination of the outer loop *)

Lemma render_loop_fuel_stable (n1 n2 : nat) (ls : list jstring) :
  (length ls < n1)%nat -> (length ls < n2)%nat -> render_loop n1 ls = render_loop n2 ls.
Proof.
  revert n2 ls. induction n1 as [|n1 IH]; intros n2 ls H1 H2; [lia |].
  destruct n2 as [|n2]; [lia |]. destruct ls as [|line ls']; [done |]. cbn [render_loop].
  destruct (is_table_start line ls') eqn:Ht.
  - pose proof (render_step_table line ls'). destruct (table_body (drop 1 ls')) as [rows rest].
    cbn [fst snd] in *. rewrite (IH n2); [done | lia | lia].
  - pose proof (render_step_prose line ls' Ht).
    destruct (prose_lines false (line :: ls')) as [nl rest]. cbn [fst snd] in *.
    rewrite (IH n2); [done | lia | lia].
Qed.

Lemma render_loop_is_Some (n : nat) (ls : list jstring) :
  (length ls < n)%nat -> is_Some (render_loop n ls).
Proof.
  revert ls. induction n as [|n IH]; intros ls H; [lia |].
  destruct ls as [|line ls']; [by eexists |]. cbn [render_loop].
  destruct (is_table_start line ls') eqn:Ht.
  - pose proof (render_step_table line ls'). destruct (table_body (drop 1 ls')) as [rows rest].
    cbn [fst snd] in *. destruct (IH rest) as [r ->]; [lia |]. by eexists.
  - pose proof (render_step_prose line ls' Ht).
    destruct (prose_lines false (line :: ls')) as [nl rest]. cbn [fst snd] in *.
    destruct (IH (skip_blank_lines rest)) as [r ->]; [lia |]. by eexists.
Qed.

(** C5: the outer [while] loop terminates: with any fuel above the number
    of lines it returns, and always the same children. *)
Theorem render_loop_total (n : nat) (ls : list jstring) :
  (length ls < n)%nat -> render_loop n ls = Some (render_lines ls).
Proof.
  intros H. unfold render_lines.
  rewrite (render_loop_fuel_stable n (S (length ls))) by lia.
  destruct (render_loop_is_Some (S (length ls)) ls) as [r ->]; [lia | done].
Qed.

(** The equation of the outer loop. *)
Lemma render_lines_unfold (ls : list jstring) :
  render_lines ls =
    match ls with
    | [] => []
    | line :: ls' =>
        if is_table_start line ls' then
          let '(rows, rest) := table_body (drop 1 ls') in
          Table (splitMarkdownRow line) rows :: render_lines rest
        else
          let '(normalLines, rest) := prose_lines false ls in
          prose_segment normalLines ++ render_lines (skip_blank_lines rest)
    end.
Proof.
  destruct ls as [|line ls']; [done |].
  unfold render_lines at 1. cbn [render_loop].
  destruct (is_table_start line ls') eqn:Ht.
  - pose proof (render_step_table line ls'). destruct (table_body (drop 1 ls')) as [rows rest].
    cbn [fst snd] in *. rewrite (render_loop_fuel_stable _ (S (length rest))) by (simpl in *; lia).
    unfold render_lines. destruct (render_loop_is_Some (S (length rest)) rest) as [r ->]; [lia | done].
  - pose proof (render_step_prose line ls' Ht).
    destruct (prose_lines false (line :: ls')) as [nl rest]. cbn [fst snd] in *.
    rewrite (render_loop_fuel_stable _ (S (length (skip_blank_lines rest)))) by (simpl in *; lia).
    unfold render_lines. destruct (render_loop_is_Some (S (length (skip_blank_lines rest))) (skip_blank_lines rest))
      as [r ->]; [lia | done].
Qed.

(** ** Behaviour on concrete replies *)

(** A reply written line by line. *)
Definition reply_of_lines (ls : list String.string) : jstring :=
  join [unit_lf] (map js ls).

(** [‹ "l1"; ...; "ln" ›] is the reply whose lines are [l1], ..., [ln]. *)
Notation "‹ x ; .. ; y ›" := (reply_of_lines (cons x%string .. (cons y%string nil) ..))
  (at level 0) : jsstr_scope.

(** The table examples of the specification: a header, a separator and
    a row give one table, and the separator need not have the header's
    column count. *)
Theorem render_table_examples :
  renderMessageContentWithTables (‹"|a|b|"; "|-|-|"; "|1|2|"›)
    = [Table [js "a"; js "b"] [[js "1"; js "2"]]] /\
  renderMessageContentWithTables (‹"|a|b|"; "|--|"; "|1|2|"›)
    = [Table [js "a"; js "b"] [[js "1"; js "2"]]].
Proof. split; vm_compute; reflexivity. Qed.

(** A blank line separates two paragraphs and is dropped; bold and
    code markers are removed from the paragraph text. *)
Theorem render_prose_examples :
  renderMessageContentWithTables (‹"hello"; ""; "world"›)
    = [Prose (js "hello"); Prose (js "world")] /\
  renderMessageContentWithTables (js "**bold** and `code`")
    = [Prose (js "bold and code")].
Proof. split; vm_compute; reflexivity. Qed.

(** The empty reply is rendered as one empty paragraph: [split] gives
    one empty line, which the paragraph loop takes because no line was
    taken before it. *)
Theorem render_empty_reply :
  renderMessageContentWithTables [] = [Prose []].
Proof. vm_compute. reflexivity. Qed.

(** A blank line that opens the reply, or that follows a table, is
    kept as the first line of the next paragraph instead of being
    skipped. *)
Theorem render_leading_blank_kept :
  renderMessageContentWithTables (‹""; "hello"›)
    = [Prose (‹""; "hello"›)] /\
  renderMessageContentWithTables (‹"|a|"; "|-|"; ""; "x"›)
    = [Table [js "a"] []; Prose (‹""; "x"›)].
Proof. split; vm_compute; reflexivity. Qed.

(** Rendering the plain text of a rendered reply again is not
    idempotent: a code span can hide table markup, which the second pass
    renders as a table; doubled bold markers lose one more level; a
    carriage return before a line break is read as a line break. *)
Theorem resegment_not_idempotent :
  renderMessageContentWithTables (‹"`|a|`"; "`|-|`"›) = [Prose (‹"|a|"; "|-|"›)] /\
  renderMessageContentWithTables (‹"|a|"; "|-|"›) = [Table [js "a"] []] /\
  renderMessageContentWithTables (js "****a****") = [Prose (js "**a**")] /\
  renderMessageContentWithTables (js "**a**") = [Prose (js "a")] /\
  renderMessageContentWithTables [97; unit_cr; unit_cr; unit_lf; 98] = [Prose [97; unit_cr; unit_lf; 98]] /\
  renderMessageContentWithTables [97; unit_cr; unit_lf; 98] = [Prose [97; unit_lf; 98]].
Proof. split_and!; vm_compute; reflexivity. Qed.

Lemma render_loop_total_witness :
  (length (split_lines (js "x")) < 2)%nat /\
  render_loop 2 (split_lines (js "x")) = Some (render_lines (split_lines (js "x"))).
Proof. split; [vm_compute; lia | apply render_loop_total; vm_compute; lia]. Defined.

(** ** Cells and inline markers *)

Lemma stripInlineMarkdown_plain (s : jstring) :
  unit_star ∉ s -> unit_backtick ∉ s -> stripInlineMarkdown s = s.
Proof.
  intros Hs Hb. unfold stripInlineMarkdown.
  rewrite (replace_all_no_match bold_match bold_match_progress s).
  - apply replace_all_no_match; [apply code_match_progress |].
    intros k. by apply code_match_no_backtick, not_elem_of_drop.
  - intros k. by apply bold_match_no_star, not_elem_of_drop.
Qed.

(** Stripping the inline markers never lengthens a text. *)
Theorem stripInlineMarkdown_length_le (s : jstring) :
  (length (stripInlineMarkdown s) <= length s)%nat.
Proof.
  unfold stripInlineMarkdown.
  etrans; [apply replace_all_length_le; eauto with lmchat |].
  apply replace_all_length_le; eauto with lmchat.
Qed.

(** A cell that a row prints and parses back unchanged: no pipe, no
    marker, no white space at either end. *)
Definition plain_cell (cell : jstring) : Prop :=
  (unit_pipe ∉ cell) /\ (unit_star ∉ cell) /\ (unit_backtick ∉ cell) /\ trim cell = cell.

(** C25: printing plain cells as [|c1|...|cn|] and splitting the row gives
    the cells back. *)
Theorem splitMarkdownRow_roundtrip (cells : list jstring) :
  cells <> [] -> Forall plain_cell cells ->
  splitMarkdownRow (unit_pipe :: join [unit_pipe] cells ++ [unit_pipe]) = cells.
Proof.
  intros Hne Hall. unfold splitMarkdownRow.
  rewrite trim_bracketed by reflexivity.
  cbn [starts_with_unit drop]. rewrite N.eqb_refl, drop_0.
  rewrite ends_with_unit_snoc, slice_drop_last_snoc.
  rewrite split_on_join; [| done | by eapply Forall_impl; [exact Hall | intros x []]].
  apply map_id_Forall. eapply Forall_impl; [exact Hall |].
  intros x (Hp & Hs & Hb & Ht). rewrite Ht. by apply stripInlineMarkdown_plain.
Qed.

Lemma splitMarkdownRow_roundtrip_witness :
  [js "a"; js "b"] <> [] /\ Forall plain_cell [js "a"; js "b"] /\
  splitMarkdownRow (unit_pipe :: join [unit_pipe] [js "a"; js "b"] ++ [unit_pipe])
    = [js "a"; js "b"].
Proof.
  assert (Hp : Forall plain_cell [js "a"; js "b"]).
  { repeat constructor; unfold plain_cell; repeat split; try decide_by_eval; vm_compute; reflexivity. }
  split; [done | split; [exact Hp |]].
  apply splitMarkdownRow_roundtrip; [done | exact Hp].
Defined.

(** ** Text the renderer shows as it is *)

(** A line that is neither blank nor, after its white space, starts with
    a pipe: it opens no table and ends no paragraph. *)
Definition plain_line (l : jstring) : Prop :=
  is_blank l = false /\ starts_with_unit unit_pipe (trim l) = false.

(** A text with no carriage return, star or backtick, all of whose lines
    are plain. *)
Definition plain_text (c : jstring) : Prop :=
  (unit_cr ∉ c) /\ (unit_star ∉ c) /\ (unit_backtick ∉ c) /\ Forall plain_line (split_on unit_lf c).

Lemma prose_lines_plain (started : bool) (ls : list jstring) :
  Forall plain_line ls -> prose_lines started ls = (ls, []).
Proof.
  intros Hall. revert started. induction Hall as [| l ls' [Hb Hp] _ IH]; intros started; [done |].
  simpl. unfold is_table_start. rewrite Hp, Hb. simpl. by rewrite IH.
Qed.

(** A plain text is shown as one paragraph holding the text itself, as
    [textContent = msg.content] shows it. *)
Lemma render_plain_text (c : jstring) :
  plain_text c -> renderMessageContentWithTables c = [Prose c].
Proof.
  intros (Hcr & Hs & Hb & Hall). unfold renderMessageContentWithTables, split_lines.
  rewrite replace_crlf_no_cr by done.
  pose proof (join_split_on unit_lf c) as Hj. pose proof (prose_lines_plain false _ Hall) as Hp.
  destruct (split_on unit_lf c) as [| l ls'] eqn:E; [by destruct (split_on_nonempty unit_lf c) |].
  rewrite render_lines_unfold. apply Forall_cons in Hall as [[_ Hl] _].
  unfold is_table_start at 1. rewrite Hl. simpl andb. cbv iota. rewrite Hp.
  change (render_lines (skip_blank_lines [])) with (@nil Segment).
  cbn [prose_segment app]. rewrite Hj. by rewrite stripInlineMarkdown_plain.
Qed.
