(* ===== verification/SegmenterSpec.v ===== *)
(** * An abstract specification of the table renderer

    The specification describes the renderer as a two-state machine: in
    prose, lines accumulate into a paragraph until a table start or a blank
    line; in a table, lines are body rows until one is not.  The relation
    [blocks] below cuts a list of lines into such blocks, each with the
    conditions that delimit it; it mentions no loop and no fuel.
    The relation is a function ([blocks_functional]): the conditions fix
    where each block ends.  [render_refines] shows that the renderer's
    output is the list of segments of that cut, and the theorems after it
    read the renderer's properties off the relation: no line is lost, a
    table appears exactly when the text has a table start, and every table
    comes from a header, a separator and body lines of the text. *)

From S2P Require Import Prelude JsString Segmenter.

Open Scope N_scope.

(** Whether a table starts at the head of [ls]. *)
Definition starts_table (ls : list jstring) : bool :=
  match ls with
  | l :: ls' => is_table_start l ls'
  | [] => false
  end.

(** A block of lines: a table (header, separator, body rows) or a paragraph
    (its lines and the blank lines skipped after it). *)
Inductive Block :=
| TableBlock (header separator : jstring) (body : list jstring)
| ProseBlock (run blanks : list jstring).

Definition block_lines (b : Block) : list jstring :=
  match b with
  | TableBlock h sep body => h :: sep :: body
  | ProseBlock run blanks => run ++ blanks
  end.

Definition block_segment (b : Block) : Segment :=
  match b with
  | TableBlock h _ body => Table (splitMarkdownRow h) (map splitMarkdownRow body)
  | ProseBlock run _ => Prose (stripInlineMarkdown (join [unit_lf] run))
  end.

(** The lines after the first of a paragraph: none blank, none a table
    start (looking one line ahead, into [tail] at the end). *)
Fixpoint prose_continues (run tail : list jstring) : Prop :=
  match run with
  | [] => True
  | l :: run' =>
      is_blank l = false /\ starts_table (l :: run' ++ tail) = false /\
      prose_continues run' tail
  end.

(** What ends a paragraph: the end of the text, a blank line or a table
    start. *)
Definition prose_stops (tail : list jstring) : Prop :=
  match tail with
  | [] => True
  | l :: _ => is_blank l = true \/ starts_table tail = true
  end.

(** What ends a table: the end of the text or a line that is not a body
    row. *)
Definition table_stops (tail : list jstring) : Prop :=
  match tail with
  | [] => True
  | l :: _ => ends_table l = true
  end.

Definition head_not_blank (tail : list jstring) : Prop :=
  match tail with
  | [] => True
  | l :: _ => is_blank l = false
  end.

Inductive blocks : list jstring -> list Block -> Prop :=
| blocks_nil : blocks [] []
| blocks_table h sep body rest bs :
    starts_table (h :: sep :: body ++ rest) = true ->
    Forall (fun l => ends_table l = false) body ->
    table_stops rest ->
    blocks rest bs ->
    blocks (h :: sep :: body ++ rest) (TableBlock h sep body :: bs)
| blocks_prose l run blanks rest bs :
    starts_table (l :: run ++ blanks ++ rest) = false ->
    prose_continues run (blanks ++ rest) ->
    prose_stops (blanks ++ rest) ->
    Forall (fun b => is_blank b = true) blanks ->
    head_not_blank rest ->
    blocks rest bs ->
    blocks (l :: run ++ blanks ++ rest) (ProseBlock (l :: run) blanks :: bs).

(** ** The inner loops against the relation *)

Lemma prose_lines_true_spec (ls : list jstring) :
  prose_continues (prose_lines true ls).1 (prose_lines true ls).2 /\
  prose_stops (prose_lines true ls).2.
Proof.
  induction ls as [|l ls' IH]; [done |]. cbn [prose_lines].
  destruct (is_table_start l ls') eqn:Ht; [split; [done | simpl; by right] |].
  rewrite andb_true_r. destruct (is_blank l) eqn:Hb; [split; [done | simpl; by left] |].
  pose proof (prose_lines_app true ls') as Happ.
  destruct (prose_lines true ls') as [acc rest]. simpl in *.
  destruct IH as [IHc IHs]. rewrite <- Happ. done.
Qed.

Lemma skip_blank_lines_head (ls : list jstring) : head_not_blank (skip_blank_lines ls).
Proof.
  induction ls as [|l ls' IH]; [done |]. simpl.
  destruct (is_blank l) eqn:Hb; [done | simpl; done].
Qed.

Lemma forallb_Forall_true {A} (f : A -> bool) (l : list A) :
  forallb f l = true -> Forall (fun x => f x = true) l.
Proof.
  induction l as [|x l IH]; simpl; [constructor |].
  intros [Hx Hl]%andb_true_iff. constructor; auto.
Qed.

Lemma forallb_negb_Forall {A} (f : A -> bool) (l : list A) :
  forallb (fun x => negb (f x)) l = true -> Forall (fun x => f x = false) l.
Proof.
  intros H. apply forallb_Forall_true in H. eapply Forall_impl; [exact H |].
  intros x Hx. simpl in Hx. destruct (f x); simpl in *; congruence.
Qed.

#[export] Hint Resolve skip_blank_lines_head forallb_Forall_true forallb_negb_Forall : lmchat.

(** ** Refinement *)

Lemma render_table_block (line sep : jstring) (ls'' : list jstring) :
  is_table_start line (sep :: ls'') = true ->
  exists body rest,
    line :: sep :: ls'' = line :: sep :: body ++ rest /\
    table_body ls'' = (map splitMarkdownRow body, rest) /\
    starts_table (line :: sep :: body ++ rest) = true /\
    Forall (fun l => ends_table l = false) body /\ table_stops rest.
Proof.
  intros Ht. destruct (table_body_spec ls'') as (pre & Heq & Hrows & Hall & Hend).
  exists pre, (table_body ls'').2. rewrite <- Heq. repeat split; eauto with lmchat.
  rewrite <- Hrows. by destruct (table_body ls'').
Qed.

Lemma render_prose_block (line : jstring) (ls' : list jstring) :
  is_table_start line ls' = false ->
  exists run blanks rest,
    line :: ls' = line :: run ++ blanks ++ rest /\
    prose_lines false (line :: ls') = (line :: run, blanks ++ rest) /\
    skip_blank_lines (blanks ++ rest) = rest /\
    prose_continues run (blanks ++ rest) /\ prose_stops (blanks ++ rest) /\
    Forall (fun b => is_blank b = true) blanks /\ head_not_blank rest.
Proof.
  intros Ht. rewrite (prose_lines_first line ls' Ht).
  pose proof (prose_lines_app true ls') as Happ.
  pose proof (prose_lines_true_spec ls') as [Hc Hs].
  destruct (prose_lines true ls') as [acc rest1]. simpl in *.
  destruct (skip_blank_lines_suffix rest1) as (blanks & Hb & Hall).
  exists acc, blanks, (skip_blank_lines rest1).
  rewrite <- Hb, <- Happ. repeat split; eauto with lmchat.
Qed.

(** The renderer's output is the list of segments of a cut of the lines
    into blocks. *)
Lemma render_lines_blocks (ls : list jstring) :
  exists bs, blocks ls bs /\ render_lines ls = map block_segment bs.
Proof.
  remember (length ls) as n eqn:Hn. revert ls Hn.
  induction n as [n IH] using lt_wf_ind. intros ls ->.
  rewrite render_lines_unfold. destruct ls as [|line ls']; [exists []; split; constructor |].
  destruct (is_table_start line ls') eqn:Ht.
  - destruct ls' as [|sep ls''].
    { unfold is_table_start in Ht. by rewrite andb_false_r in Ht. }
    destruct (render_table_block line sep ls'' Ht) as (body & rest & Heq & Htb & Hst & Hall & Hstop).
    pose proof (render_step_table line (sep :: ls'')) as Hlen.
    change (drop 1 (sep :: ls'')) with (drop 0 ls'') in *. rewrite drop_0, Htb in *.
    simpl in Hlen.
    destruct (IH (length rest) Hlen rest eq_refl) as (bs & Hbs & Hr).
    exists (TableBlock line sep body :: bs). rewrite Heq, Hr. split; [by constructor | done].
  - destruct (render_prose_block line ls' Ht) as
      (run & blanks & rest & Heq & Hp & Hskip & Hc & Hs & Hbl & Hnb).
    pose proof (render_step_prose line ls' Ht) as Hlen.
    rewrite Hp in *. cbv beta iota in *. cbn [fst snd] in *. rewrite Hskip in *.
    injection Heq as ->.
    destruct (IH (length rest) Hlen rest eq_refl) as (bs & Hbs & Hr).
    exists (ProseBlock (line :: run) blanks :: bs). rewrite Hr. split; [by constructor | done].
Qed.

(** ** The relation is a function *)

(** A list cut into a prefix of lines satisfying [P] and a rest that does
    not start with one is cut at one place only. *)
Lemma maximal_prefix_unique {A} (P : A -> Prop) (p1 r1 p2 r2 : list A) :
  p1 ++ r1 = p2 ++ r2 -> Forall P p1 -> Forall P p2 ->
  (forall x r, r1 = x :: r -> ~ P x) -> (forall x r, r2 = x :: r -> ~ P x) -> p1 = p2.
Proof.
  revert p2. induction p1 as [|a p1 IH]; intros [|b p2] E H1 H2 S1 S2; simpl in E; [done | ..].
  - apply Forall_cons in H2 as [Hb _]. by destruct (S1 b (p2 ++ r2) E).
  - apply Forall_cons in H1 as [Ha _]. by destruct (S2 a (p1 ++ r1) (eq_sym E)).
  - injection E as -> E. apply Forall_cons in H1 as [_ H1]. apply Forall_cons in H2 as [_ H2].
    f_equal. by apply IH.
Qed.

(** The lines of a paragraph are determined: the first line that is blank
    or starts a table ends it. *)
Lemma prose_run_unique (run1 tail1 run2 tail2 : list jstring) :
  run1 ++ tail1 = run2 ++ tail2 ->
  prose_continues run1 tail1 -> prose_stops tail1 ->
  prose_continues run2 tail2 -> prose_stops tail2 -> run1 = run2.
Proof.
  revert run2. induction run1 as [|a run1 IH]; intros [|b run2] E C1 S1 C2 S2; simpl in *; [done | ..].
  - subst tail1. simpl in S1. destruct C2 as (Hb & Hs & _). destruct S1 as [? | ?]; congruence.
  - subst tail2. simpl in S2. destruct C1 as (Ha & Hs & _). destruct S2 as [? | ?]; congruence.
  - injection E as -> E. destruct C1 as (_ & _ & C1), C2 as (_ & _ & C2). f_equal. by apply IH.
Qed.

Lemma blocks_table_inv (ls : list jstring) (bs : list Block) :
  blocks ls bs -> starts_table ls = true ->
  exists h sep body rest bs', ls = h :: sep :: body ++ rest /\ bs = TableBlock h sep body :: bs' /\
    Forall (fun l => ends_table l = false) body /\ table_stops rest /\ blocks rest bs'.
Proof.
  destruct 1 as [| h sep body rest bs' _ Hall Hstop Hbs | l run blanks rest bs' Hst _ _ _ _ _];
    intros Ht; [done | by exists h, sep, body, rest, bs' | congruence].
Qed.

Lemma blocks_prose_inv (ls : list jstring) (bs : list Block) :
  blocks ls bs -> starts_table ls = false -> ls <> [] ->
  exists l run blanks rest bs', ls = l :: run ++ blanks ++ rest /\
    bs = ProseBlock (l :: run) blanks :: bs' /\
    prose_continues run (blanks ++ rest) /\ prose_stops (blanks ++ rest) /\
    Forall (fun b => is_blank b = true) blanks /\ head_not_blank rest /\ blocks rest bs'.
Proof.
  destruct 1 as [| h sep body rest bs' Hst _ _ _ | l run blanks rest bs' _ Hc Hs Hb Hnb Hbs];
    intros Ht Hne; [done | congruence | by exists l, run, blanks, rest, bs'].
Qed.

Lemma blocks_functional (ls : list jstring) (bs1 bs2 : list Block) :
  blocks ls bs1 -> blocks ls bs2 -> bs1 = bs2.
Proof.
  intros H1. revert bs2.
  induction H1 as [| h sep body rest bs Hst Hall Hstop _ IH
                   | l run blanks rest bs Hst Hc Hs Hb Hnb _ IH]; intros bs2 H2.
  - by inv_clear H2.
  - destruct (blocks_table_inv _ _ H2 Hst) as (h' & sep' & body' & rest' & bs' & E & -> & Hall' & Hstop' & Hbs').
    injection E as <- <- E.
    assert (body' = body) as ->.
    { apply (maximal_prefix_unique (fun l => ends_table l = false) _ rest' _ rest); try done;
        intros x r ->; simpl in *; congruence. }
    apply app_inv_head in E as ->. f_equal. by apply IH.
  - destruct (blocks_prose_inv _ _ H2 Hst ltac:(done))
      as (l' & run' & blanks' & rest' & bs' & E & -> & Hc' & Hs' & Hb' & Hnb' & Hbs').
    injection E as <- E.
    assert (run' = run) as -> by (by eapply prose_run_unique).
    apply app_inv_head in E.
    assert (blanks' = blanks) as ->.
    { apply (maximal_prefix_unique (fun b => is_blank b = true) _ rest' _ rest); try done;
        intros x r ->; simpl in *; congruence. }
    apply app_inv_head in E as ->. f_equal. by apply IH.
Qed.

(** C4: the renderer implements the two-state specification: the lines
    can be cut into blocks as the specification says, and for every such
    cut the renderer's output is the list of its segments. *)
Theorem render_refines (ls : list jstring) :
  (exists bs, blocks ls bs) /\
  forall bs, blocks ls bs -> render_lines ls = map block_segment bs.
Proof.
  destruct (render_lines_blocks ls) as (bs0 & H0 & Hr). split; [by exists bs0 |].
  intros bs Hbs. rewrite Hr. f_equal. by apply (blocks_functional ls).
Qed.

(** ** What the relation tells about the output *)

(** No line is lost: the blocks cut the text. *)
Lemma blocks_lines (ls : list jstring) (bs : list Block) :
  blocks ls bs -> ls = concat (map block_lines bs).
Proof.
  induction 1 as [| h sep body rest bs _ _ _ _ IH | l run blanks rest bs _ _ _ _ _ _ IH];
    simpl; [done | by rewrite <- IH |].
  rewrite <- IH. by rewrite <- !app_assoc.
Qed.

Lemma table_start_not_blank (l : jstring) (ls : list jstring) :
  starts_table (l :: ls) = true -> is_blank l = false.
Proof.
  unfold starts_table, is_table_start, is_blank. intros H.
  apply andb_true_iff in H as [H _]. apply bool_decide_eq_false_2.
  intros Ht. by rewrite Ht in H.
Qed.

Lemma prose_continues_no_start (run tail : list jstring) (i : nat) :
  prose_continues run tail -> (i < length run)%nat ->
  starts_table (drop i (run ++ tail)) = false.
Proof.
  revert i. induction run as [|l run' IH]; intros i Hc Hi; simpl in *; [lia |].
  destruct Hc as (_ & Hst & Hc'). destruct i as [|i]; [done |].
  apply IH; [done | lia].
Qed.

Lemma blanks_no_start (blanks rest : list jstring) (i : nat) :
  Forall (fun b => is_blank b = true) blanks -> (i < length blanks)%nat ->
  starts_table (drop i (blanks ++ rest)) = false.
Proof.
  revert i. induction blanks as [|b blanks' IH]; intros i Hall Hi; simpl in *; [lia |].
  inv_clear Hall. destruct i as [|i].
  - destruct (starts_table (b :: blanks' ++ rest)) eqn:Hs; [| done].
    apply table_start_not_blank in Hs. congruence.
  - apply IH; [done | lia].
Qed.

(** No table starts inside a paragraph block. *)
Lemma prose_block_no_start (l : jstring) (run blanks rest : list jstring) (i : nat) :
  starts_table (l :: run ++ blanks ++ rest) = false ->
  prose_continues run (blanks ++ rest) ->
  Forall (fun b => is_blank b = true) blanks ->
  (i < length (l :: run ++ blanks))%nat ->
  starts_table (drop i (l :: run ++ blanks ++ rest)) = false.
Proof.
  intros H0 Hc Hb Hi. destruct i as [|i]; [done |]. simpl in Hi |- *.
  rewrite length_app in Hi.
  destruct (decide (i < length run)%nat) as [Hlt | Hge].
  - by apply prose_continues_no_start.
  - rewrite drop_app_ge by lia. apply blanks_no_start; [done | lia].
Qed.

Lemma exists_drop_app {A} (P : list A -> bool) (pre rest : list A) :
  (forall i, (i < length pre)%nat -> P (drop i (pre ++ rest)) = false) ->
  (exists i, P (drop i (pre ++ rest)) = true) <-> (exists j, P (drop j rest) = true).
Proof.
  intros Hpre. split.
  - intros [i Hi]. destruct (decide (i < length pre)%nat) as [Hlt | Hge].
    + rewrite Hpre in Hi by done. discriminate.
    + exists (i - length pre)%nat. by rewrite drop_app_ge in Hi by lia.
  - intros [j Hj]. exists (length pre + j)%nat. by rewrite drop_app_add.
Qed.

Definition is_table_segment (s : Segment) : bool :=
  match s with
  | Table _ _ => true
  | Prose _ => false
  end.

Lemma blocks_has_table (ls : list jstring) (bs : list Block) :
  blocks ls bs ->
  existsb is_table_segment (map block_segment bs) = true <->
  exists i, starts_table (drop i ls) = true.
Proof.
  induction 1 as [| h sep body rest bs Hst _ _ _ IH
                  | l run blanks rest bs Hst Hc _ Hb _ _ IH]; simpl.
  - split; [done |]. intros [i Hi]. by rewrite drop_nil in Hi.
  - split; [intros _; by exists 0%nat | done].
  - rewrite IH. rewrite (app_assoc run blanks rest), app_comm_cons.
    symmetry. apply exists_drop_app. intros i Hi.
    rewrite <- app_comm_cons, <- app_assoc. by apply prose_block_no_start.
Qed.

(** C23: a reply is rendered with a table exactly when one of its lines
    starts a table (a line starting with a pipe followed by a separator
    line). *)
Theorem render_has_table_iff (raw : jstring) :
  existsb is_table_segment (renderMessageContentWithTables raw) = true <->
  exists i, starts_table (drop i (split_lines raw)) = true.
Proof.
  unfold renderMessageContentWithTables.
  destruct (render_lines_blocks (split_lines raw)) as (bs & Hbs & ->).
  by apply blocks_has_table.
Qed.

Lemma blocks_table_source (ls : list jstring) (bs : list Block) (header : list jstring)
    (rows : list (list jstring)) :
  blocks ls bs -> Table header rows ∈ map block_segment bs ->
  exists pre h sep body post,
    ls = pre ++ h :: sep :: body ++ post /\
    starts_table (h :: sep :: body ++ post) = true /\
    Forall (fun l => ends_table l = false) body /\
    header = splitMarkdownRow h /\ rows = map splitMarkdownRow body.
Proof.
  induction 1 as [| h sep body rest bs Hst Hall _ _ IH
                  | l run blanks rest bs _ _ _ _ _ _ IH]; simpl; intros Hin.
  - by apply not_elem_of_nil in Hin.
  - apply elem_of_cons in Hin as [Heq | Hin].
    + injection Heq as -> ->. by exists [], h, sep, body, rest.
    + destruct (IH Hin) as (pre & h' & sep' & body' & post & -> & ?).
      exists (h :: sep :: body ++ pre), h', sep', body', post.
      split; [simpl; by rewrite <- !app_assoc | done].
  - apply elem_of_cons in Hin as [Heq | Hin]; [discriminate |].
    destruct (IH Hin) as (pre & h' & sep' & body' & post & -> & ?).
    exists (l :: run ++ blanks ++ pre), h', sep', body', post.
    split; [simpl; by rewrite <- !app_assoc | done].
Qed.

(** C24: every rendered table comes from the text: its header is a line
    that starts a table (it starts with a pipe and the next line is a
    separator line), and its rows are
    the lines after it, each split as is (no padding to the header's
    width), none of them blank, a separator or without a leading pipe. *)
Theorem render_table_sound (raw : jstring) (header : list jstring)
    (rows : list (list jstring)) :
  Table header rows ∈ renderMessageContentWithTables raw ->
  exists pre h sep body post,
    split_lines raw = pre ++ h :: sep :: body ++ post /\
    starts_table (h :: sep :: body ++ post) = true /\
    Forall (fun l => ends_table l = false) body /\
    header = splitMarkdownRow h /\ rows = map splitMarkdownRow body.
Proof.
  unfold renderMessageContentWithTables. intros Hin.
  destruct (render_lines_blocks (split_lines raw)) as (bs & Hbs & Hr). rewrite Hr in Hin.
  by apply (blocks_table_source _ _ _ _ Hbs Hin).
Qed.

Lemma render_table_sound_witness :
  Table [js "a"] [[js "1"]] ∈
    renderMessageContentWithTables (‹"|a|"; "|-|"; "|1|"›) /\
  exists pre h sep body post,
    split_lines (‹"|a|"; "|-|"; "|1|"›) = pre ++ h :: sep :: body ++ post /\
    starts_table (h :: sep :: body ++ post) = true /\
    Forall (fun l => ends_table l = false) body /\
    [js "a"] = splitMarkdownRow h /\ [[js "1"]] = map splitMarkdownRow body.
Proof.
  assert (Hin : Table [js "a"] [[js "1"]] ∈
                  renderMessageContentWithTables (‹"|a|"; "|-|"; "|1|"›)).
  { vm_compute. apply list_elem_of_singleton. reflexivity. }
  split; [exact Hin | apply render_table_sound; exact Hin].
Defined.
