(* ===== verification/JsSort.v ===== *)
(** * [Array.prototype.sort] with a descending numeric comparator

    [main.ts] sorts sessions with [(a, b) => b.updatedAt - a.updatedAt]:
    descending by a numeric key.  Since ES2019 [Array.prototype.sort] is
    stable, and for a consistent comparator a stable sort has exactly one
    result.  The model is an insertion sort ([sort_desc]); the abstract
    specification [stable_sorted] says what any stable sort returns (sorted
    by descending key, and for each key the elements with that key in their
    original order); [sort_desc_stable] shows that the model meets it and
    [stable_sorted_unique] that nothing else does, so the model is the
    JavaScript result whatever algorithm the engine uses. *)

From S2P Require Import Prelude.

Section SortDesc.
Context {A : Type} (key : A -> Z).

(** Insert [x] before the first element whose key is at most [key x]:
    [x] comes from earlier in the array than all of [r], so it goes before
    the elements of equal key. *)
Fixpoint insert_desc (x : A) (r : list A) : list A :=
  match r with
  | [] => [x]
  | y :: r' => if Z.leb (key y) (key x) then x :: y :: r' else y :: insert_desc x r'
  end.

(** [arr.sort((a, b) => key(b) - key(a))] *)
Fixpoint sort_desc (l : list A) : list A :=
  match l with
  | [] => []
  | x :: l' => insert_desc x (sort_desc l')
  end.

(** ** The abstract specification of a stable sort *)

Fixpoint sorted_desc (l : list A) : Prop :=
  match l with
  | x :: ((y :: _) as r) => (key y <= key x)%Z /\ sorted_desc r
  | _ => True
  end.

Definition with_key (k : Z) (l : list A) : list A :=
  filter (fun x => bool_decide (key x = k)) l.

Definition stable_sorted (input output : list A) : Prop :=
  sorted_desc output /\ forall k, with_key k output = with_key k input.

(** ** Lemmas *)

Lemma sorted_desc_cons (x : A) (r : list A) :
  sorted_desc (x :: r) <-> (forall y, y ∈ r -> (key y <= key x)%Z) /\ sorted_desc r.
Proof.
  revert x. induction r as [|y r IH]; intros x.
  - split; [intros _; split; [intros y Hy; by apply not_elem_of_nil in Hy | done] | done].
  - change (sorted_desc (x :: y :: r)) with ((key y <= key x)%Z /\ sorted_desc (y :: r)).
    rewrite (IH y). split.
    + intros [Hxy [Hall Hr]]. split; [| done].
      intros z [->|Hz]%elem_of_cons; [done |]. specialize (Hall z Hz). lia.
    + intros [Hall Hr]. split; [apply Hall; by left |].
      destruct Hr as [Hr1 Hr2]. done.
Qed.

Lemma insert_desc_elem (x y : A) (r : list A) :
  y ∈ insert_desc x r <-> y = x \/ y ∈ r.
Proof.
  induction r as [|z r IH]; simpl; rewrite !elem_of_cons; [rewrite elem_of_nil; tauto |].
  destruct (Z.leb (key z) (key x)); rewrite ?elem_of_cons, ?IH; tauto.
Qed.

Lemma insert_desc_sorted (x : A) (r : list A) :
  sorted_desc r -> sorted_desc (insert_desc x r).
Proof.
  induction r as [|y r IH]; [done |]. simpl insert_desc.
  intros Hr. destruct (Z.leb_spec (key y) (key x)) as [Hle | Hgt].
  - apply sorted_desc_cons. split; [| done].
    intros z [->|Hz]%elem_of_cons; [done |].
    apply sorted_desc_cons in Hr as [Hall _]. specialize (Hall z Hz). lia.
  - apply sorted_desc_cons in Hr as [Hall Hr]. apply sorted_desc_cons. split; [| by apply IH].
    intros z [->|Hz]%insert_desc_elem; [lia | by apply Hall].
Qed.

Lemma with_key_insert_desc (k : Z) (x : A) (r : list A) :
  sorted_desc r -> with_key k (insert_desc x r) = with_key k (x :: r).
Proof.
  unfold with_key. induction r as [|y r IH]; intros Hr; [done |]. simpl insert_desc.
  destruct (Z.leb_spec (key y) (key x)) as [Hle | Hgt]; [done |].
  apply sorted_desc_cons in Hr as [_ Hr].
  rewrite filter_cons, IH by done. rewrite !filter_cons.
  repeat case_bool_decide; try done; lia.
Qed.

(** The model meets the specification. *)
Lemma sort_desc_stable (l : list A) : stable_sorted l (sort_desc l).
Proof.
  induction l as [|x l [IHs IHk]]; [done |]. simpl. split.
  - by apply insert_desc_sorted.
  - intros k. rewrite with_key_insert_desc by done. unfold with_key in *.
    rewrite !filter_cons. by rewrite IHk.
Qed.

Lemma with_key_nonempty (x : A) (l : list A) :
  x ∈ l -> with_key (key x) l <> [].
Proof.
  unfold with_key. intros Hx Hnil.
  assert (Hin : x ∈ filter (fun y => bool_decide (key y = key x)) l).
  { apply list_elem_of_filter. split; [by apply bool_decide_pack | done]. }
  rewrite Hnil in Hin. by apply not_elem_of_nil in Hin.
Qed.

Lemma with_key_elem (k : Z) (y : A) (l : list A) :
  y ∈ with_key k l -> y ∈ l /\ key y = k.
Proof.
  unfold with_key. intros [Hk Hy]%list_elem_of_filter.
  split; [done | by apply bool_decide_unpack in Hk].
Qed.

(** Two lists that are sorted and hold, key by key, the same elements in
    the same order have the same maximal key at their heads. *)
Lemma stable_heads_same_key (x y : A) (r1 r2 : list A) :
  sorted_desc (x :: r1) -> sorted_desc (y :: r2) ->
  (forall k, with_key k (x :: r1) = with_key k (y :: r2)) -> key x = key y.
Proof.
  intros H1 H2 Hk.
  apply sorted_desc_cons in H1 as [A1 _]. apply sorted_desc_cons in H2 as [A2 _].
  assert (Hy : exists z, z ∈ x :: r1 /\ key z = key y).
  { destruct (with_key (key y) (x :: r1)) as [|z zs] eqn:E.
    - rewrite Hk in E. exfalso. by apply (with_key_nonempty y (y :: r2)); [left |].
    - exists z. apply with_key_elem. rewrite E. by left. }
  assert (Hx : exists z, z ∈ y :: r2 /\ key z = key x).
  { destruct (with_key (key x) (y :: r2)) as [|z zs] eqn:E.
    - rewrite <- Hk in E. exfalso. by apply (with_key_nonempty x (x :: r1)); [left |].
    - exists z. apply with_key_elem. rewrite E. by left. }
  destruct Hy as (z1 & [->|Hz1]%elem_of_cons & E1);
  destruct Hx as (z2 & [->|Hz2]%elem_of_cons & E2); try lia.
  specialize (A1 z1 Hz1). specialize (A2 z2 Hz2). lia.
Qed.

(** A stable sort has exactly one result. *)
Lemma stable_sorted_unique (input out1 out2 : list A) :
  stable_sorted input out1 -> stable_sorted input out2 -> out1 = out2.
Proof.
  intros [S1 K1] [S2 K2].
  assert (Hk : forall k, with_key k out1 = with_key k out2) by (intros k; by rewrite K1, K2).
  clear K1 K2 input. revert out2 S1 S2 Hk.
  induction out1 as [|x r1 IH]; intros out2 S1 S2 Hk.
  - destruct out2 as [|y r2]; [done |]. exfalso.
    apply (with_key_nonempty y (y :: r2)); [by left |]. by rewrite <- Hk.
  - destruct out2 as [|y r2].
    { exfalso. apply (with_key_nonempty x (x :: r1)); [by left |]. by rewrite Hk. }
    pose proof (stable_heads_same_key x y r1 r2 S1 S2 Hk) as Hxy.
    pose proof (Hk (key x)) as Hx. unfold with_key in Hx. rewrite !filter_cons in Hx.
    rewrite !bool_decide_eq_true_2 in Hx by lia.
    injection Hx as <- Hrest. f_equal.
    apply IH; [by apply sorted_desc_cons in S1 as [_ ?] | by apply sorted_desc_cons in S2 as [_ ?] |].
    intros k. pose proof (Hk k) as Hk'. unfold with_key in *. rewrite !filter_cons in Hk'.
    case_bool_decide; [by injection Hk' | done].
Qed.

(** The specification characterises the model. *)
Lemma stable_sorted_iff (input output : list A) :
  stable_sorted input output <-> output = sort_desc input.
Proof.
  split.
  - intros H. eapply stable_sorted_unique; [exact H | apply sort_desc_stable].
  - intros ->. apply sort_desc_stable.
Qed.

Lemma sort_desc_permutation (l : list A) : sort_desc l ≡ₚ l.
Proof.
  induction l as [|x l IH]; [done |]. simpl. rewrite <- IH at 2.
  clear IH. induction (sort_desc l) as [|y r IHr]; simpl; [done |].
  destruct (Z.leb (key y) (key x)); [done |]. rewrite IHr. by constructor.
Qed.

End SortDesc.

(** Sorting references by the key of what they point to, then reading
    them, is sorting what they point to. *)
Lemma insert_desc_map {A B} (key : B -> Z) (f : A -> B) (x : A) (r : list A) :
  map f (insert_desc (fun a => key (f a)) x r) = insert_desc key (f x) (map f r).
Proof.
  induction r as [|y r IH]; [done |]. simpl.
  destruct (Z.leb (key (f y)) (key (f x))); simpl; [done |]. by rewrite IH.
Qed.

Lemma sort_desc_map {A B} (key : B -> Z) (f : A -> B) (l : list A) :
  map f (sort_desc (fun a => key (f a)) l) = sort_desc key (map f l).
Proof.
  induction l as [|x l IH]; [done |]. simpl. by rewrite insert_desc_map, IH.
Qed.
