(* ===== verification/Session.v ===== *)
(** * The data of [main.ts]: messages, sessions, settings and constants

    [Message], [ChatSession] and [Settings] are the interfaces of
    [src/src/main.ts] lines 3-25, one record each (a [Module] per record
    keeps the field names of the source: both [Message] and [ChatSession]
    have a [createdAt]).  Timestamps ([Date.now()]) are integers, [number]
    with no fractional part, as [Z].  The file also holds the string
    constants of the source, the title rule of [handleSend], the session
    id of [createNewSession], and the recency sort of the session list. *)

From S2P Require Import Prelude JsString JsNumber JsSort.
From Stdlib Require Import QArith.

Open Scope N_scope.

(** [type Role = "user" | "assistant"] *)
Inductive Role := User | Assistant.

#[export] Instance Role_eq_dec : EqDecision Role.
Proof. solve_decision. Defined.

Module Message.
(** [interface Message] *)
Record t := mk { role : Role; content : jstring; createdAt : Z }.
End Message.

Module ChatSession.
(** [interface ChatSession] *)
Record t := mk {
  id : jstring;
  title : jstring;
  messages : list Message.t;
  createdAt : Z;
  updatedAt : Z
}.
End ChatSession.

#[export] Instance Message_eq_dec : EqDecision Message.t.
Proof. solve_decision. Defined.

#[export] Instance ChatSession_eq_dec : EqDecision ChatSession.t.
Proof. solve_decision. Defined.

(** [interface Settings]; [temperature] is a [number] read from user
    input, kept as a rational. *)
Record Settings := mkSettings {
  apiBaseUrl : jstring;
  modelId : jstring;
  systemPrompt : jstring;
  temperature : Q;
  maxTokens : option Z
}.

(** ** String constants of [main.ts] *)

Definition SETTINGS_KEY : jstring := js "lmstudio_webchat_settings_v1".
Definition SESSIONS_KEY : jstring := js "lmstudio_webchat_sessions_v1".

(** The two keys of [localStorage] differ. *)
Lemma SETTINGS_KEY_ne : SETTINGS_KEY <> SESSIONS_KEY.
Proof. decide_by_eval. Qed.

(** "新しいチャット" *)
Definition NEW_CHAT_TITLE : jstring := [26032; 12375; 12356; 12481; 12515; 12483; 12488].

(** "無題のチャット" *)
Definition UNTITLED_TITLE : jstring := [28961; 38988; 12398; 12481; 12515; 12483; 12488].

(** "（LM Studio からの応答が取得できませんでした）" *)
Definition NO_REPLY_TEXT : jstring :=
  [65288; 76; 77; 32; 83; 116; 117; 100; 105; 111; 32; 12363; 12425; 12398;
   24540; 31572; 12364; 21462; 24471; 12391; 12365; 12414; 12379; 12435;
   12391; 12375; 12383; 65289].

(** The diagnostic appended when the request fails (lines 660-663). *)
Definition ERROR_REPLY_TEXT : jstring :=
  [76; 77; 32; 83; 116; 117; 100; 105; 111; 32; 12408; 12398; 12522; 12463;
   12456; 12473; 12488; 12391; 12456; 12521; 12540; 12364; 30330; 29983;
   12375; 12414; 12375; 12383; 12290; 10; 12539; 76; 77; 32; 83; 116; 117;
   100; 105; 111; 32; 12398; 12469; 12540; 12496; 12540; 12364; 36215;
   21205; 12375; 12390; 12356; 12427; 12363; 10; 12539; 12300; 67; 79; 82;
   83; 32; 12434; 26377; 21177; 12395; 12377; 12427; 12301; 12364; 32; 79;
   78; 32; 12363; 10; 12539; 65; 80; 73; 32; 12505; 12540; 12473; 85; 82;
   76; 12392; 12514; 12487; 12523; 73; 68; 12364; 27491; 12375; 12356;
   12363; 10; 12434; 30906; 35469; 12375; 12390; 12367; 12384; 12373;
   12356; 12290].

(** [DEFAULT_SETTINGS] *)
Definition DEFAULT_SETTINGS : Settings := {|
  apiBaseUrl := js "http://localhost:1234/v1";
  modelId := js "mistralai/ministral-3-3b";
  systemPrompt := [12354; 12394; 12383; 12399; 26085; 26412; 35486; 12391;
                   19969; 23527; 12395; 22238; 31572; 12377; 12427; 12450;
                   12471; 12473; 12479; 12531; 12488; 12391; 12377; 12290];
  temperature := 7 # 10;
  maxTokens := None
|}.

(** ** Session ids *)

Fixpoint uint_units (d : Decimal.uint) : jstring :=
  match d with
  | Decimal.Nil => []
  | Decimal.D0 d => 48 :: uint_units d
  | Decimal.D1 d => 49 :: uint_units d
  | Decimal.D2 d => 50 :: uint_units d
  | Decimal.D3 d => 51 :: uint_units d
  | Decimal.D4 d => 52 :: uint_units d
  | Decimal.D5 d => 53 :: uint_units d
  | Decimal.D6 d => 54 :: uint_units d
  | Decimal.D7 d => 55 :: uint_units d
  | Decimal.D8 d => 56 :: uint_units d
  | Decimal.D9 d => 57 :: uint_units d
  end.

(** [`${n}`] for an integral [number]. *)
Definition number_to_string (z : Z) : jstring :=
  match z with
  | Z0 => [48]
  | Zpos p => uint_units (N.to_uint (Npos p))
  | Zneg p => 45 :: uint_units (N.to_uint (Npos p))
  end.

(** [`session_${now}_${Math.random().toString(36).slice(2, 8)}`]: the
    random suffix is an input. *)
Definition session_id (now : Z) (rnd : jstring) : jstring :=
  js "session_" ++ number_to_string now ++ [95] ++ rnd.

(** ** The title of a session after its first message *)

(** [text.replace(/\s+/g, " ").slice(0, 30) || "新しいチャット"] *)
Definition first_message_title (text : jstring) : jstring :=
  take 30 (collapse_spaces text) ||| NEW_CHAT_TITLE.

(** ** Recency order *)

(** [sessions.sort((a, b) => b.updatedAt - a.updatedAt)] on session
    values. *)
Definition sort_by_recency (l : list ChatSession.t) : list ChatSession.t :=
  sort_desc ChatSession.updatedAt l.

(** [session.title || "無題のチャット"]: the title a list item shows. *)
Definition display_title (s : ChatSession.t) : jstring :=
  ChatSession.title s ||| UNTITLED_TITLE.

(** ** The title rule *)

(** ** Decimal digits of [number_to_string] *)

Lemma uint_units_digits (d : Decimal.uint) : Forall (fun c => is_digit c = true) (uint_units d).
Proof. induction d; simpl; by constructor. Qed.

Lemma forallb_Forall_eq {A} (f : A -> bool) (l : list A) :
  Forall (fun x => f x = true) l -> forallb f l = true.
Proof. induction 1; simpl; [done |]. by apply andb_true_intro. Qed.

Lemma digits_value_acc (d : Decimal.uint) (acc : positive) :
  fold_left (fun acc c => (acc * 10 + Z.of_N (c - 48))%Z) (uint_units d) (Zpos acc) =
  Zpos (Pos.of_uint_acc d acc).
Proof. revert acc. induction d; intros acc; simpl; [done | ..]; rewrite <- IHd; f_equal; lia. Qed.

(** The digits of [Pos.to_uint] read back as the number. *)
Lemma digits_value_uint (d : Decimal.uint) : digits_value (uint_units d) = Z.of_N (Pos.of_uint d).
Proof.
  unfold digits_value. induction d; simpl; [done | exact IHd | ..];
    rewrite <- digits_value_acc; f_equal.
Qed.

(** The placeholder of the title rule never applies: for a non-empty
    text, as [handleSend] passes it (trimmed, empty texts are refused
    before), the title is the first 30 code units of the collapsed text. *)
Theorem first_message_title_no_fallback (text : jstring) :
  text <> [] -> first_message_title text = take 30 (collapse_spaces text).
Proof.
  intros Hne. unfold first_message_title. apply js_or_nonempty.
  pose proof (collapse_spaces_nonempty text Hne) as Hc.
  destruct (collapse_spaces text); [done |]. simpl. discriminate.
Qed.

(** A derived title has at most 30 UTF-16 code units. *)
Theorem first_message_title_length (text : jstring) :
  (length (first_message_title text) <= 30)%nat.
Proof.
  unfold first_message_title, js_or.
  destruct (take 30 (collapse_spaces text)) eqn:E.
  - simpl. lia.
  - rewrite <- E, length_take. lia.
Qed.

(** The title is cut after 30 code units, not 30 characters: a
    character outside the Basic Multilingual Plane at positions 30-31 is
    cut in half and the title ends with a lone high surrogate. *)
Theorem first_message_title_cuts_surrogate_pair :
  first_message_title (repeat 97 29 ++ [55357; 56832]) = repeat 97 29 ++ [55357].
Proof. vm_compute. reflexivity. Qed.
