(* ===== verification/Json.v ===== *)
(** * ECMAScript built-ins: [JSON.parse] and [JSON.stringify]

    [localStorage] holds strings: [saveSessions] writes
    [JSON.stringify(sessions)] and [loadSessions] reads the string back with
    [JSON.parse] ([src/src/main.ts] lines 95-123).  This file writes out
    both built-ins after the ECMAScript specification (§25.5) and the JSON
    grammar (ECMA-404), on strings of UTF-16 code units ([jstring]).  A JSON
    value is [json]; a number is kept as the exact decimal [m * 10^e] its
    literal denotes (the rounding to binary64 is not modelled, as in
    [JsNumber]).  [parse_value] is a recursive-descent parser on fuel;
    [json_parse] gives it [2 * length s + 1], which [parse_value_fuel] shows
    is always enough.  [json_text] is [SerializeJSONProperty] without
    indentation: objects with their keys in order, [QuoteJSONString] with
    the escapes of ES2019 (lone surrogates as [\uXXXX]), and
    [Number::toString].  [json_parse_text]: [JSON.parse] reads back every
    value [JSON.stringify] writes whose numbers are integers below [10^21]
    (printed as their digits).  Library code, not code of the repository. *)

From S2P Require Import Prelude JsString JsNumber Session.
From Stdlib Require DecimalFacts DecimalPos.

Open Scope N_scope.

(** A JSON value; an object is the list of its members in text order. *)
Inductive json :=
| JNull
| JBool (b : bool)
| JNum (m : Z) (e : Z)          (** the number [m * 10^e] *)
| JStr (s : jstring)
| JArr (l : list json)
| JObj (l : list (jstring * json)).

(** ** [JSON.parse] *)

(** The white space of the JSON grammar: tab, LF, CR, space. *)
Definition is_json_ws (c : N) : bool := (c =? 9) || (c =? 10) || (c =? 13) || (c =? 32).

Fixpoint skip_ws (s : jstring) : jstring :=
  match s with
  | c :: s' => if is_json_ws c then skip_ws s' else s
  | [] => []
  end.

(** The value of a hexadecimal digit, either case. *)
Definition hex_value (c : N) : option N :=
  if (48 <=? c) && (c <=? 57) then Some (c - 48)
  else if (97 <=? c) && (c <=? 102) then Some (c - 87)
  else if (65 <=? c) && (c <=? 70) then Some (c - 55)
  else None.

Definition hex4_value (h1 h2 h3 h4 : N) : option N :=
  match hex_value h1, hex_value h2, hex_value h3, hex_value h4 with
  | Some a, Some b, Some c, Some d => Some (((a * 16 + b) * 16 + c) * 16 + d)
  | _, _, _, _ => None
  end.

(** The one-letter escapes: a backslash followed by a quote, a backslash,
    a slash, or one of b, f, n, r, t. *)
Definition escape_char (e : N) : option N :=
  if e =? 34 then Some 34 else if e =? 92 then Some 92 else if e =? 47 then Some 47
  else if e =? 98 then Some 8 else if e =? 102 then Some 12 else if e =? 110 then Some 10
  else if e =? 114 then Some 13 else if e =? 116 then Some 9 else None.

(** The characters of a string after its opening quote, up to and
    without the closing one; a control character or a bad escape is a
    [SyntaxError]. *)
Fixpoint parse_chars (s : jstring) : option (jstring * jstring) :=
  match s with
  | [] => None
  | c :: s' =>
      if c =? 34 then Some ([], s')
      else if c =? 92 then
        match s' with
        | e :: r =>
            if e =? 117 then
              match r with
              | h1 :: h2 :: h3 :: h4 :: r' =>
                  match hex4_value h1 h2 h3 h4, parse_chars r' with
                  | Some u, Some (t, r'') => Some (u :: t, r'')
                  | _, _ => None
                  end
              | _ => None
              end
            else
              match escape_char e, parse_chars r with
              | Some u, Some (t, r') => Some (u :: t, r')
              | _, _ => None
              end
        | [] => None
        end
      else if c <? 32 then None
      else match parse_chars s' with
           | Some (t, r') => Some (c :: t, r')
           | None => None
           end
  end.

(** A non-empty run of digits, and the rest. *)
Definition digits1 (s : jstring) : option (jstring * jstring) :=
  match span_digits s with
  | ([], _) => None
  | (d, r) => Some (d, r)
  end.

(** The sign of an exponent, and the rest. *)
Definition exponent_sign (s : jstring) : Z * jstring :=
  match s with
  | c :: r => if c =? 45 then ((-1)%Z, r) else if c =? 43 then (1%Z, r) else (1%Z, s)
  | [] => (1%Z, s)
  end.

(** [-? (0 | [1-9][0-9]* ) (. [0-9]+)? ([eE] [+-]? [0-9]+)?] *)
Definition parse_number (s : jstring) : option (json * jstring) :=
  let '(neg, s1) := match s with
                    | c :: r => if c =? 45 then (true, r) else (false, s)
                    | [] => (false, s)
                    end in
  let int_part :=
    match s1 with
    | c :: r => if c =? 48 then Some ([48], r)
                else if (49 <=? c) && (c <=? 57) then digits1 s1 else None
    | [] => None
    end in
  match int_part with
  | None => None
  | Some (d, r1) =>
      let frac :=
        match r1 with
        | c :: r => if c =? 46 then digits1 r else Some ([], r1)
        | [] => Some ([], r1)
        end in
      match frac with
      | None => None
      | Some (f, r2) =>
          let exp :=
            match r2 with
            | c :: r =>
                if (c =? 101) || (c =? 69) then
                  let '(sign, r') := exponent_sign r in
                  match digits1 r' with
                  | Some (x, r'') => Some ((sign * digits_value x)%Z, r'')
                  | None => None
                  end
                else Some (0%Z, r2)
            | [] => Some (0%Z, r2)
            end in
          match exp with
          | None => None
          | Some (x, r3) =>
              let m := digits_value (d ++ f) in
              Some (JNum (if neg then (- m)%Z else m) (x - Z.of_nat (length f))%Z, r3)
          end
      end
  end.

(** [true], [false], [null]: the rest of the word after its first letter. *)
Definition after_word (w : jstring) (s : jstring) : option jstring :=
  if is_prefix w s then Some (drop (length w) s) else None.

(** A value after optional white space, and the rest; [None] is a
    [SyntaxError] (or fuel run out, which [parse_value_fuel] excludes). *)
Fixpoint parse_value (fuel : nat) (s : jstring) : option (json * jstring) :=
  match fuel with
  | O => None
  | S f =>
      match skip_ws s with
      | [] => None
      | c :: r =>
          if c =? 34 then
            match parse_chars r with Some (t, r') => Some (JStr t, r') | None => None end
          else if c =? 91 then
            match skip_ws r with
            | d :: r' => if d =? 93 then Some (JArr [], r') else parse_elements f r []
            | [] => None
            end
          else if c =? 123 then
            match skip_ws r with
            | d :: r' => if d =? 125 then Some (JObj [], r') else parse_members f r []
            | [] => None
            end
          else if c =? 110 then (fun r' => (JNull, r')) <$> after_word [117; 108; 108] r
          else if c =? 116 then (fun r' => (JBool true, r')) <$> after_word [114; 117; 101] r
          else if c =? 102 then (fun r' => (JBool false, r')) <$> after_word [97; 108; 115; 101] r
          else parse_number (c :: r)
      end
  end
(** The elements of an array after its opening bracket, the ones read so
    far in [acc]. *)
with parse_elements (fuel : nat) (s : jstring) (acc : list json) : option (json * jstring) :=
  match fuel with
  | O => None
  | S f =>
      match parse_value f s with
      | Some (v, r) =>
          match skip_ws r with
          | d :: r' =>
              if d =? 44 then parse_elements f r' (acc ++ [v])
              else if d =? 93 then Some (JArr (acc ++ [v]), r')
              else None
          | [] => None
          end
      | None => None
      end
  end
(** The members of an object after its opening brace. *)
with parse_members (fuel : nat) (s : jstring) (acc : list (jstring * json)) : option (json * jstring) :=
  match fuel with
  | O => None
  | S f =>
      match skip_ws s with
      | c :: r =>
          if c =? 34 then
            match parse_chars r with
            | Some (k, r1) =>
                match skip_ws r1 with
                | d :: r2 =>
                    if d =? 58 then
                      match parse_value f r2 with
                      | Some (v, r3) =>
                          match skip_ws r3 with
                          | e :: r4 =>
                              if e =? 44 then parse_members f r4 (acc ++ [(k, v)])
                              else if e =? 125 then Some (JObj (acc ++ [(k, v)]), r4)
                              else None
                          | [] => None
                          end
                      | None => None
                      end
                    else None
                | [] => None
                end
            | None => None
            end
          else None
      | [] => None
      end
  end.

(** [JSON.parse(s)]: one value and nothing but white space after it;
    [None] is the [SyntaxError] it throws. *)
Definition json_parse (s : jstring) : option json :=
  match parse_value (S (2 * length s)) s with
  | Some (v, r) => match skip_ws r with [] => Some v | _ => None end
  | None => None
  end.

(** The property [k] of a parsed object, [None] for [undefined]: the
    last member of that name wins. *)
Fixpoint json_lookup (k : jstring) (l : list (jstring * json)) : option json :=
  match l with
  | [] => None
  | (k', v) :: l' =>
      match json_lookup k l' with
      | Some v' => Some v'
      | None => if decide (k = k') then Some v else None
      end
  end.

(** ** [JSON.stringify] *)

Definition hex_digit (d : N) : N := if d <? 10 then 48 + d else 87 + d.

(** [UnicodeEscape(C)]: a backslash, [u], and four lowercase hexadecimal
    digits. *)
Definition unicode_escape (c : N) : jstring :=
  [92; 117; hex_digit (c / 4096 mod 16); hex_digit (c / 256 mod 16);
   hex_digit (c / 16 mod 16); hex_digit (c mod 16)].

Definition is_high_surrogate (c : N) : bool := (55296 <=? c) && (c <=? 56319).
Definition is_low_surrogate (c : N) : bool := (56320 <=? c) && (c <=? 57343).

(** One code point that is no surrogate: the escapes of Table 74
    (backspace, tab, LF, form feed, CR, quote, backslash), the other
    control characters as [UnicodeEscape], the rest as is. *)
Definition escape_unit (c : N) : jstring :=
  if c =? 8 then [92; 98] else if c =? 9 then [92; 116] else if c =? 10 then [92; 110]
  else if c =? 12 then [92; 102] else if c =? 13 then [92; 114]
  else if c =? 34 then [92; 34] else if c =? 92 then [92; 92]
  else if c <? 32 then unicode_escape c else [c].

(** [QuoteJSONString] on the code points of the string: a surrogate pair
    is copied, a lone surrogate escaped. *)
Fixpoint quote_units (s : jstring) : jstring :=
  match s with
  | [] => []
  | c :: s' =>
      if is_high_surrogate c then
        match s' with
        | d :: s'' => if is_low_surrogate d then c :: d :: quote_units s'' else unicode_escape c ++ quote_units s'
        | [] => unicode_escape c
        end
      else if is_low_surrogate c then unicode_escape c ++ quote_units s'
      else escape_unit c ++ quote_units s'
  end.

Definition quote (s : jstring) : jstring := [34] ++ quote_units s ++ [34].

Fixpoint drop_zeros (s : jstring) : jstring :=
  match s with
  | c :: s' => if c =? 48 then drop_zeros s' else s
  | [] => []
  end.

(** The decimal digits of [p] without its trailing zeros. *)
Definition significant_digits (p : positive) : jstring :=
  rev (drop_zeros (rev (uint_units (Pos.to_uint p)))).

(** [Number::toString] (§6.1.6.1.20) for the positive value [p * 10^e]:
    [k] significant digits, the point after [n] of them. *)
Definition positive_text (p : positive) (e : Z) : jstring :=
  let sd := significant_digits p in
  let k := Z.of_nat (length sd) in
  let n := (Z.of_nat (length (uint_units (Pos.to_uint p))) + e)%Z in
  if (k <=? n)%Z && (n <=? 21)%Z then sd ++ repeat 48 (Z.to_nat (n - k))
  else if (0 <? n)%Z && (n <=? 21)%Z then take (Z.to_nat n) sd ++ [46] ++ drop (Z.to_nat n) sd
  else if (-6 <? n)%Z && (n <=? 0)%Z then [48; 46] ++ repeat 48 (Z.to_nat (- n)) ++ sd
  else
    let exp := (if (0 <=? n - 1)%Z then [43] else [45]) ++ number_to_string (Z.abs (n - 1)) in
    match sd with
    | [d] => [d; 101] ++ exp
    | d :: rest => [d; 46] ++ rest ++ [101] ++ exp
    | [] => exp
    end.

(** [Number::toString] of [m * 10^e]; an integer below [10^21] in
    absolute value is its decimal digits. *)
Definition number_text (m e : Z) : jstring :=
  if (0 <=? e)%Z && (Z.abs (m * 10 ^ e) <? 10 ^ 21)%Z then number_to_string (m * 10 ^ e)
  else match m with
       | Z0 => [48]
       | Zpos p => positive_text p e
       | Zneg p => 45 :: positive_text p e
       end.

(** [SerializeJSONProperty] with no indentation: [\[], the elements
    separated by commas, [\]]; [{], the members [key:value] separated by
    commas, [}]. *)
Fixpoint json_text (v : json) : jstring :=
  match v with
  | JNull => [110; 117; 108; 108]
  | JBool true => [116; 114; 117; 101]
  | JBool false => [102; 97; 108; 115; 101]
  | JNum m e => number_text m e
  | JStr s => quote s
  | JArr l => [91] ++ join [44] (map json_text l) ++ [93]
  | JObj l => [123] ++ join [44] (map (fun kv => quote kv.1 ++ [58] ++ json_text kv.2) l) ++ [125]
  end.

(** ** Strings round-trip *)

Lemma hex_digit_value (d : N) : d < 16 -> hex_value (hex_digit d) = Some d.
Proof.
  intros Hd. unfold hex_digit, hex_value.
  destruct (N.ltb_spec d 10).
  - replace ((48 <=? 48 + d) && (48 + d <=? 57)) with true by (symmetry; apply andb_true_iff; split; apply N.leb_le; lia).
    f_equal. lia.
  - replace ((48 <=? 87 + d) && (87 + d <=? 57)) with false by (symmetry; apply andb_false_iff; right; apply N.leb_gt; lia).
    replace ((97 <=? 87 + d) && (87 + d <=? 102)) with true by (symmetry; apply andb_true_iff; split; apply N.leb_le; lia).
    f_equal. lia.
Qed.

Lemma hex4_unicode (c : N) :
  c < 65536 ->
  hex4_value (hex_digit (c / 4096 mod 16)) (hex_digit (c / 256 mod 16))
             (hex_digit (c / 16 mod 16)) (hex_digit (c mod 16)) = Some c.
Proof.
  intros Hc. unfold hex4_value. rewrite !hex_digit_value by (apply N.mod_lt; lia).
  f_equal.
  replace (c / 4096) with (c / 16 / 16 / 16) by (rewrite !N.Div0.div_div; reflexivity).
  replace (c / 256) with (c / 16 / 16) by (rewrite !N.Div0.div_div; reflexivity).
  pose proof (N.div_mod' c 16) as E1. pose proof (N.div_mod' (c / 16) 16) as E2.
  pose proof (N.div_mod' (c / 16 / 16) 16) as E3.
  assert (Hd : c / 16 / 16 / 16 < 16) by (rewrite !N.Div0.div_div; apply N.Div0.div_lt_upper_bound; lia).
  rewrite (N.mod_small (c / 16 / 16 / 16) 16 Hd). lia.
Qed.

(** [parse_chars] on a code unit it copies. *)
Lemma parse_chars_plain (c : N) (r : jstring) :
  (c =? 34) = false -> (c =? 92) = false -> (c <? 32) = false ->
  parse_chars (c :: r) = match parse_chars r with Some (t, r') => Some (c :: t, r') | None => None end.
Proof. intros H1 H2 H3. cbn [parse_chars]. by rewrite H1, H2, H3. Qed.

Lemma parse_chars_unicode_escape (c : N) (r : jstring) :
  c < 65536 ->
  parse_chars (unicode_escape c ++ r) = match parse_chars r with Some (t, r') => Some (c :: t, r') | None => None end.
Proof. intros Hc. unfold unicode_escape. cbn [app parse_chars]. cbn -[hex4_value hex_digit parse_chars]. by rewrite hex4_unicode. Qed.

Lemma parse_chars_escape_unit (c : N) (r : jstring) :
  is_high_surrogate c = false -> is_low_surrogate c = false ->
  parse_chars (escape_unit c ++ r) = match parse_chars r with Some (t, r') => Some (c :: t, r') | None => None end.
Proof.
  intros Hh Hl. unfold escape_unit.
  destruct (N.eqb_spec c 8) as [-> | H8]; [done |]. destruct (N.eqb_spec c 9) as [-> | H9]; [done |].
  destruct (N.eqb_spec c 10) as [-> | H10]; [done |]. destruct (N.eqb_spec c 12) as [-> | H12]; [done |].
  destruct (N.eqb_spec c 13) as [-> | H13]; [done |]. destruct (N.eqb_spec c 34) as [-> | H34]; [done |].
  destruct (N.eqb_spec c 92) as [-> | H92]; [done |].
  destruct (N.ltb_spec c 32) as [H32 | H32]; [apply parse_chars_unicode_escape; lia |].
  apply parse_chars_plain; [by apply N.eqb_neq | by apply N.eqb_neq | by apply N.ltb_ge].
Qed.

Lemma surrogate_plain (c : N) (r : jstring) :
  is_high_surrogate c || is_low_surrogate c = true ->
  parse_chars (c :: r) = match parse_chars r with Some (t, r') => Some (c :: t, r') | None => None end.
Proof.
  unfold is_high_surrogate, is_low_surrogate. intros H.
  assert (55296 <= c) by (apply orb_true_iff in H as [H | H]; apply andb_true_iff in H as [H _]; apply N.leb_le in H; lia).
  apply parse_chars_plain; [apply N.eqb_neq; lia | apply N.eqb_neq; lia | apply N.ltb_ge; lia].
Qed.

Lemma surrogate_bound (c : N) : is_high_surrogate c || is_low_surrogate c = true -> c < 65536.
Proof.
  unfold is_high_surrogate, is_low_surrogate. intros H.
  apply orb_true_iff in H as [H | H]; apply andb_true_iff in H as [_ H]; apply N.leb_le in H; lia.
Qed.

(** [JSON.parse] reads back the string [JSON.stringify] quoted, lone
    surrogates included. *)
Lemma parse_chars_quote (s rest : jstring) : parse_chars (quote_units s ++ 34 :: rest) = Some (s, rest).
Proof.
  induction s as [s IH] using (induction_ltof1 _ (@length N)); unfold ltof in IH.
  destruct s as [| c s']; [done |]. cbn [quote_units].
  destruct (is_high_surrogate c) eqn:Hh.
  - destruct s' as [| d s''].
    + rewrite parse_chars_unicode_escape by (apply surrogate_bound; by rewrite Hh). done.
    + destruct (is_low_surrogate d) eqn:Hl.
      * cbn [app]. rewrite surrogate_plain by (by rewrite Hh). rewrite surrogate_plain by (by rewrite Hl, orb_true_r).
        rewrite IH by (cbn; lia). done.
      * rewrite <- app_assoc, parse_chars_unicode_escape by (apply surrogate_bound; by rewrite Hh).
        rewrite IH by (cbn; lia). done.
  - destruct (is_low_surrogate c) eqn:Hl.
    + rewrite <- app_assoc, parse_chars_unicode_escape by (apply surrogate_bound; by rewrite Hl, orb_true_r).
      rewrite IH by (cbn; lia). done.
    + rewrite <- app_assoc, parse_chars_escape_unit by done. rewrite IH by (cbn; lia). done.
Qed.

(** ** Integers round-trip *)

(** What may follow a number in the text: no digit, point or exponent. *)
Definition number_end (rest : jstring) : bool :=
  match rest with
  | c :: _ => negb (is_digit c || (c =? 46) || (c =? 101) || (c =? 69))
  | [] => true
  end.

(** [Pos.to_uint] has no leading zero. *)
Lemma uint_units_lead (p : positive) :
  exists c r, uint_units (Pos.to_uint p) = c :: r /\ 49 <= c <= 57.
Proof.
  assert (Hn : Pos.to_uint p = Decimal.unorm (Pos.to_uint p)).
  { rewrite <- DecimalPos.Unsigned.to_of, DecimalPos.Unsigned.of_to. reflexivity. }
  pose proof (DecimalPos.Unsigned.to_uint_nonzero p) as Hz.
  destruct (Pos.to_uint p) as [| d | d | d | d | d | d | d | d | d | d] eqn:E;
    try (eexists _, _; split; [reflexivity | lia]).
  - by destruct (DecimalPos.Unsigned.to_uint_nonnil p).
  - exfalso. rewrite DecimalFacts.unorm_D0 in Hn.
    destruct (Decimal.nzhead d) eqn:Hd;
      [apply DecimalFacts.unorm_0 in Hd; rewrite Hd in Hn; injection Hn as ->; by apply Hz |..];
      rewrite DecimalFacts.unorm_nzhead in Hn by (by rewrite Hd);
      apply (DecimalFacts.nzhead_nonzero d d); by rewrite Hn.
Qed.

Lemma number_end_digits (rest : jstring) : number_end rest = true ->
  match rest with c :: _ => is_digit c = false | [] => True end.
Proof. destruct rest as [| c r]; [done |]. cbn. by intros [[[-> _]%orb_false_iff _]%orb_false_iff _]%negb_true_iff%orb_false_iff. Qed.

(** After the digits of an integer part, no fraction and no exponent:
    [parse_number] stops at [rest]. *)
Ltac number_tail rest Hend :=
  let c := fresh "c" in let r := fresh "r" in
  destruct rest as [| c r]; cbn -[digits_value];
  [| apply negb_true_iff, orb_false_iff in Hend as [[[_ H46]%orb_false_iff H101]%orb_false_iff H69];
     rewrite H46, H101, H69; cbn -[digits_value]];
  rewrite ?app_nil_r.

Lemma digits_value_pos (p : positive) : digits_value (uint_units (Pos.to_uint p)) = Zpos p.
Proof. rewrite digits_value_uint, DecimalPos.Unsigned.of_to. reflexivity. Qed.

(** [JSON.parse] reads back the decimal digits of an integer. *)
Lemma parse_number_int (z : Z) (rest : jstring) :
  number_end rest = true -> parse_number (number_to_string z ++ rest) = Some (JNum z 0, rest).
Proof.
  intros Hend. pose proof (number_end_digits _ Hend) as Hnd.
  destruct z as [| p | p].
  - unfold parse_number. cbn. number_tail rest Hend; done.
  - unfold number_to_string. change (N.to_uint (Npos p)) with (Pos.to_uint p).
    destruct (uint_units_lead p) as (c & r & Hds & Hc).
    pose proof (uint_units_digits (Pos.to_uint p)) as Hdig. rewrite Hds in Hdig |- *.
    unfold parse_number. cbn [app].
    rewrite (proj2 (N.eqb_neq c 45)) by lia. rewrite (proj2 (N.eqb_neq c 48)) by lia.
    replace ((49 <=? c) && (c <=? 57)) with true by (symmetry; apply andb_true_iff; split; apply N.leb_le; lia).
    unfold digits1. change (span_digits (c :: r ++ rest)) with (span_digits ((c :: r) ++ rest)).
    rewrite (span_digits_app (c :: r) rest) by (done || by apply forallb_Forall_eq).
    number_tail rest Hend; by rewrite <- Hds, digits_value_pos.
  - unfold number_to_string. change (N.to_uint (Npos p)) with (Pos.to_uint p).
    destruct (uint_units_lead p) as (c & r & Hds & Hc).
    pose proof (uint_units_digits (Pos.to_uint p)) as Hdig. rewrite Hds in Hdig |- *.
    unfold parse_number. cbn [app]. rewrite N.eqb_refl.
    rewrite (proj2 (N.eqb_neq c 48)) by lia.
    replace ((49 <=? c) && (c <=? 57)) with true by (symmetry; apply andb_true_iff; split; apply N.leb_le; lia).
    unfold digits1. change (span_digits (c :: r ++ rest)) with (span_digits ((c :: r) ++ rest)).
    rewrite (span_digits_app (c :: r) rest) by (done || by apply forallb_Forall_eq).
    number_tail rest Hend; by rewrite <- Hds, digits_value_pos.
Qed.

(** Below [10^21], [Number::toString] of an integer is its digits. *)
Lemma number_text_int (z : Z) : (Z.abs z < 10 ^ 21)%Z -> number_text z 0 = number_to_string z.
Proof.
  intros Hz. unfold number_text. rewrite Z.pow_0_r, Z.mul_1_r.
  replace ((0 <=? 0)%Z && (Z.abs z <? 10 ^ 21)%Z) with true by (symmetry; apply andb_true_iff; split; [done | by apply Z.ltb_lt]).
  done.
Qed.

(** ** Integers from [10^21] on: the exponent form *)

Lemma digit_not_space (c : N) : is_digit c = true -> is_space c = false.
Proof.
  unfold is_digit. intros [H1 H2]%andb_prop. apply N.leb_le in H1, H2.
  unfold is_space, is_line_terminator.
  repeat match goal with |- context [N.eqb ?a ?b] => rewrite (proj2 (N.eqb_neq a b)) by lia end.
  rewrite (proj2 (N.leb_gt 8192 c)) by lia. reflexivity.
Qed.

Lemma drop_zeros_snoc (l : jstring) (c : N) : c <> 48 -> drop_zeros (l ++ [c]) = drop_zeros l ++ [c].
Proof.
  intros Hc. induction l as [| x l IH]; cbn; [by rewrite (proj2 (N.eqb_neq c 48)) |].
  by destruct (x =? 48).
Qed.

Lemma Forall_drop_zeros (P : N -> Prop) (l : jstring) : Forall P l -> Forall P (drop_zeros l).
Proof. induction 1 as [| x l Hx Hl IH]; cbn; [done |]. destruct (x =? 48); [exact IH | by constructor]. Qed.

Lemma significant_digits_lead (p : positive) :
  exists d rest, significant_digits p = d :: rest /\ 49 <= d <= 57 /\ Forall (fun c => is_digit c = true) rest.
Proof.
  destruct (uint_units_lead p) as (c & r & E & Hc).
  pose proof (uint_units_digits (Pos.to_uint p)) as Hdig. rewrite E in Hdig. inversion Hdig as [| ? ? _ Hr]; subst.
  unfold significant_digits. rewrite E. cbn [rev]. rewrite drop_zeros_snoc by lia. rewrite rev_app_distr.
  exists c, (rev (drop_zeros (rev r))). split_and!; [done | lia | lia |].
  by apply Forall_rev, Forall_drop_zeros, Forall_rev.
Qed.

Lemma digits_value_snoc (l : jstring) (c : N) : digits_value (l ++ [c]) = (digits_value l * 10 + Z.of_N (c - 48))%Z.
Proof. unfold digits_value. by rewrite fold_left_app. Qed.

Lemma digits_value_bound (l : jstring) :
  Forall (fun c => is_digit c = true) l -> (0 <= digits_value l < 10 ^ Z.of_nat (length l))%Z.
Proof.
  induction l as [| c l IH] using rev_ind; intros H; [cbn; lia |].
  apply Forall_app in H as [Hl Hc]. inversion Hc as [| ? ? Hd _]; subst.
  unfold is_digit in Hd. apply andb_prop in Hd as [H1 H2]. apply N.leb_le in H1, H2.
  specialize (IH Hl). rewrite digits_value_snoc, length_app, Nat2Z.inj_add, Z.pow_add_r by lia.
  cbn [length Z.of_nat]. rewrite Z.pow_1_r. lia.
Qed.

Lemma uint_units_length_large (p : positive) :
  (10 ^ 21 <= Zpos p)%Z -> (22 <= length (uint_units (Pos.to_uint p)))%nat.
Proof.
  intros H. pose proof (digits_value_bound _ (uint_units_digits (Pos.to_uint p))) as B.
  rewrite digits_value_pos in B. destruct (Nat.le_gt_cases 22 (length (uint_units (Pos.to_uint p)))) as [| Hlt]; [done |].
  exfalso. assert (10 ^ Z.of_nat (length (uint_units (Pos.to_uint p))) <= 10 ^ 21)%Z by (apply Z.pow_le_mono_r; lia).
  lia.
Qed.

Lemma number_to_string_no_space (z : Z) : Forall (fun c => is_space c = false) (number_to_string z).
Proof.
  assert (Hd : forall u, Forall (fun c => is_space c = false) (uint_units u))
    by (intros u; eapply Forall_impl; [apply uint_units_digits | apply digit_not_space]).
  destruct z; cbn; [by repeat constructor | apply Hd | constructor; [done | apply Hd]].
Qed.

(** From [10^21] on, [Number::toString] of an integer is one digit, then
    a point or an [e]: [1e+21], [1.5e+21]. *)
Lemma number_text_large (n : Z) : (10 ^ 21 <= n)%Z ->
  exists d c r, number_text n 0 = d :: c :: r /\ 49 <= d <= 57 /\ (c = 46 \/ c = 101) /\
    Forall (fun x => is_space x = false) (d :: c :: r).
Proof.
  intros Hn. destruct n as [| p | p]; try lia. pose proof (uint_units_length_large p Hn) as Hlen.
  unfold number_text. rewrite Z.pow_0_r, Z.mul_1_r.
  replace ((0 <=? 0)%Z && (Z.abs (Zpos p) <? 10 ^ 21)%Z) with false
    by (symmetry; apply andb_false_iff; right; apply Z.ltb_ge; cbn; lia).
  unfold positive_text. cbv zeta. destruct (significant_digits_lead p) as (d & rest & Hsd & Hd & Hrest). rewrite Hsd.
  set (len := length (uint_units (Pos.to_uint p))) in *.
  replace ((Z.of_nat len + 0 <=? 21)%Z) with false by (symmetry; apply Z.leb_gt; lia).
  replace ((Z.of_nat len + 0 <=? 0)%Z) with false by (symmetry; apply Z.leb_gt; lia).
  replace ((0 <=? Z.of_nat len + 0 - 1)%Z) with true by (symmetry; apply Z.leb_le; lia).
  rewrite !andb_false_r.
  assert (Hexp : Forall (fun x => is_space x = false) ([43] ++ number_to_string (Z.abs (Z.of_nat len + 0 - 1))))
    by (constructor; [done | apply number_to_string_no_space]).
  assert (Hds : Forall (fun x => is_space x = false) rest) by (eapply Forall_impl; [exact Hrest | apply digit_not_space]).
  assert (Hd' : is_space d = false)
    by (apply digit_not_space; unfold is_digit; apply andb_true_iff; split; apply N.leb_le; lia).
  destruct rest as [| x rest']; (eexists _, _, _; split; [reflexivity |]); split_and!; try lia.
  - constructor; [done |]. constructor; [done |]. exact Hexp.
  - constructor; [done |]. constructor; [done |]. apply Forall_app; split; [exact Hds |]. by constructor.
Qed.

(** ** Values round-trip *)

(** The values [JSON.stringify] writes as their exact decimal digits:
    integers below [10^21] in absolute value. *)
Fixpoint printable (v : json) : bool :=
  match v with
  | JNum m e => bool_decide (e = 0%Z) && bool_decide (Z.abs m < 10 ^ 21)%Z
  | JArr l => forallb printable l
  | JObj l => forallb (fun kv => printable kv.2) l
  | _ => true
  end.

(** Induction on [json] through its lists. *)
Section JsonInd.
Variable P : json -> Prop.
Hypothesis HNull : P JNull.
Hypothesis HBool : forall b, P (JBool b).
Hypothesis HNum : forall m e, P (JNum m e).
Hypothesis HStr : forall s, P (JStr s).
Hypothesis HArr : forall l, Forall P l -> P (JArr l).
Hypothesis HObj : forall l, Forall (fun kv => P kv.2) l -> P (JObj l).

Fixpoint json_ind' (v : json) : P v :=
  match v with
  | JNull => HNull
  | JBool b => HBool b
  | JNum m e => HNum m e
  | JStr s => HStr s
  | JArr l => HArr l ((fix go l : Forall P l :=
                        match l with [] => List.Forall_nil _ | x :: l' => List.Forall_cons _ x l' (json_ind' x) (go l') end) l)
  | JObj l => HObj l ((fix go l : Forall (fun kv => P kv.2) l :=
                        match l with [] => List.Forall_nil _ | x :: l' => List.Forall_cons _ x l' (json_ind' x.2) (go l') end) l)
  end.
End JsonInd.

Lemma number_head (z : Z) : exists c r, number_to_string z = c :: r /\ (c = 45 \/ 48 <= c <= 57).
Proof.
  destruct z as [| p | p]; [exists 48, []; split; [done | lia] | |].
  - destruct (uint_units_lead p) as (c & r & E & Hc). exists c, r. split; [exact E | lia].
  - exists 45, (uint_units (N.to_uint (Npos p))). split; [done | lia].
Qed.

(** The text of a value starts with neither white space nor a closing
    bracket or brace. *)
Lemma json_text_head (v : json) :
  printable v = true ->
  exists c r, json_text v = c :: r /\ is_json_ws c = false /\ (c =? 93) = false /\ (c =? 125) = false.
Proof.
  destruct v as [| [] | m e | s | l | l]; cbn [printable json_text]; intros Hp;
    try (eexists _, _; split; [reflexivity | done]).
  apply andb_true_iff in Hp as [He%bool_decide_eq_true Hm%bool_decide_eq_true]. subst e.
  rewrite number_text_int by done. destruct (number_head m) as (c & r & E & Hc).
  exists c, r. split_and!; [exact E | | apply N.eqb_neq; lia | apply N.eqb_neq; lia].
  unfold is_json_ws. repeat rewrite (proj2 (N.eqb_neq c _)) by lia. done.
Qed.

Lemma skip_ws_head (c : N) (r : jstring) : is_json_ws c = false -> skip_ws (c :: r) = c :: r.
Proof. intros H. cbn. by rewrite H. Qed.

Lemma join_cons (x : jstring) (l : list jstring) :
  l <> [] -> join [44] (x :: l) = x ++ [44] ++ join [44] l.
Proof. by destruct l. Qed.

Lemma join_head (x : jstring) (l : list jstring) : exists t, join [44] (x :: l) = x ++ t.
Proof. destruct l; [exists []; by rewrite app_nil_r | by eexists]. Qed.

(** [parse_value] reads [v] back from its text, whatever follows it that
    cannot continue a number, given fuel above twice its length. *)
Definition reads_back (v : json) : Prop :=
  forall (n : nat) (rest : jstring), (2 * length (json_text v) < n)%nat -> number_end rest = true ->
  parse_value n (json_text v ++ rest) = Some (v, rest).

Lemma parse_elements_text (l : list json) :
  Forall (fun v => printable v = true /\ reads_back v) l -> l <> [] ->
  forall (n : nat) (acc : list json) (rest : jstring),
  (2 * length (join [44%N] (map json_text l) ++ [93%N]) < n)%nat ->
  parse_elements n (join [44] (map json_text l) ++ [93] ++ rest) acc = Some (JArr (acc ++ l), rest).
Proof.
  induction 1 as [| v l [Hp Hv] Hall IH]; [done |]. intros _ n acc rest Hn.
  destruct n as [| f]; [lia |]. cbn [parse_elements].
  destruct l as [| v' l'].
  - cbn [map join] in *. rewrite length_app in Hn. cbn in Hn.
    rewrite Hv by (done || lia). cbn. done.
  - cbn [map] in *. rewrite join_cons in * by done. rewrite !length_app in Hn. cbn [length] in Hn.
    rewrite <- !app_assoc. cbn [app]. rewrite Hv by (done || lia).
    cbn -[join json_text parse_elements]. change (93 :: rest) with ([93] ++ rest). rewrite IH by (done || (rewrite length_app; cbn [length]; lia)). by rewrite <- app_assoc.
Qed.

Lemma parse_members_text (l : list (jstring * json)) :
  Forall (fun kv => printable kv.2 = true /\ reads_back kv.2) l -> l <> [] ->
  forall (n : nat) (acc : list (jstring * json)) (rest : jstring),
  (2 * length (join [44%N] (map (fun kv => quote kv.1 ++ [58%N] ++ json_text kv.2) l) ++ [125%N]) < n)%nat ->
  parse_members n (join [44] (map (fun kv => quote kv.1 ++ [58] ++ json_text kv.2) l) ++ [125] ++ rest) acc =
    Some (JObj (acc ++ l), rest).
Proof.
  induction 1 as [| [k v] l [Hp Hv] Hall IH]; [done |]. intros _ n acc rest Hn.
  destruct n as [| f]; [lia |]. cbn [parse_members].
  destruct l as [| kv' l'].
  - cbn [map join fst snd] in *. rewrite !length_app in Hn. cbn [length] in Hn. unfold quote in *.
    rewrite <- !app_assoc. cbn [app skip_ws is_json_ws]. cbn -[parse_chars parse_value json_text].
    rewrite parse_chars_quote. cbn -[parse_value json_text]. rewrite Hv by (done || (cbn [snd]; lia)). cbn. done.
  - cbn [map] in *. rewrite join_cons in * by done. rewrite !length_app in Hn. cbn [length fst snd] in Hn.
    unfold quote at 1. rewrite <- !app_assoc. cbn [app skip_ws is_json_ws]. cbn -[parse_chars parse_value json_text join quote].
    rewrite parse_chars_quote. cbn -[parse_value json_text join quote]. rewrite Hv by (done || (cbn [snd]; lia)).
    cbn -[parse_members join quote json_text]. change (125 :: rest) with ([125] ++ rest). rewrite IH by (done || (rewrite length_app; cbn [length]; lia)).
    by rewrite <- app_assoc.
Qed.

(** After an opening bracket or brace, a value that is not white space
    and does not close it starts the elements or the members. *)
Lemma parse_value_open_array (f : nat) (c : N) (r : jstring) :
  is_json_ws c = false -> (c =? 93) = false -> parse_value (S f) (91 :: c :: r) = parse_elements f (c :: r) [].
Proof. intros Hws H93. cbn [parse_value]. rewrite (skip_ws_head 91) by done. cbn -[parse_elements skip_ws]. by rewrite skip_ws_head, H93. Qed.

Lemma parse_value_open_object (f : nat) (c : N) (r : jstring) :
  is_json_ws c = false -> (c =? 125) = false -> parse_value (S f) (123 :: c :: r) = parse_members f (c :: r) [].
Proof. intros Hws H125. cbn [parse_value]. rewrite (skip_ws_head 123) by done. cbn -[parse_members skip_ws]. by rewrite skip_ws_head, H125. Qed.

(** A sign or a digit starts a number. *)
Lemma parse_value_number (f : nat) (c : N) (r : jstring) :
  c = 45 \/ 48 <= c <= 57 -> parse_value (S f) (c :: r) = parse_number (c :: r).
Proof.
  intros Hc. cbn [parse_value]. rewrite skip_ws_head by (unfold is_json_ws; repeat rewrite (proj2 (N.eqb_neq c _)) by lia; done).
  repeat rewrite (proj2 (N.eqb_neq c _)) by lia. done.
Qed.

Lemma printable_Forall {A} (g : A -> json) (l : list A) :
  Forall (fun x => printable (g x) = true -> reads_back (g x)) l -> forallb (fun x => printable (g x)) l = true ->
  Forall (fun x => printable (g x) = true /\ reads_back (g x)) l.
Proof.
  rewrite !List.Forall_forall, forallb_forall. intros IH Hp x Hx. split; [by apply Hp | by apply IH, Hp].
Qed.

(** [JSON.parse] reads back what [JSON.stringify] wrote, for every value
    whose numbers it prints exactly. *)
Lemma parse_value_text (v : json) : printable v = true -> reads_back v.
Proof.
  induction v as [| b | m e | s | l IH | l IH] using json_ind'; intros Hp n rest Hn Hend;
    (destruct n as [| f]; [lia |]).
  - done.
  - by destruct b.
  - cbn [printable] in Hp. apply andb_true_iff in Hp as [He%bool_decide_eq_true Hm%bool_decide_eq_true]. subst e.
    cbn [json_text]. rewrite number_text_int by done. destruct (number_head m) as (c & r & E & Hc).
    rewrite E. cbn [app]. rewrite parse_value_number by done.
    pose proof (parse_number_int m rest Hend) as H. rewrite E in H. exact H.
  - cbn [json_text]. unfold quote. rewrite <- !app_assoc. cbn -[parse_chars quote_units].
    by rewrite parse_chars_quote.
  - cbn [printable] in Hp. pose proof (printable_Forall (fun x => x) l IH Hp) as Hall.
    destruct l as [| v l']; [done |]. cbn [json_text] in *. rewrite !length_app in Hn. cbn [length] in Hn.
    inversion Hall as [| ? ? [Hv _]]; subst.
    destruct (json_text_head v Hv) as (c & r & E & Hws & H93 & _). destruct (join_head (json_text v) (map json_text l')) as [t Ht].
    rewrite <- !app_assoc. cbn [app map]. rewrite Ht, E, <- !app_assoc. cbn [app].
    rewrite parse_value_open_array by done.
    replace (c :: r ++ t ++ 93 :: rest) with ((json_text v ++ t) ++ [93] ++ rest)
      by (rewrite E; cbn; by rewrite <- app_assoc). rewrite <- Ht, <- map_cons.
    rewrite parse_elements_text by (done || (cbn [map] in *; rewrite ?length_app; cbn [length]; lia)). done.
  - cbn [printable] in Hp. pose proof (printable_Forall snd l IH Hp) as Hall.
    destruct l as [| [k v] l']; [done |]. cbn [json_text] in *. rewrite !length_app in Hn. cbn [length] in Hn.
    destruct (join_head (quote k ++ [58] ++ json_text v) (map (fun kv => quote kv.1 ++ [58] ++ json_text kv.2) l')) as [t Ht].
    cbn [map fst snd]. rewrite Ht. unfold quote at 1. rewrite <- !app_assoc. cbn [app].
    rewrite parse_value_open_object by done.
    replace (34 :: quote_units k ++ 34 :: 58 :: json_text v ++ t ++ 125 :: rest) with
      (((quote k ++ [58] ++ json_text v) ++ t) ++ [125] ++ rest) by (unfold quote; cbn; by rewrite <- !app_assoc).
    rewrite <- Ht. change (quote k ++ [58] ++ json_text v) with ((fun kv => quote kv.1 ++ [58] ++ json_text kv.2) (k, v)).
    rewrite <- map_cons.
    rewrite parse_members_text by (done || (cbn [map] in *; rewrite ?length_app; cbn [length]; lia)). done.
Qed.

(** [JSON.parse(JSON.stringify(v))] is [v]. *)
Lemma json_parse_text (v : json) : printable v = true -> json_parse (json_text v) = Some v.
Proof.
  intros Hp. unfold json_parse.
  pose proof (parse_value_text v Hp (S (2 * length (json_text v))) [] ltac:(lia) eq_refl) as H.
  rewrite app_nil_r in H. by rewrite H.
Qed.

(** ** The fuel of [json_parse] is enough *)

Lemma skip_ws_length (s : jstring) : (length (skip_ws s) <= length s)%nat.
Proof. induction s as [| c s IH]; cbn; [lia |]. destruct (is_json_ws c); cbn; lia. Qed.

Lemma span_digits_split (s d r : jstring) : span_digits s = (d, r) -> s = d ++ r.
Proof.
  revert d r. induction s as [| c s IH]; intros d r; cbn; [by intros [= <- <-] |].
  destruct (is_digit c); [| by intros [= <- <-]].
  destruct (span_digits s) as [d' r'] eqn:E. intros [= <- <-]. cbn. by rewrite (IH d' r').
Qed.

Lemma digits1_length (s d r : jstring) : digits1 s = Some (d, r) -> (length r < length s)%nat.
Proof.
  unfold digits1. destruct (span_digits s) as [[| c d'] r'] eqn:E; [done |]. intros [= <- <-].
  apply span_digits_split in E. subst s. rewrite length_app. cbn. lia.
Qed.

Lemma exponent_sign_length (s r : jstring) (sg : Z) : exponent_sign s = (sg, r) -> (length r <= length s)%nat.
Proof.
  destruct s as [| c s]; cbn; [by intros [= _ <-] |].
  destruct (c =? 45), (c =? 43); intros [= _ <-]; cbn; lia.
Qed.

Lemma parse_number_length (s r : jstring) (v : json) : parse_number s = Some (v, r) -> (length r < length s)%nat.
Proof.
  unfold parse_number. intros H.
  repeat (case_match; simplify_eq/=);
    repeat match goal with
    | H : digits1 _ = Some _ |- _ => apply digits1_length in H
    | H : exponent_sign _ = _ |- _ => apply exponent_sign_length in H
    end; cbn in *; lia.
Qed.

Lemma parse_chars_length (s t r : jstring) : parse_chars s = Some (t, r) -> (length r < length s)%nat.
Proof.
  revert t r. induction s as [s IH] using (induction_ltof1 _ (@length N)); unfold ltof in IH. intros t r.
  destruct s as [| c s']; cbn [parse_chars]; [done |]. intros H.
  repeat (case_match; simplify_eq/=); try lia;
    match goal with E : parse_chars ?x = Some _ |- _ => eapply IH in E; [cbn in *; lia | cbn; lia] end.
Qed.

Lemma after_word_length {A} (g : jstring -> A) (w s : jstring) (x : A) :
  g <$> after_word w s = Some x -> exists r, x = g r /\ (length r <= length s)%nat.
Proof.
  unfold after_word. case_match; [| done]. intros [= <-]. eexists. split; [done |]. rewrite length_drop. lia.
Qed.

(** Every successful read consumes at least one code unit. *)
Lemma parse_length (n : nat) :
  (forall s v r, parse_value n s = Some (v, r) -> (length r < length s)%nat) /\
  (forall s acc v r, parse_elements n s acc = Some (v, r) -> (length r < length s)%nat) /\
  (forall s acc v r, parse_members n s acc = Some (v, r) -> (length r < length s)%nat).
Proof.
  induction n as [| f (IHv & IHe & IHm)]; [done |].
  split_and!; intros s; cbn [parse_value parse_elements parse_members]; intros * H;
    repeat (case_match; simplify_eq/=);
    repeat match goal with
    | H : skip_ws ?x = _ |- _ => let Hl := fresh in pose proof (skip_ws_length x) as Hl; rewrite H in Hl; clear H
    | H : parse_chars _ = Some _ |- _ => apply parse_chars_length in H
    | H : parse_number _ = Some _ |- _ => apply parse_number_length in H
    | H : parse_value f _ = Some _ |- _ => apply IHv in H
    | H : parse_elements f _ _ = Some _ |- _ => apply IHe in H
    | H : parse_members f _ _ = Some _ |- _ => apply IHm in H
    | H : _ <$> after_word _ _ = Some _ |- _ => apply after_word_length in H as (? & ? & ?); simplify_eq
    end; cbn in *; lia.
Qed.

(** Fuel above twice the length of the text never runs out: more fuel
    gives the same result. *)
Lemma parse_fuel (n : nat) :
  (forall s m, (2 * length s < n)%nat -> (n <= m)%nat -> parse_value m s = parse_value n s) /\
  (forall s acc m, (2 * length s + 1 < n)%nat -> (n <= m)%nat -> parse_elements m s acc = parse_elements n s acc) /\
  (forall s acc m, (2 * length s + 1 < n)%nat -> (n <= m)%nat -> parse_members m s acc = parse_members n s acc).
Proof.
  induction n as [| f (IHv & IHe & IHm)]; [split_and!; intros; lia |].
  split_and!; intros s; [intros m | intros acc m | intros acc m]; intros Hs Hm;
    (destruct m as [| g]; [lia |]); cbn [parse_value parse_elements parse_members];
    pose proof (skip_ws_length s).
  - destruct (skip_ws s) as [| c r] eqn:Es; [done |]. cbn [length] in *.
    by rewrite (IHe r [] g), (IHm r [] g) by lia.
  - rewrite (IHv s g) by lia. destruct (parse_value f s) as [[v r] |] eqn:Ev; [| done].
    apply (proj1 (parse_length f)) in Ev. pose proof (skip_ws_length r).
    destruct (skip_ws r) as [| d r'] eqn:Er; [done |]. cbn [length] in *. by rewrite IHe by lia.
  - destruct (skip_ws s) as [| c r] eqn:Es; [done |]. destruct (c =? 34); [| done].
    destruct (parse_chars r) as [[k r1] |] eqn:Ek; [| done]. apply parse_chars_length in Ek.
    pose proof (skip_ws_length r1). destruct (skip_ws r1) as [| d r2]; [done |]. destruct (d =? 58); [| done].
    cbn [length] in *. rewrite (IHv r2 g) by lia.
    destruct (parse_value f r2) as [[v r3] |] eqn:Ev; [| done]. apply (proj1 (parse_length f)) in Ev.
    pose proof (skip_ws_length r3). destruct (skip_ws r3) as [| e r4]; [done |]. cbn [length] in *.
    by rewrite IHm by lia.
Qed.

Lemma parse_value_fuel (s : jstring) (m : nat) :
  (2 * length s < m)%nat -> parse_value m s = parse_value (S (2 * length s)) s.
Proof. intros Hm. apply (proj1 (parse_fuel _)); lia. Qed.
