(* ===== verification/Store.v ===== *)
(** * The session store of [src/src/main.ts]

    [main.ts] keeps its state in module-level variables: the array
    [sessions], [currentSessionId], [isSending], and [localStorage].  The
    array holds references to session objects, and [handleSend] keeps a
    reference to one of them across the [await] of the request; the model
    therefore has an explicit heap of session objects ([heap], with the
    allocation pointer [next_loc]) and [sessions] is a list of locations.
    An object removed from the array stays in the heap, as it stays alive
    in the pending request.

    [localStorage] is reached through the interface [Storage] of the spec
    (§6: [getItem]/[setItem] on keys); its laws are the class
    [StorageLaws], and [gmap_storage] implements both with a [gmap].  The
    store's theorems are proved against the interface.

    Each handler is one definition, with its guards and early returns from
    the code; the inputs that come from outside the store ([Date.now()],
    [Math.random()], the user's text, the server's answer, the number typed
    at the search prompt) are arguments.  An early [return] that leaves the
    state as it is returns the state unchanged ([handleSend_start] returns
    [None], the request is not sent). *)

From S2P Require Import Prelude JsString JsSort Session.
From stdpp Require Import gmap.

Open Scope N_scope.
#[local] Set Default Proof Using "All".

(** ** The persistence interface *)

(** What [localStorage.getItem] can return under the sessions key, as
    [JSON.parse] sees it. *)
Inductive Blob :=
| BlobSessions (l : list ChatSession.t)  (** [JSON.stringify(sessions)] *)
| BlobSettings (s : Settings)            (** [JSON.stringify(settings)] *)
| BlobEmpty                              (** the empty string, falsy *)
| BlobForeignJson                        (** JSON that is no array: [null], a number, an object *)
| BlobUnparsable.                        (** text on which [JSON.parse] throws *)

Class Storage (S : Type) := {
  getItem : S -> jstring -> option Blob;
  setItem : S -> jstring -> Blob -> S
}.

Class StorageLaws (S : Type) `{!Storage S} := {
  getItem_setItem_eq : forall st k b, getItem (setItem st k b) k = Some b;
  getItem_setItem_ne : forall st k k' b, k <> k' -> getItem (setItem st k b) k' = getItem st k'
}.

#[export] Instance gmap_storage : Storage (gmap jstring Blob) := {|
  getItem st k := st !! k;
  setItem st k b := <[k := b]> st
|}.

#[export] Instance gmap_storage_laws : StorageLaws (gmap jstring Blob).
Proof.
  split.
  - intros st k b. apply lookup_insert_eq.
  - intros st k k' b Hne. by apply lookup_insert_ne.
Qed.

(** [toLowerCase]: the Unicode default case mapping.  The theorems hold
    for any instance; [ascii_lower_case] maps A-Z and leaves every other
    unit alone. *)
Class JsLowerCase := toLowerCase : jstring -> jstring.

#[export] Instance ascii_lower_case : JsLowerCase :=
  map (fun c => if (65 <=? c) && (c <=? 90) then c + 32 else c).

#[export] Instance ChatSession_inhabited : Inhabited ChatSession.t :=
  populate (ChatSession.mk [] [] [] 0 0).

Section Store.
Context {St : Type} `{!Storage St}.

(** ** The state *)

Record Store := mkStore {
  heap : gmap nat ChatSession.t;
  next_loc : nat;
  sessions : list nat;
  currentSessionId : option jstring;
  isSending : bool;
  storage : St
}.

Definition set_heap (h : gmap nat ChatSession.t) (st : Store) : Store :=
  mkStore h (next_loc st) (sessions st) (currentSessionId st) (isSending st) (storage st).
Definition set_sessions (ls : list nat) (st : Store) : Store :=
  mkStore (heap st) (next_loc st) ls (currentSessionId st) (isSending st) (storage st).
Definition set_current (c : option jstring) (st : Store) : Store :=
  mkStore (heap st) (next_loc st) (sessions st) c (isSending st) (storage st).
Definition set_sending (b : bool) (st : Store) : Store :=
  mkStore (heap st) (next_loc st) (sessions st) (currentSessionId st) b (storage st).
Definition set_storage (s : St) (st : Store) : Store :=
  mkStore (heap st) (next_loc st) (sessions st) (currentSessionId st) (isSending st) s.

(** The session objects the array refers to, in array order. *)
Definition deref (h : gmap nat ChatSession.t) (ls : list nat) : list ChatSession.t :=
  omap (fun l => h !! l) ls.

Definition session_at (st : Store) (l : nat) : ChatSession.t := heap st !!! l.

(** [arr.find(p)] on the array of references. *)
Definition find_loc (st : Store) (p : ChatSession.t -> bool) : option nat :=
  snd <$> list_find (fun l => p (session_at st l) = true) (sessions st).

(** [arr.findIndex(p)] *)
Definition find_index (st : Store) (p : ChatSession.t -> bool) : option nat :=
  fst <$> list_find (fun l => p (session_at st l) = true) (sessions st).

Definition has_id (id : jstring) (s : ChatSession.t) : bool :=
  bool_decide (ChatSession.id s = id).

(** The key of the recency sort: [updatedAt] of the object. *)
Definition recency_key (st : Store) (l : nat) : Z := ChatSession.updatedAt (session_at st l).

(** ** Handlers *)

(** [saveSessions] *)
Definition saveSessions (st : Store) : Store :=
  set_storage (setItem (storage st) SESSIONS_KEY (BlobSessions (deref (heap st) (sessions st)))) st.

(** [getCurrentSession]: the object, by reference. *)
Definition getCurrentSession (st : Store) : option nat :=
  match currentSessionId st with
  | Some cid => find_loc st (has_id cid)
  | None => None
  end.

(** [createNewSession(title)]: a fresh object put at the front of the
    array, then saved; returns the new object. *)
Definition createNewSession (title : jstring) (now : Z) (rnd : jstring) (st : Store) : nat * Store :=
  let session := ChatSession.mk (session_id now rnd) title [] now now in
  let l := next_loc st in
  let st1 := mkStore (<[l := session]> (heap st)) (S l) (l :: sessions st)
                     (currentSessionId st) (isSending st) (storage st) in
  (l, saveSessions st1).

(** [sessions.sort((a, b) => b.updatedAt - a.updatedAt); currentSessionId = sessions[0].id]
    on a non-empty array. *)
Definition sort_and_select_first (st : Store) : Store :=
  let sorted := sort_desc (recency_key st) (sessions st) in
  let st1 := set_sessions sorted st in
  match sorted with
  | l :: _ => set_current (Some (ChatSession.id (session_at st l))) st1
  | [] => st1
  end.

(** [const s = createNewSession("新しいチャット"); currentSessionId = s.id] *)
Definition create_and_select (now : Z) (rnd : jstring) (st : Store) : Store :=
  let '(l, st1) := createNewSession NEW_CHAT_TITLE now rnd st in
  set_current (Some (ChatSession.id (session_at st1 l))) st1.

(** [deleteSession(id)] *)
Definition deleteSession (id : jstring) (now : Z) (rnd : jstring) (st : Store) : Store :=
  match find_index st (has_id id) with
  | None => st
  | Some idx =>
      let st1 := set_sessions (delete idx (sessions st)) st in
      let st2 :=
        match sessions st1 with
        | [] => create_and_select now rnd st1
        | _ => if bool_decide (currentSessionId st1 = Some id)
               then sort_and_select_first st1 else st1
        end in
      saveSessions st2
  end.

(** Why [loadSessions] can fail: valid JSON that is not an array reaches
    [sessions.length] / [sessions.sort] / [sessions.unshift] outside the
    [try], which throws a [TypeError]. *)
Inductive LoadError := LoadTypeError.

(** [sessions = parsed]: [JSON.parse] makes fresh objects. *)
Fixpoint alloc_sessions (l : list ChatSession.t) (st : Store) : list nat * Store :=
  match l with
  | [] => ([], st)
  | s :: l' =>
      let a := next_loc st in
      let st1 := mkStore (<[a := s]> (heap st)) (S a) (sessions st)
                         (currentSessionId st) (isSending st) (storage st) in
      let '(ls, st2) := alloc_sessions l' st1 in
      (a :: ls, st2)
  end.

(** [loadSessions] *)
Definition loadSessions (now : Z) (rnd : jstring) (st : Store) : result Store LoadError :=
  let parsed :=
    match getItem (storage st) SESSIONS_KEY with
    | None | Some BlobEmpty => Ok st
    | Some BlobUnparsable => Ok (set_sessions [] st)
    | Some (BlobSessions l) => let '(ls, st1) := alloc_sessions l st in Ok (set_sessions ls st1)
    | Some (BlobSettings _) | Some BlobForeignJson => Err LoadTypeError
    end in
  match parsed with
  | Err e => Err e
  | Ok st1 =>
      match sessions st1 with
      | [] => Ok (create_and_select now rnd st1)
      | _ => Ok (sort_and_select_first st1)
      end
  end.

(** [selectSession(id)] *)
Definition selectSession (id : jstring) (st : Store) : Store :=
  if bool_decide (currentSessionId st = Some id) then st else set_current (Some id) st.

(** ** Search *)

Section Search.
Context `{!JsLowerCase}.

(** The filter of [searchChat]: title or any message content contains the
    lowered query. *)
Definition session_matches (q : jstring) (s : ChatSession.t) : bool :=
  (bool_decide (ChatSession.title s <> []) && includes (toLowerCase (ChatSession.title s)) q)
  || existsb (fun m => includes (toLowerCase (Message.content m)) q) (ChatSession.messages s).

Definition search_matches (q : jstring) (st : Store) : list nat :=
  filter (fun l => session_matches q (session_at st l) = true) (sessions st).

(** [searchChat(keyword)]; [answer] is [Number(window.prompt(...))] when it
    is an integer, [None] when the prompt is cancelled or not an integer. *)
Definition searchChat (keyword : jstring) (answer : option Z) (st : Store) : Store :=
  let q := toLowerCase (trim keyword) in
  match q with
  | [] => st
  | _ =>
      match search_matches q st with
      | [] => st
      | [l] => set_current (Some (ChatSession.id (session_at st l))) st
      | matched =>
          match answer with
          | Some n =>
              if bool_decide (1 <= n <= Z.of_nat (length matched))%Z then
                match matched !! Z.to_nat (n - 1) with
                | Some l => set_current (Some (ChatSession.id (session_at st l))) st
                | None => st
                end
              else st
          | None => st
          end
      end
  end.
End Search.

(** ** Sending a message *)

(** The session after the user's message: the title is derived when it is
    the first message; the message is appended and [updatedAt] set. *)
Definition push_user_message (text : jstring) (now : Z) (s : ChatSession.t) : ChatSession.t :=
  let title := match ChatSession.messages s with
               | [] => first_message_title text
               | _ => ChatSession.title s
               end in
  ChatSession.mk (ChatSession.id s) title
    (ChatSession.messages s ++ [Message.mk User text now]) (ChatSession.createdAt s) now.

(** [handleSend] up to the [await]: [None] for the early returns; else the
    captured session and the state. *)
Definition handleSend_start (input : jstring) (now : Z) (st : Store) : option (nat * Store) :=
  if isSending st then None
  else
    match getCurrentSession st with
    | None => None
    | Some l =>
        let text := trim input in
        match text with
        | [] => None
        | _ =>
            let st1 := set_heap (<[l := push_user_message text now (session_at st l)]> (heap st)) st in
            Some (l, set_sending true (saveSessions st1))
        end
    end.

(** The server's answer to the request of [sendToLmStudio]. *)
Inductive ServerAnswer :=
| AnswerContent (text : jstring)  (** [data.choices[0].message.content] *)
| AnswerNoContent                 (** a response without that field *)
| AnswerFailure.                  (** [fetch] threw or [!res.ok] *)

(** What [sendToLmStudio] returns, [None] when it throws. *)
Definition sendToLmStudio_result (a : ServerAnswer) : option jstring :=
  match a with
  | AnswerContent t => Some t
  | AnswerNoContent => Some NO_REPLY_TEXT
  | AnswerFailure => None
  end.

Definition push_assistant_message (content : jstring) (now : Z) (s : ChatSession.t) : ChatSession.t :=
  ChatSession.mk (ChatSession.id s) (ChatSession.title s)
    (ChatSession.messages s ++ [Message.mk Assistant content now]) (ChatSession.createdAt s) now.

(** [handleSend] after the [await], on the captured object [l]: the reply
    or the diagnostic is appended, the array saved, [isSending] reset. *)
Definition handleSend_finish (l : nat) (a : ServerAnswer) (now : Z) (st : Store) : Store :=
  let content := match sendToLmStudio_result a with
                 | Some reply => reply
                 | None => ERROR_REPLY_TEXT
                 end in
  let st1 := set_heap (<[l := push_assistant_message content now (session_at st l)]> (heap st)) st in
  set_sending false (saveSessions st1).

(** The order of the sidebar: [sessions.slice().sort(...)]. *)
Definition renderSidebar_order (st : Store) : list nat :=
  sort_desc (recency_key st) (sessions st).

End Store.

(** ** Functional behaviour of the handlers *)

Section Behaviour.
Context {St : Type} `{!Storage St}.
Implicit Types st : @Store St.

Lemma find_index_None st (p : ChatSession.t -> bool) :
  Forall (fun l => p (session_at st l) = false) (sessions st) -> find_index st p = None.
Proof.
  intros Hall. unfold find_index. rewrite (proj2 (list_find_None _ _)); [done |].
  eapply Forall_impl; [exact Hall |]. simpl. intros l ->. done.
Qed.

Lemma find_index_Some st (p : ChatSession.t -> bool) (idx : nat) :
  find_index st p = Some idx ->
  exists l, sessions st !! idx = Some l /\ p (session_at st l) = true.
Proof.
  unfold find_index. intros ([i l] & Hf & Heq)%fmap_Some. simpl in Heq. subst i.
  apply list_find_Some in Hf as (Hl & Hp & _). eauto.
Qed.

(** Deleting an id that no session has changes nothing: no save, no
    new selection. *)
Theorem deleteSession_unknown_id (id : jstring) (now : Z) (rnd : jstring) st :
  Forall (fun l => ChatSession.id (session_at st l) <> id) (sessions st) ->
  deleteSession id now rnd st = st.
Proof.
  intros Hall. unfold deleteSession. rewrite find_index_None; [done |].
  eapply Forall_impl; [exact Hall |]. intros l Hne. unfold has_id.
  by apply bool_decide_eq_false_2.
Qed.

(** C27: deleting the only session leaves exactly one session, a fresh
    blank one titled "新しいチャット", which becomes current. *)
Theorem deleteSession_last (id : jstring) (now : Z) (rnd : jstring) st (l : nat) :
  sessions st = [l] -> ChatSession.id (session_at st l) = id ->
  let st' := deleteSession id now rnd st in
  sessions st' = [next_loc st] /\
  session_at st' (next_loc st) = ChatSession.mk (session_id now rnd) NEW_CHAT_TITLE [] now now /\
  currentSessionId st' = Some (session_id now rnd).
Proof.
  intros Hs Hid. unfold deleteSession, find_index. rewrite Hs. simpl.
  rewrite decide_True by (unfold has_id; by apply bool_decide_eq_true_2).
  simpl. unfold session_at. simpl. rewrite !lookup_total_insert_eq. by split_and!.
Qed.

Lemma sort_desc_head_max {A} (key : A -> Z) (l : list A) (x : A) (r : list A) :
  sort_desc key l = x :: r -> forall y, y ∈ l -> (key y <= key x)%Z.
Proof.
  intros Hs y Hy. destruct (sort_desc_stable key l) as [Hsorted _]. rewrite Hs in Hsorted.
  apply sorted_desc_cons in Hsorted as [Hall _].
  assert (Hy' : y ∈ x :: r) by (rewrite <- Hs; by apply (elem_of_Permutation_proper _ _ _ (sort_desc_permutation key l))).
  apply elem_of_cons in Hy' as [->|Hy']; [lia | by apply Hall].
Qed.

(** C26: deleting the current session, when others remain, sorts the
    array by recency and selects a session whose [updatedAt] is the
    greatest among the remaining ones. *)
Theorem deleteSession_current (id : jstring) (now : Z) (rnd : jstring) st (idx : nat) :
  currentSessionId st = Some id ->
  find_index st (has_id id) = Some idx ->
  delete idx (sessions st) <> [] ->
  let st' := deleteSession id now rnd st in
  sessions st' = sort_desc (recency_key st) (delete idx (sessions st)) /\
  exists l, head (sessions st') = Some l /\
    currentSessionId st' = Some (ChatSession.id (session_at st l)) /\
    forall l', l' ∈ delete idx (sessions st) ->
      (ChatSession.updatedAt (session_at st l') <= ChatSession.updatedAt (session_at st l))%Z.
Proof.
  intros Hcur Hidx Hne. unfold deleteSession. rewrite Hidx.
  destruct (delete idx (sessions st)) as [|l0 r0] eqn:Hdel; [done |].
  cbv beta iota. cbn [sessions currentSessionId set_sessions].
  rewrite bool_decide_eq_true_2 by done.
  unfold sort_and_select_first. cbn [sessions set_sessions].
  change (recency_key (set_sessions (l0 :: r0) st)) with (recency_key st).
  destruct (sort_desc (recency_key st) (l0 :: r0)) as [|l r] eqn:Hsort.
  { exfalso. pose proof (sort_desc_permutation (recency_key st) (l0 :: r0)) as Hp.
    rewrite Hsort in Hp. by apply Permutation_nil_cons in Hp. }
  cbn [sessions set_sessions set_current saveSessions set_storage currentSessionId head].
  split; [done |]. exists l. split; [done |]. split; [done |].
  intros l' Hl'. by apply (sort_desc_head_max _ _ _ _ Hsort).
Qed.


(** ** Loading *)

Lemma alloc_sessions_spec (l : list ChatSession.t) st :
  let '(ls, st2) := alloc_sessions l st in
  ls = seq (next_loc st) (length l) /\ next_loc st2 = (next_loc st + length l)%nat /\
  deref (heap st2) ls = l /\ Forall (fun a => is_Some (heap st2 !! a)) ls /\
  (forall k, (k < next_loc st)%nat -> heap st2 !! k = heap st !! k) /\
  sessions st2 = sessions st /\ storage st2 = storage st.
Proof.
  revert st. induction l as [|s l IH]; intros st; simpl; [split_and!; done || lia |].
  specialize (IH (mkStore (<[next_loc st := s]> (heap st)) (S (next_loc st)) (sessions st)
                          (currentSessionId st) (isSending st) (storage st))).
  destruct (alloc_sessions l _) as [ls st2]. simpl in IH.
  destruct IH as (-> & Hnext & Hderef & Hall & Hold & Hs & Hst).
  assert (Ha : heap st2 !! next_loc st = Some s).
  { rewrite Hold by lia. apply lookup_insert_eq. }
  split_and!; try done; try lia.
  - simpl. unfold deref in *. simpl. by rewrite Ha, Hderef.
  - constructor; [by rewrite Ha | done].
  - intros k Hk. rewrite Hold by lia. rewrite lookup_insert_ne by lia. done.
Qed.

Lemma deref_total (h : gmap nat ChatSession.t) (ls : list nat) :
  Forall (fun a => is_Some (h !! a)) ls -> deref h ls = map (fun a => h !!! a) ls.
Proof.
  induction 1 as [|a ls [s Hs] _ IH]; [done |]. unfold deref in *. simpl. rewrite Hs.
  f_equal; [symmetry; by apply lookup_total_correct | exact IH].
Qed.

(** C28: loading a saved, non-empty list restores it ordered by recency
    and opens the most recently updated session. *)
Theorem loadSessions_restores (now : Z) (rnd : jstring) st (l : list ChatSession.t) :
  getItem (storage st) SESSIONS_KEY = Some (BlobSessions l) -> l <> [] ->
  exists st', loadSessions now rnd st = Ok st' /\
    deref (heap st') (sessions st') = sort_by_recency l /\
    currentSessionId st' = ChatSession.id <$> head (sort_by_recency l).
Proof.
  intros Hget Hne. unfold loadSessions. rewrite Hget.
  pose proof (alloc_sessions_spec l st) as Hspec.
  destruct (alloc_sessions l st) as [ls st2]. destruct Hspec as (Hls & _ & Hderef & Hall & _).
  assert (Hls_ne : ls <> []) by (subst ls; destruct l; [done | discriminate]).
  assert (Hmap : map (fun a => heap st2 !!! a) ls = l) by (by rewrite <- deref_total).
  destruct ls as [|a ls'] eqn:Els; [done |]. rewrite <- Els in *.
  cbn [sessions set_sessions]. rewrite Els. rewrite <- Els.
  eexists. split; [reflexivity |].
  unfold sort_and_select_first, sort_by_recency, recency_key, session_at. cbn [sessions set_sessions heap].
  rewrite <- Hmap, <- sort_desc_map.
  assert (Hperm : Forall (fun a => is_Some (heap st2 !! a))
                    (sort_desc (fun a => ChatSession.updatedAt (heap st2 !!! a)) ls)).
  { rewrite Forall_forall in Hall |- *. intros x Hx. apply Hall.
    by rewrite sort_desc_permutation in Hx. }
  destruct (sort_desc (fun a => ChatSession.updatedAt (heap st2 !!! a)) ls) as [|b r] eqn:Hs.
  { exfalso. pose proof (sort_desc_permutation (fun a => ChatSession.updatedAt (heap st2 !!! a)) ls) as Hp.
    rewrite Hs in Hp. apply Permutation_nil in Hp. by rewrite Els in Hp. }
  cbn [sessions set_sessions set_current heap currentSessionId]. rewrite <- Hs.
  split; [apply deref_total; by rewrite Hs | by rewrite Hs].
Qed.

(** C29: data that does not parse is recovered: the store starts with one
    fresh blank session, selected. *)
Theorem loadSessions_corrupt_recovers (now : Z) (rnd : jstring) st :
  getItem (storage st) SESSIONS_KEY = Some BlobUnparsable ->
  exists st', loadSessions now rnd st = Ok st' /\ sessions st' = [next_loc st] /\
    session_at st' (next_loc st) = ChatSession.mk (session_id now rnd) NEW_CHAT_TITLE [] now now /\
    currentSessionId st' = Some (session_id now rnd).
Proof.
  intros Hget. unfold loadSessions. rewrite Hget. simpl. eexists. split; [reflexivity |].
  unfold create_and_select, createNewSession, saveSessions, set_storage, set_current, session_at.
  simpl. rewrite !lookup_total_insert_eq. by split_and!.
Qed.

(** Valid JSON that is not an array under the sessions key ([null],
    an object, a number) makes [loadSessions] throw a [TypeError] instead
    of falling back to an empty list ([Persist.loadSessions_throws_iff_foreign]
    derives this arm from the code after the [try]). *)
Theorem loadSessions_foreign_json_throws (now : Z) (rnd : jstring) st :
  getItem (storage st) SESSIONS_KEY = Some BlobForeignJson ->
  loadSessions now rnd st = Err LoadTypeError.
Proof. intros Hget. unfold loadSessions. by rewrite Hget. Qed.


(** ** Sending *)

Lemma deref_insert_notin (h : gmap nat ChatSession.t) (l : nat) (x : ChatSession.t) (ls : list nat) :
  l ∉ ls -> deref (<[l := x]> h) ls = deref h ls.
Proof.
  induction ls as [|a ls IH]; intros Hl; [done |]. unfold deref in *. simpl.
  rewrite lookup_insert_ne by set_solver.
  destruct (h !! a); [f_equal |]; apply IH; set_solver.
Qed.

(** [handleSend] does nothing while a request is pending, without a
    current session, or when the input trims to nothing: no message is
    appended (a whitespace-only first message never sets a title) and no
    request is sent. *)
Theorem handleSend_start_refused (input : jstring) (now : Z) st :
  isSending st = true \/ getCurrentSession st = None \/ trim input = [] ->
  handleSend_start input now st = None.
Proof.
  unfold handleSend_start. intros [H | [H | H]]; [by rewrite H |..];
    destruct (isSending st); try done; [by rewrite H |].
  destruct (getCurrentSession st); [by rewrite H | done].
Qed.

Section WithLaws.
Context `{!StorageLaws St}.

Lemma saveSessions_saved st :
  getItem (storage (saveSessions st)) SESSIONS_KEY =
    Some (BlobSessions (deref (heap (saveSessions st)) (sessions (saveSessions st)))).
Proof. apply getItem_setItem_eq. Qed.

(** C31: otherwise the message is appended to the current session, whose
    title is derived from it when it is the first message and whose
    [updatedAt] becomes [now]; the array is saved and [isSending] set. *)
Theorem handleSend_start_appends (input : jstring) (now : Z) st (l : nat) :
  isSending st = false -> getCurrentSession st = Some l -> trim input <> [] ->
  exists st', handleSend_start input now st = Some (l, st') /\
    session_at st' l =
      ChatSession.mk (ChatSession.id (session_at st l))
        (match ChatSession.messages (session_at st l) with
         | [] => first_message_title (trim input)
         | _ => ChatSession.title (session_at st l)
         end)
        (ChatSession.messages (session_at st l) ++ [Message.mk User (trim input) now])
        (ChatSession.createdAt (session_at st l)) now /\
    isSending st' = true /\ sessions st' = sessions st /\
    currentSessionId st' = currentSessionId st /\
    getItem (storage st') SESSIONS_KEY = Some (BlobSessions (deref (heap st') (sessions st'))).
Proof.
  intros Hs Hc Ht. unfold handleSend_start. rewrite Hs, Hc.
  destruct (trim input) as [|c t] eqn:E; [done |].
  eexists. split; [reflexivity |]. split_and!; try done.
  - unfold session_at at 1. simpl. by rewrite lookup_total_insert_eq.
  - cbn [set_sending storage heap sessions]. apply saveSessions_saved.
Qed.

(** C33: [handleSend] returns on a text that is empty once trimmed, so
    the placeholder of the title rule never applies: the first message
    of a chat titles it with the first 30 code units of its trimmed,
    collapsed text. *)
Theorem handleSend_title_no_fallback (input : jstring) (now : Z) st :
  (trim input = [] -> handleSend_start input now st = None) /\
  (forall l st', handleSend_start input now st = Some (l, st') ->
     ChatSession.messages (session_at st l) = [] ->
     ChatSession.title (session_at st' l) = take 30 (collapse_spaces (trim input))).
Proof.
  split.
  - intros Ht. unfold handleSend_start. rewrite Ht. by repeat case_match.
  - intros l st' H Hm. unfold handleSend_start in H.
    destruct (isSending st), (getCurrentSession st) as [l0 |]; try done.
    destruct (trim input) as [| c t] eqn:E; [done |]. injection H as <- <-.
    unfold session_at at 1. cbn. rewrite lookup_total_insert_eq. cbn. rewrite Hm.
    apply first_message_title_no_fallback. done.
Qed.

(** A failed request appends the diagnostic message to the session
    that sent it, saves the array and clears [isSending]. *)
Theorem handleSend_finish_failure (l : nat) (now : Z) st :
  let st' := handleSend_finish l AnswerFailure now st in
  session_at st' l = push_assistant_message ERROR_REPLY_TEXT now (session_at st l) /\
  isSending st' = false /\
  getItem (storage st') SESSIONS_KEY = Some (BlobSessions (deref (heap st') (sessions st'))).
Proof.
  simpl. split_and!; [| done | apply getItem_setItem_eq].
  unfold session_at at 1. simpl. by rewrite lookup_total_insert_eq.
Qed.

(** C32: the reply to a session deleted while its request was pending is
    lost: it goes to the detached object, and the array and the saved list
    stay as they were. *)
Theorem handleSend_finish_orphan (l : nat) (a : ServerAnswer) (now : Z) st :
  l ∉ sessions st ->
  let st' := handleSend_finish l a now st in
  deref (heap st') (sessions st') = deref (heap st) (sessions st) /\
  getItem (storage st') SESSIONS_KEY = Some (BlobSessions (deref (heap st) (sessions st))).
Proof.
  intros Hl. simpl. rewrite deref_insert_notin by done.
  split; [done | by rewrite getItem_setItem_eq].
Qed.
End WithLaws.

(** ** Searching *)

Section WithLower.
Context `{!JsLowerCase}.

(** A query that trims to nothing is ignored: the store is
    unchanged (when the case mapping maps the empty string to itself). *)
Theorem searchChat_blank_query (keyword : jstring) (answer : option Z) st :
  toLowerCase [] = [] -> trim keyword = [] -> searchChat keyword answer st = st.
Proof. intros Hl Ht. unfold searchChat. by rewrite Ht, Hl. Qed.

(** Exactly one matching session is selected, whatever is typed at
    the prompt. *)
Theorem searchChat_single_match (keyword : jstring) (answer : option Z) st (l : nat) :
  toLowerCase (trim keyword) <> [] ->
  search_matches (toLowerCase (trim keyword)) st = [l] ->
  searchChat keyword answer st = set_current (Some (ChatSession.id (session_at st l))) st.
Proof.
  intros Hne Hm. unfold searchChat. destruct (toLowerCase (trim keyword)) eqn:E; [done |].
  by rewrite Hm.
Qed.
End WithLower.

End Behaviour.

(** ** Concrete stores *)

Definition sample_session (sid title : String.string) (t : Z) : ChatSession.t :=
  ChatSession.mk (js sid) (js title) [] t t.

Definition sample_heap (s0 s1 : ChatSession.t) : gmap nat ChatSession.t :=
  <[1%nat := s1]> {[0%nat := s0]}.

(** Sessions "a" (updated at 10) and "b" (at 20) in the array order [a; b],
    "a" current, saved. *)
Definition sample_store : @Store (gmap jstring Blob) :=
  mkStore (sample_heap (sample_session "a" "a" 10) (sample_session "b" "b" 20))
    2 [0%nat; 1%nat] (Some (js "a")) false
    {[SESSIONS_KEY := BlobSessions [sample_session "a" "a" 10; sample_session "b" "b" 20]]}.

(** A store before [loadSessions], with [blob] under the sessions key. *)
Definition store_before_load (blob : Blob) : @Store (gmap jstring Blob) :=
  mkStore ∅ 0 [] None false {[SESSIONS_KEY := blob]}.

Lemma deleteSession_unknown_id_witness :
  Forall (fun l => ChatSession.id (session_at sample_store l) <> js "zz") (sessions sample_store) /\
  deleteSession (js "zz") 30 (js "r") sample_store = sample_store.
Proof.
  assert (H : Forall (fun l => ChatSession.id (session_at sample_store l) <> js "zz")
                (sessions sample_store)).
  { repeat constructor; vm_compute; discriminate. }
  split; [exact H | apply deleteSession_unknown_id; exact H].
Defined.

Lemma deleteSession_last_witness :
  let st := set_sessions [0%nat] sample_store in
  sessions st = [0%nat] /\ ChatSession.id (session_at st 0%nat) = js "a" /\
  (let st' := deleteSession (js "a") 30 (js "r") st in
   sessions st' = [next_loc st] /\
   session_at st' (next_loc st) = ChatSession.mk (session_id 30 (js "r")) NEW_CHAT_TITLE [] 30 30 /\
   currentSessionId st' = Some (session_id 30 (js "r"))).
Proof.
  cbv zeta. split; [reflexivity |]. split; [vm_compute; reflexivity |].
  apply (deleteSession_last _ _ _ _ 0%nat); vm_compute; reflexivity.
Defined.

Lemma deleteSession_current_witness :
  currentSessionId sample_store = Some (js "a") /\
  find_index sample_store (has_id (js "a")) = Some 0%nat /\
  delete 0%nat (sessions sample_store) <> [] /\
  (let st' := deleteSession (js "a") 30 (js "r") sample_store in
   sessions st' = sort_desc (recency_key sample_store) (delete 0%nat (sessions sample_store)) /\
   exists l, head (sessions st') = Some l /\
     currentSessionId st' = Some (ChatSession.id (session_at sample_store l)) /\
     forall l', l' ∈ delete 0%nat (sessions sample_store) ->
       (ChatSession.updatedAt (session_at sample_store l') <=
        ChatSession.updatedAt (session_at sample_store l))%Z).
Proof.
  split; [reflexivity |]. split; [vm_compute; reflexivity |]. split; [vm_compute; discriminate |].
  apply (deleteSession_current _ _ _ _ 0%nat); [reflexivity | vm_compute; reflexivity | vm_compute; discriminate].
Defined.

(** The example of the specification: a first message
    ["  hello   world  "] titles its session ["hello world"]. *)
Theorem handleSend_title_example (sid t : jstring) (c u now : Z) :
  ChatSession.title
    (push_user_message (trim (js "  hello   world  ")) now (ChatSession.mk sid t [] c u))
  = js "hello world".
Proof. reflexivity. Qed.

Lemma handleSend_start_refused_witness :
  (isSending (set_sending true sample_store) = true \/
   getCurrentSession (set_sending true sample_store) = None \/ trim (js "hi") = []) /\
  handleSend_start (js "hi") 30 (set_sending true sample_store) = None.
Proof.
  assert (H : isSending (set_sending true sample_store) = true \/
              getCurrentSession (set_sending true sample_store) = None \/ trim (js "hi") = [])
    by (left; reflexivity).
  split; [exact H | apply handleSend_start_refused; exact H].
Defined.

Lemma handleSend_title_no_fallback_witness :
  (trim (js "  ") = [] -> handleSend_start (js "  ") 30 sample_store = None) /\
  (forall l st', handleSend_start (js "  ") 30 sample_store = Some (l, st') ->
     ChatSession.messages (session_at sample_store l) = [] ->
     ChatSession.title (session_at st' l) = take 30 (collapse_spaces (trim (js "  ")))).
Proof. exact (handleSend_title_no_fallback (js "  ") 30 sample_store). Defined.

Lemma handleSend_start_appends_witness :
  isSending sample_store = false /\ getCurrentSession sample_store = Some 0%nat /\
  trim (js "hi") <> [] /\
  exists st', handleSend_start (js "hi") 30 sample_store = Some (0%nat, st') /\
    session_at st' 0%nat =
      ChatSession.mk (ChatSession.id (session_at sample_store 0%nat))
        (match ChatSession.messages (session_at sample_store 0%nat) with
         | [] => first_message_title (trim (js "hi"))
         | _ => ChatSession.title (session_at sample_store 0%nat)
         end)
        (ChatSession.messages (session_at sample_store 0%nat) ++ [Message.mk User (trim (js "hi")) 30])
        (ChatSession.createdAt (session_at sample_store 0%nat)) 30 /\
    isSending st' = true /\ sessions st' = sessions sample_store /\
    currentSessionId st' = currentSessionId sample_store /\
    getItem (storage st') SESSIONS_KEY = Some (BlobSessions (deref (heap st') (sessions st'))).
Proof.
  split; [reflexivity |]. split; [vm_compute; reflexivity |]. split; [vm_compute; discriminate |].
  apply handleSend_start_appends; [reflexivity | vm_compute; reflexivity | vm_compute; discriminate].
Defined.

Lemma handleSend_finish_failure_witness :
  let st' := handleSend_finish 0%nat AnswerFailure 40 sample_store in
  session_at st' 0%nat = push_assistant_message ERROR_REPLY_TEXT 40 (session_at sample_store 0%nat) /\
  isSending st' = false /\
  getItem (storage st') SESSIONS_KEY = Some (BlobSessions (deref (heap st') (sessions st'))).
Proof. exact (handleSend_finish_failure 0%nat 40 sample_store). Defined.

Lemma handleSend_finish_orphan_witness :
  (5%nat ∉ sessions sample_store) /\
  (let st' := handleSend_finish 5%nat (AnswerContent (js "late")) 40 sample_store in
   deref (heap st') (sessions st') = deref (heap sample_store) (sessions sample_store) /\
   getItem (storage st') SESSIONS_KEY =
     Some (BlobSessions (deref (heap sample_store) (sessions sample_store)))).
Proof.
  assert (H : 5%nat ∉ sessions sample_store) by decide_by_eval.
  split; [exact H | apply handleSend_finish_orphan; exact H].
Defined.

Lemma loadSessions_restores_witness :
  let l := [sample_session "a" "a" 10; sample_session "b" "b" 20] in
  getItem (storage (store_before_load (BlobSessions l))) SESSIONS_KEY = Some (BlobSessions l) /\
  l <> [] /\
  exists st', loadSessions 30 (js "r") (store_before_load (BlobSessions l)) = Ok st' /\
    deref (heap st') (sessions st') = sort_by_recency l /\
    currentSessionId st' = ChatSession.id <$> head (sort_by_recency l).
Proof.
  cbv zeta. split; [reflexivity |]. split; [discriminate |].
  apply loadSessions_restores; [reflexivity | discriminate].
Defined.

Lemma loadSessions_corrupt_recovers_witness :
  getItem (storage (store_before_load BlobUnparsable)) SESSIONS_KEY = Some BlobUnparsable /\
  exists st', loadSessions 30 (js "r") (store_before_load BlobUnparsable) = Ok st' /\
    sessions st' = [next_loc (store_before_load BlobUnparsable)] /\
    session_at st' (next_loc (store_before_load BlobUnparsable)) =
      ChatSession.mk (session_id 30 (js "r")) NEW_CHAT_TITLE [] 30 30 /\
    currentSessionId st' = Some (session_id 30 (js "r")).
Proof. split; [reflexivity | apply loadSessions_corrupt_recovers; reflexivity]. Defined.

Lemma loadSessions_foreign_json_throws_witness :
  getItem (storage (store_before_load BlobForeignJson)) SESSIONS_KEY = Some BlobForeignJson /\
  loadSessions 30 (js "r") (store_before_load BlobForeignJson) = Err LoadTypeError.
Proof. split; [reflexivity | apply loadSessions_foreign_json_throws; reflexivity]. Defined.

Lemma searchChat_blank_query_witness :
  toLowerCase [] = [] /\ trim (js "   ") = [] /\
  searchChat (js "   ") None sample_store = sample_store.
Proof.
  split; [reflexivity |]. split; [vm_compute; reflexivity |].
  apply searchChat_blank_query; [reflexivity | vm_compute; reflexivity].
Defined.

Lemma searchChat_single_match_witness :
  toLowerCase (trim (js "B")) <> [] /\
  search_matches (toLowerCase (trim (js "B"))) sample_store = [1%nat] /\
  searchChat (js "B") None sample_store =
    set_current (Some (ChatSession.id (session_at sample_store 1%nat))) sample_store.
Proof.
  split; [vm_compute; discriminate |]. split; [vm_compute; reflexivity |].
  apply searchChat_single_match; [vm_compute; discriminate | vm_compute; reflexivity].
Defined.

(** Two sessions titled "chat a" (updated at 10, first in the array) and
    "chat b" (updated at 20). *)
Definition chat_store : @Store (gmap jstring Blob) :=
  mkStore (sample_heap (sample_session "a" "chat a" 10) (sample_session "b" "chat b" 20))
    2 [0%nat; 1%nat] (Some (js "a")) false ∅.

(** The sessions [searchChat] numbers in its prompt are in array
    order, not in the recency order of the sidebar: here "chat a" is
    listed first although "chat b" is more recent. *)
Theorem search_order_is_array_order :
  search_matches (js "chat") chat_store = [0%nat; 1%nat] /\
  renderSidebar_order chat_store = [1%nat; 0%nat].
Proof. split; vm_compute; reflexivity. Qed.

(** Search is case-insensitive: a session titled "Weather" is found
    by the query "weather" (and by "WEATHER"). *)
Theorem search_case_insensitive_example :
  let st := mkStore {[0%nat := sample_session "w" "Weather" 10]} 1 [0%nat] (Some (js "w")) false
              (∅ : gmap jstring Blob) in
  search_matches (toLowerCase (trim (js "weather"))) st = [0%nat] /\
  search_matches (toLowerCase (trim (js "WEATHER"))) st = [0%nat].
Proof. split; vm_compute; reflexivity. Qed.
