(* ===== verification/StoreInv.v ===== *)
(** * The invariant of the session store

    [store_inv] is what [main.ts] keeps true between two events once
    [loadSessions] has run: the array refers to allocated objects, each at
    most once, and the allocation pointer is fresh ([heap_wf]); the array
    is never empty; [currentSessionId] is the id of a session in the array
    ([current_valid]); and [localStorage] holds, under the sessions key, a
    permutation of the sessions in the array ([persisted]: a permutation
    because [loadSessions] sorts the array without saving it).  Each
    handler preserves it; [loadSessions] establishes it. *)

From S2P Require Import Prelude JsString JsSort Session Store.
From stdpp Require Import gmap.

#[local] Set Default Proof Using "All".

Section Inv.
Context {St : Type} `{!Storage St} `{!StorageLaws St}.
Implicit Types st : @Store St.

Definition heap_wf st : Prop :=
  Forall (fun l => is_Some (heap st !! l)) (sessions st) /\
  (forall l, is_Some (heap st !! l) -> (l < next_loc st)%nat) /\
  NoDup (sessions st).

Definition current_valid st : Prop :=
  sessions st <> [] ->
  exists l, l ∈ sessions st /\ currentSessionId st = Some (ChatSession.id (session_at st l)).

Definition persisted st : Prop :=
  exists saved, getItem (storage st) SESSIONS_KEY = Some (BlobSessions saved) /\
    saved ≡ₚ deref (heap st) (sessions st).

Definition store_inv st : Prop :=
  heap_wf st /\ current_valid st /\ sessions st <> [] /\ persisted st.

(** ** The invariant is decidable *)

#[export] Instance heap_wf_dec st : Decision (heap_wf st).
Proof.
  refine (decide_by_iff _ (and_dec (Forall_dec (fun l => is_Some (heap st !! l)) (sessions st))
    (and_dec (map_Forall_dec (fun k _ => (k < next_loc st)%nat) (heap st)) (NoDup_dec (sessions st)))));
    [| intros; apply _].
  unfold heap_wf. rewrite map_Forall_lookup. split.
  - intros (? & Hm & ?). split_and!; [done | | done]. intros l [s Hs]. by apply (Hm l s).
  - intros (? & Hm & ?). split_and!; [done | | done]. intros l s Hs. apply Hm. by exists s.
Defined.

#[export] Instance current_valid_dec st : Decision (current_valid st).
Proof.
  refine (decide_by_iff (P := sessions st <> [] -> Exists (fun l =>
    currentSessionId st = Some (ChatSession.id (session_at st l))) (sessions st)) _ _).
  unfold current_valid. by rewrite Exists_exists.
Defined.

#[export] Instance persisted_dec st : Decision (persisted st).
Proof.
  unfold persisted. destruct (getItem (storage st) SESSIONS_KEY) as [[saved | | | |] |].
  2-6: right; by intros (? & ? & _).
  refine (decide_by_iff _ (Permutation_dec saved (deref (heap st) (sessions st)))).
  split; [by eauto | by intros (? & [= ->] & ?)].
Defined.

#[export] Instance store_inv_dec st : Decision (store_inv st).
Proof. unfold store_inv. apply _. Defined.

(** ** Saving and the heap *)

Lemma saveSessions_persisted st : persisted (saveSessions st).
Proof. exists (deref (heap st) (sessions st)). split; [apply getItem_setItem_eq | done]. Qed.

Lemma deref_perm (h : gmap nat ChatSession.t) (l1 l2 : list nat) :
  l1 ≡ₚ l2 -> deref h l1 ≡ₚ deref h l2.
Proof.
  induction 1 as [|x l1 l2 _ IH|x y l|l1 l2 l3 _ IH1 _ IH2]; unfold deref in *; simpl.
  - done.
  - destruct (h !! x); [by constructor | done].
  - destruct (h !! x), (h !! y); try done. constructor.
  - by etrans.
Qed.

Lemma heap_wf_save st : heap_wf st -> heap_wf (saveSessions st).
Proof. done. Qed.

Lemma current_valid_save st : current_valid st -> current_valid (saveSessions st).
Proof. done. Qed.

(** Replacing an allocated object by one with the same id keeps the
    well-formedness of the heap and the validity of the current id. *)
Lemma heap_wf_update st (l : nat) (s : ChatSession.t) :
  is_Some (heap st !! l) -> heap_wf st -> heap_wf (set_heap (<[l := s]> (heap st)) st).
Proof.
  intros Hl (Hall & Hfresh & Hnd). split_and!; simpl; [| | done].
  - eapply Forall_impl; [exact Hall |]. intros a Ha.
    rewrite lookup_insert. case_decide; [done | exact Ha].
  - intros a. rewrite lookup_insert. case_decide; [subst; intros _; by apply Hfresh | apply Hfresh].
Qed.

Lemma current_valid_update st (l : nat) (s : ChatSession.t) :
  is_Some (heap st !! l) -> ChatSession.id s = ChatSession.id (session_at st l) ->
  current_valid st -> current_valid (set_heap (<[l := s]> (heap st)) st).
Proof.
  intros _ Hid Hcv Hne. destruct (Hcv Hne) as (a & Ha & Hc). exists a. split; [done |].
  simpl. rewrite Hc. unfold session_at. simpl. rewrite lookup_total_insert.
  case_decide; [subst; by rewrite Hid | done].
Qed.

(** ** Creating *)

Lemma create_and_select_inv (now : Z) (rnd : jstring) st :
  heap_wf st -> store_inv (create_and_select now rnd st).
Proof.
  intros (Hall & Hfresh & Hnd).
  assert (Hnew : next_loc st ∉ sessions st).
  { intros Hin. eapply Forall_forall in Hall; [| exact Hin]. apply Hfresh in Hall. lia. }
  unfold create_and_select, createNewSession. simpl. split_and!.
  - unfold heap_wf; simpl. split_and!.
    + constructor; [by rewrite lookup_insert_eq |].
      eapply Forall_impl; [exact Hall |]. intros a Ha. rewrite lookup_insert. by case_decide.
    + intros a. rewrite lookup_insert. case_decide; [lia |]. intros Ha. apply Hfresh in Ha. lia.
    + by constructor.
  - intros _. exists (next_loc st). split; [by left | done].
  - done.
  - apply saveSessions_persisted.
Qed.

(** ** Sorting *)

Lemma heap_wf_perm st (ls : list nat) :
  ls ≡ₚ sessions st -> heap_wf st -> heap_wf (set_sessions ls st).
Proof. intros Hp (Hall & Hfresh & Hnd). split_and!; simpl; [by rewrite Hp | done | by rewrite Hp]. Qed.

(** Sorting permutes the array, keeps the objects and the storage, and
    selects a session of the array. *)
Lemma sort_and_select_first_inv st :
  heap_wf st -> sessions st <> [] ->
  heap_wf (sort_and_select_first st) /\ current_valid (sort_and_select_first st) /\
  sessions (sort_and_select_first st) ≡ₚ sessions st /\
  heap (sort_and_select_first st) = heap st /\ storage (sort_and_select_first st) = storage st.
Proof.
  intros Hwf Hne.
  pose proof (sort_desc_permutation (recency_key st) (sessions st)) as Hp.
  unfold sort_and_select_first.
  destruct (sort_desc (recency_key st) (sessions st)) as [|a r] eqn:Hs.
  { apply Permutation_nil in Hp. by rewrite Hp in Hne. }
  split_and!; [by apply heap_wf_perm | | done | done | done].
  intros _. exists a. split; [by left | done].
Qed.

Lemma persisted_perm st (ls : list nat) :
  ls ≡ₚ sessions st -> persisted st -> persisted (set_sessions ls st).
Proof.
  intros Hp (saved & Hget & Hperm). exists saved. split; [done |].
  rewrite Hperm. symmetry. by apply deref_perm.
Qed.

Lemma store_inv_save st :
  heap_wf st -> current_valid st -> sessions st <> [] -> store_inv (saveSessions st).
Proof. intros. split_and!; [done | done | done | apply saveSessions_persisted]. Qed.

(** ** Selecting a session of the array *)

Lemma store_inv_select st (l : nat) :
  l ∈ sessions st -> store_inv st ->
  store_inv (set_current (Some (ChatSession.id (session_at st l))) st).
Proof. intros Hl (Hwf & _ & Hne & Hp). split_and!; [done | | done | done]. intros _. by exists l. Qed.

(** ** Deleting *)

Lemma elem_of_delete_ne (x y : nat) (i : nat) (ls : list nat) :
  ls !! i = Some y -> x ∈ ls -> x <> y -> x ∈ delete i ls.
Proof.
  intros Hi Hx Hne. rewrite delete_take_drop.
  rewrite <- (take_drop_middle ls i y Hi) in Hx.
  apply elem_of_app in Hx as [Hx | [-> | Hx]%elem_of_cons]; [| done |]; apply elem_of_app; auto.
Qed.

Lemma heap_wf_delete st (i : nat) :
  heap_wf st -> heap_wf (set_sessions (delete i (sessions st)) st).
Proof.
  intros (Hall & Hfresh & Hnd). split_and!; simpl; [by apply Forall_delete | done |].
  eapply sublist_NoDup; [exact Hnd | apply sublist_delete].
Qed.

(** [deleteSession] preserves the store invariant, whatever the id:
    the array stays non-empty (a new chat replaces the last one), the
    current id stays the id of a session of the array, and the storage
    holds the array. *)
Theorem deleteSession_inv (id : jstring) (now : Z) (rnd : jstring) st :
  store_inv st -> store_inv (deleteSession id now rnd st).
Proof.
  intros Hinv. pose proof Hinv as (Hwf & Hcv & Hne & Hp). unfold deleteSession.
  destruct (find_index st (has_id id)) as [i |] eqn:Hf; [| done].
  apply find_index_Some in Hf as (l & Hl & Hid).
  pose proof (heap_wf_delete st i Hwf) as Hwf1. cbv zeta.
  destruct (sessions (set_sessions (delete i (sessions st)) st)) as [| a r] eqn:Hs.
  - destruct (create_and_select_inv now rnd _ Hwf1) as (? & ? & ? & _).
    by apply store_inv_save.
  - assert (Hne1 : sessions (set_sessions (delete i (sessions st)) st) <> []) by (by rewrite Hs).
    case_bool_decide as Hcur.
    + destruct (sort_and_select_first_inv _ Hwf1 Hne1) as (? & ? & Hperm & _).
      apply store_inv_save; [done | done |]. by eapply Permutation_ne_nil.
    + apply store_inv_save; [done | | done]. intros _.
      destruct (Hcv Hne) as (l' & Hl' & Hc). exists l'. split; [| done].
      apply (elem_of_delete_ne _ l); [done | done |]. intros ->.
      apply Hcur. simpl. rewrite Hc. unfold has_id in Hid.
      apply bool_decide_eq_true in Hid. by rewrite Hid.
Qed.

(** ** Loading *)

Lemma heap_wf_nil st : heap_wf st -> heap_wf (set_sessions [] st).
Proof. intros (_ & Hfresh & _). split_and!; [constructor | done | constructor]. Qed.

Lemma alloc_sessions_fresh (l : list ChatSession.t) st :
  (forall k, is_Some (heap st !! k) -> (k < next_loc st)%nat) ->
  forall k, is_Some (heap (alloc_sessions l st).2 !! k) -> (k < next_loc (alloc_sessions l st).2)%nat.
Proof.
  revert st. induction l as [|s l IH]; intros st Hfresh; [done |]. simpl.
  destruct (alloc_sessions l _) as [ls st2] eqn:Ha. simpl.
  intros k Hk.
  specialize (IH (mkStore (<[next_loc st := s]> (heap st)) (S (next_loc st)) (sessions st)
                          (currentSessionId st) (isSending st) (storage st))).
  rewrite Ha in IH. apply IH; [| done]. simpl. intros k' Hk'.
  rewrite lookup_insert in Hk'. case_decide; [lia |]. apply Hfresh in Hk'. lia.
Qed.

(** The array [JSON.parse] returns: fresh objects, each at one location. *)
Lemma heap_wf_alloc (l : list ChatSession.t) st :
  heap_wf st ->
  heap_wf (set_sessions (alloc_sessions l st).1 (alloc_sessions l st).2).
Proof.
  intros (_ & Hfresh & _). pose proof (alloc_sessions_spec l st) as Hspec.
  pose proof (alloc_sessions_fresh l st Hfresh) as Hfresh2.
  destruct (alloc_sessions l st) as [ls st2]. simpl in *.
  destruct Hspec as (-> & _ & _ & Hall & _). split_and!; [done | done | apply NoDup_seq].
Qed.

(** On the page's first state (no session in the array, a well-formed
    heap), a [loadSessions] that does not throw establishes the store
    invariant. *)
Theorem loadSessions_establishes_inv (now : Z) (rnd : jstring) st st' :
  heap_wf st -> sessions st = [] -> loadSessions now rnd st = Ok st' -> store_inv st'.
Proof.
  intros Hwf Hnil. unfold loadSessions.
  destruct (getItem (storage st) SESSIONS_KEY) as [[saved | | | |] |] eqn:Hget;
    try discriminate.
  - pose proof (alloc_sessions_spec saved st) as Hspec. pose proof (heap_wf_alloc saved st Hwf) as Hwf1.
    destruct (alloc_sessions saved st) as [ls st2]. simpl in Hwf1.
    destruct Hspec as (_ & _ & Hderef & _ & _ & _ & Hstor).
    cbn [sessions set_sessions]. destruct ls as [| a r]; intros [= <-].
    + by apply create_and_select_inv.
    + destruct (sort_and_select_first_inv _ Hwf1 ltac:(done)) as (? & ? & Hperm & Hh & Hs).
      split_and!; [done | done | by eapply Permutation_ne_nil |].
      exists saved. rewrite Hs. split; [simpl; by rewrite Hstor |].
      rewrite Hh. simpl. rewrite <- Hderef at 1. symmetry. by apply deref_perm.
  - rewrite Hnil. intros [= <-]. by apply create_and_select_inv.
  - cbn [sessions set_sessions]. intros [= <-]. by apply create_and_select_inv, heap_wf_nil.
  - rewrite Hnil. intros [= <-]. by apply create_and_select_inv.
Qed.

(** ** Selecting and searching *)

(** Clicking a list item ([selectSession] with the id of a session
    of the array) preserves the invariant. *)
Theorem selectSession_inv st (l : nat) :
  store_inv st -> l ∈ sessions st ->
  store_inv (selectSession (ChatSession.id (session_at st l)) st).
Proof. intros Hinv Hl. unfold selectSession. case_bool_decide; [done |]. by apply store_inv_select. Qed.

Lemma search_matches_sub `{!JsLowerCase} (q : jstring) st (l : nat) :
  l ∈ search_matches q st -> l ∈ sessions st.
Proof. by intros [_ ?]%list_elem_of_filter. Qed.

Lemma searchChat_inv `{!JsLowerCase} (keyword : jstring) (answer : option Z) st :
  store_inv st -> store_inv (searchChat keyword answer st).
Proof.
  intros Hinv. unfold searchChat. destruct (toLowerCase (trim keyword)) as [| c q]; [done |].
  destruct (search_matches (c :: q) st) as [| l0 [| l1 r]] eqn:Hm; [done | |].
  - apply store_inv_select; [| done]. apply (search_matches_sub (c :: q)). rewrite Hm. by left.
  - destruct answer as [n |]; [| done]. case_bool_decide; [| done].
    destruct ((l0 :: l1 :: r) !! Z.to_nat (n - 1)) as [l |] eqn:Hk; [| done].
    apply store_inv_select; [| done]. apply (search_matches_sub (c :: q)). rewrite Hm.
    by eapply list_elem_of_lookup_2.
Qed.

(** ** Sending *)

Lemma find_loc_Some st (p : ChatSession.t -> bool) (l : nat) :
  find_loc st p = Some l -> l ∈ sessions st /\ p (session_at st l) = true.
Proof.
  unfold find_loc. intros ([i a] & Hf & Heq)%fmap_Some. simpl in Heq. subst a.
  apply list_find_Some in Hf as (Hl & Hp & _). split; [by eapply list_elem_of_lookup_2 | done].
Qed.

Lemma getCurrentSession_elem st (l : nat) : getCurrentSession st = Some l -> l ∈ sessions st.
Proof.
  unfold getCurrentSession. destruct (currentSessionId st); [| done].
  by intros [? _]%find_loc_Some.
Qed.

(** Replacing the object at an allocated location by one with its id. *)
Lemma store_inv_update st (l : nat) (s : ChatSession.t) :
  is_Some (heap st !! l) -> ChatSession.id s = ChatSession.id (session_at st l) ->
  store_inv st -> store_inv (saveSessions (set_heap (<[l := s]> (heap st)) st)).
Proof.
  intros Hl Hid (Hwf & Hcv & Hne & _).
  apply store_inv_save; [by apply heap_wf_update | by apply current_valid_update | done].
Qed.

Lemma store_inv_sending st (b : bool) : store_inv st -> store_inv (set_sending b st).
Proof. done. Qed.

(** The first half of [handleSend] preserves the invariant, and the
    session it keeps for the reply is one of the array. *)
Theorem handleSend_start_inv (input : jstring) (now : Z) st (l : nat) st' :
  store_inv st -> handleSend_start input now st = Some (l, st') ->
  store_inv st' /\ l ∈ sessions st' /\ isSending st' = true.
Proof.
  intros Hinv. pose proof Hinv as ((Hall & _) & _). unfold handleSend_start.
  destruct (isSending st); [done |].
  destruct (getCurrentSession st) as [a |] eqn:Hc; [| done].
  pose proof (getCurrentSession_elem _ _ Hc) as Ha.
  destruct (trim input) as [| c t]; [done |]. intros [= <- <-].
  split_and!; [| done | done]. apply store_inv_sending, store_inv_update; [| done | done].
  by eapply Forall_forall in Hall.
Qed.

(** The second half of [handleSend] preserves the invariant, whether
    the captured session is still in the array or was deleted meanwhile,
    and clears [isSending]. *)
Theorem handleSend_finish_inv (l : nat) (a : ServerAnswer) (now : Z) st :
  store_inv st -> is_Some (heap st !! l) ->
  store_inv (handleSend_finish l a now st) /\ isSending (handleSend_finish l a now st) = false.
Proof. intros Hinv Hl. split; [| done]. by apply store_inv_sending, store_inv_update. Qed.

(** ** The other key of the storage *)

(** Writing another key of [localStorage] (the settings) keeps the
    invariant. *)
Lemma store_inv_other_key st (k : jstring) (b : Blob) :
  k <> SESSIONS_KEY -> store_inv st -> store_inv (set_storage (setItem (storage st) k b) st).
Proof.
  intros Hk (Hwf & Hcv & Hne & saved & Hget & Hp). split_and!; [done | done | done |].
  exists saved. split; [| done]. simpl. by rewrite getItem_setItem_ne.
Qed.

(** In a state of the invariant [getCurrentSession] never returns
    [undefined]: it finds a session of the array, with the current id.
    So [handleSend], [renderMessages] and [renderHeader] always have a
    session. *)
Theorem getCurrentSession_some st :
  store_inv st ->
  exists l, getCurrentSession st = Some l /\ l ∈ sessions st /\
    currentSessionId st = Some (ChatSession.id (session_at st l)).
Proof.
  intros (_ & Hcv & Hne & _). destruct (Hcv Hne) as (a & Ha & Hc).
  unfold getCurrentSession. rewrite Hc.
  destruct (find_loc st (has_id (ChatSession.id (session_at st a)))) as [l |] eqn:Hf.
  - apply find_loc_Some in Hf as [Hl Hid]. exists l. split_and!; [done | done |].
    unfold has_id in Hid. apply bool_decide_eq_true in Hid. by rewrite Hid.
  - exfalso. unfold find_loc in Hf. apply fmap_None in Hf.
    destruct (list_find_elem_of (fun l => has_id (ChatSession.id (session_at st a)) (session_at st l) = true)
                (sessions st) a Ha) as [? Hs]; [| congruence].
    unfold has_id. by apply bool_decide_eq_true.
Qed.

End Inv.

#[export] Hint Resolve saveSessions_persisted heap_wf_save current_valid_save : lmchat.

(** ** Witnesses on the concrete stores of [Store] *)

Lemma deleteSession_inv_witness :
  store_inv sample_store /\ store_inv (deleteSession (js "a") 30 (js "r") sample_store).
Proof.
  assert (H : store_inv sample_store) by decide_by_eval.
  split; [exact H | apply deleteSession_inv; exact H].
Defined.

Lemma loadSessions_establishes_inv_witness :
  let st := store_before_load (BlobSessions [sample_session "a" "a" 10; sample_session "b" "b" 20]) in
  heap_wf st /\ sessions st = [] /\
  exists st', loadSessions 30 (js "r") st = Ok st' /\ store_inv st'.
Proof.
  intros st. assert (Hwf : heap_wf st) by decide_by_eval.
  split; [exact Hwf |]. split; [reflexivity |].
  eexists. split; [reflexivity |].
  apply (loadSessions_establishes_inv 30 (js "r") st); [exact Hwf | reflexivity | reflexivity].
Defined.

Lemma selectSession_inv_witness :
  store_inv sample_store /\ 1%nat ∈ sessions sample_store /\
  store_inv (selectSession (ChatSession.id (session_at sample_store 1%nat)) sample_store).
Proof.
  assert (H : store_inv sample_store) by decide_by_eval.
  assert (Hl : 1%nat ∈ sessions sample_store) by decide_by_eval.
  split_and!; [exact H | exact Hl | apply selectSession_inv; [exact H | exact Hl]].
Defined.

Lemma handleSend_start_inv_witness :
  store_inv sample_store /\
  exists st', handleSend_start (js "hi") 30 sample_store = Some (0%nat, st') /\
    store_inv st' /\ 0%nat ∈ sessions st' /\ isSending st' = true.
Proof.
  assert (H : store_inv sample_store) by decide_by_eval.
  pose (st' := set_sending true (saveSessions (set_heap (<[0%nat := push_user_message
                  (trim (js "hi")) 30 (session_at sample_store 0%nat)]> (heap sample_store)) sample_store))).
  assert (E : handleSend_start (js "hi") 30 sample_store = Some (0%nat, st')) by reflexivity.
  split; [exact H |]. exists st'. split; [exact E |].
  apply (handleSend_start_inv (js "hi") 30 sample_store 0%nat st' H E).
Defined.

Lemma handleSend_finish_inv_witness :
  store_inv sample_store /\ is_Some (heap sample_store !! 0%nat) /\
  store_inv (handleSend_finish 0%nat (AnswerContent (js "ok")) 40 sample_store) /\
  isSending (handleSend_finish 0%nat (AnswerContent (js "ok")) 40 sample_store) = false.
Proof.
  assert (H : store_inv sample_store) by decide_by_eval.
  assert (Hl : is_Some (heap sample_store !! 0%nat)) by (eexists; reflexivity).
  split_and!; [exact H | exact Hl | |]; apply handleSend_finish_inv; [exact H | exact Hl | exact H | exact Hl].
Defined.

Lemma getCurrentSession_some_witness :
  store_inv sample_store /\
  exists l, getCurrentSession sample_store = Some l /\ l ∈ sessions sample_store /\
    currentSessionId sample_store = Some (ChatSession.id (session_at sample_store l)).
Proof.
  assert (H : store_inv sample_store) by decide_by_eval.
  split; [exact H | exact (getCurrentSession_some sample_store H)].
Defined.
