(* ===== verification/StoreSpec.v ===== *)
(** * The session store of the specification, and the refinement

    [spec.md] (§3 and §4.1) describes the SessionStore abstractly: a set
    of sessions unique by id and a [currentId], with the operations
    [create], [delete], [appendMessage], the selection of a session by the
    caller, and [load].  This file states that description as an abstract
    state [SpecStore] and a step relation [spec_step], both up to the
    order of the sessions (the specification's collection is a set), with
    the specification's own invariant (§3 and the first property of §8:
    a non-empty collection, unique by id, whose [currentId] names a
    member) proved by rule induction.  The concrete store of [Store] is related to it by the
    abstraction function [abstract]: the session objects the array refers
    to and the current id.  Each handler of [Store] is zero, one or two
    steps of [spec_step] under [abstract] (the [*_refines] lemmas of the
    section [Handlers]), and [loadSessions] is [spec_load] of the
    collection under the sessions key; [App.run_refines_spec] composes
    them over whole runs of the page.  The only hypothesis is the one the
    specification puts on the implementation: the id [createNewSession]
    generates ([Date.now()] and six random characters) is not already in
    use. *)

From S2P Require Import Prelude JsString JsSort Session Store StoreInv.
From stdpp Require Import gmap relations.

Open Scope N_scope.
#[local] Set Default Proof Using "All".

(** ** The abstract store *)

Record SpecStore := mkSpec {
  spec_sessions : list ChatSession.t;
  spec_current : option jstring
}.

Definition spec_ids (S : SpecStore) : list jstring := ChatSession.id <$> spec_sessions S.

(** Two abstract stores are the same store when they hold the same
    sessions, in any order, and the same current id. *)
#[export] Instance SpecStore_equiv : Equiv SpecStore :=
  fun S T => spec_sessions S ≡ₚ spec_sessions T /\ spec_current S = spec_current T.

#[export] Instance SpecStore_equivalence : Equivalence (≡@{SpecStore}).
Proof.
  split.
  - intros S. by split.
  - intros S T [H1 H2]. by split.
  - intros S T U [H1 H2] [H3 H4]. split; [by etrans | congruence].
Qed.

(** A session as [create] makes it: the title given, no message, both
    timestamps [now].  The code creates sessions with the title
    "新しいチャット" only. *)
Definition blank_session (x : ChatSession.t) (now : Z) : Prop :=
  ChatSession.title x = NEW_CHAT_TITLE /\ ChatSession.messages x = [] /\
  ChatSession.createdAt x = now /\ ChatSession.updatedAt x = now.

(** [appendMessage(id, role, content, now)] on the session: the message
    appended, [updatedAt = now], and on the first message the title
    derived from the content. *)
Definition spec_append_to (role : Role) (content : jstring) (now : Z) (x : ChatSession.t) : ChatSession.t :=
  ChatSession.mk (ChatSession.id x)
    (match ChatSession.messages x with [] => first_message_title content | _ => ChatSession.title x end)
    (ChatSession.messages x ++ [Message.mk role content now]) (ChatSession.createdAt x) now.

(** The operations of §4.1, each up to the order of the sessions. *)
Inductive spec_step : SpecStore -> SpecStore -> Prop :=
| spec_create S S' x now :
    blank_session x now -> ChatSession.id x ∉ spec_ids S ->
    spec_sessions S' ≡ₚ x :: spec_sessions S -> spec_current S' = spec_current S ->
    spec_step S S'
| spec_select S S' x :
    x ∈ spec_sessions S -> spec_sessions S' ≡ₚ spec_sessions S ->
    spec_current S' = Some (ChatSession.id x) -> spec_step S S'
| spec_delete_other S S' x :
    spec_sessions S ≡ₚ x :: spec_sessions S' -> spec_sessions S' <> [] ->
    spec_current S <> Some (ChatSession.id x) -> spec_current S' = spec_current S ->
    spec_step S S'
| spec_delete_current S S' x y :
    spec_sessions S ≡ₚ x :: spec_sessions S' -> spec_current S = Some (ChatSession.id x) ->
    y ∈ spec_sessions S' ->
    (forall z, z ∈ spec_sessions S' -> (ChatSession.updatedAt z <= ChatSession.updatedAt y)%Z) ->
    spec_current S' = Some (ChatSession.id y) -> spec_step S S'
| spec_delete_last S S' x y now :
    spec_sessions S ≡ₚ [x] -> blank_session y now ->
    spec_sessions S' = [y] -> spec_current S' = Some (ChatSession.id y) -> spec_step S S'
| spec_append S S' x rest role content now :
    spec_sessions S ≡ₚ x :: rest ->
    spec_sessions S' ≡ₚ spec_append_to role content now x :: rest ->
    spec_current S' = spec_current S -> spec_step S S'.

(** The collection [load] reads: a saved list, or [None] when the key is
    missing, empty or unparsable. *)
Definition persisted_collection (b : option Blob) : option (list ChatSession.t) :=
  match b with
  | Some (BlobSessions l) => Some l
  | _ => None
  end.

(** What the store writes: a collection with unique ids. *)
Definition ids_unique (o : option (list ChatSession.t)) : Prop :=
  match o with Some l => NoDup (ChatSession.id <$> l) | None => True end.

#[export] Instance ids_unique_dec o : Decision (ids_unique o).
Proof. destruct o; cbn; apply _. Defined.

(** [load()]: the saved collection (which the store wrote, so its ids
    are unique) with a current session of it, or, on missing, corrupt or
    empty data, one new blank session, selected. *)
Inductive spec_load : option (list ChatSession.t) -> SpecStore -> Prop :=
| spec_load_saved l S x :
    NoDup (ChatSession.id <$> l) ->
    x ∈ l -> spec_sessions S ≡ₚ l -> spec_current S = Some (ChatSession.id x) -> spec_load (Some l) S
| spec_load_fresh o S y now :
    (o = None \/ o = Some []) -> blank_session y now ->
    spec_sessions S = [y] -> spec_current S = Some (ChatSession.id y) -> spec_load o S.

(** The states the specification reaches from the collection [o] that
    [load] reads. *)
Inductive spec_reachable (o : option (list ChatSession.t)) : SpecStore -> Prop :=
| spec_reach_load S : spec_load o S -> spec_reachable o S
| spec_reach_step S S' : spec_reachable o S -> spec_step S S' -> spec_reachable o S'.

(** §3: the collection is not empty and [currentId] names one of its
    sessions ... *)
Definition spec_current_ok (S : SpecStore) : Prop :=
  spec_sessions S <> [] /\ exists x, x ∈ spec_sessions S /\ spec_current S = Some (ChatSession.id x).

(** ... and the sessions are unique by id. *)
Definition spec_inv (S : SpecStore) : Prop := spec_current_ok S /\ NoDup (spec_ids S).

Lemma spec_ids_perm S (l : list ChatSession.t) :
  spec_sessions S ≡ₚ l -> spec_ids S ≡ₚ ChatSession.id <$> l.
Proof. intros Hp. unfold spec_ids. by rewrite Hp. Qed.

#[export] Instance spec_inv_proper : Proper ((≡) ==> iff) spec_inv.
Proof.
  intros S T [Hp Hc]. unfold spec_inv, spec_current_ok. rewrite (spec_ids_perm S _ Hp), Hc.
  split; intros [[Hne (x & Hx & Hcx)] Hnd]; (split; [split; [| exists x; split; [| done]] | done]).
  - intros Hn. apply Hne, Permutation_nil. by rewrite Hp, Hn.
  - by rewrite <- Hp.
  - intros Hn. apply Hne, Permutation_nil. by rewrite <- Hp, Hn.
  - by rewrite Hp.
Qed.

(** ** The invariant of the specification *)

Lemma spec_load_inv o S : spec_load o S -> spec_inv S.
Proof.
  unfold spec_inv, spec_current_ok. destruct 1 as [l S x Hnd Hx Hp Hc | o S y now _ _ Hs Hc].
  - split_and!; [| exists x; split; [by rewrite Hp | done] | by rewrite (spec_ids_perm _ _ Hp)].
    intros Hn. rewrite Hn in Hp. apply Permutation_nil in Hp. subst l. by apply not_elem_of_nil in Hx.
  - unfold spec_ids. rewrite Hs. split_and!; [done | exists y; split; [left | done] | apply NoDup_singleton].
Qed.

Lemma spec_step_current_ok S S' : spec_current_ok S -> spec_step S S' -> spec_current_ok S'.
Proof.
  unfold spec_current_ok. intros [Hne (w & Hw & Hcw)].
  destruct 1 as [S S' x now _ _ Hp Hc | S S' x Hx Hp Hc | S S' x Hp Hne' Hnx Hc
                | S S' x y Hp Hcx Hy _ Hc | S S' x y now _ _ Hs Hc | S S' x rest role content now Hp Hp' Hc].
  - split; [intros Hn; rewrite Hn in Hp; by apply Permutation_nil_cons in Hp |].
    exists w. rewrite Hp, Hc. split; [by right | done].
  - split; [intros Hn; rewrite Hn in Hp; apply Hne, Permutation_nil; by symmetry |].
    exists x. by rewrite Hp.
  - split; [done |]. exists w. rewrite Hc. split; [| done].
    rewrite Hp in Hw. apply elem_of_cons in Hw as [-> | Hw]; [congruence | done].
  - split; [intros Hn; rewrite Hn in Hy; by apply not_elem_of_nil in Hy |]. by exists y.
  - rewrite Hs. split; [done |]. exists y. split; [left | done].
  - split; [intros Hn; rewrite Hn in Hp'; by apply Permutation_nil_cons in Hp' |].
    rewrite Hp in Hw. rewrite Hc. apply elem_of_cons in Hw as [-> | Hw].
    + exists (spec_append_to role content now x). rewrite Hp'. split; [left | done].
    + exists w. rewrite Hp'. split; [by right | done].
Qed.

(** No step makes two sessions share an id: [create] takes a fresh one,
    [appendMessage] keeps the id, [delete] only removes. *)
Lemma spec_step_nodup S S' : NoDup (spec_ids S) -> spec_step S S' -> NoDup (spec_ids S').
Proof.
  intros Hnd.
  destruct 1 as [S S' x now _ Hfresh Hp _ | S S' x _ Hp _ | S S' x Hp _ _ _
                | S S' x y Hp _ _ _ _ | S S' x y now _ _ Hs _ | S S' x rest role content now Hp Hp' _].
  - rewrite (spec_ids_perm _ _ Hp). by constructor.
  - by rewrite (spec_ids_perm _ _ Hp).
  - rewrite (spec_ids_perm _ _ Hp) in Hnd. by apply NoDup_cons in Hnd as [_ ?].
  - rewrite (spec_ids_perm _ _ Hp) in Hnd. by apply NoDup_cons in Hnd as [_ ?].
  - unfold spec_ids. rewrite Hs. apply NoDup_singleton.
  - rewrite (spec_ids_perm _ _ Hp) in Hnd. by rewrite (spec_ids_perm _ _ Hp').
Qed.

Lemma spec_step_inv S S' : spec_inv S -> spec_step S S' -> spec_inv S'.
Proof. intros [Hc Hnd] Hs. split; [by eapply spec_step_current_ok | by eapply spec_step_nodup]. Qed.

(** The specification keeps its own invariant (§3, and the first
    testable property of §8): after [load] and any sequence of [create],
    selection, [delete] and [appendMessage], the collection is non-empty,
    its ids are unique, and [currentId] references one of its sessions. *)
Theorem spec_reachable_inv o S : spec_reachable o S -> spec_inv S.
Proof.
  induction 1 as [S Hload | S S' _ IH Hstep]; [by eapply spec_load_inv | by eapply spec_step_inv].
Qed.

Lemma spec_reachable_rtc o S S' : spec_reachable o S -> rtc spec_step S S' -> spec_reachable o S'.
Proof. intros HS Hr. induction Hr as [| S1 S2 S3 H12 _ IH]; [done |]. apply IH. by eapply spec_reach_step. Qed.

(** ** The abstraction of the concrete store *)

Section Abstract.
Context {St : Type} `{!Storage St}.
Implicit Types st : @Store St.

(** The abstract store a concrete one stands for: the session objects the
    array refers to, and the current id. *)
Definition abstract st : SpecStore := mkSpec (deref (heap st) (sessions st)) (currentSessionId st).

Lemma deref_app (h : gmap nat ChatSession.t) (l1 l2 : list nat) :
  deref h (l1 ++ l2) = deref h l1 ++ deref h l2.
Proof. apply omap_app. Qed.

Lemma deref_cons_Some (h : gmap nat ChatSession.t) (a : nat) (ls : list nat) (x : ChatSession.t) :
  h !! a = Some x -> deref h (a :: ls) = x :: deref h ls.
Proof. intros Ha. unfold deref. simpl. by rewrite Ha. Qed.

Lemma deref_delete_perm (h : gmap nat ChatSession.t) (ls : list nat) (i l : nat) :
  ls !! i = Some l -> is_Some (h !! l) -> deref h ls ≡ₚ (h !!! l) :: deref h (delete i ls).
Proof.
  intros Hi [v Hv]. rewrite <- (take_drop_middle ls i l Hi) at 1. rewrite delete_take_drop.
  rewrite !deref_app, (deref_cons_Some _ _ _ v Hv), (lookup_total_correct h l v Hv).
  symmetry. apply Permutation_middle.
Qed.

Lemma deref_update_perm (h : gmap nat ChatSession.t) (ls : list nat) (l : nat) (v : ChatSession.t) :
  NoDup ls -> l ∈ ls -> is_Some (h !! l) ->
  exists rest, deref h ls ≡ₚ (h !!! l) :: rest /\ deref (<[l := v]> h) ls ≡ₚ v :: rest.
Proof.
  intros Hnd Hl [w Hw]. apply list_elem_of_split in Hl as (pre & post & ->).
  apply NoDup_app in Hnd as (_ & Hdis & Hnd). apply NoDup_cons in Hnd as [Hpost _].
  assert (Hpre : l ∉ pre) by (intros Hin; by apply (Hdis l Hin), elem_of_cons; left).
  exists (deref h pre ++ deref h post).
  rewrite !deref_app, (deref_cons_Some _ _ _ w Hw), (deref_cons_Some _ _ _ v (lookup_insert_eq h l v)).
  rewrite (lookup_total_correct h l w Hw), !deref_insert_notin by done.
  split; symmetry; apply Permutation_middle.
Qed.

Lemma deref_elem st (l : nat) :
  heap_wf st -> l ∈ sessions st -> session_at st l ∈ deref (heap st) (sessions st).
Proof.
  intros (Hall & _ & _) Hl. rewrite (deref_total _ _ Hall). by apply list_elem_of_fmap_2.
Qed.

Lemma deref_elem_inv st (x : ChatSession.t) :
  heap_wf st -> x ∈ deref (heap st) (sessions st) -> exists l, l ∈ sessions st /\ x = session_at st l.
Proof.
  intros (Hall & _ & _). rewrite (deref_total _ _ Hall). intros (l & -> & Hl)%list_elem_of_fmap.
  by exists l.
Qed.

Lemma deref_nonempty st : heap_wf st -> sessions st <> [] -> deref (heap st) (sessions st) <> [].
Proof.
  intros (Hall & _ & _) Hne. rewrite (deref_total _ _ Hall). by destruct (sessions st).
Qed.

Lemma abstract_save st : abstract (saveSessions st) = abstract st.
Proof. done. Qed.

(** Selecting a session of the array is the specification's selection. *)
Lemma select_refines st (l : nat) :
  heap_wf st -> l ∈ sessions st ->
  spec_step (abstract st) (abstract (set_current (Some (ChatSession.id (session_at st l))) st)).
Proof. intros Hwf Hl. eapply spec_select; [by apply deref_elem | done | done]. Qed.

(** [sort_and_select_first] keeps the sessions and selects one with the
    greatest [updatedAt]. *)
Lemma sort_and_select_first_abstract st :
  heap_wf st -> sessions st <> [] ->
  spec_sessions (abstract (sort_and_select_first st)) ≡ₚ spec_sessions (abstract st) /\
  exists y, y ∈ spec_sessions (abstract st) /\
    (forall z, z ∈ spec_sessions (abstract st) -> (ChatSession.updatedAt z <= ChatSession.updatedAt y)%Z) /\
    spec_current (abstract (sort_and_select_first st)) = Some (ChatSession.id y).
Proof.
  intros Hwf Hne. unfold sort_and_select_first. cbn zeta.
  pose proof (sort_desc_permutation (recency_key st) (sessions st)) as Hp.
  destruct (sort_desc (recency_key st) (sessions st)) as [|l r] eqn:Hs.
  { apply Permutation_nil in Hp. by destruct Hne. }
  cbn [abstract set_current set_sessions heap sessions currentSessionId spec_sessions spec_current].
  split; [by apply deref_perm |].
  assert (Hl : l ∈ sessions st) by (rewrite <- Hp; left).
  exists (session_at st l). split_and!; [by apply deref_elem | | done].
  intros z (l' & Hl' & ->)%deref_elem_inv; [| done]. by apply (sort_desc_head_max _ _ _ _ Hs).
Qed.

End Abstract.

(** ** Each handler is a step of the specification *)

Section Handlers.
Context {St : Type} `{!Storage St} `{!StorageLaws St}.
Implicit Types st : @Store St.

Lemma next_loc_notin st : heap_wf st -> next_loc st ∉ sessions st.
Proof.
  intros (Hall & Hf & _) Hin. rewrite Forall_forall in Hall. apply Hall, Hf in Hin. lia.
Qed.

(** The session [createNewSession("新しいチャット")] makes at [now]. *)
Definition new_session (now : Z) (rnd : jstring) : ChatSession.t :=
  ChatSession.mk (session_id now rnd) NEW_CHAT_TITLE [] now now.

Lemma new_session_blank now rnd : blank_session (new_session now rnd) now.
Proof. by split_and!. Qed.

Lemma abstract_create_and_select now rnd st :
  heap_wf st ->
  abstract (create_and_select now rnd st) =
    mkSpec (new_session now rnd :: deref (heap st) (sessions st)) (Some (session_id now rnd)).
Proof.
  intros Hwf. unfold create_and_select, createNewSession, abstract, session_at, saveSessions, set_storage, set_current.
  cbn [heap sessions currentSessionId next_loc].
  rewrite lookup_total_insert_eq, (deref_cons_Some _ _ _ (new_session now rnd)) by apply lookup_insert_eq.
  by rewrite deref_insert_notin by (by apply next_loc_notin).
Qed.

(** The new-chat button: [create], then the selection of the new session. *)
Lemma create_and_select_refines now rnd st :
  heap_wf st -> session_id now rnd ∉ spec_ids (abstract st) ->
  rtc spec_step (abstract st) (abstract (create_and_select now rnd st)).
Proof.
  intros Hwf Hfresh. rewrite abstract_create_and_select by done.
  eapply rtc_l; [| apply rtc_once].
  - eapply (spec_create _ (mkSpec (new_session now rnd :: deref (heap st) (sessions st)) (currentSessionId st)));
      [apply new_session_blank | exact Hfresh | done | done].
  - eapply spec_select; [left | done | done].
Qed.

(** [deleteSession] is [delete]: a no-op for an unknown id, else the
    removal with the selection the specification prescribes. *)
Lemma deleteSession_refines id now rnd st :
  heap_wf st -> rtc spec_step (abstract st) (abstract (deleteSession id now rnd st)).
Proof.
  intros Hwf. unfold deleteSession.
  destruct (find_index st (has_id id)) as [idx |] eqn:Hidx; [| apply rtc_refl].
  destruct (find_index_Some _ _ _ Hidx) as (l & Hl & Hid).
  unfold has_id in Hid. apply bool_decide_eq_true in Hid.
  pose proof Hwf as (Hall & _ & _).
  assert (Hsl : is_Some (heap st !! l)).
  { rewrite Forall_forall in Hall. apply Hall. by eapply list_elem_of_lookup_2. }
  pose proof (deref_delete_perm _ _ _ _ Hl Hsl) as Hp. fold (session_at st l) in Hp.
  pose proof (heap_wf_delete st idx Hwf) as Hwf1.
  apply rtc_once. rewrite abstract_save. cbn zeta.
  destruct (delete idx (sessions st)) as [| a r] eqn:Hdel; cbn [sessions set_sessions].
  - rewrite abstract_create_and_select by (by apply heap_wf_nil).
    eapply (spec_delete_last _ _ (session_at st l)); [exact Hp | apply new_session_blank | done | done].
  - case_bool_decide as Hc; cbn [currentSessionId set_sessions] in Hc.
    + rewrite <- Hdel. rewrite <- Hdel in Hwf1.
      destruct (sort_and_select_first_abstract _ Hwf1) as (Hp' & y & Hy & Hmax & Hcy);
        [cbn; by rewrite Hdel |].
      eapply (spec_delete_current _ _ (session_at st l) y); [| cbn; by rewrite Hc, Hid | | | done].
      * rewrite Hp'. cbn. by rewrite Hdel.
      * by rewrite Hp'.
      * intros z Hz. apply Hmax. by rewrite <- Hp'.
    + eapply (spec_delete_other _ _ (session_at st l)); [exact Hp | | cbn; by rewrite Hid | done].
      cbn. apply (deref_nonempty (set_sessions (a :: r) st)); [exact Hwf1 | done].
Qed.

(** Clicking an item of the list is a selection, or nothing when the
    session is already the current one. *)
Lemma selectSession_refines st (l : nat) :
  heap_wf st -> l ∈ sessions st ->
  rtc spec_step (abstract st) (abstract (selectSession (ChatSession.id (session_at st l)) st)).
Proof.
  intros Hwf Hl. unfold selectSession. case_bool_decide; [apply rtc_refl |].
  by apply rtc_once, select_refines.
Qed.

(** [searchChat] selects a matching session or does nothing. *)
Lemma searchChat_refines `{!JsLowerCase} keyword answer st :
  heap_wf st -> rtc spec_step (abstract st) (abstract (searchChat keyword answer st)).
Proof.
  intros Hwf. unfold searchChat. destruct (toLowerCase (trim keyword)) as [| c q]; [apply rtc_refl |].
  destruct (search_matches (c :: q) st) as [| l0 [| l1 r]] eqn:Hm; [apply rtc_refl | |].
  - apply rtc_once, select_refines; [done |]. apply (search_matches_sub (c :: q)). rewrite Hm. by left.
  - destruct answer as [n |]; [| apply rtc_refl]. case_bool_decide; [| apply rtc_refl].
    destruct ((l0 :: l1 :: r) !! Z.to_nat (n - 1)) as [l |] eqn:Hk; [| apply rtc_refl].
    apply rtc_once, select_refines; [done |]. apply (search_matches_sub (c :: q)). rewrite Hm.
    by eapply list_elem_of_lookup_2.
Qed.

(** Writing an object the array does not refer to changes nothing the
    specification sees. *)
Lemma abstract_update_notin st (l : nat) (v : ChatSession.t) :
  l ∉ sessions st -> abstract (set_heap (<[l := v]> (heap st)) st) = abstract st.
Proof. intros Hl. unfold abstract. cbn [heap sessions set_heap currentSessionId]. by rewrite deref_insert_notin. Qed.

(** Appending a message to an allocated object is [appendMessage] when
    the array refers to it, and invisible when it was deleted. *)
Lemma append_refines st (l : nat) role content now :
  heap_wf st -> is_Some (heap st !! l) ->
  rtc spec_step (abstract st)
    (abstract (set_heap (<[l := spec_append_to role content now (session_at st l)]> (heap st)) st)).
Proof.
  intros (_ & _ & Hnd) Hsl. destruct (decide (l ∈ sessions st)) as [Hl | Hl].
  - destruct (deref_update_perm (heap st) (sessions st) l
                (spec_append_to role content now (session_at st l)) Hnd Hl Hsl) as (rest & Hp1 & Hp2).
    apply rtc_once. by eapply (spec_append _ _ (session_at st l) rest role content now).
  - rewrite abstract_update_notin by done. apply rtc_refl.
Qed.

Lemma push_user_message_append text now x :
  push_user_message text now x = spec_append_to User text now x.
Proof. done. Qed.

(** The reply does not derive a title; the specification's
    [appendMessage] derives none either once the session has a message. *)
Lemma push_assistant_message_append content now x :
  ChatSession.messages x <> [] ->
  push_assistant_message content now x = spec_append_to Assistant content now x.
Proof. unfold push_assistant_message, spec_append_to. by case_match. Qed.

(** The first half of [handleSend] is [appendMessage(current, "user", text)]. *)
Lemma handleSend_start_refines input now st (l : nat) st' :
  store_inv st -> handleSend_start input now st = Some (l, st') ->
  rtc spec_step (abstract st) (abstract st') /\ ChatSession.messages (session_at st' l) <> [].
Proof.
  intros (Hwf & _). pose proof Hwf as (Hall & _). unfold handleSend_start.
  destruct (isSending st); [done |].
  destruct (getCurrentSession st) as [a |] eqn:Hc; [| done].
  pose proof (getCurrentSession_elem _ _ Hc) as Ha.
  destruct (trim input) as [| c t]; [done |]. intros [= <- <-]. split.
  - rewrite push_user_message_append. apply append_refines; [done |]. by eapply Forall_forall in Hall.
  - unfold session_at. cbn [heap set_sending saveSessions set_storage set_heap].
    rewrite lookup_total_insert_eq. cbn. by intros [_ ?]%app_eq_nil.
Qed.

(** The second half of [handleSend], on a session that has the user's
    message, is [appendMessage(captured, "assistant", reply)]. *)
Lemma handleSend_finish_refines (l : nat) a now st :
  heap_wf st -> is_Some (heap st !! l) -> ChatSession.messages (session_at st l) <> [] ->
  rtc spec_step (abstract st) (abstract (handleSend_finish l a now st)).
Proof.
  intros Hwf Hsl Hm. unfold handleSend_finish. cbv zeta.
  rewrite push_assistant_message_append by done. by apply append_refines.
Qed.

(** [loadSessions] on a store with no session (the first state of the
    page) is [load] of what [localStorage] holds. *)
Lemma loadSessions_refines now rnd st0 st :
  heap_wf st0 -> sessions st0 = [] ->
  ids_unique (persisted_collection (getItem (storage st0) SESSIONS_KEY)) ->
  loadSessions now rnd st0 = Ok st ->
  spec_load (persisted_collection (getItem (storage st0) SESSIONS_KEY)) (abstract st).
Proof.
  intros Hwf Hnil. unfold loadSessions.
  destruct (getItem (storage st0) SESSIONS_KEY) as [[saved | | | |] |];
    cbn [persisted_collection ids_unique]; intros Hu; try discriminate.
  - pose proof (alloc_sessions_spec saved st0) as Hspec.
    pose proof (heap_wf_alloc saved _ Hwf) as Hwf1.
    destruct (alloc_sessions saved st0) as [ls st2]. cbn in Hwf1.
    destruct Hspec as (_ & _ & Hderef & _). cbn [sessions set_sessions].
    destruct ls as [| a r]; intros [= <-].
    + subst saved. rewrite abstract_create_and_select by done.
      by eapply spec_load_fresh; [right | apply new_session_blank | |].
    + destruct (sort_and_select_first_abstract _ Hwf1) as (Hp & y & Hy & _ & Hcy); [done |].
      cbn [abstract spec_sessions set_sessions heap sessions] in Hp, Hy. rewrite Hderef in Hp, Hy.
      by eapply spec_load_saved.
  - rewrite Hnil. intros [= <-]. rewrite abstract_create_and_select, Hnil by done.
    by eapply spec_load_fresh; [left | apply new_session_blank | |].
  - intros [= <-]. rewrite abstract_create_and_select by (by apply heap_wf_nil).
    by eapply spec_load_fresh; [left | apply new_session_blank | |].
  - rewrite Hnil. intros [= <-]. rewrite abstract_create_and_select, Hnil by done.
    by eapply spec_load_fresh; [left | apply new_session_blank | |].
Qed.

End Handlers.
