(* ===== verification/Persist.v ===== *)
(** * The text of the sessions in [localStorage]

    [saveSessions] ([src/src/main.ts] lines 121-123) stores
    [JSON.stringify(sessions)] under [SESSIONS_KEY], and [loadSessions]
    (lines 101-110) reads it back with [JSON.parse(raw) as ChatSession[]].
    [Store.v] abstracts the stored text as a [Blob]; this file writes the
    text out with the [JSON] model of [Json.v] and proves that the
    abstraction is exact: the text [saveSessions] writes is read back by
    [JSON.parse] as the very list of sessions, whenever the timestamps are
    below [10^21] (the numbers [Number::toString] prints as their digits;
    [Date.now()] is near [1.7 * 10^12]).

    The JSON objects have their keys in the order of the object literals
    that create them ([createNewSession], lines 187-193, and the message
    literals of [handleSend], lines 624-628): [JSON.stringify] writes the
    keys in creation order, and assigning an existing key keeps it.  The
    cast [as ChatSession[]] checks nothing: [decode_session] is what the
    code takes the parsed object to be, and an array whose elements are no
    sessions ([None]) is outside the model, as in [Store.v].

    [load_branch] follows [loadSessions] to its end on any stored text:
    [sessions.length === 0], then [createNewSession] (whose
    [sessions.unshift] needs an array) or [sessions.sort].
    [loadSessions_throws_iff_foreign] shows that it throws exactly on the
    texts [read_sessions] classifies as JSON that is no array, which is
    the arm of [Store.loadSessions] that returns [Err]. *)

From stdpp Require Import gmap.
From S2P Require Import Prelude JsString Session Json Store.

Open Scope N_scope.
#[local] Set Default Proof Using "All".

(** ** [JSON.stringify(sessions)] *)

(** [type Role = "user" | "assistant"] *)
Definition role_text (r : Role) : jstring :=
  match r with User => js "user" | Assistant => js "assistant" end.

(** [{ role, content, createdAt }] *)
Definition message_json (m : Message.t) : json :=
  JObj [(js "role", JStr (role_text (Message.role m)));
        (js "content", JStr (Message.content m));
        (js "createdAt", JNum (Message.createdAt m) 0)].

(** [{ id, title, messages, createdAt, updatedAt }] *)
Definition session_json (s : ChatSession.t) : json :=
  JObj [(js "id", JStr (ChatSession.id s));
        (js "title", JStr (ChatSession.title s));
        (js "messages", JArr (map message_json (ChatSession.messages s)));
        (js "createdAt", JNum (ChatSession.createdAt s) 0);
        (js "updatedAt", JNum (ChatSession.updatedAt s) 0)].

(** The text [saveSessions] stores. *)
Definition sessions_text (l : list ChatSession.t) : jstring :=
  json_text (JArr (map session_json l)).

(** ** [JSON.parse(raw) as ChatSession[]] *)

Definition as_string (v : json) : option jstring :=
  match v with JStr s => Some s | _ => None end.

(** A number that is an integer: [m * 10^e]. *)
Definition as_int (v : json) : option Z :=
  match v with
  | JNum m e =>
      if (0 <=? e)%Z then Some (m * 10 ^ e)%Z
      else if (m mod 10 ^ (- e) =? 0)%Z then Some (m / 10 ^ (- e))%Z else None
  | _ => None
  end.

Definition as_role (v : json) : option Role :=
  match v with
  | JStr s => if decide (s = js "user") then Some User
              else if decide (s = js "assistant") then Some Assistant else None
  | _ => None
  end.

(** [interface Message] *)
Definition decode_message (v : json) : option Message.t :=
  match v with
  | JObj l =>
      r ← json_lookup (js "role") l ≫= as_role;
      c ← json_lookup (js "content") l ≫= as_string;
      t ← json_lookup (js "createdAt") l ≫= as_int;
      Some (Message.mk r c t)
  | _ => None
  end.

Definition as_messages (v : json) : option (list Message.t) :=
  match v with JArr l => mapM decode_message l | _ => None end.

(** [interface ChatSession] *)
Definition decode_session (v : json) : option ChatSession.t :=
  match v with
  | JObj l =>
      i ← json_lookup (js "id") l ≫= as_string;
      ti ← json_lookup (js "title") l ≫= as_string;
      ms ← json_lookup (js "messages") l ≫= as_messages;
      c ← json_lookup (js "createdAt") l ≫= as_int;
      u ← json_lookup (js "updatedAt") l ≫= as_int;
      Some (ChatSession.mk i ti ms c u)
  | _ => None
  end.

(** What [loadSessions] makes of the stored text: the empty string is
    falsy and skipped, [JSON.parse] throws or gives an array of sessions
    or some other value. *)
Definition read_sessions (raw : jstring) : option Blob :=
  match raw with
  | [] => Some BlobEmpty
  | _ =>
      match json_parse raw with
      | None => Some BlobUnparsable
      | Some (JArr l) => BlobSessions <$> mapM decode_session l
      | Some _ => Some BlobForeignJson
      end
  end.

(** ** After the [try]: [sessions.length], [createNewSession], [sort]

    [loadSessions] runs at [DOMContentLoaded], when [sessions] is still
    the empty array.  After the [try], [sessions] holds the parsed value;
    [sessions.length === 0] then calls [createNewSession], whose
    [sessions.unshift(session)] needs an array, and otherwise
    [sessions.sort(...)], which also needs one.  [LoadFresh] and
    [LoadSorted] are the two branches reached, [Err] the [TypeError]
    thrown outside the [try]. *)
Inductive LoadBranch := LoadFresh | LoadSorted.

(** [v.length]: [None] when it throws ([null]), [Some None] for
    [undefined]. *)
Definition js_length (v : json) : option (option json) :=
  match v with
  | JNull => None
  | JArr l => Some (Some (JNum (Z.of_nat (length l)) 0))
  | JStr s => Some (Some (JNum (Z.of_nat (length s)) 0))
  | JObj l => Some (json_lookup (js "length") l)
  | _ => Some None
  end.

(** [x === 0] *)
Definition is_zero (o : option json) : bool :=
  match o with Some (JNum m _) => bool_decide (m = 0%Z) | _ => false end.

(** Whether [v.unshift] and [v.sort] are functions: only for an array; a
    string has neither, and the members of a parsed object are data. *)
Definition has_array_methods (v : json) : bool :=
  match v with JArr _ => true | _ => false end.

(** Lines 111-119 on the parsed value. *)
Definition after_parse (v : json) : result LoadBranch LoadError :=
  match js_length v with
  | None => Err LoadTypeError
  | Some len =>
      if is_zero len then (if has_array_methods v then Ok LoadFresh else Err LoadTypeError)
      else (if has_array_methods v then Ok LoadSorted else Err LoadTypeError)
  end.

(** Lines 102-119 on the stored text: a missing or empty text and a
    [SyntaxError] leave [sessions] empty. *)
Definition load_branch (raw : option jstring) : result LoadBranch LoadError :=
  match raw with
  | None | Some [] => Ok LoadFresh
  | Some r =>
      match json_parse r with
      | None => Ok LoadFresh
      | Some v => after_parse v
      end
  end.

(** ** The text reads back as the sessions *)

(** The timestamps [Number::toString] prints as their digits. *)
Definition stamp_ok (t : Z) : bool := bool_decide (Z.abs t < 10 ^ 21)%Z.

Definition session_stamps_ok (s : ChatSession.t) : bool :=
  stamp_ok (ChatSession.createdAt s) && stamp_ok (ChatSession.updatedAt s) &&
  forallb (fun m => stamp_ok (Message.createdAt m)) (ChatSession.messages s).

Lemma as_int_stamp (t : Z) : as_int (JNum t 0) = Some t.
Proof. cbn. by rewrite Z.mul_1_r. Qed.

Lemma decode_message_json (m : Message.t) : decode_message (message_json m) = Some m.
Proof. destruct m as [[] c t]; cbv -[as_int]; by rewrite as_int_stamp. Qed.

Lemma decode_session_json (s : ChatSession.t) : decode_session (session_json s) = Some s.
Proof.
  destruct s as [i ti ms c u]. cbv -[as_int as_messages map message_json]. rewrite !as_int_stamp. cbn [as_messages].
  by rewrite (mapM_fmap_Some _ _ _ decode_message_json).
Qed.

Lemma session_json_printable (s : ChatSession.t) :
  session_stamps_ok s = true -> printable (session_json s) = true.
Proof.
  destruct s as [i ti ms c u]. unfold session_stamps_ok, stamp_ok. cbn.
  intros [[-> ->]%andb_true_iff Hms]%andb_true_iff. rewrite !andb_true_r.
  rewrite forallb_forall in Hms |- *. intros x [m [<- Hm]]%in_map_iff.
  specialize (Hms m Hm). cbn. by rewrite Hms.
Qed.

Lemma sessions_printable (l : list ChatSession.t) :
  Forall (fun s => session_stamps_ok s = true) l -> printable (JArr (map session_json l)) = true.
Proof.
  rewrite List.Forall_forall. intros Hl. cbn. apply forallb_forall.
  intros x [s [<- Hs]]%in_map_iff. by apply session_json_printable, Hl.
Qed.

Lemma read_sessions_text (l : list ChatSession.t) :
  Forall (fun s => session_stamps_ok s = true) l -> read_sessions (sessions_text l) = Some (BlobSessions l).
Proof.
  intros Hl. unfold read_sessions, sessions_text. rewrite json_parse_text by by apply sessions_printable.
  cbn [json_text app]. by rewrite (mapM_fmap_Some _ _ _ decode_session_json).
Qed.

Section WithLaws.
Context {St : Type} `{!Storage St, !StorageLaws St}.

(** C12: the [Blob] that [saveSessions] stores in the model is exactly
    what [JSON.parse] makes of the text [JSON.stringify(sessions)] it
    writes, when the timestamps are below [10^21]. *)
Theorem saveSessions_text_exact (st : @Store St) :
  Forall (fun s => session_stamps_ok s = true) (deref (heap st) (sessions st)) ->
  read_sessions (sessions_text (deref (heap st) (sessions st))) = getItem (storage (saveSessions st)) SESSIONS_KEY.
Proof. intros Hl. rewrite read_sessions_text by done. cbn. by rewrite getItem_setItem_eq. Qed.
End WithLaws.

(** A session whose title holds a quote, a line feed and a lone
    surrogate, and a message with a backslash and a tab. *)
Definition text_sample_store : @Store (gmap jstring Blob) :=
  mkStore {[0%nat := ChatSession.mk (js "s") [34; 10; 55296]
                       [Message.mk User [92; 9] 1700000000000%Z] 1700000000000%Z 1700000000001%Z]}
    1 [0%nat] (Some (js "s")) false ∅.

Lemma saveSessions_text_exact_witness :
  Forall (fun s => session_stamps_ok s = true) (deref (heap text_sample_store) (sessions text_sample_store)) /\
  read_sessions (sessions_text (deref (heap text_sample_store) (sessions text_sample_store))) =
    getItem (storage (saveSessions text_sample_store)) SESSIONS_KEY.
Proof.
  assert (H : Forall (fun s => session_stamps_ok s = true) (deref (heap text_sample_store) (sessions text_sample_store)))
    by decide_by_eval.
  split; [exact H | exact (saveSessions_text_exact text_sample_store H)].
Defined.

(** What [loadSessions] makes of other texts. *)
Example read_sessions_null : read_sessions (js "null") = Some BlobForeignJson.
Proof. by vm_compute. Qed.

Example read_sessions_truncated : read_sessions (js "[{") = Some BlobUnparsable.
Proof. by vm_compute. Qed.

Example read_sessions_numbers : read_sessions (js "[1,2]") = None.
Proof. by vm_compute. Qed.

Example read_sessions_empty : read_sessions [] = Some BlobEmpty.
Proof. done. Qed.

