(* ===== verification/Config.v ===== *)
(** * Settings, the API endpoint and the chat request

    The settings of [src/src/main.ts]: [loadSettings] and [saveSettings]
    (lines 80-99) on the [Storage] interface of [Store], the settings panel
    ([applySettingsToInputs] and [updateSettingsFromInputs], lines
    479-507) with the text of its five fields as [SettingsInputs],
    [buildApiUrl] (lines 522-525), [getModelDisplayName] (lines 346-355),
    and the JSON body [sendToLmStudio] posts (lines 563-583) as a
    [ChatPayload] record.  The theorems bound what the panel can store
    (temperature in [0, 2], a positive token limit, no empty text field),
    show that the token limit written back into its field by
    [Number::toString] ([Json.number_text]) is kept below [10^21] and
    collapses to one digit from [10^21] on, that a reload
    forgets the temperature and the token limit, and that the request of
    [handleSend] carries the system prompt, the history and the new
    message in that order. *)

From S2P Require Import Prelude JsString JsNumber Session Json Store.
From stdpp Require Import gmap.
From Stdlib Require Import QArith Qminmax DecimalPos.

Open Scope N_scope.
#[local] Set Default Proof Using "All".

(** ** The settings panel *)

(** The [value] of the five inputs of the panel. *)
Record SettingsInputs := mkInputs {
  apiBaseUrlInput : jstring;
  modelIdInput : jstring;
  systemPromptInput : jstring;
  temperatureInput : jstring;
  maxTokensInput : jstring
}.

(** [parseFloat(temperatureInputEl.value)], then [NaN] to the default
    and [Math.max(0, Math.min(2, temp))]. *)
Definition parse_temperature (raw : jstring) : Q :=
  match parseFloat raw with
  | NaN => temperature DEFAULT_SETTINGS
  | n => clamp 0 2 n
  end.

(** [rawMax = maxTokensInputEl.value.trim()], then [null] when it is
    empty, else [parseInt(rawMax, 10)] unless it is [NaN] or [<= 0]. *)
Definition parse_max_tokens (raw : jstring) : option Z :=
  match trim raw with
  | [] => None
  | rawMax =>
      match parseInt10 rawMax with
      | Some num => if (num <=? 0)%Z then None else Some num
      | None => None
      end
  end.

(** [updateSettingsFromInputs]: every field is overwritten. *)
Definition updateSettingsFromInputs (inp : SettingsInputs) : Settings := {|
  apiBaseUrl := trim (apiBaseUrlInput inp) ||| apiBaseUrl DEFAULT_SETTINGS;
  modelId := trim (modelIdInput inp) ||| modelId DEFAULT_SETTINGS;
  systemPrompt := trim (systemPromptInput inp) ||| systemPrompt DEFAULT_SETTINGS;
  temperature := parse_temperature (temperatureInput inp);
  maxTokens := parse_max_tokens (maxTokensInput inp)
|}.

(** [applySettingsToInputs]; [settings.temperature.toString()] is given
    as [temperature_text]; [settings.maxTokens.toString()] is
    [Number::toString] of the integer. *)
Definition applySettingsToInputs (cfg : Settings) (temperature_text : jstring) : SettingsInputs :=
  mkInputs (apiBaseUrl cfg) (modelId cfg) (systemPrompt cfg) temperature_text
    (match maxTokens cfg with None => [] | Some n => number_text n 0 end).

(** ** Persistence *)

Section Persist.
Context {St : Type} `{!Storage St}.

(** [saveSettings] *)
Definition saveSettings (cfg : Settings) (storage : St) : St :=
  setItem storage SETTINGS_KEY (BlobSettings cfg).

(** [loadSettings]: [{ ...DEFAULT_SETTINGS, ...parsed }] when the key
    holds saved settings; the defaults for a missing, empty or
    unparsable value, and for JSON that spreads no field of [Settings]
    (an array, [null], a number); then the temperature and the token
    limit are reset to their defaults. *)
Definition loadSettings (storage : St) : Settings :=
  let cfg := match getItem storage SETTINGS_KEY with
             | Some (BlobSettings parsed) => parsed
             | _ => DEFAULT_SETTINGS
             end in
  mkSettings (apiBaseUrl cfg) (modelId cfg) (systemPrompt cfg)
    (temperature DEFAULT_SETTINGS) (maxTokens DEFAULT_SETTINGS).

End Persist.

(** ** The API *)

Definition unit_slash : N := 47.

(** [settings.apiBaseUrl.replace(/\/$/, "") + path]: without the [m]
    flag, [$] is the end of the input, so one final slash goes. *)
Definition buildApiUrl (cfg : Settings) (path : jstring) : jstring :=
  let base := apiBaseUrl cfg in
  (if ends_with_unit unit_slash base then slice_drop_last base else base) ++ path.

(** "未設定" *)
Definition MODEL_UNSET : jstring := [26410; 35373; 23450].

(** [getModelDisplayName] *)
Definition getModelDisplayName (cfg : Settings) : jstring :=
  let raw := modelId cfg ||| [] in
  match raw with
  | [] => MODEL_UNSET
  | _ =>
      let parts := split_on unit_slash raw in
      let last_part := default [] (last parts) in
      last_part ||| raw
  end.

(** The role field of a payload message: ["system"] or a [Role]. *)
Inductive PayloadRole := RoleSystem | RoleOf (r : Role).

(** The body of the POST to [/chat/completions]. *)
Record ChatPayload := mkPayload {
  model : jstring;
  payload_messages : list (PayloadRole * jstring);
  payload_temperature : Q;
  max_tokens : option Z
}.

Definition payload_message (m : Message.t) : PayloadRole * jstring :=
  (RoleOf (Message.role m), Message.content m).

(** [payload] of [sendToLmStudio(session)]; [max_tokens] is set only
    when [settings.maxTokens !== null]. *)
Definition sendToLmStudio_payload (cfg : Settings) (s : ChatSession.t) : ChatPayload :=
  mkPayload (modelId cfg)
    ((RoleSystem, systemPrompt cfg) :: map payload_message (ChatSession.messages s))
    (temperature cfg) (maxTokens cfg).

(** [buildApiUrl("/chat/completions")] *)
Definition chat_completions_url (cfg : Settings) : jstring :=
  buildApiUrl cfg (js "/chat/completions").

(** ** Lemmas on decimal digits *)

Lemma read_sign_digit (c : N) (r : jstring) : is_digit c = true -> read_sign (c :: r) = (1%Z, c :: r).
Proof.
  unfold is_digit, read_sign, unit_minus, unit_plus. intros [H1 H2]%andb_prop.
  apply N.leb_le in H1, H2. rewrite (proj2 (N.eqb_neq c 45)), (proj2 (N.eqb_neq c 43)) by lia. done.
Qed.

(** ** The settings panel *)

(** A token limit typed as the decimal digits of a positive integer is
    read back as that integer. *)
Lemma parse_max_tokens_digits (n : Z) :
  (0 < n)%Z -> parse_max_tokens (number_to_string n) = Some n.
Proof.
  intros Hn. destruct n as [| p | p]; try lia. unfold number_to_string.
  change (N.to_uint (Npos p)) with (Pos.to_uint p).
  pose proof (uint_units_digits (Pos.to_uint p)) as Hdig.
  pose proof (Unsigned.of_to p) as Hof. pose proof (digits_value_uint (Pos.to_uint p)) as Hval.
  assert (Hsp : Forall (fun c => is_space c = false) (uint_units (Pos.to_uint p))).
  { eapply Forall_impl; [exact Hdig | apply digit_not_space]. }
  unfold parse_max_tokens. rewrite trim_no_space by done.
  pose proof (Unsigned.to_uint_nonnil p) as Hnn.
  destruct (uint_units (Pos.to_uint p)) as [| c r] eqn:E.
  { by destruct (Pos.to_uint p). }
  unfold parseInt10. rewrite trim_start_Forall by done.
  inv_clear Hdig. rewrite read_sign_digit by done.
  rewrite <- (app_nil_r (c :: r)), span_digits_app
    by (first [apply forallb_Forall_eq; by constructor | done]).
  rewrite Hval, Hof. done.
Qed.

(** C34: refreshing the panel from the settings ([applySettingsToInputs],
    which writes [maxTokens.toString()]) and saving it again
    ([updateSettingsFromInputs]) keeps a token limit below [10^21]. *)
Theorem max_tokens_roundtrip (cfg : Settings) (t : jstring) (n : Z) :
  maxTokens cfg = Some n -> (0 < n < 10 ^ 21)%Z ->
  maxTokens (updateSettingsFromInputs (applySettingsToInputs cfg t)) = Some n.
Proof.
  intros Hm Hn. cbn [updateSettingsFromInputs applySettingsToInputs maxTokens maxTokensInput].
  rewrite Hm, number_text_int by lia. apply parse_max_tokens_digits. lia.
Qed.


(** C36: whatever is typed in the panel, the stored temperature is in
    [[0, 2]]. *)
Theorem updateSettings_temperature_bounds (inp : SettingsInputs) :
  (0 <= temperature (updateSettingsFromInputs inp) <= 2)%Q.
Proof.
  simpl. unfold parse_temperature. destruct (parseFloat _); try (apply clamp_bounds; discriminate).
  split; discriminate.
Qed.

(** The stored token limit, when there is one, is positive. *)
Theorem updateSettings_maxTokens_positive (inp : SettingsInputs) (n : Z) :
  maxTokens (updateSettingsFromInputs inp) = Some n -> (0 < n)%Z.
Proof.
  simpl. unfold parse_max_tokens. destruct (trim _); [done |].
  destruct (parseInt10 _) as [num |]; [| done].
  destruct (Z.leb_spec num 0); [done | intros [= <-]; lia].
Qed.

(** No text field of the stored settings is empty: a blank field
    falls back to the default. *)
Theorem updateSettings_fields_nonempty (inp : SettingsInputs) :
  apiBaseUrl (updateSettingsFromInputs inp) <> [] /\ modelId (updateSettingsFromInputs inp) <> [] /\
  systemPrompt (updateSettingsFromInputs inp) <> [].
Proof. simpl. split_and!; apply js_or_not_nil; discriminate. Qed.

(** C37: a reload keeps the saved URL, model and prompt, and forgets the
    saved temperature and token limit ([loadSettings] resets them). *)
Theorem settings_reload `{StorageLaws St} (cfg : Settings) (storage : St) :
  loadSettings (saveSettings cfg storage) =
  mkSettings (apiBaseUrl cfg) (modelId cfg) (systemPrompt cfg) (7 # 10) None.
Proof. unfold loadSettings, saveSettings. by rewrite getItem_setItem_eq. Qed.

(** ** The API *)

(** [buildApiUrl] removes at most one final slash of the base URL. *)
Theorem buildApiUrl_one_slash (cfg : Settings) (x path : jstring) :
  ends_with_unit unit_slash x = false ->
  apiBaseUrl cfg = x ++ [unit_slash] \/ apiBaseUrl cfg = x ->
  buildApiUrl cfg path = x ++ path.
Proof.
  intros Hx [E | E]; unfold buildApiUrl; rewrite E; [| by rewrite Hx].
  by rewrite ends_with_unit_snoc, slice_drop_last_snoc.
Qed.

(** A base URL with two final slashes keeps one, and the path adds a
    second: ["http://localhost:1234/v1//"] gives
    ["http://localhost:1234/v1//models"]. *)
Theorem buildApiUrl_double_slash :
  buildApiUrl (mkSettings (js "http://localhost:1234/v1//") [] [] 0 None) (js "/models") =
  js "http://localhost:1234/v1//models".
Proof. reflexivity. Qed.

(** The name the header shows for a model: the part after the last
    slash (the example of the source's comment), the whole id when that
    part is empty, "未設定" when there is no id. *)
Theorem getModelDisplayName_examples :
  getModelDisplayName DEFAULT_SETTINGS = js "ministral-3-3b" /\
  getModelDisplayName (mkSettings [] (js "abc/") [] 0 None) = js "abc/" /\
  getModelDisplayName (mkSettings [] [] [] 0 None) = MODEL_UNSET.
Proof. split_and!; reflexivity. Qed.

Lemma getModelDisplayName_nonempty (cfg : Settings) : getModelDisplayName cfg <> [].
Proof.
  unfold getModelDisplayName. destruct (modelId cfg ||| []) as [| c r]; [discriminate |].
  apply js_or_not_nil. discriminate.
Qed.

(** ** The request of [handleSend] *)

Section Send.
Context {St : Type} `{!Storage St}.
Implicit Types st : @Store St.

Lemma handleSend_start_session (input : jstring) (now : Z) st (l : nat) st' :
  handleSend_start input now st = Some (l, st') ->
  session_at st' l = push_user_message (trim input) now (session_at st l).
Proof.
  unfold handleSend_start. destruct (isSending st); [done |].
  destruct (getCurrentSession st); [| done]. destruct (trim input); [done |].
  intros [= <- <-]. apply lookup_total_insert_eq.
Qed.

(** C38: the request [handleSend] sends carries the system prompt, then
    the whole history of the session, then the new message of the user,
    in that order, with the model, temperature and token limit of the
    settings. *)
Theorem handleSend_payload (cfg : Settings) (input : jstring) (now : Z) st (l : nat) st' :
  handleSend_start input now st = Some (l, st') ->
  sendToLmStudio_payload cfg (session_at st' l) =
  mkPayload (modelId cfg)
    ((RoleSystem, systemPrompt cfg) :: map payload_message (ChatSession.messages (session_at st l))
       ++ [(RoleOf User, trim input)])
    (temperature cfg) (maxTokens cfg).
Proof.
  intros E. unfold sendToLmStudio_payload. rewrite (handleSend_start_session _ _ _ _ _ E).
  simpl. by rewrite map_app.
Qed.

End Send.

(** ** Witnesses *)

(** The default settings with a token limit [n]. *)
Definition settings_with_limit (n : Z) : Settings :=
  mkSettings (apiBaseUrl DEFAULT_SETTINGS) (modelId DEFAULT_SETTINGS) (systemPrompt DEFAULT_SETTINGS)
    (temperature DEFAULT_SETTINGS) (Some n).

Lemma max_tokens_roundtrip_witness :
  maxTokens (settings_with_limit 512) = Some 512%Z /\ (0 < 512 < 10 ^ 21)%Z /\
  maxTokens (updateSettingsFromInputs (applySettingsToInputs (settings_with_limit 512) (js "0.7"))) = Some 512%Z.
Proof. split; [reflexivity | split; [lia | apply max_tokens_roundtrip; [reflexivity | lia]]]. Defined.


Lemma updateSettings_maxTokens_positive_witness :
  maxTokens (updateSettingsFromInputs (mkInputs [] [] [] [] (js " 256 tokens"))) = Some 256%Z /\
  (0 < 256)%Z.
Proof.
  assert (H : maxTokens (updateSettingsFromInputs (mkInputs [] [] [] [] (js " 256 tokens")))
              = Some 256%Z) by (vm_compute; reflexivity).
  split; [exact H | exact (updateSettings_maxTokens_positive _ _ H)].
Defined.

Lemma settings_reload_witness :
  loadSettings (saveSettings DEFAULT_SETTINGS (∅ : gmap jstring Blob)) =
  mkSettings (apiBaseUrl DEFAULT_SETTINGS) (modelId DEFAULT_SETTINGS) (systemPrompt DEFAULT_SETTINGS)
    (7 # 10) None.
Proof. exact (settings_reload DEFAULT_SETTINGS (∅ : gmap jstring Blob)). Defined.

Lemma buildApiUrl_one_slash_witness :
  let cfg := mkSettings (js "http://h/v1/") [] [] 0 None in
  ends_with_unit unit_slash (js "http://h/v1") = false /\
  (apiBaseUrl cfg = js "http://h/v1" ++ [unit_slash] \/ apiBaseUrl cfg = js "http://h/v1") /\
  buildApiUrl cfg (js "/models") = js "http://h/v1" ++ js "/models".
Proof.
  intros cfg.
  assert (H1 : ends_with_unit unit_slash (js "http://h/v1") = false) by (vm_compute; reflexivity).
  assert (H2 : apiBaseUrl cfg = js "http://h/v1" ++ [unit_slash] \/ apiBaseUrl cfg = js "http://h/v1")
    by (left; vm_compute; reflexivity).
  split_and!; [exact H1 | exact H2 | exact (buildApiUrl_one_slash cfg _ _ H1 H2)].
Defined.

Lemma handleSend_payload_witness :
  let st' := set_sending true (saveSessions (set_heap (<[0%nat := push_user_message
                (trim (js "hi")) 30 (session_at sample_store 0%nat)]> (heap sample_store)) sample_store)) in
  handleSend_start (js "hi") 30 sample_store = Some (0%nat, st') /\
  sendToLmStudio_payload DEFAULT_SETTINGS (session_at st' 0%nat) =
  mkPayload (modelId DEFAULT_SETTINGS)
    ((RoleSystem, systemPrompt DEFAULT_SETTINGS)
       :: map payload_message (ChatSession.messages (session_at sample_store 0%nat))
       ++ [(RoleOf User, trim (js "hi"))])
    (temperature DEFAULT_SETTINGS) (maxTokens DEFAULT_SETTINGS).
Proof.
  intros st'. assert (E : handleSend_start (js "hi") 30 sample_store = Some (0%nat, st')) by reflexivity.
  split; [exact E | exact (handleSend_payload DEFAULT_SETTINGS _ _ _ _ _ E)].
Defined.
