(* ===== verification/View.v ===== *)
(** * What the page shows: the chat list, the header and the messages

    The three render functions of [src/src/main.ts] build DOM nodes from
    the store; the model keeps what they show.  [renderSidebar] (lines
    205-282) is the list of [SidebarItem]s, one per session in the order
    of [sessions.slice().sort(...)], with the title ([session.title ||
    "無題のチャット"]) and the [active] class; [renderHeader] (lines 357-364)
    is the title it writes, if it writes one, and the model label;
    [renderMessages] (lines 284-344) is the hint for an empty chat or one
    bubble per message, whose content is the segments of
    [renderMessageContentWithTables].  The theorems show that the list is
    the stable sort by recency of all the sessions, with the current one
    marked, and what the header and the bubbles show in a valid state. *)

From S2P Require Import Prelude JsString JsSort Segmenter Session Store StoreInv Config.
From stdpp Require Import gmap.

Open Scope N_scope.
#[local] Set Default Proof Using "All".

(** An item of [chatListEl]: [dataset.sessionId], the title, and whether
    it has the [active] class. *)
Record SidebarItem := mkItem { item_id : jstring; item_title : jstring; item_active : bool }.

(** A row of [chatMessagesEl]. *)
Inductive MessageView :=
| EmptyHint                                       (** the hint of an empty chat *)
| Bubble (r : Role) (content : list Segment).     (** icon, meta and content *)

(** "下の入力欄にメッセージを入力して会話を開始しましょう！" *)
Definition EMPTY_CHAT_HINT : jstring :=
  [19979; 12398; 20837; 21147; 27396; 12395; 12513; 12483; 12475; 12540; 12472;
   12434; 20837; 21147; 12375; 12390; 20250; 35441; 12434; 38283; 22987; 12375;
   12414; 12375; 12423; 12358; 65281].

Section View.
Context {St : Type} `{!Storage St}.
Implicit Types st : @Store St.

Definition sidebar_item st (l : nat) : SidebarItem :=
  let s := session_at st l in
  mkItem (ChatSession.id s) (display_title s) (bool_decide (Some (ChatSession.id s) = currentSessionId st)).

(** [renderSidebar] *)
Definition renderSidebar st : list SidebarItem :=
  map (sidebar_item st) (renderSidebar_order st).

(** The sessions of the list, in its order. *)
Definition sidebar_sessions st : list ChatSession.t :=
  map (session_at st) (renderSidebar_order st).

(** [renderHeader]: the title written when [currentSessionId] is truthy
    ([session?.title ?? "新しいチャット"]), and the model label. *)
Definition renderHeader (cfg : Settings) st : option jstring * jstring :=
  let title :=
    match currentSessionId st with
    | Some (_ :: _) =>
        Some (match getCurrentSession st with
              | Some l => ChatSession.title (session_at st l)
              | None => NEW_CHAT_TITLE
              end)
    | _ => None
    end in
  (title, getModelDisplayName cfg).

Definition message_view (m : Message.t) : MessageView :=
  Bubble (Message.role m) (renderMessageContentWithTables (Message.content m)).

(** [renderMessages] *)
Definition renderMessages st : list MessageView :=
  match getCurrentSession st with
  | None => []
  | Some l =>
      match ChatSession.messages (session_at st l) with
      | [] => [EmptyHint]
      | ms => map message_view ms
      end
  end.

End View.

Section ViewProps.
Context {St : Type} `{!Storage St}.
Implicit Types st : @Store St.

(** ** The chat list *)

(** C17: the chat list shows every session of the array exactly once, by
    descending [updatedAt], sessions with the same [updatedAt] in array
    order: the stable sort of the specification, whatever algorithm the
    engine's [sort] uses. *)
Theorem sidebar_stable_sorted st :
  heap_wf st -> stable_sorted ChatSession.updatedAt (deref (heap st) (sessions st)) (sidebar_sessions st).
Proof.
  intros (Hall & _). unfold sidebar_sessions, renderSidebar_order, recency_key.
  rewrite (sort_desc_map ChatSession.updatedAt (session_at st)), (deref_total _ _ Hall).
  apply sort_desc_stable.
Qed.

(** In a valid state the chat list marks the current session: some
    item has the [active] class and the current id. *)
Theorem sidebar_marks_current st :
  store_inv st ->
  exists it, it ∈ renderSidebar st /\ item_active it = true /\ currentSessionId st = Some (item_id it).
Proof.
  intros (_ & Hcv & Hne & _). destruct (Hcv Hne) as (l & Hl & Hc).
  exists (sidebar_item st l). split_and!; [| | done].
  - apply list_elem_of_fmap_2. unfold renderSidebar_order. by rewrite sort_desc_permutation.
  - unfold sidebar_item. simpl. by apply bool_decide_eq_true.
Qed.

End ViewProps.

(** ** Examples *)

(** Sessions "a" and "b", "a" current, with the given [updatedAt]s and
    titles. *)
Definition two_chats (ta tb : Z) (title_a : String.string) : @Store (gmap jstring Blob) :=
  mkStore (sample_heap (sample_session "a" title_a ta) (sample_session "b" "b" tb))
    2 [0%nat; 1%nat] (Some (js "a")) false ∅.

(** The chat list on two sessions: the more recent first, and on a
    tie the array order, not the reverse. *)
Theorem sidebar_ties_keep_array_order :
  map item_id (renderSidebar (two_chats 10 20 "a")) = [js "b"; js "a"] /\
  map item_id (renderSidebar (two_chats 10 10 "a")) = [js "a"; js "b"].
Proof. split; vm_compute; reflexivity. Qed.

(** A session with an empty title is listed as "無題のチャット" but
    the header shows the empty title: [renderHeader] uses [??], which keeps
    [""], where [renderSidebar] uses [||]. *)
Theorem empty_title_header_vs_list :
  fst (renderHeader DEFAULT_SETTINGS (two_chats 10 20 "")) = Some [] /\
  item_title (sidebar_item (two_chats 10 20 "") 0%nat) = UNTITLED_TITLE.
Proof. split; vm_compute; reflexivity. Qed.

(** The messages of the user go through the table renderer too: a
    user message holding table markup is shown as a table. *)
Theorem user_message_rendered_as_table :
  message_view (Message.mk User (‹"|a|b|"; "|-|-|"›) 0) =
  Bubble User [Table [js "a"; js "b"] []].
Proof. vm_compute. reflexivity. Qed.

(** A saved list in which two sessions share the id "a" (written by
    another tab, or edited by hand) is accepted by [loadSessions], which
    does not check ids; the chat list then marks both items active, and
    deleting "a" removes only the first of them. *)
Theorem duplicate_ids_two_active :
  match loadSessions 30 (js "r")
          (store_before_load (BlobSessions [sample_session "a" "x" 10; sample_session "a" "y" 20])) with
  | Ok st => (map item_active (renderSidebar st),
              map item_title (renderSidebar (deleteSession (js "a") 31 (js "q") st)))
  | Err _ => ([], [])
  end = ([true; true], [js "x"]).
Proof. vm_compute. reflexivity. Qed.

Lemma sidebar_stable_sorted_witness :
  heap_wf sample_store /\
  stable_sorted ChatSession.updatedAt (deref (heap sample_store) (sessions sample_store))
    (sidebar_sessions sample_store).
Proof.
  assert (H : heap_wf sample_store) by decide_by_eval.
  split; [exact H | exact (sidebar_stable_sorted sample_store H)].
Defined.

Lemma sidebar_marks_current_witness :
  store_inv sample_store /\
  exists it, it ∈ renderSidebar sample_store /\ item_active it = true /\
    currentSessionId sample_store = Some (item_id it).
Proof.
  assert (H : store_inv sample_store) by decide_by_eval.
  split; [exact H | exact (sidebar_marks_current sample_store H)].
Defined.
