(* ===== verification/App.v ===== *)
(** * The page: events of [setupEvents] over the store

    After [DOMContentLoaded] the page runs [loadSessions] and then only
    reacts to events ([setupEvents], [src/src/main.ts] lines 680-767, and
    the list items of [renderSidebar]).  An [AppState] is the store, the
    session a pending request will write its reply to (the [session]
    captured by [handleSend] across its [await]), and the last time read
    from [Date.now()].  [app_step] is one event; [reachable] the states of
    a page whose [loadSessions] did not throw.  The request of [handleSend]
    is split in two events, [SendStart] and [SendFinish]: any other event
    can come in between, which is the only interleaving the single-threaded
    page has.  The theorems show the store invariant and the bookkeeping of
    the pending request in every reachable state, and follow a reply across
    a change of the current chat.  The section [Run] composes the handler
    refinements of [StoreSpec]: every run of the page with fresh new ids
    is, on its store, a run of the specification's SessionStore. *)

From S2P Require Import Prelude JsString JsSort Session Store StoreInv StoreSpec Config.
From stdpp Require Import gmap relations.

Open Scope N_scope.
#[local] Set Default Proof Using "All".

(** The events: the new-chat button, a confirmed delete of a list item,
    a click on a list item, the search button with the keyword and the
    number typed at the prompt, the send button (or Enter), the answer of
    the server, and the save (or test-connection) button of the settings
    panel with the text of its fields: both run [updateSettingsFromInputs]
    and [saveSettings]; what else they do is on the DOM or the network),
    and a model picked in the model menu ([toggleModelDropdown], lines
    388-425, with an id of the server's list). *)
Inductive Event :=
| NewChat (now : Z) (rnd : jstring)
| DeleteItem (id : jstring) (now : Z) (rnd : jstring)
| ClickItem (l : nat)
| SearchButton (keyword : jstring) (answer : option Z)
| SendStart (input : jstring) (now : Z)
| SendFinish (a : ServerAnswer) (now : Z)
| SaveSettings (inp : SettingsInputs)
| PickModel (id : jstring).

Section App.
Context {St : Type} `{!Storage St} `{!StorageLaws St} `{!JsLowerCase}.

Record AppState := mkApp {
  store : @Store St;
  pending : option nat;
  clock : Z;
  settings : Settings
}.

(** The time an event reads from [Date.now()], if it reads one. *)
Definition event_time (e : Event) : option Z :=
  match e with
  | NewChat now _ | DeleteItem _ now _ | SendStart _ now | SendFinish _ now => Some now
  | _ => None
  end.

Definition tick (e : Event) (c : Z) : Z :=
  match event_time e with Some now => now | None => c end.

(** One event; [None] when the event cannot happen in this state: a
    click on an item not in the list, an answer with no request pending. *)
Definition app_step (e : Event) (s : AppState) : option AppState :=
  let st := store s in
  let c := tick e (clock s) in
  match e with
  | NewChat now rnd => Some (mkApp (create_and_select now rnd st) (pending s) c (settings s))
  | DeleteItem id now rnd => Some (mkApp (deleteSession id now rnd st) (pending s) c (settings s))
  | ClickItem l =>
      if bool_decide (l ∈ sessions st)
      then Some (mkApp (selectSession (ChatSession.id (session_at st l)) st) (pending s) c (settings s))
      else None
  | SearchButton kw answer => Some (mkApp (searchChat kw answer st) (pending s) c (settings s))
  | SendStart input now =>
      match handleSend_start input now st with
      | Some (l, st') => Some (mkApp st' (Some l) c (settings s))
      | None => Some (mkApp st (pending s) c (settings s))
      end
  | SendFinish a now =>
      match pending s with
      | Some l => Some (mkApp (handleSend_finish l a now st) None c (settings s))
      | None => None
      end
  | SaveSettings inp =>
      let cfg := updateSettingsFromInputs inp in
      Some (mkApp (set_storage (saveSettings cfg (storage st)) st) (pending s) c cfg)
  | PickModel id =>
      let cfg := settings s in
      let cfg' := mkSettings (apiBaseUrl cfg) id (systemPrompt cfg) (temperature cfg) (maxTokens cfg) in
      Some (mkApp (set_storage (saveSettings cfg' (storage st)) st) (pending s) c cfg')
  end.

(** The first state of the page, before [loadSessions]. *)
Definition init_store (storage0 : St) : @Store St := mkStore ∅ 0 [] None false storage0.

(** Events are read from a clock that does not go back. *)
Definition clock_ok (e : Event) (s : AppState) : Prop :=
  match event_time e with Some now => (clock s <= now)%Z | None => True end.

Inductive reachable : AppState -> Prop :=
| reach_load storage0 now rnd st :
    loadSessions now rnd (init_store storage0) = Ok st ->
    reachable (mkApp st None now (loadSettings storage0))
| reach_step e s s' :
    reachable s -> app_step e s = Some s' -> reachable s'.

(** A run: the states after each of a list of events. *)
Fixpoint run (es : list Event) (s : AppState) : option AppState :=
  match es with
  | [] => Some s
  | e :: es' => app_step e s ≫= run es'
  end.

(** The invariant of the page: the store invariant, [isSending] exactly
    when a request is pending, and the session of the pending request
    still allocated. *)
Definition app_inv (s : AppState) : Prop :=
  store_inv (store s) /\
  (isSending (store s) = true <-> is_Some (pending s)) /\
  (forall l, pending s = Some l -> is_Some (heap (store s) !! l)).

End App.

(** ** What an event leaves alone *)

Section Frame.
Context {St : Type} `{!Storage St}.
Implicit Types st : @Store St.

(** [st'] keeps [isSending], allocates only above [next_loc st], and
    leaves every object below it as it was. *)
Definition frame st st' : Prop :=
  isSending st' = isSending st /\ (next_loc st <= next_loc st')%nat /\
  forall l, (l < next_loc st)%nat -> heap st' !! l = heap st !! l.

#[export] Instance frame_preorder : PreOrder frame.
Proof.
  split.
  - intros st. by split_and!.
  - intros st1 st2 st3 (H1 & N1 & F1) (H2 & N2 & F2). split_and!; [congruence | lia |].
    intros l Hl. rewrite F2 by lia. by apply F1.
Qed.

Lemma frame_same_heap st st' :
  isSending st' = isSending st -> next_loc st' = next_loc st -> heap st' = heap st -> frame st st'.
Proof. intros Hs Hn Hh. split_and!; [done | lia | by rewrite Hh]. Qed.

Lemma frame_save st : frame st (saveSessions st).
Proof. by apply frame_same_heap. Qed.

Lemma frame_set_sessions st ls : frame st (set_sessions ls st).
Proof. by apply frame_same_heap. Qed.

Lemma frame_set_current st c : frame st (set_current c st).
Proof. by apply frame_same_heap. Qed.

Lemma frame_sort st : frame st (sort_and_select_first st).
Proof.
  unfold sort_and_select_first. destruct (sort_desc _ _); [apply frame_set_sessions |].
  etrans; [apply frame_set_sessions | apply frame_set_current].
Qed.

Lemma frame_create now rnd st : frame st (create_and_select now rnd st).
Proof.
  unfold create_and_select, createNewSession. etrans; [| apply frame_set_current].
  etrans; [| apply frame_save]. split_and!; simpl; [done | lia |].
  intros l Hl. apply lookup_insert_ne. lia.
Qed.

Lemma frame_delete id now rnd st : frame st (deleteSession id now rnd st).
Proof.
  unfold deleteSession. destruct (find_index _ _); [| reflexivity]. cbv zeta.
  etrans; [| apply frame_save]. etrans; [apply frame_set_sessions |].
  destruct (sessions _); [apply frame_create |]. case_bool_decide; [apply frame_sort | reflexivity].
Qed.

Lemma frame_select id st : frame st (selectSession id st).
Proof. unfold selectSession. case_bool_decide; [reflexivity | apply frame_set_current]. Qed.

Lemma frame_search `{!JsLowerCase} kw answer st : frame st (searchChat kw answer st).
Proof.
  unfold searchChat. repeat case_match; try reflexivity; apply frame_set_current.
Qed.

Lemma frame_other_key st k b : frame st (set_storage (setItem (storage st) k b) st).
Proof. by apply frame_same_heap. Qed.

(** The objects after each handler. *)

Definition new_chat (now : Z) (rnd : jstring) : ChatSession.t :=
  ChatSession.mk (session_id now rnd) NEW_CHAT_TITLE [] now now.

Lemma heap_create now rnd st :
  heap (create_and_select now rnd st) = <[next_loc st := new_chat now rnd]> (heap st).
Proof. reflexivity. Qed.

Lemma heap_sort st : heap (sort_and_select_first st) = heap st.
Proof. unfold sort_and_select_first. by destruct (sort_desc _ _). Qed.

Lemma heap_delete id now rnd st :
  heap (deleteSession id now rnd st) = heap st \/
  heap (deleteSession id now rnd st) = <[next_loc st := new_chat now rnd]> (heap st).
Proof.
  unfold deleteSession. destruct (find_index _ _); [cbv zeta | by left].
  destruct (sessions _); [by right |]. left. case_bool_decide; [apply (heap_sort (set_sessions _ st)) | done].
Qed.

Lemma heap_search `{!JsLowerCase} kw answer st : heap (searchChat kw answer st) = heap st.
Proof. unfold searchChat. by repeat case_match. Qed.

End Frame.

#[export] Hint Resolve frame_save frame_sort frame_create frame_delete frame_select
  frame_search frame_other_key : lmchat.

(** ** The invariant of the page *)

Section AppInv.
Context {St : Type} `{!Storage St} `{!StorageLaws St} `{!JsLowerCase}.
Implicit Types st : @Store St.
Implicit Types s : @AppState St.

Lemma frame_alloc st st' (l : nat) :
  frame st st' -> heap_wf st -> is_Some (heap st !! l) -> heap st' !! l = heap st !! l.
Proof. intros (_ & _ & F) (_ & Hfresh & _) Hl. by apply F, Hfresh. Qed.

Lemma alloc_sessions_sending (l : list ChatSession.t) st :
  isSending (alloc_sessions l st).2 = isSending st.
Proof.
  revert st. induction l as [|x l IH]; intros st; [done |]. simpl.
  specialize (IH (mkStore (<[next_loc st := x]> (heap st)) (S (next_loc st)) (sessions st)
                          (currentSessionId st) (isSending st) (storage st))).
  destruct (alloc_sessions l _). exact IH.
Qed.

Lemma loadSessions_sending (now : Z) (rnd : jstring) st st' :
  loadSessions now rnd st = Ok st' -> isSending st' = isSending st.
Proof.
  unfold loadSessions.
  destruct (getItem (storage st) SESSIONS_KEY) as [[l | | | |] |]; try discriminate;
    [pose proof (alloc_sessions_sending l st) as Hs; destruct (alloc_sessions l st) as [ls st1] | | |];
    match goal with |- context [sessions ?x] => destruct (sessions x) end;
    intros [= <-]; rewrite ?(proj1 (frame_create _ _ _)), ?(proj1 (frame_sort _)); done.
Qed.

(** An event that leaves the objects below [next_loc] alone and keeps the
    store invariant keeps the invariant of the page. *)
Lemma app_inv_frame s st' (c : Z) (cfg : Settings) :
  app_inv s -> frame (store s) st' -> store_inv st' -> app_inv (mkApp st' (pending s) c cfg).
Proof.
  intros ((Hwf & _) & Hsend & Hpend) Hf Hinv'. split_and!; simpl; [done | |].
  - by rewrite (proj1 Hf).
  - intros l Hl. rewrite (frame_alloc _ _ _ Hf Hwf); [| by apply Hpend]. by apply Hpend.
Qed.

Lemma app_step_inv (e : Event) s s' :
  app_inv s -> app_step e s = Some s' -> app_inv s'.
Proof.
  intros Hai. pose proof Hai as (Hinv & Hsend & Hpend). pose proof Hinv as (Hwf & _).
  destruct e as [now rnd | id now rnd | l | kw answer | input now | a now | inp | mid];
    unfold app_step; cbv zeta.
  - intros [= <-]. apply app_inv_frame; [done | apply frame_create | by apply create_and_select_inv].
  - intros [= <-]. apply app_inv_frame; [done | apply frame_delete | by apply deleteSession_inv].
  - case_bool_decide as Hl; [intros [= <-] | done].
    apply app_inv_frame; [done | apply frame_select | by apply selectSession_inv].
  - intros [= <-]. apply app_inv_frame; [done | apply frame_search | by apply searchChat_inv].
  - destruct (handleSend_start input now (store s)) as [[l st'] |] eqn:E; intros [= <-]; [| done].
    destruct (handleSend_start_inv _ _ _ _ _ Hinv E) as (Hinv' & Hl & Hs).
    pose proof Hinv' as ((Hall & _) & _). split_and!; simpl; [done | by rewrite Hs |].
    intros ? [= <-]. by eapply Forall_forall in Hall.
  - destruct (pending s) as [l |] eqn:Hp; [intros [= <-] | done].
    destruct (handleSend_finish_inv l a now (store s) Hinv (Hpend l eq_refl)) as [Hinv' Hs].
    split_and!; [done | cbn [store]; rewrite Hs; split; [done | by intros [? ?]] | done].
  - intros [= <-]. apply app_inv_frame; [done | apply frame_other_key |].
    apply store_inv_other_key; [apply SETTINGS_KEY_ne | done].
  - intros [= <-]. apply app_inv_frame; [done | apply frame_other_key |].
    apply store_inv_other_key; [apply SETTINGS_KEY_ne | done].
Qed.

Lemma init_heap_wf (storage0 : St) : heap_wf (init_store storage0).
Proof. split_and!; [constructor | by intros l [? Hl] | constructor]. Qed.

Lemma reachable_run (es : list Event) s s' :
  reachable s -> run es s = Some s' -> reachable s'.
Proof.
  revert s. induction es as [|e es IH]; intros s Hs; simpl; [by intros [= <-] |].
  destruct (app_step e s) as [s1 |] eqn:E; [| done]. simpl. apply IH. by eapply reach_step.
Qed.

(** The state after a [loadSessions] that did not throw, on the first
    state of the page, satisfies the invariant. *)
Lemma app_inv_loaded (storage0 : St) (now : Z) (rnd : jstring) st (c : Z) (cfg : Settings) :
  loadSessions now rnd (init_store storage0) = Ok st -> app_inv (mkApp st None c cfg).
Proof.
  intros Hload. split_and!; simpl.
  - eapply loadSessions_establishes_inv; [apply init_heap_wf | done | exact Hload].
  - rewrite (loadSessions_sending _ _ _ _ Hload). simpl. split; [done | by intros [? ?]].
  - done.
Qed.

(** Loading the storage of a valid store, as a reload of the page does,
    gives back the sessions of its array, in some order. *)
Lemma loadSessions_reload (now : Z) (rnd : jstring) st :
  store_inv st ->
  exists st', loadSessions now rnd (init_store (storage st)) = Ok st' /\
    deref (heap st') (sessions st') ≡ₚ deref (heap st) (sessions st).
Proof.
  intros (Hwf & _ & Hne & saved & Hget & Hsaved). unfold loadSessions. cbn [storage init_store]. rewrite Hget.
  pose proof (alloc_sessions_spec saved (init_store (storage st))) as Hspec.
  pose proof (heap_wf_alloc saved _ (init_heap_wf (storage st))) as Hwf1.
  destruct (alloc_sessions saved (init_store (storage st))) as [ls st2]. cbn in Hwf1.
  destruct Hspec as (_ & _ & Hderef & _). cbn [sessions set_sessions].
  destruct ls as [| a r].
  - exfalso. cbn in Hderef. subst saved. apply Permutation_nil in Hsaved.
    by apply (deref_nonempty st Hwf Hne).
  - eexists. split; [reflexivity |].
    destruct (sort_and_select_first_abstract _ Hwf1) as [Hp _]; [done |].
    cbn [abstract spec_sessions set_sessions heap sessions] in Hp. by rewrite Hp, Hderef.
Qed.

(** C1: every state of the page after a [loadSessions] that did not
    throw satisfies the invariant: the array is non-empty, the current id
    is the id of one of its sessions, [localStorage] holds the array,
    [isSending] is set exactly while a request is pending, and the
    session that request will answer is still allocated. *)
Theorem reachable_app_inv s : reachable s -> app_inv s.
Proof.
  induction 1 as [storage0 now rnd st Hload | e s s' _ IH Hstep];
    [by eapply app_inv_loaded | by eapply app_step_inv].
Qed.

(** C19: in a state of the invariant (every reachable state), while a
    request is pending the send button does nothing: a second request is
    never sent. *)
Theorem second_send_ignored (input : jstring) (now : Z) s (l : nat) :
  app_inv s -> pending s = Some l ->
  app_step (SendStart input now) s = Some (mkApp (store s) (pending s) now (settings s)).
Proof.
  intros (_ & [_ Hsend] & _) Hp.
  unfold app_step, handleSend_start. cbv zeta. rewrite Hsend by (rewrite Hp; by eexists). done.
Qed.

(** C18: while a request is pending, no event but its answer changes the
    session object the answer will be appended to, whether the user
    switches chats, creates or deletes one, or searches. *)
Theorem pending_session_untouched (e : Event) s s' (l : nat) :
  app_inv s -> pending s = Some l -> (forall a now, e <> SendFinish a now) ->
  app_step e s = Some s' -> heap (store s') !! l = heap (store s) !! l.
Proof.
  intros Hai Hp Hne. pose proof Hai as ((Hwf & _) & [_ Hsend] & Hpend).
  assert (Hl : is_Some (heap (store s) !! l)) by (by apply Hpend).
  assert (Hs : isSending (store s) = true) by (apply Hsend; rewrite Hp; by eexists).
  destruct e as [now rnd | id now rnd | l' | kw answer | input now | a now | inp | mid];
    unfold app_step; cbv zeta.
  - intros [= <-]. apply (frame_alloc _ _ _ (frame_create _ _ _) Hwf Hl).
  - intros [= <-]. apply (frame_alloc _ _ _ (frame_delete _ _ _ _) Hwf Hl).
  - case_bool_decide; [intros [= <-] | done]. apply (frame_alloc _ _ _ (frame_select _ _) Hwf Hl).
  - intros [= <-]. apply (frame_alloc _ _ _ (frame_search _ _ _) Hwf Hl).
  - unfold handleSend_start. rewrite Hs. by intros [= <-].
  - by destruct (Hne a now).
  - intros [= <-]. apply (frame_alloc _ _ _ (frame_other_key _ _ _) Hwf Hl).
  - intros [= <-]. apply (frame_alloc _ _ _ (frame_other_key _ _ _) Hwf Hl).
Qed.

(** C10: a request never hangs the page: in a valid state where
    [isSending] is set, the answer of the server, whatever it is (a reply,
    an empty one, an error), is taken, clears [isSending] so that the send
    button works again, and leaves a valid state. *)
Theorem sending_ends (a : ServerAnswer) (now : Z) s :
  app_inv s -> isSending (store s) = true ->
  exists s', app_step (SendFinish a now) s = Some s' /\ isSending (store s') = false /\ app_inv s'.
Proof.
  intros Hai Hs. pose proof Hai as (Hinv & [Hsend _] & Hpend).
  destruct (Hsend Hs) as [l Hl]. unfold app_step. rewrite Hl. eexists. split; [reflexivity |].
  split; [apply (handleSend_finish_inv l a now (store s) Hinv (Hpend l Hl)) |].
  apply (app_step_inv (SendFinish a now) s); [done |]. unfold app_step. by rewrite Hl.
Qed.

#[export] Instance app_inv_dec s : Decision (app_inv s).
Proof.
  unfold app_inv. destruct (pending s) as [l |].
  - refine (decide_by_iff (P := store_inv (store s) /\
      (isSending (store s) = true <-> is_Some (Some l)) /\ is_Some (heap (store s) !! l)) _ _).
    split; intros (? & ? & Hh); split_and!; try done; [intros ? [= <-]; done | by apply Hh].
  - refine (decide_by_iff (P := store_inv (store s) /\
      (isSending (store s) = true <-> is_Some (@None nat))) _ _).
    split; [intros (? & ?); by split_and! | by intros (? & ? & ?)].
Defined.

(** C11: the sessions survive a reload at any moment: in every state of
    the page, even while a request is pending, a new page that loads the
    storage gets back every session of the array, each with all its
    messages, in some order ([loadSessions] does not throw on it). *)
Theorem reload_restores_sessions s (now : Z) (rnd : jstring) :
  reachable s ->
  exists st', loadSessions now rnd (init_store (storage (store s))) = Ok st' /\
    deref (heap st') (sessions st') ≡ₚ deref (heap (store s)) (sessions (store s)).
Proof.
  intros Hs. apply loadSessions_reload. enough (Hai : app_inv s) by apply Hai.
  induction Hs as [storage0 now0 rnd0 st Hload | e s0 s' _ IH Hstep];
    [by eapply app_inv_loaded | by eapply app_step_inv].
Qed.

End AppInv.

(** ** Timestamps and the history of a session *)

Section Time.
Context {St : Type} `{!Storage St} `{!StorageLaws St} `{!JsLowerCase}.
Implicit Types s : @AppState St.
Implicit Types h : gmap nat ChatSession.t.

(** Every object has [createdAt <= updatedAt <= ] the clock. *)
Definition times_ok s : Prop :=
  map_Forall (fun _ x => (ChatSession.createdAt x <= ChatSession.updatedAt x <= clock s)%Z)
    (heap (store s)).

(** What one event does to an object: nothing, or an append at [now]. *)
Definition session_step (now : Z) (x x' : ChatSession.t) : Prop :=
  x' = x \/
  (ChatSession.id x' = ChatSession.id x /\ ChatSession.createdAt x' = ChatSession.createdAt x /\
   ChatSession.updatedAt x' = now /\ exists m, ChatSession.messages x' = ChatSession.messages x ++ [m]).

Definition fresh_session (now : Z) (x : ChatSession.t) : Prop :=
  ChatSession.createdAt x = now /\ ChatSession.updatedAt x = now /\ ChatSession.messages x = [].

Definition heap_step (now : Z) h h' : Prop :=
  (forall l x, h !! l = Some x -> exists x', h' !! l = Some x' /\ session_step now x x') /\
  (forall l x', h !! l = None -> h' !! l = Some x' -> fresh_session now x').

(** The history relation: same id and creation time, messages only
    appended, [updatedAt] not decreasing. *)
Definition evolves (x x' : ChatSession.t) : Prop :=
  ChatSession.id x' = ChatSession.id x /\ ChatSession.createdAt x' = ChatSession.createdAt x /\
  ChatSession.messages x `prefix_of` ChatSession.messages x' /\
  (ChatSession.updatedAt x <= ChatSession.updatedAt x')%Z.

#[export] Instance evolves_preorder : PreOrder evolves.
Proof.
  split; [intros x; by split_and! |].
  intros x y z (I1 & C1 & M1 & U1) (I2 & C2 & M2 & U2). split_and!; [congruence | congruence | by etrans | lia].
Qed.

(** A run whose events read a clock that does not go back. *)
Fixpoint run_ok (es : list Event) s : Prop :=
  match es with
  | [] => True
  | e :: es' => clock_ok e s /\ match app_step e s with Some s1 => run_ok es' s1 | None => True end
  end.

Lemma heap_step_refl now h : heap_step now h h.
Proof. split; [intros l x Hx; exists x; split; [done | by left] | congruence]. Qed.

Lemma heap_step_new now rnd h (n : nat) :
  (forall k, is_Some (h !! k) -> (k < n)%nat) -> heap_step now h (<[n := new_chat now rnd]> h).
Proof.
  intros Hfresh. split.
  - intros l x Hx. exists x. split; [| by left]. rewrite lookup_insert_ne; [done |].
    assert (l < n)%nat by (apply Hfresh; by eexists). lia.
  - intros l x' Hl. rewrite lookup_insert. case_decide; [intros [= <-]; done | congruence].
Qed.

Lemma heap_step_update now h (l0 : nat) (f : ChatSession.t -> ChatSession.t) :
  is_Some (h !! l0) -> (forall x, session_step now x (f x)) -> heap_step now h (<[l0 := f (h !!! l0)]> h).
Proof.
  intros Hl0 Hf. split.
  - intros l x Hx. rewrite lookup_insert. case_decide as E; [subst l | by exists x; split; [| left]].
    eexists. split; [done |]. rewrite (lookup_total_correct _ _ _ Hx). apply Hf.
  - intros l x' Hl. rewrite lookup_insert. case_decide; [subst l; by destruct Hl0; congruence | congruence].
Qed.

Lemma push_user_message_step text now x : session_step now x (push_user_message text now x).
Proof. right. split_and!; [done | done | done | by eexists]. Qed.

Lemma push_assistant_message_step content now x : session_step now x (push_assistant_message content now x).
Proof. right. split_and!; [done | done | done | by eexists]. Qed.

Lemma handleSend_start_heap input now st (l : nat) st' :
  heap_wf st -> handleSend_start input now st = Some (l, st') ->
  is_Some (heap st !! l) /\
  heap st' = <[l := push_user_message (trim input) now (heap st !!! l)]> (heap st).
Proof.
  intros (Hall & _) . unfold handleSend_start.
  destruct (isSending st); [done |].
  destruct (getCurrentSession st) as [a |] eqn:Hc; [| done].
  assert (Ha : a ∈ sessions st).
  { unfold getCurrentSession in Hc. destruct (currentSessionId st); [| done].
    by apply find_loc_Some in Hc as [? _]. }
  destruct (trim input) as [| c t]; [done |]. intros [= <- <-].
  split; [by eapply Forall_forall in Hall | done].
Qed.

Lemma app_step_heap e s s' :
  app_inv s -> app_step e s = Some s' ->
  heap_step (tick e (clock s)) (heap (store s)) (heap (store s')) /\ clock s' = tick e (clock s).
Proof.
  intros ((Hwf & _) & _ & Hpend). pose proof Hwf as (_ & Hfresh & _).
  destruct e as [now rnd | id now rnd | l | kw answer | input now | a now | inp | mid];
    unfold app_step; cbv zeta.
  - intros [= <-]; cbn [store clock pending]. split; [| done]. rewrite heap_create. by apply heap_step_new.
  - intros [= <-]; cbn [store clock pending]. split; [| done].
    destruct (heap_delete id now rnd (store s)) as [-> | ->]; [apply heap_step_refl | by apply heap_step_new].
  - case_bool_decide; [intros [= <-]; cbn [store clock pending] | done]. split; [| done].
    unfold selectSession. case_bool_decide; apply heap_step_refl.
  - intros [= <-]; cbn [store clock pending]. split; [| done]. rewrite heap_search. apply heap_step_refl.
  - destruct (handleSend_start input now (store s)) as [[l st'] |] eqn:E; intros [= <-]; cbn [store clock pending]; split; try done;
      [| apply heap_step_refl].
    destruct (handleSend_start_heap _ _ _ _ _ Hwf E) as [Hl ->].
    apply heap_step_update; [done | intros; apply push_user_message_step].
  - destruct (pending s) as [l |] eqn:Hp; [intros [= <-]; cbn [store clock pending] | done]. split; [| done].
    apply heap_step_update; [by apply Hpend | intros; apply push_assistant_message_step].
  - intros [= <-]; cbn [store clock pending]. split; [apply heap_step_refl | done].
  - intros [= <-]; cbn [store clock pending]. split; [apply heap_step_refl | done].
Qed.

Lemma clock_ok_tick e s : clock_ok e s -> (clock s <= tick e (clock s))%Z.
Proof. unfold clock_ok, tick. destruct (event_time e); lia. Qed.

Lemma session_step_evolves now x x' :
  (ChatSession.updatedAt x <= now)%Z -> session_step now x x' -> evolves x x'.
Proof.
  intros Hu [-> | (I & C & U & m & M)]; [reflexivity |].
  split_and!; [done | done | rewrite M; by eexists | lia].
Qed.

Lemma times_ok_step e s s' :
  app_inv s -> times_ok s -> clock_ok e s -> app_step e s = Some s' -> times_ok s'.
Proof.
  intros Hai Ht Hc Hs. destruct (app_step_heap _ _ _ Hai Hs) as [[Hold Hnew] Hclk].
  pose proof (clock_ok_tick e s Hc). unfold times_ok in *. rewrite Hclk. intros l x' Hx'.
  destruct (heap (store s) !! l) as [x |] eqn:Hx.
  - destruct (Hold l x Hx) as (x'' & Hx'' & Hstep). rewrite Hx' in Hx''. injection Hx'' as <-.
    specialize (Ht l x Hx). simpl in Ht. destruct Hstep as [-> | (_ & C & U & _)]; lia.
  - destruct (Hnew l x' Hx Hx') as (C & U & _). simpl. lia.
Qed.

Lemma evolves_step e s s' (l : nat) x :
  app_inv s -> times_ok s -> clock_ok e s -> app_step e s = Some s' ->
  heap (store s) !! l = Some x -> exists x', heap (store s') !! l = Some x' /\ evolves x x'.
Proof.
  intros Hai Ht Hc Hs Hx. destruct (app_step_heap _ _ _ Hai Hs) as [[Hold _] _].
  destruct (Hold l x Hx) as (x' & Hx' & Hstep). exists x'. split; [done |].
  apply (session_step_evolves (tick e (clock s))); [| done].
  pose proof (clock_ok_tick e s Hc). specialize (Ht l x Hx). simpl in Ht. lia.
Qed.

(** C9: along any run whose events read a clock that does not go back,
    from a state whose timestamps are consistent, every session object
    keeps its id and creation time, its messages are only appended to,
    and its [updatedAt] never decreases. *)
Theorem sessions_evolve_run (es : list Event) s s' (l : nat) x :
  app_inv s -> times_ok s -> run_ok es s -> run es s = Some s' ->
  heap (store s) !! l = Some x -> exists x', heap (store s') !! l = Some x' /\ evolves x x'.
Proof.
  revert s x. induction es as [|e es IH]; intros s x Hai Ht Hok Hrun Hx; simpl in Hrun.
  { injection Hrun as <-. by exists x. }
  destruct Hok as [Hc Hok]. destruct (app_step e s) as [s1 |] eqn:Hs; [| done]. simpl in Hrun.
  destruct (evolves_step e s s1 l x Hai Ht Hc Hs Hx) as (x1 & Hx1 & E1).
  destruct (IH s1 x1) as (x' & Hx' & E2);
    [by eapply app_step_inv | by eapply times_ok_step | done | done | done |].
  exists x'. split; [done | by etrans].
Qed.

End Time.

(** ** The page refines the specification of the store *)

Section Run.
Context {St : Type} `{!Storage St} `{!StorageLaws St} `{!JsLowerCase}.
Implicit Types s : @AppState St.

(** The session a pending request will answer has the user's message:
    the reply appended to it is an [appendMessage] that keeps the title. *)
Definition pending_nonempty s : Prop :=
  forall l, pending s = Some l -> ChatSession.messages (session_at (store s) l) <> [].

(** What the specification asks of the id generator: the id of a new
    chat is not already in use. *)
Definition fresh_event (e : Event) s : Prop :=
  match e with
  | NewChat now rnd => session_id now rnd ∉ spec_ids (abstract (store s))
  | _ => True
  end.

#[export] Instance fresh_event_dec e s : Decision (fresh_event e s).
Proof. destruct e; cbn; apply _. Defined.

(** The states of the page reached from a [loadSessions] of [storage0]
    that did not throw by events whose new ids are fresh. *)
Inductive reachable_fresh (storage0 : St) : AppState -> Prop :=
| fresh_load now rnd st :
    loadSessions now rnd (init_store storage0) = Ok st ->
    reachable_fresh storage0 (mkApp st None now (loadSettings storage0))
| fresh_step e s s' :
    reachable_fresh storage0 s -> fresh_event e s -> app_step e s = Some s' -> reachable_fresh storage0 s'.

(** A run whose new ids are all fresh, as a test. *)
Fixpoint fresh_run (es : list Event) s : bool :=
  match es with
  | [] => true
  | e :: es' =>
      bool_decide (fresh_event e s) &&
      match app_step e s with Some s1 => fresh_run es' s1 | None => false end
  end.

Lemma reachable_fresh_run (storage0 : St) (es : list Event) s s' :
  reachable_fresh storage0 s -> fresh_run es s = true -> run es s = Some s' -> reachable_fresh storage0 s'.
Proof.
  revert s. induction es as [| e es IH]; intros s Hs; cbn; [by intros _ [= <-] |].
  intros (Hf%bool_decide_eq_true & Hr)%andb_true_iff.
  destruct (app_step e s) as [s1 |] eqn:E; [| done]. apply IH; [by eapply fresh_step | done].
Qed.

Lemma pending_nonempty_frame s st' (c : Z) (cfg : Settings) :
  app_inv s -> pending_nonempty s -> frame (store s) st' -> pending_nonempty (mkApp st' (pending s) c cfg).
Proof.
  intros ((Hwf & _) & _ & Hpend) Hne Hf l Hl. cbn [store pending] in *.
  unfold session_at. rewrite !lookup_total_alt, (frame_alloc _ _ _ Hf Hwf) by (by apply Hpend).
  rewrite <- !lookup_total_alt. by apply Hne.
Qed.

Lemma app_step_pending_nonempty e s s' :
  app_inv s -> pending_nonempty s -> app_step e s = Some s' -> pending_nonempty s'.
Proof.
  intros Hai Hne. pose proof Hai as (Hinv & _).
  destruct e as [now rnd | id now rnd | l | kw answer | input now | a now | inp | mid];
    unfold app_step; cbv zeta.
  - intros [= <-]. apply pending_nonempty_frame; [done | done | apply frame_create].
  - intros [= <-]. apply pending_nonempty_frame; [done | done | apply frame_delete].
  - case_bool_decide; [intros [= <-] | done]. apply pending_nonempty_frame; [done | done | apply frame_select].
  - intros [= <-]. apply pending_nonempty_frame; [done | done | apply frame_search].
  - destruct (handleSend_start input now (store s)) as [[l st'] |] eqn:E; intros [= <-]; [| done].
    intros ? [= <-]. exact (proj2 (handleSend_start_refines _ _ _ _ _ Hinv E)).
  - destruct (pending s); [intros [= <-] | done]. by intros ?.
  - intros [= <-]. apply pending_nonempty_frame; [done | done | apply frame_other_key].
  - intros [= <-]. apply pending_nonempty_frame; [done | done | apply frame_other_key].
Qed.

(** Each event of the page is zero, one or two steps of the
    specification. *)
Lemma app_step_refines e s s' :
  app_inv s -> pending_nonempty s -> fresh_event e s -> app_step e s = Some s' ->
  rtc spec_step (abstract (store s)) (abstract (store s')).
Proof.
  intros Hai Hne Hfresh. pose proof Hai as (Hinv & _ & Hpend). pose proof Hinv as (Hwf & _).
  destruct e as [now rnd | id now rnd | l | kw answer | input now | a now | inp | mid];
    unfold app_step; cbv zeta.
  - intros [= <-]. by apply create_and_select_refines.
  - intros [= <-]. by apply deleteSession_refines.
  - case_bool_decide; [intros [= <-] | done]. by apply selectSession_refines.
  - intros [= <-]. by apply searchChat_refines.
  - destruct (handleSend_start input now (store s)) as [[l st'] |] eqn:E; intros [= <-]; [| apply rtc_refl].
    exact (proj1 (handleSend_start_refines _ _ _ _ _ Hinv E)).
  - destruct (pending s) as [l |] eqn:Hp; [intros [= <-] | done].
    apply handleSend_finish_refines; [done | by apply Hpend | by apply Hne].
  - intros [= <-]. apply rtc_refl.
  - intros [= <-]. apply rtc_refl.
Qed.

Lemma reachable_fresh_sim (storage0 : St) s :
  ids_unique (persisted_collection (getItem storage0 SESSIONS_KEY)) -> reachable_fresh storage0 s ->
  app_inv s /\ pending_nonempty s /\
  spec_reachable (persisted_collection (getItem storage0 SESSIONS_KEY)) (abstract (store s)).
Proof.
  intros Hu. induction 1 as [now rnd st Hload | e s s' _ (Hai & Hne & Hspec) Hfresh Hstep].
  - split_and!; [by eapply app_inv_loaded | done |].
    apply spec_reach_load, (loadSessions_refines now rnd _ _ (init_heap_wf storage0) eq_refl Hu Hload).
  - split_and!; [by eapply app_step_inv | by eapply app_step_pending_nonempty |].
    eapply spec_reachable_rtc; [exact Hspec |]. by eapply app_step_refines.
Qed.

(** C2: the page implements the specification's SessionStore: in every
    state reached from a [loadSessions] of [storage0] that did not throw
    (on a saved list with unique ids, as the store writes it), by events
    whose new ids are fresh, the sessions the array refers to and the
    current id form a state the specification reaches from [load] of the
    collection [storage0] holds, by a sequence of [create], selection,
    [delete] and [appendMessage]. *)
Theorem run_refines_spec (storage0 : St) s :
  ids_unique (persisted_collection (getItem storage0 SESSIONS_KEY)) -> reachable_fresh storage0 s ->
  spec_reachable (persisted_collection (getItem storage0 SESSIONS_KEY)) (abstract (store s)).
Proof. intros Hu Hs. apply (reachable_fresh_sim storage0 s Hu Hs). Qed.

(** C7: the sessions of the page stay unique by id (§3): from a saved
    list with unique ids, along events whose new ids are fresh, no two
    sessions of the array ever share an id. *)
Theorem run_ids_unique (storage0 : St) s :
  ids_unique (persisted_collection (getItem storage0 SESSIONS_KEY)) -> reachable_fresh storage0 s ->
  NoDup (ChatSession.id <$> deref (heap (store s)) (sessions (store s))).
Proof.
  intros Hu Hs. destruct (reachable_fresh_sim storage0 s Hu Hs) as (_ & _ & Hspec).
  exact (proj2 (spec_reachable_inv _ _ Hspec)).
Qed.

End Run.

(** ** A page *)

(** The storage of [sample_store]: sessions "a" (updated at 10) and "b"
    (at 20). *)
Definition saved_storage : gmap jstring Blob := storage sample_store.

(** The page after loading [saved_storage] at time 30. *)
Definition start_page : @AppState (gmap jstring Blob) :=
  mkApp (match loadSessions 30 (js "r") (init_store saved_storage) with
         | Ok st => st
         | Err _ => init_store saved_storage
         end) None 30 (loadSettings saved_storage).

Lemma start_page_reachable : reachable start_page.
Proof. unfold start_page. apply (reach_load saved_storage 30 (js "r")). vm_compute. reflexivity. Qed.

(** The page after sending "hi" at time 40, waiting for the answer. *)
Definition sending_page : @AppState (gmap jstring Blob) :=
  default start_page (run [SendStart (js "hi") 40] start_page).

Lemma sending_page_reachable : reachable sending_page.
Proof.
  apply (reachable_run [SendStart (js "hi") 40] start_page); [exact start_page_reachable |].
  vm_compute. reflexivity.
Qed.

Lemma reachable_app_inv_witness : reachable sending_page /\ app_inv sending_page.
Proof.
  split; [exact sending_page_reachable | apply reachable_app_inv; exact sending_page_reachable].
Defined.

Lemma reload_restores_sessions_witness :
  reachable sending_page /\
  exists st', loadSessions 50 (js "z") (init_store (storage (store sending_page))) = Ok st' /\
    deref (heap st') (sessions st') ≡ₚ deref (heap (store sending_page)) (sessions (store sending_page)).
Proof.
  split; [exact sending_page_reachable | exact (reload_restores_sessions _ 50 (js "z") sending_page_reachable)].
Defined.

Lemma second_send_ignored_witness :
  app_inv sending_page /\ pending sending_page = Some 1%nat /\
  app_step (SendStart (js "again") 41) sending_page =
    Some (mkApp (store sending_page) (pending sending_page) 41 (settings sending_page)).
Proof.
  assert (Hi : app_inv sending_page) by decide_by_eval.
  assert (Hp : pending sending_page = Some 1%nat) by (vm_compute; reflexivity).
  split_and!; [exact Hi | exact Hp |].
  apply (second_send_ignored _ _ _ 1%nat); [exact Hi | exact Hp].
Defined.

Lemma sending_ends_witness :
  app_inv sending_page /\ isSending (store sending_page) = true /\
  exists s', app_step (SendFinish AnswerFailure 41) sending_page = Some s' /\
    isSending (store s') = false /\ app_inv s'.
Proof.
  assert (Hi : app_inv sending_page) by decide_by_eval.
  assert (Hs : isSending (store sending_page) = true) by (vm_compute; reflexivity).
  split_and!; [exact Hi | exact Hs | exact (sending_ends AnswerFailure 41 sending_page Hi Hs)].
Defined.

Lemma pending_session_untouched_witness :
  app_inv sending_page /\ pending sending_page = Some 1%nat /\
  (forall a now, NewChat 41 (js "x") <> SendFinish a now) /\
  exists s', app_step (NewChat 41 (js "x")) sending_page = Some s' /\
    heap (store s') !! 1%nat = heap (store sending_page) !! 1%nat.
Proof.
  assert (Hi : app_inv sending_page) by decide_by_eval.
  assert (Hp : pending sending_page = Some 1%nat) by (vm_compute; reflexivity).
  assert (Hne : forall a now, NewChat 41 (js "x") <> SendFinish a now) by discriminate.
  split_and!; [exact Hi | exact Hp | exact Hne |].
  eexists. split; [reflexivity |]. apply (pending_session_untouched _ _ _ 1%nat Hi Hp Hne). reflexivity.
Defined.

(** Send "hi", open a new chat, receive "ok". *)
Definition reply_events : list Event :=
  [SendStart (js "hi") 40; NewChat 41 (js "x"); SendFinish (AnswerContent (js "ok")) 42].

(** The reply of a request goes to the chat it was sent from: "hi" is
    sent from chat "b" (the most recent, opened by [loadSessions]), the
    user opens a new chat, and the answer "ok" is appended to "b", while
    the new chat stays current and empty. *)
Theorem reply_follows_its_session :
  option_map (fun s => (ChatSession.messages (session_at (store s) 1%nat),
                        ChatSession.messages (session_at (store s) 2%nat),
                        currentSessionId (store s), isSending (store s)))
    (run reply_events start_page)
  = Some ([Message.mk User (js "hi") 40; Message.mk Assistant (js "ok") 42], [],
          Some (session_id 41 (js "x")), false).
Proof. vm_compute. reflexivity. Qed.

Definition spec_events : list Event :=
  reply_events ++ [DeleteItem (js "a") 43 (js "y"); SearchButton (js "B") None].

Lemma start_page_fresh : reachable_fresh saved_storage start_page.
Proof. unfold start_page. apply (fresh_load saved_storage 30 (js "r")). vm_compute. reflexivity. Qed.

(** A page that sent a message, opened a new chat, took the reply,
    deleted a chat and searched: its store is a state of the
    specification. *)
(** The page after [spec_events]. *)
Definition spec_page : @AppState (gmap jstring Blob) := default start_page (run spec_events start_page).

Lemma spec_page_fresh : reachable_fresh saved_storage spec_page.
Proof.
  apply (reachable_fresh_run saved_storage spec_events start_page); [exact start_page_fresh | vm_compute; reflexivity |].
  vm_compute. reflexivity.
Qed.

Lemma saved_storage_ids_unique : ids_unique (persisted_collection (getItem saved_storage SESSIONS_KEY)).
Proof. decide_by_eval. Qed.

Lemma run_refines_spec_witness :
  ids_unique (persisted_collection (getItem saved_storage SESSIONS_KEY)) /\
  reachable_fresh saved_storage spec_page /\
  spec_reachable (persisted_collection (getItem saved_storage SESSIONS_KEY)) (abstract (store spec_page)).
Proof.
  split_and!; [exact saved_storage_ids_unique | exact spec_page_fresh |].
  exact (run_refines_spec _ _ saved_storage_ids_unique spec_page_fresh).
Defined.

Lemma run_ids_unique_witness :
  ids_unique (persisted_collection (getItem saved_storage SESSIONS_KEY)) /\
  reachable_fresh saved_storage spec_page /\
  NoDup (ChatSession.id <$> deref (heap (store spec_page)) (sessions (store spec_page))).
Proof.
  split_and!; [exact saved_storage_ids_unique | exact spec_page_fresh |].
  exact (run_ids_unique _ _ saved_storage_ids_unique spec_page_fresh).
Defined.

Lemma sessions_evolve_run_witness :
  app_inv start_page /\ times_ok start_page /\ run_ok reply_events start_page /\
  run reply_events start_page = Some (default start_page (run reply_events start_page)) /\
  heap (store start_page) !! 1%nat = Some (sample_session "b" "b" 20) /\
  exists x', heap (store (default start_page (run reply_events start_page))) !! 1%nat = Some x' /\
    evolves (sample_session "b" "b" 20) x'.
Proof.
  assert (Hi : app_inv start_page) by decide_by_eval.
  assert (Ht : times_ok start_page) by decide_by_eval.
  assert (Hok : run_ok reply_events start_page) by (vm_compute; repeat split; discriminate).
  assert (Hr : run reply_events start_page = Some (default start_page (run reply_events start_page)))
    by (vm_compute; reflexivity).
  assert (Hx : heap (store start_page) !! 1%nat = Some (sample_session "b" "b" 20))
    by (vm_compute; reflexivity).
  split_and!; [exact Hi | exact Ht | exact Hok | exact Hr | exact Hx |].
  exact (sessions_evolve_run reply_events start_page _ 1%nat _ Hi Ht Hok Hr Hx).
Defined.

(** [handleSend] sets [updatedAt] to [Date.now()] without comparing:
    with a clock that goes back it decreases.  "hi" sent from chat "b"
    (updated at 20) at time 15 sets its [updatedAt] to 15. *)
Theorem clock_back_lowers_updatedAt :
  option_map (fun s => ChatSession.updatedAt (session_at (store s) 1%nat))
    (run [SendStart (js "hi") 15] start_page) = Some 15%Z /\
  ChatSession.updatedAt (session_at (store start_page) 1%nat) = 20%Z.
Proof. split; vm_compute; reflexivity. Qed.
