(* ===== verification/Page.v ===== *)
(** * The page around the store: menus, the model list and the settings panel

    [src/src/main.ts] keeps, beside the store, the state of its menus and
    of the server's model list: [headerMenuDropdownEl] and
    [modelDropdownEl] (the menu node attached to the document, or [null]),
    [availableModelIds] (filled by [ensureModelList], lines 366-378), the
    [hidden] class of the settings panel, and the texts of the connection
    status and of the settings panel (written by [testConnection], the
    save button and [handleSend]).  Their operations are [closeModelDropdown],
    [toggleModelDropdown], [closeHeaderMenu], [toggleHeaderMenu] (lines
    380-476), [testConnection] (lines 527-560), and the listeners of
    [setupEvents] (lines 680-778) that call them: the header menu button,
    the model label, the user card, the document's click and keydown
    listeners, and the test-connection button.

    A [Page] is an [AppState] of [App] and a [Ui].  The document is the
    store [nodes] of the menu nodes attached to it, by identity, so that
    [modelDropdownEl] can point to one of them and [remove()] detaches
    exactly that one.  [ensureModelList] awaits a [fetch] of [/models]
    when the list is empty: each such call is a pending request in
    [fetches], with the URL it fetches and what its caller does after the
    [await]; the answer is the event [ModelsArrive], which can come after
    any other event, and in any order with the other pending answers.
    A page event is either an event of [App] (then the document's click
    listener, when it is a click that reaches the document) or one of the
    listeners above; [page_step] runs it.  The theorems show that the page
    refines [App] (every page step is an [App] step or leaves the app
    state alone), hence, with [App.run_refines_spec], the specification's
    store ([page_refines_spec]), the invariant of the menus, that a connection test
    always ends when its answer arrives, that the model list holds exactly
    the string ids of the answer, and two faults of the code: two
    clicks on the model label while the list loads leave an orphan menu on
    the page, and the test-connection button reports a working server from
    the cached list without contacting the URL just saved. *)

From S2P Require Import Prelude JsString JsSort Session Store StoreInv StoreSpec Config App.
From stdpp Require Import gmap.

Open Scope N_scope.
#[local] Set Default Proof Using "All".

(** ** The answer of [GET /models] *)

(** The [id] of an entry of [data.data]: a string, or any other value
    ([undefined] for an entry with no [id], a number, [null], ...). *)
Inductive JsonId := IdString (s : jstring) | IdOther.

(** An entry of [data.data]: [null] (reading [m.id] throws a
    [TypeError]), or an object or other primitive, with its [id]. *)
Inductive ModelEntry := EntryNull | Entry (id : JsonId).

(** What [ensureModelList] gets from the server: [ModelsFailed] when
    [fetch] rejects, [!res.ok], [res.json()] rejects, [data] is [null],
    or [data.data] is neither [undefined], [null] nor an array (every one
    of them throws inside the [try]); otherwise [data.data], [None]
    standing for [undefined] or [null]. *)
Inductive ModelsResponse :=
| ModelsFailed
| ModelsData (data : option (list ModelEntry)).

(** [m.id] of one entry; [None] when it throws. *)
Definition entry_id (e : ModelEntry) : option JsonId :=
  match e with
  | EntryNull => None
  | Entry v => Some v
  end.

Definition string_id (v : JsonId) : option jstring :=
  match v with
  | IdString s => Some s
  | IdOther => None
  end.

(** [availableModelIds] after the answer: [data.data?.map((m) => m.id)
    .filter((id) => typeof id === "string") ?? []], and [[]] in the
    [catch]. *)
Definition models_of_response (r : ModelsResponse) : list jstring :=
  match r with
  | ModelsData (Some es) =>
      match mapM entry_id es with
      | Some ids => omap string_id ids
      | None => []
      end
  | _ => []
  end.

(** ** The state of the page around the store *)

(** A node the page attaches to the document and removes: the header
    menu ([div.header-menu-dropdown] with its delete and export buttons)
    or a model menu ([div.model-dropdown] with a button per id). *)
Inductive Node := HeaderMenu | ModelMenu (ids : list jstring).

(** What the caller of [await ensureModelList()] does next. *)
Inductive AfterModels := OpenModelMenu | FinishConnectionTest.

(** The text of [connectionTextEl]: "接続テスト中…", "接続 OK", "未接続",
    "応答生成中…", "エラー"; and of [settingsStatusEl]. *)
Inductive ConnStatus := ConnTesting | ConnOk | ConnDown | ConnGenerating | ConnError.
Inductive StatusText := StatusTesting | StatusOk | StatusFailed | StatusSaved.

(** A [fetch(buildApiUrl("/models"))] whose answer has not arrived. *)
Record Fetch := mkFetch { fetch_url : jstring; fetch_after : AfterModels }.

#[export] Instance Node_eq_dec : EqDecision Node.
Proof. solve_decision. Defined.
#[export] Instance AfterModels_eq_dec : EqDecision AfterModels.
Proof. solve_decision. Defined.
#[export] Instance ConnStatus_eq_dec : EqDecision ConnStatus.
Proof. solve_decision. Defined.
#[export] Instance StatusText_eq_dec : EqDecision StatusText.
Proof. solve_decision. Defined.
#[export] Instance Fetch_eq_dec : EqDecision Fetch.
Proof. solve_decision. Defined.

Record Ui := mkUi {
  nodes : gmap nat Node;
  next_node : nat;
  headerMenuDropdownEl : option nat;
  modelDropdownEl : option nat;
  availableModelIds : list jstring;
  modelList : list jstring;              (** the options of [datalist#modelList] *)
  fetches : gmap nat Fetch;
  next_fetch : nat;
  panel_hidden : bool;                   (** [settingsPanelEl] has the class [hidden] *)
  connection : option ConnStatus;        (** [None]: the text of the HTML *)
  dot_connected : bool;                  (** [connectionDotEl] has the class [connected] *)
  settings_status : option StatusText
}.

(** Where a click lands: inside [.header-right], inside the parent of
    [modelLabelEl], inside the settings panel, on the user card. *)
Record Target := mkTarget {
  in_header_right : bool;
  in_model_block : bool;
  in_panel : bool;
  in_user_card : bool
}.

(** A click on none of them. *)
Definition outside : Target := mkTarget false false false false.

(** ** The operations on the menus *)

Section Ops.
Implicit Types u : Ui.

Definition set_nodes (ns : gmap nat Node) u : Ui :=
  mkUi ns (next_node u) (headerMenuDropdownEl u) (modelDropdownEl u) (availableModelIds u)
    (modelList u) (fetches u) (next_fetch u) (panel_hidden u) (connection u) (dot_connected u) (settings_status u).

(** [parent.appendChild(node)] of a new node: its identity. *)
Definition attach (x : Node) u : nat * Ui :=
  (next_node u,
   mkUi (<[next_node u := x]> (nodes u)) (S (next_node u)) (headerMenuDropdownEl u)
     (modelDropdownEl u) (availableModelIds u) (modelList u) (fetches u) (next_fetch u)
     (panel_hidden u) (connection u) (dot_connected u) (settings_status u)).

Definition set_header_menu (o : option nat) u : Ui :=
  mkUi (nodes u) (next_node u) o (modelDropdownEl u) (availableModelIds u) (modelList u)
    (fetches u) (next_fetch u) (panel_hidden u) (connection u) (dot_connected u) (settings_status u).

Definition set_model_dropdown (o : option nat) u : Ui :=
  mkUi (nodes u) (next_node u) (headerMenuDropdownEl u) o (availableModelIds u) (modelList u)
    (fetches u) (next_fetch u) (panel_hidden u) (connection u) (dot_connected u) (settings_status u).

Definition set_panel_hidden (b : bool) u : Ui :=
  mkUi (nodes u) (next_node u) (headerMenuDropdownEl u) (modelDropdownEl u) (availableModelIds u)
    (modelList u) (fetches u) (next_fetch u) b (connection u) (dot_connected u) (settings_status u).

(** The texts and the dot of a connection test. *)
Definition set_status (c : option ConnStatus) (dot : bool) (t : StatusText) u : Ui :=
  mkUi (nodes u) (next_node u) (headerMenuDropdownEl u) (modelDropdownEl u) (availableModelIds u)
    (modelList u) (fetches u) (next_fetch u) (panel_hidden u) c dot (Some t).

Definition set_connection (c : ConnStatus) (dot : bool) u : Ui :=
  mkUi (nodes u) (next_node u) (headerMenuDropdownEl u) (modelDropdownEl u) (availableModelIds u)
    (modelList u) (fetches u) (next_fetch u) (panel_hidden u) (Some c) dot (settings_status u).

Definition set_settings_status (t : StatusText) u : Ui :=
  mkUi (nodes u) (next_node u) (headerMenuDropdownEl u) (modelDropdownEl u) (availableModelIds u)
    (modelList u) (fetches u) (next_fetch u) (panel_hidden u) (connection u) (dot_connected u) (Some t).

(** [closeModelDropdown] *)
Definition closeModelDropdown u : Ui :=
  match modelDropdownEl u with
  | Some n => set_model_dropdown None (set_nodes (delete n (nodes u)) u)
  | None => u
  end.

(** [closeHeaderMenu] *)
Definition closeHeaderMenu u : Ui :=
  match headerMenuDropdownEl u with
  | Some n => set_header_menu None (set_nodes (delete n (nodes u)) u)
  | None => u
  end.

(** [toggleHeaderMenu] *)
Definition toggleHeaderMenu u : Ui :=
  match headerMenuDropdownEl u with
  | Some _ => closeHeaderMenu u
  | None => let '(n, u') := attach HeaderMenu u in set_header_menu (Some n) u'
  end.

(** What follows [await ensureModelList()] in [toggleModelDropdown] (the
    alert when the list is empty, else a new menu appended to the parent
    of the model label and kept in [modelDropdownEl]) and in
    [testConnection] (the options of the datalist and the status texts,
    or the texts of the [catch] of [throw new Error("no models")]). *)
Definition after_models (k : AfterModels) u : Ui :=
  match k, availableModelIds u with
  | OpenModelMenu, [] => u
  | OpenModelMenu, ids => let '(n, u') := attach (ModelMenu ids) u in set_model_dropdown (Some n) u'
  | FinishConnectionTest, [] => set_status (Some ConnDown) false StatusFailed u
  | FinishConnectionTest, ids =>
      set_status (Some ConnOk) true StatusOk
        (mkUi (nodes u) (next_node u) (headerMenuDropdownEl u) (modelDropdownEl u)
           (availableModelIds u) ids (fetches u) (next_fetch u) (panel_hidden u)
           (connection u) (dot_connected u) (settings_status u))
  end.

(** [await ensureModelList()] then [k]: with a list already there it
    returns at once and [k] runs before any other event; else a request
    to [url] is pending. *)
Definition ensureModelList (url : jstring) (k : AfterModels) u : Ui :=
  match availableModelIds u with
  | _ :: _ => after_models k u
  | [] =>
      mkUi (nodes u) (next_node u) (headerMenuDropdownEl u) (modelDropdownEl u)
        (availableModelIds u) (modelList u) (<[next_fetch u := mkFetch url k]> (fetches u))
        (S (next_fetch u)) (panel_hidden u) (connection u) (dot_connected u) (settings_status u)
  end.

(** [toggleModelDropdown] *)
Definition toggleModelDropdown (url : jstring) u : Ui :=
  match modelDropdownEl u with
  | Some _ => closeModelDropdown u
  | None => ensureModelList url OpenModelMenu u
  end.

(** [testConnection]: the texts "接続テスト中…", then the model list. *)
Definition testConnection (url : jstring) u : Ui :=
  ensureModelList url FinishConnectionTest (set_status (Some ConnTesting) false StatusTesting u).

(** The answer of the pending request [k]: [availableModelIds] is
    overwritten, then the caller goes on. *)
Definition models_arrive (k : nat) (r : ModelsResponse) u : option Ui :=
  match fetches u !! k with
  | Some f =>
      Some (after_models (fetch_after f)
              (mkUi (nodes u) (next_node u) (headerMenuDropdownEl u) (modelDropdownEl u)
                 (models_of_response r) (modelList u) (delete k (fetches u)) (next_fetch u)
                 (panel_hidden u) (connection u) (dot_connected u) (settings_status u)))
  | None => None
  end.

(** The click listener of the document. *)
Definition documentClick (t : Target) u : Ui :=
  let u1 := if bool_decide (is_Some (headerMenuDropdownEl u)) && negb (in_header_right t)
            then closeHeaderMenu u else u in
  let u2 := if bool_decide (is_Some (modelDropdownEl u1)) && negb (in_model_block t)
            then closeModelDropdown u1 else u1 in
  if negb (panel_hidden u2) && negb (in_panel t || in_user_card t)
  then set_panel_hidden true u2 else u2.

(** The keydown listener of the document, on [Escape]. *)
Definition escapeKey u : Ui :=
  if negb (panel_hidden u) then set_panel_hidden true u else u.

End Ops.

(** ** The events of the page *)

(** An event of [App], with the target of the click when it is a click
    that reaches the document's listener; the listeners that change the
    menus; the answer [r] of the pending request [k] to [/models]. *)
Inductive PageEvent :=
| AppEvent (e : Event) (click : option Target)
| SettingsToggleClick                                   (** [settingsToggleBtnEl] *)
| HeaderDeleteClick (n : nat) (confirmed : bool) (now : Z) (rnd : jstring)
| HeaderExportClick (n : nat)
| ModelLabelClick
| ModelButtonClick (n : nat) (id : jstring)
| UserCardClick
| DocumentClick (t : Target)                           (** a click on no other listener *)
| EscapeKey
| TestConnectionClick (inp : SettingsInputs) (t : Target)
| ModelsArrive (k : nat) (r : ModelsResponse).

(** How the events of [App] are triggered: the new-chat and search
    buttons, a list item and the save button by a click the document
    sees; the send button by a click or by Enter; the delete button of a
    list item calls [stopPropagation]; the answer of the server is no
    click; a model is picked only through a button of a model menu
    ([ModelButtonClick]). *)
Definition click_ok (e : Event) (click : option Target) : bool :=
  match e, click with
  | (NewChat _ _ | ClickItem _ | SearchButton _ _ | SaveSettings _), Some _ => true
  | SendStart _ _, _ => true
  | (DeleteItem _ _ _ | SendFinish _ _), None => true
  | _, _ => false
  end.

Definition with_click (click : option Target) (u : Ui) : Ui :=
  match click with
  | Some t => documentClick t u
  | None => u
  end.

Section PageStep.
Context {St : Type} `{!Storage St} `{!StorageLaws St} `{!JsLowerCase}.

Record Page := mkPage { app : @AppState St; ui : Ui }.

(** [buildApiUrl("/models")] with the settings of the moment. *)
Definition models_url (s : @AppState St) : jstring := buildApiUrl (settings s) (js "/models").

(** The texts the handlers of the events of [App] write: "設定を保存しました。"
    (the save button, line 751), "応答生成中…" once [handleSend] sends
    (line 640), then "接続 OK" (line 653) or "エラー" with the dot
    switched off (lines 669-670). *)
Definition app_event_ui (e : Event) (st : @Store St) (u : Ui) : Ui :=
  match e with
  | SaveSettings _ => set_settings_status StatusSaved u
  | SendStart input now =>
      match handleSend_start input now st with
      | Some _ => set_connection ConnGenerating (dot_connected u) u
      | None => u
      end
  | SendFinish a _ =>
      match sendToLmStudio_result a with
      | Some _ => set_connection ConnOk (dot_connected u) u
      | None => set_connection ConnError false u
      end
  | _ => u
  end.

(** One event of the page; [None] when it cannot happen: a button of a
    menu that is not on the page, an answer with no request pending. *)
Definition page_step (pe : PageEvent) (p : Page) : option Page :=
  let s := app p in
  let u := ui p in
  match pe with
  | AppEvent e click =>
      if click_ok e click then
        s' ← app_step e s;
        Some (mkPage s' (with_click click (app_event_ui e (store s) u)))
      else None
  | SettingsToggleClick => Some (mkPage s (toggleHeaderMenu u))
  | HeaderDeleteClick n confirmed now rnd =>
      if bool_decide (nodes u !! n = Some HeaderMenu) then
        match getCurrentSession (store s) with
        | Some l =>
            if confirmed then
              s' ← app_step (DeleteItem (ChatSession.id (session_at (store s) l)) now rnd) s;
              Some (mkPage s' (closeHeaderMenu u))
            else Some p
        | None => Some p
        end
      else None
  | HeaderExportClick n =>
      if bool_decide (nodes u !! n = Some HeaderMenu) then Some (mkPage s (closeHeaderMenu u)) else None
  | ModelLabelClick => Some (mkPage s (toggleModelDropdown (models_url s) u))
  | ModelButtonClick n id =>
      match nodes u !! n with
      | Some (ModelMenu ids) =>
          if bool_decide (id ∈ ids) then
            s' ← app_step (PickModel id) s;
            Some (mkPage s' (closeModelDropdown u))
          else None
      | _ => None
      end
  | UserCardClick => Some (mkPage s (set_panel_hidden (negb (panel_hidden u)) u))
  | DocumentClick t => Some (mkPage s (documentClick t u))
  | EscapeKey => Some (mkPage s (escapeKey u))
  | TestConnectionClick inp t =>
      s' ← app_step (SaveSettings inp) s;
      Some (mkPage s' (documentClick t (testConnection (models_url s') u)))
  | ModelsArrive k r => u' ← models_arrive k r u; Some (mkPage s u')
  end.

(** The page before its first event: the panel as the HTML has it, no
    menu, no model list. *)
Definition init_ui (hidden0 : bool) : Ui := mkUi ∅ 0 None None [] [] ∅ 0 hidden0 None false None.

(** [DOMContentLoaded]: [loadSettings], [loadSessions], then [void
    testConnection()]; then any events. *)
Inductive page_reachable : Page -> Prop :=
| page_load storage0 now rnd st hidden0 :
    loadSessions now rnd (init_store storage0) = Ok st ->
    page_reachable (mkPage (mkApp st None now (loadSettings storage0))
                      (testConnection (buildApiUrl (loadSettings storage0) (js "/models"))
                         (init_ui hidden0)))
| page_next pe p p' : page_reachable p -> page_step pe p = Some p' -> page_reachable p'.

Fixpoint page_run (es : list PageEvent) (p : Page) : option Page :=
  match es with
  | [] => Some p
  | e :: es' => page_step e p ≫= page_run es'
  end.

End PageStep.

(** ** The page refines [App] *)

Section Refine.
Context {St : Type} `{!Storage St} `{!StorageLaws St} `{!JsLowerCase}.
Implicit Types p : @Page St.

(** The event of [App] a listener runs, if it runs one. *)
Definition page_app_event (pe : PageEvent) p : option Event :=
  match pe with
  | AppEvent e _ => Some e
  | HeaderDeleteClick _ true now rnd =>
      match getCurrentSession (store (app p)) with
      | Some l => Some (DeleteItem (ChatSession.id (session_at (store (app p)) l)) now rnd)
      | None => None
      end
  | ModelButtonClick _ id => Some (PickModel id)
  | TestConnectionClick inp _ => Some (SaveSettings inp)
  | _ => None
  end.

(** A step of the page is the step of [App] its listener runs on the app
    state, or leaves that state alone: the menus, the model list and the
    panel are a layer the store does not see. *)
Lemma page_step_app pe p p' :
  page_step pe p = Some p' ->
  match page_app_event pe p with
  | Some e => app_step e (app p) = Some (app p')
  | None => app p' = app p
  end.
Proof.
  destruct pe as [e click | | n confirmed now rnd | n | | n id | | t | | inp t | k r];
    cbn [page_step page_app_event]; intros Hs.
  - destruct (click_ok e click); [| done].
    destruct (app_step e (app p)) eqn:E; simplify_eq/=; eauto.
  - by simplify_eq/=.
  - case_bool_decide; [| done]. destruct (getCurrentSession _) as [l |]; destruct confirmed; simplify_eq/=; [| done..].
    by destruct (app_step (DeleteItem (ChatSession.id (session_at (store (app p)) l)) now rnd) (app p)); simplify_eq/=.
  - by case_bool_decide; simplify_eq/=.
  - by simplify_eq/=.
  - destruct (nodes (ui p) !! n) as [[|ids] |]; try done. case_bool_decide; [| done].
    by destruct (app_step (PickModel id) (app p)); simplify_eq/=.
  - by simplify_eq/=.
  - by simplify_eq/=.
  - by simplify_eq/=.
  - by destruct (app_step (SaveSettings inp) (app p)); simplify_eq/=.
  - by destruct (models_arrive _ _ _); simplify_eq/=.
Qed.

(** C3: every state of the page is, on its store, its pending request,
    its clock and its settings, a reachable state of [App]: the theorems
    of [App] hold of the page with its menus. *)
Theorem page_refines_app p : page_reachable p -> reachable (app p).
Proof.
  induction 1 as [storage0 now rnd st hidden0 Hload | pe p p' _ IH Hstep].
  - by apply reach_load with (now := now) (rnd := rnd).
  - pose proof (page_step_app _ _ _ Hstep) as Ha.
    destruct (page_app_event pe p) as [e |]; [by eapply reach_step | by rewrite Ha].
Qed.

End Refine.

(** ** The page implements the specification's store *)

Section PageSpec.
Context {St : Type} `{!Storage St} `{!StorageLaws St} `{!JsLowerCase}.
Implicit Types p : @Page St.

(** A listener whose [App] event, if any, makes a fresh id. *)
Definition page_fresh (pe : PageEvent) p : Prop :=
  match page_app_event pe p with Some e => fresh_event e (app p) | None => True end.

#[export] Instance page_fresh_dec pe p : Decision (page_fresh pe p).
Proof. unfold page_fresh. case_match; apply _. Defined.

(** The pages reached from [DOMContentLoaded] on [storage0] by listeners
    whose new ids are fresh. *)
Inductive page_reachable_fresh (storage0 : St) : Page -> Prop :=
| page_fresh_load now rnd st hidden0 :
    loadSessions now rnd (init_store storage0) = Ok st ->
    page_reachable_fresh storage0
      (mkPage (mkApp st None now (loadSettings storage0))
         (testConnection (buildApiUrl (loadSettings storage0) (js "/models")) (init_ui hidden0)))
| page_fresh_next pe p p' :
    page_reachable_fresh storage0 p -> page_fresh pe p -> page_step pe p = Some p' ->
    page_reachable_fresh storage0 p'.

Lemma page_reachable_fresh_app (storage0 : St) p :
  page_reachable_fresh storage0 p -> reachable_fresh storage0 (app p).
Proof.
  induction 1 as [now rnd st hidden0 Hload | pe p p' _ IH Hfresh Hstep]; [by apply (fresh_load storage0 now rnd) |].
  pose proof (page_step_app _ _ _ Hstep) as Ha. unfold page_fresh in Hfresh.
  destruct (page_app_event pe p) as [e |]; [by eapply fresh_step | by rewrite Ha].
Qed.

Fixpoint page_fresh_run (es : list PageEvent) p : bool :=
  match es with
  | [] => true
  | e :: es' =>
      bool_decide (page_fresh e p) &&
      match page_step e p with Some p1 => page_fresh_run es' p1 | None => false end
  end.

Lemma page_reachable_fresh_run (storage0 : St) (es : list PageEvent) p p' :
  page_reachable_fresh storage0 p -> page_fresh_run es p = true -> page_run es p = Some p' ->
  page_reachable_fresh storage0 p'.
Proof.
  revert p. induction es as [| e es IH]; intros p Hp; cbn; [by intros _ [= <-] |].
  intros (Hf%bool_decide_eq_true & Hr)%andb_true_iff.
  destruct (page_step e p) as [p1 |] eqn:E; [| done]. apply IH; [by eapply page_fresh_next | done].
Qed.

(** C8: the whole page, its menus and panel included, implements the
    specification's SessionStore: from a saved list with unique ids, by
    listeners whose new ids are fresh, the sessions of the array and the
    current id form a state the specification reaches from [load] of
    that list by [create], selection, [delete] and [appendMessage]. *)
Theorem page_refines_spec (storage0 : St) p :
  ids_unique (persisted_collection (getItem storage0 SESSIONS_KEY)) -> page_reachable_fresh storage0 p ->
  spec_reachable (persisted_collection (getItem storage0 SESSIONS_KEY)) (abstract (store (app p))).
Proof.
  intros Hu Hp. exact (proj2 (proj2 (reachable_fresh_sim storage0 (app p) Hu (page_reachable_fresh_app _ _ Hp)))).
Qed.

End PageSpec.

(** ** The invariant of the menus *)

(** A header menu is on the page exactly when [headerMenuDropdownEl]
    points to it (so there is at most one); [modelDropdownEl] points to a
    model menu on the page; every model menu has a button; nodes and
    requests have identities below their counters. *)
Definition ui_inv (u : Ui) : Prop :=
  (forall n, nodes u !! n = Some HeaderMenu <-> headerMenuDropdownEl u = Some n) /\
  (forall n, modelDropdownEl u = Some n -> exists ids, nodes u !! n = Some (ModelMenu ids)) /\
  (forall n ids, nodes u !! n = Some (ModelMenu ids) -> ids <> []) /\
  (forall n, is_Some (nodes u !! n) -> (n < next_node u)%nat) /\
  (forall k, is_Some (fetches u !! k) -> (k < next_fetch u)%nat).

(** While the texts say "接続テスト中…", the request of a connection
    test is pending. *)
Definition testing_inv (u : Ui) : Prop :=
  connection u = Some ConnTesting ->
  exists k f, fetches u !! k = Some f /\ fetch_after f = FinishConnectionTest.

(** [u'] shows the same status texts and has the same pending requests
    as [u]. *)
Definition ui_frame (u u' : Ui) : Prop :=
  connection u' = connection u /\ settings_status u' = settings_status u /\ fetches u' = fetches u.

Section UiInv.
Implicit Types u : Ui.

(** The invariant reads only the nodes, the two pointers, the requests
    and the counters. *)
Lemma ui_inv_ext u u' :
  nodes u' = nodes u -> next_node u' = next_node u -> headerMenuDropdownEl u' = headerMenuDropdownEl u ->
  modelDropdownEl u' = modelDropdownEl u -> fetches u' = fetches u -> next_fetch u' = next_fetch u ->
  ui_inv u -> ui_inv u'.
Proof. unfold ui_inv. intros -> -> -> -> -> ->. done. Qed.

Lemma ui_inv_set_panel_hidden b u : ui_inv u -> ui_inv (set_panel_hidden b u).
Proof. by apply ui_inv_ext. Qed.

Lemma ui_inv_set_status c d t u : ui_inv u -> ui_inv (set_status c d t u).
Proof. by apply ui_inv_ext. Qed.

Lemma ui_inv_set_connection c d u : ui_inv u -> ui_inv (set_connection c d u).
Proof. by apply ui_inv_ext. Qed.

Lemma ui_inv_set_settings_status t u : ui_inv u -> ui_inv (set_settings_status t u).
Proof. by apply ui_inv_ext. Qed.

Lemma ui_inv_closeHeaderMenu u : ui_inv u -> ui_inv (closeHeaderMenu u).
Proof.
  unfold closeHeaderMenu. destruct (headerMenuDropdownEl u) as [n |] eqn:Hh; [| done].
  intros (Hhm & Hmd & Hne & Hnn & Hf). split_and!; cbn.
  - intros m. rewrite lookup_delete_Some, Hhm. split; [intros [? ?]; congruence | done].
  - intros m Hm. destruct (Hmd m Hm) as [ids Hids]. exists ids. rewrite lookup_delete_ne; [done |].
    intros ->. apply Hhm in Hh. congruence.
  - intros m ids [_ Hm]%lookup_delete_Some. by eapply Hne.
  - intros m [x [_ Hm]%lookup_delete_Some]. apply Hnn. by eexists.
  - done.
Qed.

Lemma ui_inv_closeModelDropdown u : ui_inv u -> ui_inv (closeModelDropdown u).
Proof.
  unfold closeModelDropdown. destruct (modelDropdownEl u) as [n |] eqn:Hmn; [| done].
  intros (Hhm & Hmd & Hne & Hnn & Hf). destruct (Hmd n Hmn) as [ids Hids].
  split_and!; cbn; [| done | | |done].
  - intros m. rewrite lookup_delete_Some, Hhm. split; [by intros [? ?] | intros Hm; split; [| done]].
    intros ->. apply Hhm in Hm. congruence.
  - intros m ids' [_ Hm]%lookup_delete_Some. by eapply Hne.
  - intros m [x [_ Hm]%lookup_delete_Some]. apply Hnn. by eexists.
Qed.

(** A new node is above every node on the page. *)
Lemma attach_fresh u : ui_inv u -> nodes u !! next_node u = None.
Proof. intros (_ & _ & _ & Hnn & _). apply eq_None_not_Some. intros Hs%Hnn. lia. Qed.

(** A new request is above every pending one. *)
Lemma attach_fresh_fetch u : ui_inv u -> fetches u !! next_fetch u = None.
Proof. intros (_ & _ & _ & _ & Hf). apply eq_None_not_Some. intros Hs%Hf. lia. Qed.

Lemma ui_inv_toggleHeaderMenu u : ui_inv u -> ui_inv (toggleHeaderMenu u).
Proof.
  unfold toggleHeaderMenu. destruct (headerMenuDropdownEl u) as [n |] eqn:Hh;
    [apply ui_inv_closeHeaderMenu |].
  intros Hi. pose proof (attach_fresh u Hi) as Hfr. destruct Hi as (Hhm & Hmd & Hne & Hnn & Hf).
  split_and!; cbn; [| | | | done].
  - intros m. destruct (decide (m = next_node u)) as [-> | Hm]; [by rewrite lookup_insert_eq |].
    rewrite lookup_insert_ne, Hhm by done. split; [congruence | intros [= ?]; congruence].
  - intros m Hm. destruct (Hmd m Hm) as [ids Hids]. exists ids.
    rewrite lookup_insert_ne; [done | intros <-; congruence].
  - intros m ids. destruct (decide (m = next_node u)) as [-> | Hm];
      [by rewrite lookup_insert_eq | rewrite lookup_insert_ne by done; apply Hne].
  - intros m. destruct (decide (m = next_node u)) as [-> | Hm]; [lia |].
    rewrite lookup_insert_ne by done. intros ?%Hnn. lia.
Qed.

Lemma ui_inv_open_model_menu (ids : list jstring) u :
  ids <> [] -> ui_inv u ->
  ui_inv (let '(n, u') := attach (ModelMenu ids) u in set_model_dropdown (Some n) u').
Proof.
  intros Hids Hi. pose proof (attach_fresh u Hi) as Hfr. destruct Hi as (Hhm & Hmd & Hne & Hnn & Hf).
  split_and!; cbn; [| | | | done].
  - intros m. destruct (decide (m = next_node u)) as [-> | Hm].
    + rewrite lookup_insert_eq. split; [done | intros ?%Hhm; congruence].
    + by rewrite lookup_insert_ne.
  - intros m [= <-]. eexists. apply lookup_insert_eq.
  - intros m ids'. destruct (decide (m = next_node u)) as [-> | Hm];
      [rewrite lookup_insert_eq; by intros [= <-] | rewrite lookup_insert_ne by done; apply Hne].
  - intros m. destruct (decide (m = next_node u)) as [-> | Hm]; [lia |].
    rewrite lookup_insert_ne by done. intros ?%Hnn. lia.
Qed.

Lemma ui_inv_after_models k u : ui_inv u -> ui_inv (after_models k u).
Proof.
  unfold after_models. intros Hi. destruct k, (availableModelIds u) as [| id ids];
    first [done | by apply ui_inv_open_model_menu | by apply ui_inv_set_status
          | apply ui_inv_set_status; revert Hi; by apply ui_inv_ext].
Qed.

Lemma ui_inv_ensureModelList url k u : ui_inv u -> ui_inv (ensureModelList url k u).
Proof.
  unfold ensureModelList. destruct (availableModelIds u); [| apply ui_inv_after_models].
  intros (Hhm & Hmd & Hne & Hnn & Hf). split_and!; cbn; try done.
  intros k'. destruct (decide (k' = next_fetch u)) as [-> | Hk]; [lia |].
  rewrite lookup_insert_ne by done. intros ?%Hf. lia.
Qed.

Lemma ui_inv_toggleModelDropdown url u : ui_inv u -> ui_inv (toggleModelDropdown url u).
Proof.
  unfold toggleModelDropdown. destruct (modelDropdownEl u);
    [apply ui_inv_closeModelDropdown | apply ui_inv_ensureModelList].
Qed.

Lemma ui_inv_testConnection url u : ui_inv u -> ui_inv (testConnection url u).
Proof. intros Hi. by apply ui_inv_ensureModelList, ui_inv_set_status. Qed.

Lemma ui_inv_models_arrive k r u u' : ui_inv u -> models_arrive k r u = Some u' -> ui_inv u'.
Proof.
  unfold models_arrive. destruct (fetches u !! k) as [f |]; intros Hi [= <-].
  apply ui_inv_after_models. destruct Hi as (Hhm & Hmd & Hne & Hnn & Hf).
  split_and!; cbn; try done. intros k' [x [_ Hx]%lookup_delete_Some]. apply Hf. by eexists.
Qed.

Lemma ui_inv_documentClick t u : ui_inv u -> ui_inv (documentClick t u).
Proof.
  intros Hi. unfold documentClick.
  repeat match goal with |- context [if ?b then _ else _] => destruct b end;
    auto using ui_inv_set_panel_hidden, ui_inv_closeModelDropdown, ui_inv_closeHeaderMenu.
Qed.

Lemma ui_inv_escapeKey u : ui_inv u -> ui_inv (escapeKey u).
Proof. unfold escapeKey. destruct (panel_hidden u); auto using ui_inv_set_panel_hidden. Qed.

Lemma ui_inv_init (hidden0 : bool) : ui_inv (init_ui hidden0).
Proof. split_and!; cbn; try done; intros ?; rewrite ?lookup_empty; try done; by intros [? ?]. Qed.

End UiInv.

Section Testing.
Implicit Types u : Ui.

#[local] Instance ui_frame_preorder : PreOrder ui_frame.
Proof. split; [done | intros u1 u2 u3 (H1 & S1 & F1) (H2 & S2 & F2); split_and!; congruence]. Qed.

Lemma testing_inv_frame u u' : ui_frame u u' -> testing_inv u -> testing_inv u'.
Proof. intros (Hc & _ & Hf). unfold testing_inv. by rewrite Hc, Hf. Qed.

Lemma ui_frame_closeHeaderMenu u : ui_frame u (closeHeaderMenu u).
Proof. unfold closeHeaderMenu. by destruct (headerMenuDropdownEl u). Qed.

Lemma ui_frame_closeModelDropdown u : ui_frame u (closeModelDropdown u).
Proof. unfold closeModelDropdown. by destruct (modelDropdownEl u). Qed.

Lemma ui_frame_toggleHeaderMenu u : ui_frame u (toggleHeaderMenu u).
Proof. unfold toggleHeaderMenu, closeHeaderMenu, ui_frame. cbn. repeat case_match; by split_and!. Qed.

Lemma ui_frame_after_closeHeaderMenu u u' : ui_frame u u' -> ui_frame u (closeHeaderMenu u').
Proof. intros H. etrans; [exact H | apply ui_frame_closeHeaderMenu]. Qed.

Lemma ui_frame_after_closeModelDropdown u u' : ui_frame u u' -> ui_frame u (closeModelDropdown u').
Proof. intros H. etrans; [exact H | apply ui_frame_closeModelDropdown]. Qed.

Lemma ui_frame_after_set_panel_hidden b u u' : ui_frame u u' -> ui_frame u (set_panel_hidden b u').
Proof. done. Qed.

Lemma ui_frame_documentClick t u : ui_frame u (documentClick t u).
Proof.
  unfold documentClick.
  repeat match goal with |- context [if ?b then _ else _] => destruct b end;
    repeat first [apply ui_frame_after_set_panel_hidden | apply ui_frame_after_closeModelDropdown
                 | apply ui_frame_after_closeHeaderMenu]; done.
Qed.

Lemma ui_frame_escapeKey u : ui_frame u (escapeKey u).
Proof. unfold escapeKey. by destruct (panel_hidden u). Qed.

Lemma ui_frame_open_model_menu u : ui_frame u (after_models OpenModelMenu u).
Proof. unfold after_models. by destruct (availableModelIds u). Qed.

(** After the continuation of a connection test the texts no longer say
    "接続テスト中…". *)
Lemma after_models_test_settles u : connection (after_models FinishConnectionTest u) <> Some ConnTesting.
Proof. unfold after_models. by destruct (availableModelIds u). Qed.

Lemma testing_inv_ensure_open url u :
  ui_inv u -> testing_inv u -> testing_inv (ensureModelList url OpenModelMenu u).
Proof.
  intros Hi Ht. unfold ensureModelList. destruct (availableModelIds u);
    [| by eapply testing_inv_frame; [apply ui_frame_open_model_menu |]].
  intros Hc. destruct (Ht Hc) as (k & f & Hk & Hf). exists k, f. split; [| done].
  cbn. rewrite lookup_insert_ne; [done |]. intros <-. rewrite (attach_fresh_fetch u Hi) in Hk. done.
Qed.

Lemma testing_inv_testConnection url u : testing_inv (testConnection url u).
Proof.
  unfold testConnection, ensureModelList. cbn. destruct (availableModelIds u).
  - intros _. eexists _, _. split; [apply lookup_insert_eq | done].
  - intros Hc. by destruct (after_models_test_settles (set_status (Some ConnTesting) false StatusTesting u)).
Qed.

Lemma testing_inv_models_arrive k r u u' : testing_inv u -> models_arrive k r u = Some u' -> testing_inv u'.
Proof.
  unfold models_arrive. destruct (fetches u !! k) as [f |] eqn:Hk; intros Ht [= <-].
  destruct (fetch_after f) eqn:Ha; [| intros Hc; by apply after_models_test_settles in Hc].
  eapply testing_inv_frame; [apply ui_frame_open_model_menu |]. cbn. intros Hc.
  destruct (Ht Hc) as (k' & f' & Hk' & Hf'). exists k', f'. split; [| done].
  cbn. rewrite lookup_delete_ne; [done | intros ->; congruence].
Qed.

End Testing.

Section PageInv.
Context {St : Type} `{!Storage St} `{!StorageLaws St} `{!JsLowerCase}.
Implicit Types p : @Page St.

Lemma ui_inv_with_click click u : ui_inv u -> ui_inv (with_click click u).
Proof. destruct click; [apply ui_inv_documentClick | done]. Qed.

Lemma ui_inv_app_event_ui e st u : ui_inv u -> ui_inv (app_event_ui e st u).
Proof.
  intros Hi. unfold app_event_ui. repeat case_match;
    auto using ui_inv_set_settings_status, ui_inv_set_connection.
Qed.

Lemma testing_inv_app_event_ui e st u : testing_inv u -> testing_inv (app_event_ui e st u).
Proof. intros Ht. unfold app_event_ui. by repeat case_match. Qed.


Lemma page_step_ui_inv pe p p' : ui_inv (ui p) -> page_step pe p = Some p' -> ui_inv (ui p').
Proof.
  intros Hi. destruct pe as [e click | | n confirmed now rnd | n | | n id | | t | | inp t | k r];
    cbn [page_step]; intros Hs.
  - destruct (click_ok e click); [| done]. destruct (app_step e (app p)); simplify_eq/=.
    by apply ui_inv_with_click, ui_inv_app_event_ui.
  - simplify_eq/=. by apply ui_inv_toggleHeaderMenu.
  - case_bool_decide; [| done]. destruct (getCurrentSession _); [| by simplify_eq/=].
    destruct confirmed; simplify_eq/=; [by apply ui_inv_closeHeaderMenu | done].
  - case_bool_decide; simplify_eq/=. by apply ui_inv_closeHeaderMenu.
  - simplify_eq/=. by apply ui_inv_toggleModelDropdown.
  - destruct (nodes (ui p) !! n) as [[|ids] |]; try done. case_bool_decide; [| done].
    simplify_eq/=. by apply ui_inv_closeModelDropdown.
  - simplify_eq/=. by apply ui_inv_set_panel_hidden.
  - simplify_eq/=. by apply ui_inv_documentClick.
  - simplify_eq/=. by apply ui_inv_escapeKey.
  - destruct (app_step _ _); simplify_eq/=. by apply ui_inv_documentClick, ui_inv_testConnection.
  - destruct (models_arrive k r (ui p)) eqn:E; simplify_eq/=. by eapply ui_inv_models_arrive.
Qed.

Lemma ui_frame_with_click click u : ui_frame u (with_click click u).
Proof. destruct click; [apply ui_frame_documentClick | done]. Qed.

Lemma page_step_testing_inv pe p p' :
  ui_inv (ui p) -> testing_inv (ui p) -> page_step pe p = Some p' -> testing_inv (ui p').
Proof.
  intros Hi Ht. destruct pe as [e click | | n confirmed now rnd | n | | n id | | t | | inp t | k r];
    cbn [page_step]; intros Hs.
  - destruct (click_ok e click); [| done]. destruct (app_step e (app p)); simplify_eq/=.
    eapply testing_inv_frame; [apply ui_frame_with_click |]. by apply testing_inv_app_event_ui.
  - simplify_eq/=. by eapply testing_inv_frame; [apply ui_frame_toggleHeaderMenu |].
  - case_bool_decide; [| done]. destruct (getCurrentSession _); [| by simplify_eq/=].
    destruct confirmed; simplify_eq/=; [| done].
    by eapply testing_inv_frame; [apply ui_frame_closeHeaderMenu |].
  - case_bool_decide; simplify_eq/=. by eapply testing_inv_frame; [apply ui_frame_closeHeaderMenu |].
  - simplify_eq/=. unfold toggleModelDropdown. destruct (modelDropdownEl (ui p));
      [by eapply testing_inv_frame; [apply ui_frame_closeModelDropdown |] | by apply testing_inv_ensure_open].
  - destruct (nodes (ui p) !! n) as [[|ids] |]; try done. case_bool_decide; [| done].
    simplify_eq/=. by eapply testing_inv_frame; [apply ui_frame_closeModelDropdown |].
  - by simplify_eq/=.
  - simplify_eq/=. by eapply testing_inv_frame; [apply ui_frame_documentClick |].
  - simplify_eq/=. by eapply testing_inv_frame; [apply ui_frame_escapeKey |].
  - destruct (app_step _ _); simplify_eq/=.
    eapply testing_inv_frame; [apply ui_frame_documentClick | apply testing_inv_testConnection].
  - destruct (models_arrive k r (ui p)) eqn:E; simplify_eq/=. by eapply testing_inv_models_arrive.
Qed.

Lemma page_reachable_inv p : page_reachable p -> ui_inv (ui p) /\ testing_inv (ui p).
Proof.
  induction 1 as [storage0 now rnd st hidden0 Hload | pe p p' _ [IHi IHt] Hstep].
  - split; [apply ui_inv_testConnection, ui_inv_init | apply testing_inv_testConnection].
  - split; [by eapply page_step_ui_inv | by eapply page_step_testing_inv].
Qed.

(** C6: on every page the menus are as the code means them: a header
    menu is attached exactly when [headerMenuDropdownEl] points to it, so
    there is never more than one; [modelDropdownEl] always points to a
    model menu on the page; every model menu has at least one button. *)
Theorem page_ui_inv p : page_reachable p -> ui_inv (ui p).
Proof. intros Hp. apply (page_reachable_inv p Hp). Qed.

(** C15: a connection test always ends: on every page whose status says
    "接続テスト中…" some request to [/models] is pending whose answer,
    whatever it is (a list, an error, a malformed body), replaces that
    status by "接続 OK" or "未接続". *)
Theorem connection_test_settles p :
  page_reachable p -> connection (ui p) = Some ConnTesting ->
  exists k, forall r, exists p', page_step (ModelsArrive k r) p = Some p' /\
    connection (ui p') <> Some ConnTesting.
Proof.
  intros Hp Hc. destruct (page_reachable_inv p Hp) as [_ Ht].
  destruct (Ht Hc) as (k & f & Hk & Hf). exists k. intros r. cbn [page_step].
  unfold models_arrive. rewrite Hk. eexists. split; [reflexivity |]. cbn [ui]. rewrite Hf.
  apply after_models_test_settles.
Qed.

(** C20: [toggleModelDropdown] tests [modelDropdownEl] before its
    [await], so on any page whose model menu is closed and whose list is
    still empty, two clicks on the model label start two requests; when
    both answers bring models, each opens a menu and [modelDropdownEl]
    keeps only the second.  A third click closes that one: the first
    menu stays attached, and neither [modelDropdownEl] nor
    [headerMenuDropdownEl] refers to it any more. *)
Theorem double_click_orphan_model_menu (p : Page) (r1 r2 : ModelsResponse) :
  modelDropdownEl (ui p) = None -> availableModelIds (ui p) = [] ->
  models_of_response r1 <> [] -> models_of_response r2 <> [] ->
  exists p', page_run [ModelLabelClick; ModelLabelClick; ModelsArrive (next_fetch (ui p)) r1;
                       ModelsArrive (S (next_fetch (ui p))) r2; ModelLabelClick] p = Some p' /\
    nodes (ui p') !! next_node (ui p) = Some (ModelMenu (models_of_response r1)) /\
    modelDropdownEl (ui p') = None /\
    headerMenuDropdownEl (ui p') = headerMenuDropdownEl (ui p).
Proof.
  intros Hm Ha H1 H2. destruct p as [s u]. cbn [ui] in *.
  destruct (models_of_response r1) as [| i1 ids1] eqn:E1; [done |].
  destruct (models_of_response r2) as [| i2 ids2] eqn:E2; [done |].
  cbn [page_run page_step ui app mbind option_bind].
  unfold toggleModelDropdown, ensureModelList, models_arrive, after_models. rewrite Hm, Ha. cbn -[models_of_response].
  simplify_map_eq. rewrite E1. cbn -[models_of_response]. simplify_map_eq. rewrite E2. cbn -[models_of_response].
  eexists. split; [reflexivity |]. cbn. split_and!; [| done | done].
  rewrite lookup_delete_ne, lookup_insert_ne, lookup_insert_eq by lia. done.
Qed.

End PageInv.

(** ** The server's list *)

Section Models.

Lemma mapM_entry_id_Some (es : list ModelEntry) (ids : list JsonId) :
  mapM entry_id es = Some ids -> es = map Entry ids.
Proof.
  revert ids. induction es as [| [| v] es IH]; intros ids; simpl; [by intros [= <-] | done |].
  destruct (mapM entry_id es) eqn:E; intros [= <-]. simpl. f_equal. by apply IH.
Qed.

Lemma mapM_entry_id_None (es : list ModelEntry) : mapM entry_id es = None <-> EntryNull ∈ es.
Proof.
  induction es as [| [| v] es IH]; simpl.
  - split; [done | intros ?%not_elem_of_nil; done].
  - split; [intros _; left | done].
  - rewrite elem_of_cons. destruct (mapM entry_id es) eqn:E; simpl.
    + split; [done | intros [[=] | Hin%IH]; congruence].
    + split; [intros _; right; by apply IH | done].
Qed.

(** The model list holds exactly the [id]s the server sent as
    strings, in its order; a single [null] entry (on which [m.id] throws)
    empties the whole list. *)
Theorem models_of_response_ids (es : list ModelEntry) (id : jstring) :
  id ∈ models_of_response (ModelsData (Some es)) <-> (EntryNull ∉ es) /\ Entry (IdString id) ∈ es.
Proof.
  cbn [models_of_response]. destruct (mapM entry_id es) as [ids |] eqn:E.
  - apply mapM_entry_id_Some in E as ->. rewrite list_elem_of_omap, !list_elem_of_fmap.
    split.
    + intros ([s' |] & Hv & Hs); simplify_eq/=. split; [by intros (? & ? & _) | by eexists].
    + intros [_ (v & Hv & Hin)]. simplify_eq. by eexists.
  - apply mapM_entry_id_None in E. rewrite elem_of_nil. split; [done | by intros [? _]].
Qed.

End Models.

Section Cache.
Context {St : Type} `{!Storage St} `{!StorageLaws St} `{!JsLowerCase}.
Implicit Types p : @Page St.

(** C21: once a model list is cached, the test-connection button reports
    "LM Studio と通信できました。" and "接続 OK" without sending any
    request: the URL just saved from the panel is never contacted. *)
Theorem testConnection_uses_cache p inp t p' :
  availableModelIds (ui p) <> [] -> page_step (TestConnectionClick inp t) p = Some p' ->
  connection (ui p') = Some ConnOk /\ settings_status (ui p') = Some StatusOk /\
  fetches (ui p') = fetches (ui p).
Proof.
  intros Hids. cbn [page_step app_step]. intros [= <-]. cbn [ui].
  match goal with |- context [documentClick t ?u] =>
    destruct (ui_frame_documentClick t u) as (-> & -> & ->) end.
  unfold testConnection, ensureModelList, after_models. cbn.
  destruct (availableModelIds (ui p)); [done |]. done.
Qed.

Lemma page_reachable_run (es : list PageEvent) p p' :
  page_reachable p -> page_run es p = Some p' -> page_reachable p'.
Proof.
  revert p. induction es as [| e es IH]; intros p Hp; simpl; [by intros [= <-] |].
  destruct (page_step e p) as [p1 |] eqn:E; [| done]. simpl. apply IH. by eapply page_next.
Qed.

End Cache.

(** ** A page *)

(** [start_page] of [App] (the storage of [sample_store] loaded at time
    30) with the panel hidden and the connection test of the load
    pending as request 0. *)
Definition start_ui_page : @Page (gmap jstring Blob) :=
  mkPage start_page (testConnection (models_url start_page) (init_ui true)).

Lemma start_ui_page_reachable : page_reachable start_ui_page.
Proof. apply (page_load saved_storage 30 (js "r")). vm_compute. reflexivity. Qed.

(** The server lists one model, "m". *)
Definition models_ok : ModelsResponse := ModelsData (Some [Entry (IdString (js "m"))]).

(** The load-time test answered: "m" is cached and the status is OK. *)
Definition cached_page : @Page (gmap jstring Blob) :=
  default start_ui_page (page_run [ModelsArrive 0 models_ok] start_ui_page).

Lemma cached_page_reachable : page_reachable cached_page.
Proof.
  apply (page_reachable_run [ModelsArrive 0 models_ok] start_ui_page); [exact start_ui_page_reachable |].
  vm_compute. reflexivity.
Qed.

(** Two clicks on the model label before the list has arrived, both
    answers, a third click and a click elsewhere on the page. *)

Lemma double_click_orphan_model_menu_witness :
  modelDropdownEl (ui start_ui_page) = None /\ availableModelIds (ui start_ui_page) = [] /\
  models_of_response models_ok <> [] /\ models_of_response models_ok <> [] /\
  exists p', page_run [ModelLabelClick; ModelLabelClick; ModelsArrive (next_fetch (ui start_ui_page)) models_ok;
                       ModelsArrive (S (next_fetch (ui start_ui_page))) models_ok; ModelLabelClick] start_ui_page = Some p' /\
    nodes (ui p') !! next_node (ui start_ui_page) = Some (ModelMenu (models_of_response models_ok)) /\
    modelDropdownEl (ui p') = None /\
    headerMenuDropdownEl (ui p') = headerMenuDropdownEl (ui start_ui_page).
Proof.
  assert (Hm : modelDropdownEl (ui start_ui_page) = None) by reflexivity.
  assert (Ha : availableModelIds (ui start_ui_page) = []) by reflexivity.
  assert (Hr : models_of_response models_ok <> []) by discriminate.
  split_and!; [exact Hm | exact Ha | exact Hr | exact Hr |].
  exact (double_click_orphan_model_menu start_ui_page models_ok models_ok Hm Ha Hr Hr).
Defined.

Lemma page_refines_app_witness : page_reachable cached_page /\ reachable (app cached_page).
Proof. split; [exact cached_page_reachable | apply page_refines_app; exact cached_page_reachable]. Defined.

Lemma page_ui_inv_witness : page_reachable cached_page /\ ui_inv (ui cached_page).
Proof. split; [exact cached_page_reachable | apply page_ui_inv; exact cached_page_reachable]. Defined.

Lemma connection_test_settles_witness :
  page_reachable start_ui_page /\ connection (ui start_ui_page) = Some ConnTesting /\
  exists k, forall r, exists p', page_step (ModelsArrive k r) start_ui_page = Some p' /\
    connection (ui p') <> Some ConnTesting.
Proof.
  assert (Hc : connection (ui start_ui_page) = Some ConnTesting) by (vm_compute; reflexivity).
  split_and!; [exact start_ui_page_reachable | exact Hc |].
  exact (connection_test_settles start_ui_page start_ui_page_reachable Hc).
Defined.

(** The URL of the panel changed to a server that is down. *)
Definition dead_server_inputs : SettingsInputs :=
  mkInputs (js "http://127.0.0.1:9/v1") (js "m") (js "p") (js "0.7") [].

(** A click inside the settings panel. *)
Definition in_the_panel : Target := mkTarget false false true false.

Lemma testConnection_uses_cache_witness :
  availableModelIds (ui cached_page) <> [] /\
  exists p', page_step (TestConnectionClick dead_server_inputs in_the_panel) cached_page = Some p' /\
    connection (ui p') = Some ConnOk /\ settings_status (ui p') = Some StatusOk /\
    fetches (ui p') = fetches (ui cached_page).
Proof.
  assert (Hids : availableModelIds (ui cached_page) <> []) by (vm_compute; discriminate).
  split; [exact Hids |]. eexists. split; [reflexivity |].
  apply (testConnection_uses_cache cached_page dead_server_inputs in_the_panel _ Hids). reflexivity.
Defined.

(** The test button with [dead_server_inputs] while the load-time test
    (request 0, to the URL of [saved_storage]) is pending: request 1 goes
    to the new URL.  The new server answers "n" first, then the old one
    "m": the list and the datalist end with the old server's "m". *)
Example stale_models_answer_wins :
  option_map (fun p => (map fetch_url (map snd (map_to_list (fetches (ui p)))),
                        availableModelIds (ui p), modelList (ui p)))
    (page_run [TestConnectionClick dead_server_inputs in_the_panel;
               ModelsArrive 1 (ModelsData (Some [Entry (IdString (js "n"))]));
               ModelsArrive 0 models_ok] start_ui_page) =
  Some ([], [js "m"], [js "m"]).
Proof. vm_compute. reflexivity. Qed.

(** The load-time test answered, "hi" sent, a new chat, the header menu
    opened and its delete button confirmed, then the answer. *)
Definition menu_events : list PageEvent :=
  [ModelsArrive 0 models_ok; AppEvent (SendStart (js "hi") 40) (Some outside);
   AppEvent (NewChat 41 (js "x")) (Some outside); SettingsToggleClick;
   HeaderDeleteClick 0 true 42 (js "y"); AppEvent (SendFinish (AnswerContent (js "ok")) 43) None].

Lemma start_ui_page_fresh : page_reachable_fresh saved_storage start_ui_page.
Proof. apply (page_fresh_load saved_storage 30 (js "r")). vm_compute. reflexivity. Qed.

Lemma page_refines_spec_witness :
  ids_unique (persisted_collection (getItem saved_storage SESSIONS_KEY)) /\
  page_reachable_fresh saved_storage (default start_ui_page (page_run menu_events start_ui_page)) /\
  spec_reachable (persisted_collection (getItem saved_storage SESSIONS_KEY))
    (abstract (store (app (default start_ui_page (page_run menu_events start_ui_page))))).
Proof.
  assert (Hu : ids_unique (persisted_collection (getItem saved_storage SESSIONS_KEY))) by decide_by_eval.
  assert (Hr : page_reachable_fresh saved_storage (default start_ui_page (page_run menu_events start_ui_page))).
  { apply (page_reachable_fresh_run saved_storage menu_events start_ui_page); [exact start_ui_page_fresh | vm_compute; reflexivity |].
    vm_compute. reflexivity. }
  split_and!; [exact Hu | exact Hr | exact (page_refines_spec _ _ Hu Hr)].
Defined.
