(* ===== verification/Http.v ===== *)
(** * The bodies of the server's answers

    [Store] takes the outcome of [sendToLmStudio] as a [ServerAnswer] and
    [Page] the outcome of the [fetch] of [ensureModelList] as a
    [ModelsResponse].  This file computes both from the HTTP status and
    the body text, as the code does:

    - [sendToLmStudio] ([src/src/main.ts] lines 593-603): [!res.ok]
      throws; [res.json()] is [JSON.parse] of the body and rejects on bad
      JSON; [data.choices?.[0]?.message?.content ?? "..."] reads the reply
      with optional chaining, where [data.choices] itself throws when
      [data] is [null];
    - [ensureModelList] (lines 370-374): [!res.ok] throws, [res.json()]
      may reject, [data.data?.map((m) => m.id)] throws when [data] is
      [null], when [data.data] is no array (it has no [map]), and when an
      entry is [null].

    A JavaScript value read from parsed JSON is an [option json], [None]
    for [undefined].  A reply whose [content] is present but not a string
    is passed on as it is by the code; it is outside the model ([None]).
    The theorems show that the body a server writes for a reply [t] is
    read back as exactly [t], whatever code units [t] holds, and that the
    body of a model list gives back exactly its ids. *)

From S2P Require Import Prelude JsString Session Json Store Page.

Open Scope N_scope.

(** ** Property access on parsed JSON *)

(** [v.k] for a key that no prototype defines: only objects have it. *)
Definition prop (k : jstring) (v : json) : option json :=
  match v with JObj l => json_lookup k l | _ => None end.

(** [v[0]]: the first element of an array, the property ["0"] of an
    object, the first code unit of a string. *)
Definition index0 (v : json) : option json :=
  match v with
  | JArr (x :: _) => Some x
  | JObj l => json_lookup (js "0") l
  | JStr (c :: _) => Some (JStr [c])
  | _ => None
  end.

(** Optional chaining [o?.f]: [undefined] when [o] is [null] or
    [undefined]. *)
Definition chain (f : json -> option json) (o : option json) : option json :=
  match o with
  | None | Some JNull => None
  | Some v => f v
  end.

(** ** [sendToLmStudio] after the [fetch] *)

(** [data.choices?.[0]?.message?.content ?? "..."]; [data.choices]
    throws on [null]. *)
Definition chat_reply (data : json) : option ServerAnswer :=
  match data with
  | JNull => Some AnswerFailure
  | _ =>
      match chain (prop (js "content")) (chain (prop (js "message")) (chain index0 (prop (js "choices") data))) with
      | None | Some JNull => Some AnswerNoContent
      | Some (JStr t) => Some (AnswerContent t)
      | Some _ => None
      end
  end.

(** The outcome of [sendToLmStudio] for a response with status [ok]
    and [body]. *)
Definition chat_answer (ok : bool) (body : jstring) : option ServerAnswer :=
  if ok then
    match json_parse body with
    | None => Some AnswerFailure
    | Some data => chat_reply data
    end
  else Some AnswerFailure.

(** ** [ensureModelList] after the [fetch] *)

(** [m.id] of an entry, before [filter((id) => typeof id === "string")]. *)
Definition model_entry (v : json) : ModelEntry :=
  match v with
  | JNull => EntryNull
  | _ => Entry (match prop (js "id") v with Some (JStr s) => IdString s | _ => IdOther end)
  end.

(** [data.data?.map((m) => m.id)]. *)
Definition models_data (data : json) : ModelsResponse :=
  match data with
  | JNull => ModelsFailed
  | _ =>
      match prop (js "data") data with
      | None | Some JNull => ModelsData None
      | Some (JArr es) => ModelsData (Some (map model_entry es))
      | Some _ => ModelsFailed
      end
  end.

Definition models_answer (ok : bool) (body : jstring) : ModelsResponse :=
  if ok then
    match json_parse body with
    | None => ModelsFailed
    | Some data => models_data data
    end
  else ModelsFailed.

(** ** The bodies a server writes *)

(** An OpenAI-compatible chat completion ([POST /chat/completions])
    whose reply is [t]. *)
Definition completion_json (t : jstring) : json :=
  JObj [(js "id", JStr (js "chatcmpl-1")); (js "object", JStr (js "chat.completion"));
        (js "choices", JArr [JObj [(js "index", JNum 0 0);
                                   (js "message", JObj [(js "role", JStr (js "assistant")); (js "content", JStr t)]);
                                   (js "finish_reason", JStr (js "stop"))]])].

(** A model list ([GET /models]) with the ids [ids]. *)
Definition model_json (i : jstring) : json := JObj [(js "id", JStr i); (js "object", JStr (js "model"))].

Definition models_json (ids : list jstring) : json :=
  JObj [(js "object", JStr (js "list")); (js "data", JArr (map model_json ids))].

Lemma models_json_printable (ids : list jstring) : printable (models_json ids) = true.
Proof. induction ids as [| i ids IH]; [done |]. exact IH. Qed.

Lemma model_entry_json (i : jstring) : model_entry (model_json i) = Entry (IdString i).
Proof. reflexivity. Qed.

Lemma mapM_entry_id_strings (ids : list jstring) :
  mapM entry_id (map (fun i => Entry (IdString i)) ids) = Some (map IdString ids).
Proof. induction ids as [| i ids IH]; [done |]. cbn. by rewrite IH. Qed.

Lemma omap_string_id (ids : list jstring) : omap string_id (map IdString ids) = ids.
Proof. induction ids as [| i ids IH]; [done |]. cbn. by rewrite IH. Qed.

(** C13: [sendToLmStudio] reads back the reply the server wrote in its
    answer, whatever code units it holds. *)
Theorem chat_answer_text (t : jstring) : chat_answer true (json_text (completion_json t)) = Some (AnswerContent t).
Proof. unfold chat_answer. rewrite json_parse_text by reflexivity. reflexivity. Qed.

(** C14: [ensureModelList] stores exactly the ids of the model list the
    server sent. *)
Theorem models_answer_text (ids : list jstring) :
  models_of_response (models_answer true (json_text (models_json ids))) = ids.
Proof.
  unfold models_answer. rewrite json_parse_text by apply models_json_printable.
  cbv -[map model_entry model_json models_of_response].
  rewrite map_map, (map_ext _ _ model_entry_json). cbn [models_of_response].
  by rewrite mapM_entry_id_strings, omap_string_id.
Qed.

(** ** Other answers *)

(** A [null] body makes [data.choices] throw. *)
Example chat_answer_null : chat_answer true (js "null") = Some AnswerFailure.
Proof. by vm_compute. Qed.

(** No choice: the placeholder reply. *)
Example chat_answer_no_choice : chat_answer true (js "{" ++ [34] ++ js "choices" ++ [34] ++ js ":[]}") = Some AnswerNoContent.
Proof. by vm_compute. Qed.

(** A numeric content is passed on as it is: outside the model. *)
Example chat_answer_numeric_content :
  chat_answer true (js "{" ++ [34] ++ js "choices" ++ [34] ++ js ":[{" ++ [34] ++ js "message" ++ [34] ++ js ":{" ++
                    [34] ++ js "content" ++ [34] ++ js ":5}}]}") = None.
Proof. by vm_compute. Qed.

(** [data.data] that is an object has no [map]: the call throws. *)
Example models_answer_object : models_answer true (js "{" ++ [34] ++ js "data" ++ [34] ++ js ":{}}") = ModelsFailed.
Proof. by vm_compute. Qed.

Example models_answer_not_ok : models_answer false (json_text (models_json [js "m"])) = ModelsFailed.
Proof. done. Qed.
