(* ===== verification/Old.v ===== *)
(** * The old variant of the page, [src/src_old/main.ts]

    An earlier copy of [main.ts]: no deletion, no search, no header menu,
    no model menu, and messages shown as plain text.  Its [loadSessions],
    [saveSessions], [createNewSession], [getCurrentSession],
    [selectSession], [buildApiUrl], [sendToLmStudio], [handleSend] and
    [updateSettingsFromInputs] are the same text as in [main.ts], and the
    handlers of its [setupEvents] (lines 431-469) call them as the new
    ones do; [old_step] therefore runs the event of [App] each old event
    is.  What differs is modelled here: [loadSettings] (lines 71-81),
    which has no [else] branch and resets nothing, [renderMessages]
    (lines 163-223), which writes [msg.content] as text, [testConnection]
    (lines 295-312), which fetches [/models] at every call, and the
    listeners of [setupEvents] with the status texts they write
    ([old_page_step]), started by its [DOMContentLoaded] (lines 472-523,
    [old_page_reachable]).  The theorems show that the old page keeps the
    same invariant (every old page runs [App]'s handlers:
    [old_page_reachable_app]), that it restores saved settings in full
    where the new one does not (on the [Blob] abstraction of the
    settings text), that its test button always contacts the
    server and a running test always ends, and that on plain text the new
    table renderer shows exactly what the old view shows. *)

From S2P Require Import Prelude JsString Segmenter Session Store StoreInv Config View App Page.
From stdpp Require Import gmap.

Open Scope N_scope.
#[local] Set Default Proof Using "All".

(** The events of the old [setupEvents]: the new-chat button, a click on
    a list item, the send button (or Enter), the server's answer, and the
    save or test-connection button of the settings panel. *)
Inductive OldEvent :=
| ONewChat (now : Z) (rnd : jstring)
| OClickItem (l : nat)
| OSendStart (input : jstring) (now : Z)
| OSendFinish (a : ServerAnswer) (now : Z)
| OSaveSettings (inp : SettingsInputs).

Definition old_event (e : OldEvent) : Event :=
  match e with
  | ONewChat now rnd => NewChat now rnd
  | OClickItem l => ClickItem l
  | OSendStart input now => SendStart input now
  | OSendFinish a now => SendFinish a now
  | OSaveSettings inp => SaveSettings inp
  end.

(** A row of the old [renderMessages]: [content.textContent = msg.content]. *)
Inductive OldMessageView :=
| OldEmptyHint
| OldBubble (r : Role) (text : jstring).

(** What the old page shows beside the store: the [hidden] class of the
    settings panel, the text of [connectionTextEl] and the [connected]
    class of the dot, the text of [settingsStatusEl], and the [fetch] of
    [/models] of each [testConnection] whose answer has not arrived, by
    its URL. *)
Record OldUi := mkOldUi {
  old_panel_hidden : bool;
  old_connection : option ConnStatus;
  old_dot : bool;
  old_status : option StatusText;
  old_tests : gmap nat jstring;
  old_next_test : nat
}.

Definition set_old_texts (c : option ConnStatus) (dot : bool) (t : option StatusText) (u : OldUi) : OldUi :=
  mkOldUi (old_panel_hidden u) c dot t (old_tests u) (old_next_test u).

(** The old [testConnection] (lines 295-312): the texts "接続テスト中…",
    then a request to [url], every time. *)
Definition testConnection_old (url : jstring) (u : OldUi) : OldUi :=
  mkOldUi (old_panel_hidden u) (Some ConnTesting) false (Some StatusTesting)
    (<[old_next_test u := url]> (old_tests u)) (S (old_next_test u)).

(** The answer of the request [k]: [res.ok], or [false] when it is not
    ok or [fetch] rejects. *)
Definition test_answer_old (k : nat) (ok : bool) (u : OldUi) : option OldUi :=
  match old_tests u !! k with
  | Some _ =>
      Some (mkOldUi (old_panel_hidden u) (Some (if ok then ConnOk else ConnDown)) ok
              (Some (if ok then StatusOk else StatusFailed)) (delete k (old_tests u)) (old_next_test u))
  | None => None
  end.

(** The events of the old page: an event of the store, the settings
    button (which toggles the panel), the test-connection button, and the
    answer to a pending test. *)
Inductive OldPageEvent :=
| OStoreEvent (e : OldEvent)
| OSettingsToggleClick
| OTestConnectionClick (inp : SettingsInputs)
| OTestAnswer (k : nat) (ok : bool).

(** The row of the new [renderMessages] that draws what a row of the old
    one draws: the same hint, or the same text as one paragraph. *)
Definition as_new_view (v : OldMessageView) : MessageView :=
  match v with
  | OldEmptyHint => EmptyHint
  | OldBubble r t => Bubble r [Prose t]
  end.

Section Old.
Context {St : Type} `{!Storage St} `{!StorageLaws St} `{!JsLowerCase}.
Implicit Types s : @AppState St.

(** [loadSettings] of the old variant: [{ ...DEFAULT_SETTINGS, ...parsed }]
    when the key holds a truthy value, the defaults when parsing throws,
    and the settings as they are ([current]) when the key is missing or
    empty. *)
Definition loadSettings_old (current : Settings) (storage : St) : Settings :=
  match getItem storage SETTINGS_KEY with
  | Some (BlobSettings parsed) => parsed
  | None | Some BlobEmpty => current
  | Some _ => DEFAULT_SETTINGS
  end.

Definition old_step (e : OldEvent) s : option (@AppState St) := app_step (old_event e) s.

(** [DOMContentLoaded] of the old variant: [loadSettings] on the initial
    settings, [loadSessions], then the events. *)
Inductive reachable_old : @AppState St -> Prop :=
| oreach_load storage0 now rnd st :
    loadSessions now rnd (init_store storage0) = Ok st ->
    reachable_old (mkApp st None now (loadSettings_old DEFAULT_SETTINGS storage0))
| oreach_step e s s' :
    reachable_old s -> old_step e s = Some s' -> reachable_old s'.

(** The old [renderMessages]. *)
Definition renderMessages_old (st : @Store St) : list OldMessageView :=
  match getCurrentSession st with
  | None => []
  | Some l =>
      match ChatSession.messages (session_at st l) with
      | [] => [OldEmptyHint]
      | ms => map (fun m => OldBubble (Message.role m) (Message.content m)) ms
      end
  end.

(** The texts the old handlers write: "設定を保存しました。" (line 449),
    "応答生成中…" once [handleSend] sends (line 391), then "接続 OK"
    (line 404) or "エラー" with the dot switched off (lines 420-421). *)
Definition old_event_ui (e : OldEvent) (st : @Store St) (u : OldUi) : OldUi :=
  match e with
  | OSaveSettings _ => set_old_texts (old_connection u) (old_dot u) (Some StatusSaved) u
  | OSendStart input now =>
      match handleSend_start input now st with
      | Some _ => set_old_texts (Some ConnGenerating) (old_dot u) (old_status u) u
      | None => u
      end
  | OSendFinish a _ =>
      match sendToLmStudio_result a with
      | Some _ => set_old_texts (Some ConnOk) (old_dot u) (old_status u) u
      | None => set_old_texts (Some ConnError) false (old_status u) u
      end
  | _ => u
  end.

Record OldPage := mkOldPage { old_app : @AppState St; old_ui : OldUi }.

(** One event of the old page ([setupEvents], lines 431-469). *)
Definition old_page_step (e : OldPageEvent) (p : OldPage) : option OldPage :=
  let u := old_ui p in
  match e with
  | OStoreEvent e =>
      s' ← old_step e (old_app p);
      Some (mkOldPage s' (old_event_ui e (store (old_app p)) u))
  | OSettingsToggleClick =>
      Some (mkOldPage (old_app p) (mkOldUi (negb (old_panel_hidden u)) (old_connection u)
                                     (old_dot u) (old_status u) (old_tests u) (old_next_test u)))
  | OTestConnectionClick inp =>
      s' ← old_step (OSaveSettings inp) (old_app p);
      Some (mkOldPage s' (testConnection_old (buildApiUrl (settings s') (js "/models")) u))
  | OTestAnswer k ok => u' ← test_answer_old k ok u; Some (mkOldPage (old_app p) u')
  end.

(** The old page before [DOMContentLoaded]: the panel's [hidden] class
    of the HTML, the texts of the HTML, no request. *)
Definition init_old_ui (hidden0 : bool) : OldUi := mkOldUi hidden0 None false None ∅ 0.

(** [DOMContentLoaded] of the old variant (lines 472-523): [loadSettings],
    [loadSessions], [void testConnection()] on the URL of the settings
    just loaded; then any listener. *)
Inductive old_page_reachable : OldPage -> Prop :=
| old_page_load storage0 now rnd st hidden0 :
    loadSessions now rnd (init_store storage0) = Ok st ->
    old_page_reachable
      (mkOldPage (mkApp st None now (loadSettings_old DEFAULT_SETTINGS storage0))
         (testConnection_old (buildApiUrl (loadSettings_old DEFAULT_SETTINGS storage0) (js "/models"))
            (init_old_ui hidden0)))
| old_page_next pe p p' : old_page_reachable p -> old_page_step pe p = Some p' -> old_page_reachable p'.

(** While the connection text says a test is running, a test request is
    pending. *)
Definition old_ui_inv (u : OldUi) : Prop :=
  old_connection u = Some ConnTesting -> exists k url, old_tests u !! k = Some url.

(** Every state of the old page after a [loadSessions] that did not
    throw satisfies the invariant of the page: the old events are events
    of [App], so the argument of [App] applies as it is. *)
Theorem reachable_old_app_inv s : reachable_old s -> app_inv s.
Proof.
  induction 1 as [storage0 now rnd st Hload | e s s' _ IH Hstep];
    [by eapply app_inv_loaded | by eapply app_step_inv].
Qed.

(** At the level of the [Blob] abstraction of the settings text, the old
    variant restores saved settings in full, temperature and token limit
    included, where the new one resets them ([Config.settings_reload]);
    the JSON text of the settings itself is not modelled. *)
Theorem old_settings_reload (current cfg : Settings) (storage : St) :
  loadSettings_old current (saveSettings cfg storage) = cfg.
Proof. unfold loadSettings_old, saveSettings. by rewrite getItem_setItem_eq. Qed.

(** The old test-connection button always asks the server: it
    saves the settings of the panel and sends a request to [/models] of
    the URL just saved, where the new page answers from its cached list
    ([Page.testConnection_uses_cache]). *)
Theorem old_testConnection_fetches (inp : SettingsInputs) (p : OldPage) :
  exists p', old_page_step (OTestConnectionClick inp) p = Some p' /\
    old_tests (old_ui p') !! old_next_test (old_ui p) =
      Some (buildApiUrl (updateSettingsFromInputs inp) (js "/models")) /\
    old_connection (old_ui p') = Some ConnTesting.
Proof.
  eexists. split; [reflexivity |]. split; [| done]. cbn. apply lookup_insert_eq.
Qed.

(** Every state of the old page is, on its store, request, clock and
    settings, a state of [reachable_old]: its listeners are old events or
    leave that state alone. *)
Theorem old_page_reachable_app (p : OldPage) : old_page_reachable p -> reachable_old (old_app p).
Proof.
  induction 1 as [storage0 now rnd st hidden0 Hload | pe p p' _ IH Hstep]; [cbn [old_app]; by apply (oreach_load storage0 now rnd) |].
  destruct pe as [e | | inp | k ok]; cbn [old_page_step] in Hstep.
  - apply bind_Some in Hstep as (s' & Hs & [= <-]). by eapply oreach_step.
  - by injection Hstep as <-.
  - apply bind_Some in Hstep as (s' & Hs & [= <-]). by eapply oreach_step.
  - by apply bind_Some in Hstep as (u' & _ & [= <-]).
Qed.

Lemma old_event_ui_inv (e : OldEvent) (st : @Store St) (u : OldUi) : old_ui_inv u -> old_ui_inv (old_event_ui e st u).
Proof.
  unfold old_ui_inv. destruct e; cbn; try done; repeat case_match; cbn; done.
Qed.

Lemma old_page_ui_inv (p : OldPage) : old_page_reachable p -> old_ui_inv (old_ui p).
Proof.
  unfold old_ui_inv. induction 1 as [storage0 now rnd st hidden0 Hload | pe p p' _ IH Hstep].
  - intros _. eexists _, _. apply lookup_insert_eq.
  - destruct pe as [e | | inp | k ok]; cbn [old_page_step] in Hstep.
    + apply bind_Some in Hstep as (s' & _ & [= <-]). by apply old_event_ui_inv.
    + by injection Hstep as <-.
    + apply bind_Some in Hstep as (s' & _ & [= <-]). intros _. eexists _, _. apply lookup_insert_eq.
    + apply bind_Some in Hstep as (u' & Hu & [= <-]). unfold test_answer_old in Hu.
      case_match; simplify_eq/=. by destruct ok.
Qed.

(** C39: a running connection test of the old page always ends: while
    the connection text says a test is running, a request to [/models]
    is pending, and its answer, whatever it is, replaces the text. *)
Theorem old_connection_test_settles (p : OldPage) :
  old_page_reachable p -> old_connection (old_ui p) = Some ConnTesting ->
  exists k, forall ok, exists p', old_page_step (OTestAnswer k ok) p = Some p' /\
    old_connection (old_ui p') <> Some ConnTesting.
Proof.
  intros Hp Hc. destruct (old_page_ui_inv p Hp Hc) as (k & url & Hk). exists k. intros ok.
  cbn [old_page_step]. unfold test_answer_old. rewrite Hk. eexists. split; [reflexivity |]. by destruct ok.
Qed.

(** C22: the table renderer changes nothing on plain text: when every
    message of the current chat is plain (no carriage return, star or
    backtick, no blank line, no line starting with a pipe), the new
    [renderMessages] shows exactly the rows of the old one, each text as
    one paragraph. *)
Theorem renderMessages_plain_equiv (st : @Store St) :
  (forall l, getCurrentSession st = Some l ->
     Forall (fun m => plain_text (Message.content m)) (ChatSession.messages (session_at st l))) ->
  renderMessages st = map as_new_view (renderMessages_old st).
Proof.
  intros Hplain. unfold renderMessages, renderMessages_old.
  destruct (getCurrentSession st) as [l |]; [| done]. specialize (Hplain l eq_refl).
  destruct (ChatSession.messages (session_at st l)) as [| m ms]; [done |].
  rewrite map_map. apply map_ext_Forall. eapply Forall_impl; [exact Hplain |].
  intros x Hx. unfold message_view. by rewrite render_plain_text.
Qed.

End Old.

(** ** Witnesses *)

(** The old page after loading [saved_storage] at time 30. *)
Definition old_start_page : @AppState (gmap jstring Blob) :=
  mkApp (store start_page) None 30 (loadSettings_old DEFAULT_SETTINGS saved_storage).

(** The old page after [DOMContentLoaded] on [saved_storage] at time 30,
    its load-time connection test pending. *)
Definition old_start_ui_page : @OldPage (gmap jstring Blob) :=
  mkOldPage old_start_page
    (testConnection_old (buildApiUrl (loadSettings_old DEFAULT_SETTINGS saved_storage) (js "/models"))
       (init_old_ui true)).

Lemma old_connection_test_settles_witness :
  old_page_reachable old_start_ui_page /\ old_connection (old_ui old_start_ui_page) = Some ConnTesting /\
  exists k : nat, forall ok : bool, exists p' : OldPage,
    old_page_step (OTestAnswer k ok) old_start_ui_page = Some p' /\ old_connection (old_ui p') <> Some ConnTesting.
Proof.
  assert (Hp : old_page_reachable old_start_ui_page).
  { unfold old_start_ui_page, old_start_page, start_page.
    apply (old_page_load saved_storage 30 (js "r")). vm_compute. reflexivity. }
  assert (Hc : old_connection (old_ui old_start_ui_page) = Some ConnTesting) by reflexivity.
  split_and!; [exact Hp | exact Hc | exact (old_connection_test_settles old_start_ui_page Hp Hc)].
Defined.

(** The old page shows table markup as it is typed. *)
Example renderMessages_old_plain :
  renderMessages_old
    (mkStore {[0%nat := ChatSession.mk (js "a") (js "a") [Message.mk Assistant (js "|a|") 1] 1 1]}
       1 [0%nat] (Some (js "a")) false (∅ : gmap jstring Blob)) =
  [OldBubble Assistant (js "|a|")].
Proof. vm_compute. reflexivity. Qed.

(** A chat "a" holding one plain message. *)
Definition plain_chat : @Store (gmap jstring Blob) :=
  mkStore {[0%nat := ChatSession.mk (js "a") (js "a") [Message.mk Assistant (js "hello, world") 1] 1 1]}
    1 [0%nat] (Some (js "a")) false ∅.

Lemma renderMessages_plain_equiv_witness :
  (forall l, getCurrentSession plain_chat = Some l ->
     Forall (fun m => plain_text (Message.content m)) (ChatSession.messages (session_at plain_chat l))) /\
  renderMessages plain_chat = map as_new_view (renderMessages_old plain_chat).
Proof.
  assert (H : forall l, getCurrentSession plain_chat = Some l ->
     Forall (fun m => plain_text (Message.content m)) (ChatSession.messages (session_at plain_chat l))).
  { intros l Hl. vm_compute in Hl. injection Hl as <-. unfold plain_text, plain_line. decide_by_eval. }
  split; [exact H | exact (renderMessages_plain_equiv plain_chat H)].
Defined.
