(* ===== verification/Display.v ===== *)
(** * What the page displays, and when it is refreshed

    The views of [View] are functions of the store; the page shows what
    they returned the last time they were called.  [setupEvents] and the
    functions it calls ([src/src/main.ts]) call [renderSidebar],
    [renderHeader] and [renderMessages] after most changes, but not all:
    the answer of the server runs [renderMessages] only (lines 651, 667),
    and the test-connection button (lines 754-758) saves the settings
    without [renderHeader].  A [DPage] is a [Page] with what
    [chatListEl], [currentChatTitleEl], [modelLabelEl] and
    [chatMessagesEl] show ([Shown]); [page_renders] lists the render
    calls of each listener on the branch it takes, and [display_step]
    runs the listener and then those calls.  The theorems show what the
    page always gets right (the messages of the current chat, its title,
    and the items of the chat list up to their order) and what it does
    not (the order of the list after a reply, the model label after the
    test button). *)

From stdpp Require Import gmap.
From S2P Require Import Prelude JsString JsSort Session Store StoreInv Config View App Page.

Open Scope N_scope.
#[local] Set Default Proof Using "All".

(** What the four elements show: the items of [chatListEl], the text of
    [currentChatTitleEl] ([None] for the text of the HTML, which
    [renderHeader] leaves when [currentSessionId] is falsy), the text of
    [modelLabelEl], the rows of [chatMessagesEl]. *)
Record Shown := mkShown {
  shown_sidebar : list SidebarItem;
  shown_title : option jstring;
  shown_model : jstring;
  shown_messages : list MessageView
}.

(** A call of one of the three render functions. *)
Inductive Render := RenderSidebar | RenderHeader | RenderMessages.

Definition ALL_RENDERS : list Render := [RenderSidebar; RenderHeader; RenderMessages].

Section Display.
Context {St : Type} `{!Storage St} `{!StorageLaws St} `{!JsLowerCase}.
Implicit Types st : @Store St.

(** The effect of one call on what is shown. *)
Definition render (cfg : Settings) st (sh : Shown) (r : Render) : Shown :=
  match r with
  | RenderSidebar => mkShown (renderSidebar st) (shown_title sh) (shown_model sh) (shown_messages sh)
  | RenderHeader =>
      let '(t, m) := renderHeader cfg st in
      mkShown (shown_sidebar sh) (match t with Some t => Some t | None => shown_title sh end) m
        (shown_messages sh)
  | RenderMessages => mkShown (shown_sidebar sh) (shown_title sh) (shown_model sh) (renderMessages st)
  end.

(** [deleteSession] renders after a deletion, not on an unknown id. *)
Definition deleteSession_renders (id : jstring) st : list Render :=
  match find_index st (has_id id) with
  | None => []
  | Some _ => ALL_RENDERS
  end.

(** [selectSession] returns at once on the current id. *)
Definition selectSession_renders (id : jstring) st : list Render :=
  if bool_decide (currentSessionId st = Some id) then [] else ALL_RENDERS.

(** [searchChat] renders when it selects a session: one match, or the
    number of one typed at the prompt. *)
Definition searchChat_renders (keyword : jstring) (answer : option Z) st : list Render :=
  let q := toLowerCase (trim keyword) in
  match q with
  | [] => []
  | _ =>
      match search_matches q st with
      | [] => []
      | [_] => ALL_RENDERS
      | matched =>
          match answer with
          | Some n =>
              if bool_decide (1 <= n <= Z.of_nat (length matched))%Z then
                match matched !! Z.to_nat (n - 1) with
                | Some _ => ALL_RENDERS
                | None => []
                end
              else []
          | None => []
          end
      end
  end.

(** The render calls of the handler of an event of [App]: the new-chat
    button and [handleSend] before its [await] render all three; the
    answer renders the messages; the save button and a model button
    render the header. *)
Definition app_renders (e : Event) (s : @AppState St) : list Render :=
  let st := store s in
  match e with
  | NewChat _ _ => ALL_RENDERS
  | DeleteItem id _ _ => deleteSession_renders id st
  | ClickItem l => selectSession_renders (ChatSession.id (session_at st l)) st
  | SearchButton kw answer => searchChat_renders kw answer st
  | SendStart input now =>
      match handleSend_start input now st with
      | Some _ => ALL_RENDERS
      | None => []
      end
  | SendFinish _ _ => [RenderMessages]
  | SaveSettings _ => [RenderHeader]
  | PickModel _ => [RenderHeader]
  end.

(** The render calls of each listener; the menus, the panel, the
    document and the answers to [/models] render nothing, and neither
    does the test-connection button. *)
Definition page_renders (pe : PageEvent) (p : Page) : list Render :=
  let s := app p in
  match pe with
  | AppEvent e _ => app_renders e s
  | HeaderDeleteClick _ confirmed _ _ =>
      match getCurrentSession (store s) with
      | Some l =>
          if confirmed then deleteSession_renders (ChatSession.id (session_at (store s) l)) (store s) else []
      | None => []
      end
  | ModelButtonClick _ id => app_renders (PickModel id) s
  | _ => []
  end.

Record DPage := mkDPage { dpage : @Page St; shown : Shown }.

Definition render_all (cfg : Settings) st (sh : Shown) : Shown := foldl (render cfg st) sh ALL_RENDERS.

(** A listener, then its render calls on the state it leaves. *)
Definition display_step (pe : PageEvent) (dp : DPage) : option DPage :=
  p' ← page_step pe (dpage dp);
  Some (mkDPage p' (foldl (render (settings (app p')) (store (app p'))) (shown dp) (page_renders pe (dpage dp)))).

(** [DOMContentLoaded] renders the three views after [loadSessions],
    over whatever the HTML shows ([sh0]). *)
Inductive display_reachable : DPage -> Prop :=
| display_load storage0 now rnd st hidden0 (sh0 : Shown) :
    loadSessions now rnd (init_store storage0) = Ok st ->
    display_reachable
      (mkDPage (mkPage (mkApp st None now (loadSettings storage0))
                  (testConnection (buildApiUrl (loadSettings storage0) (js "/models")) (init_ui hidden0)))
         (render_all (loadSettings storage0) st sh0))
| display_next pe dp dp' : display_reachable dp -> display_step pe dp = Some dp' -> display_reachable dp'.

(** What the page shows right: the items of the chat list (in some
    order), the title of the current chat when [renderHeader] writes
    one, and its messages. *)
Definition shown_ok (cfg : Settings) st (sh : Shown) : Prop :=
  shown_sidebar sh ≡ₚ renderSidebar st /\
  (forall t, fst (renderHeader cfg st) = Some t -> shown_title sh = Some t) /\
  shown_messages sh = renderMessages st.

End Display.

(** ** What the page always shows right *)

Section DisplayProps.
Context {St : Type} `{!Storage St} `{!StorageLaws St} `{!JsLowerCase}.
Implicit Types st : @Store St.

Lemma shown_ok_render_all cfg st (sh : Shown) : shown_ok cfg st (render_all cfg st sh).
Proof.
  unfold render_all, shown_ok. cbn. destruct (renderHeader cfg st) as [t m]; cbn.
  split_and!; [done | by intros ? -> | done].
Qed.

(** The title [renderHeader] writes does not depend on the settings. *)
Lemma shown_ok_cfg cfg cfg' st (sh : Shown) : shown_ok cfg st sh -> shown_ok cfg' st sh.
Proof. intros (H1 & H2 & H3). split_and!; [done | intros t Ht; by apply H2 | done]. Qed.

Lemma shown_ok_header cfg st (sh : Shown) : shown_ok cfg st sh -> shown_ok cfg st (render cfg st sh RenderHeader).
Proof.
  intros (H1 & H2 & H3). unfold render, shown_ok. destruct (renderHeader cfg st) as [t m].
  cbn [shown_sidebar shown_title shown_messages fst]. split_and!; [done | by intros ? -> | done].
Qed.

(** Writing [localStorage] changes no view. *)
Lemma shown_ok_storage cfg st (sh : Shown) (x : St) : shown_ok cfg st sh -> shown_ok cfg (set_storage x st) sh.
Proof. done. Qed.

(** Two stores whose array, current id, and ids and titles of all
    objects agree: the answer of the server changes nothing else. *)
Definition same_labels st st' : Prop :=
  sessions st' = sessions st /\ currentSessionId st' = currentSessionId st /\
  forall l, ChatSession.id (session_at st' l) = ChatSession.id (session_at st l) /\
            ChatSession.title (session_at st' l) = ChatSession.title (session_at st l).

Lemma handleSend_finish_same_labels (l : nat) a now st : same_labels st (handleSend_finish l a now st).
Proof.
  split_and!; [done | done |]. intros l'. unfold session_at. cbn.
  destruct (decide (l = l')) as [<- | Hne];
    [rewrite lookup_total_insert_eq | rewrite lookup_total_insert_ne by done]; done.
Qed.

Lemma same_labels_getCurrentSession st st' : same_labels st st' -> getCurrentSession st' = getCurrentSession st.
Proof.
  intros (Hs & Hc & Hl). unfold getCurrentSession, find_loc. rewrite Hc, Hs.
  destruct (currentSessionId st) as [cid |]; [| done]. f_equal.
  apply list_find_ext. intros l. unfold has_id. by rewrite (proj1 (Hl l)).
Qed.

Lemma same_labels_header cfg st st' :
  same_labels st st' -> fst (renderHeader cfg st') = fst (renderHeader cfg st).
Proof.
  intros Hsl. pose proof Hsl as (_ & Hc & Hl). unfold renderHeader. cbn [fst].
  rewrite Hc, (same_labels_getCurrentSession _ _ Hsl).
  destruct (currentSessionId st) as [[|c cid] |]; [done | | done].
  destruct (getCurrentSession st) as [l |]; [| done]. by rewrite (proj2 (Hl l)).
Qed.

Lemma same_labels_sidebar st st' : same_labels st st' -> renderSidebar st' ≡ₚ renderSidebar st.
Proof.
  intros (Hs & Hc & Hl). unfold renderSidebar, renderSidebar_order.
  rewrite (Permutation_map _ (sort_desc_permutation _ _)), (Permutation_map (sidebar_item st) (sort_desc_permutation _ _)).
  rewrite Hs. apply Permutation_refl'. apply map_ext. intros l.
  unfold sidebar_item, display_title. by rewrite Hc, (proj1 (Hl l)), (proj2 (Hl l)).
Qed.

Lemma shown_ok_same_labels cfg st st' (sh : Shown) :
  shown_ok cfg st sh -> same_labels st st' -> shown_ok cfg st' (render cfg st' sh RenderMessages).
Proof.
  intros (H1 & H2 & _) Hsl. split_and!; cbn.
  - rewrite H1. symmetry. by apply same_labels_sidebar.
  - intros t Ht. apply H2. by rewrite <- (same_labels_header cfg _ _ Hsl).
  - done.
Qed.

End DisplayProps.

Section DisplayRun.
Context {St : Type} `{!Storage St} `{!StorageLaws St} `{!JsLowerCase}.
Implicit Types s : @AppState St.

(** A handler that renders nothing left the store as it was. *)
Lemma searchChat_renders_ok keyword answer (st : @Store St) cfg (sh : Shown) :
  shown_ok cfg st sh ->
  shown_ok cfg (searchChat keyword answer st) (foldl (render cfg (searchChat keyword answer st)) sh (searchChat_renders keyword answer st)).
Proof.
  intros Hok. unfold searchChat_renders, searchChat. destruct (toLowerCase (trim keyword)) as [| c q]; [done |].
  destruct (search_matches (c :: q) st) as [| l0 [| l1 r]]; [done | apply shown_ok_render_all |].
  destruct answer as [n |]; [| done]. case_bool_decide; [| done].
  destruct ((l0 :: l1 :: r) !! Z.to_nat (n - 1)); [apply shown_ok_render_all | done].
Qed.

Lemma app_renders_ok (e : Event) s s' (sh : Shown) :
  app_step e s = Some s' -> shown_ok (settings s) (store s) sh ->
  shown_ok (settings s') (store s') (foldl (render (settings s') (store s')) sh (app_renders e s)).
Proof.
  intros Hstep Hok.
  destruct e as [now rnd | id now rnd | l | kw answer | input now | a now | inp | mid];
    unfold app_step in Hstep; cbv zeta in Hstep; cbn [app_renders].
  - injection Hstep as <-. apply shown_ok_render_all.
  - injection Hstep as <-. cbn [store settings]. unfold deleteSession_renders, deleteSession.
    destruct (find_index (store s) (has_id id)); [apply shown_ok_render_all | done].
  - case_bool_decide; [injection Hstep as <- | done]. cbn [store settings].
    unfold selectSession_renders, selectSession. case_bool_decide; [done | apply shown_ok_render_all].
  - injection Hstep as <-. by apply searchChat_renders_ok.
  - destruct (handleSend_start input now (store s)) as [[l st'] |]; injection Hstep as <-;
      [apply shown_ok_render_all | done].
  - destruct (pending s) as [l |]; [injection Hstep as <- | done]. cbn [store settings foldl].
    apply (shown_ok_same_labels _ (store s)); [done | apply handleSend_finish_same_labels].
  - injection Hstep as <-. cbn [store settings foldl].
    by apply shown_ok_header, shown_ok_storage, (shown_ok_cfg (settings s)).
  - injection Hstep as <-. cbn [store settings foldl].
    by apply shown_ok_header, shown_ok_storage, (shown_ok_cfg (settings s)).
Qed.

Lemma page_renders_ok (pe : PageEvent) (p p' : @Page St) (sh : Shown) :
  page_step pe p = Some p' -> shown_ok (settings (app p)) (store (app p)) sh ->
  shown_ok (settings (app p')) (store (app p')) (foldl (render (settings (app p')) (store (app p'))) sh (page_renders pe p)).
Proof.
  intros Hstep Hok. destruct pe as [e click | | n confirmed now rnd | n | | n mid | | t | | inp t | k r];
    unfold page_step in Hstep; cbn [page_renders].
  - destruct (click_ok e click); [| done].
    destruct (app_step e (app p)) as [s' |] eqn:E; [| done]. injection Hstep as <-. by eapply app_renders_ok.
  - by injection Hstep as <-.
  - case_bool_decide; [| done]. destruct (getCurrentSession (store (app p))) as [l |]; [| by injection Hstep as <-].
    destruct confirmed; [| by injection Hstep as <-].
    destruct (app_step _ (app p)) as [s' |] eqn:E; [| done]. injection Hstep as <-.
    exact (app_renders_ok (DeleteItem _ now rnd) _ _ _ E Hok).
  - case_bool_decide; [by injection Hstep as <- | done].
  - by injection Hstep as <-.
  - destruct (nodes (ui p) !! n) as [[] |]; try done. case_bool_decide; [| done].
    destruct (app_step (PickModel mid) (app p)) as [s' |] eqn:E; [| done]. injection Hstep as <-.
    by eapply app_renders_ok.
  - by injection Hstep as <-.
  - by injection Hstep as <-.
  - by injection Hstep as <-.
  - destruct (app_step (SaveSettings inp) (app p)) as [s' |] eqn:E; [| done]. injection Hstep as <-.
    unfold app_step in E. injection E as <-. cbn. by apply shown_ok_storage, (shown_ok_cfg (settings (app p))).
  - destruct (models_arrive k r (ui p)); [by injection Hstep as <- | done].
Qed.

(** C16: whatever the events, the page shows the messages of the
    current chat, the title of the current chat whenever [renderHeader]
    writes one, and in the chat list exactly the items of [renderSidebar]
    (every session once, with its title, the current one marked), though
    possibly in an older order. *)
Theorem display_shown_ok (dp : DPage) :
  display_reachable dp -> shown_ok (settings (app (dpage dp))) (store (app (dpage dp))) (shown dp).
Proof.
  induction 1 as [storage0 now rnd st hidden0 sh0 _ | pe dp dp' _ IH Hstep]; [apply shown_ok_render_all |].
  unfold display_step in Hstep. destruct (page_step pe (dpage dp)) as [p' |] eqn:E; [| done].
  injection Hstep as <-. by eapply page_renders_ok.
Qed.

End DisplayRun.

Section DisplayRunFn.
Context {St : Type} `{!Storage St} `{!StorageLaws St} `{!JsLowerCase}.

Fixpoint display_run (es : list PageEvent) (dp : @DPage St) : option DPage :=
  match es with
  | [] => Some dp
  | e :: es' => display_step e dp ≫= display_run es'
  end.

Lemma display_reachable_run (es : list PageEvent) dp dp' :
  display_reachable dp -> display_run es dp = Some dp' -> display_reachable dp'.
Proof.
  revert dp. induction es as [| e es IH]; intros dp Hdp; cbn; [by intros [= <-] |].
  destruct (display_step e dp) as [dp1 |] eqn:E; [| done]. apply IH. by eapply display_next.
Qed.

End DisplayRunFn.

(** ** Examples *)

(** What the HTML shows before the first render. *)
Definition html_shown : Shown := mkShown [] None [] [].

(** The page after [DOMContentLoaded] on [saved_storage]. *)
Definition start_display : @DPage (gmap jstring Blob) :=
  mkDPage start_ui_page (render_all (settings start_page) (store start_page) html_shown).

Lemma start_display_reachable : display_reachable start_display.
Proof.
  unfold start_display, start_ui_page, start_page.
  apply (display_load saved_storage 30 (js "r") _ true html_shown). vm_compute. reflexivity.
Qed.

(** "hi" sent from chat "b" at 40, a new chat at 41, the answer at 42. *)
Definition reply_page_events : list PageEvent :=
  [AppEvent (SendStart (js "hi") 40) (Some outside); AppEvent (NewChat 41 (js "x")) (Some outside);
   AppEvent (SendFinish (AnswerContent (js "ok")) 42) None].

Definition reply_display : @DPage (gmap jstring Blob) :=
  default start_display (display_run reply_page_events start_display).

(** The chat list is not re-sorted when an answer arrives: "b", answered
    at 42, is now the most recent session, but the list still shows the
    new chat (41) first, as [renderSidebar] drew it at 41. *)
Theorem sidebar_stale_after_reply :
  map item_id (shown_sidebar (shown reply_display)) = [session_id 41 (js "x"); js "b"; js "a"] /\
  map item_id (renderSidebar (store (app (dpage reply_display)))) = [js "b"; session_id 41 (js "x"); js "a"].
Proof. split; vm_compute; reflexivity. Qed.

(** The test-connection button saves the model typed in the panel but
    does not call [renderHeader]: the header keeps the old model name. *)
Theorem model_label_stale_after_test :
  option_map (fun dp => (shown_model (shown dp), snd (renderHeader (settings (app (dpage dp))) (store (app (dpage dp))))))
    (display_step (TestConnectionClick (mkInputs [] (js "acme/other") [] [] []) outside) start_display) =
  Some (js "ministral-3-3b", js "other").
Proof. vm_compute. reflexivity. Qed.

Lemma display_shown_ok_witness :
  display_reachable reply_display /\
  shown_ok (settings (app (dpage reply_display))) (store (app (dpage reply_display))) (shown reply_display).
Proof.
  assert (Hr : display_reachable reply_display).
  { apply (display_reachable_run reply_page_events start_display); [exact start_display_reachable |].
    vm_compute. reflexivity. }
  split; [exact Hr | exact (display_shown_ok _ Hr)].
Defined.
